(** * Bad Data Workshop generator (bad_data_workshop.py)

    A shallow embedding of the workshop generator: the backend adapters,
    the fifteen problem generators with their batching and commit protocol,
    the diagnostic catalog and the setup / teardown drivers, followed by the
    properties of the specification that concern them.

    Conventions of the embedding.
    - Python [int] is [Z]; [float] is idealised as [Q] (every threshold the
      program compares a draw with is decided identically on the 53-bit grid
      of [random.random()] and on the rationals).
    - Python [str] is [string]; one [ascii] stands for one character.
    - The standard library generator, Faker, the clock, the console and the
      database drivers are not part of the repository.  The generator and
      Faker are streams of draws, the clock is a stream of readings, and the
      drivers and the console are calls recorded in a trace, each of which may
      raise according to a fault schedule. *)

From Stdlib Require Import ZArith List String Ascii Lia QArith Bool Arith.
From Stdlib Require Import DecimalString FinFun.
Import ListNotations.
Local Open Scope string_scope.
Local Open Scope list_scope.
Local Open Scope Z_scope.

(* ===================================================================== *)
(** ** Python builtins used by the program *)
(* ===================================================================== *)

(** [range(start, stop, step)]; the program only uses positive steps
    (Python raises on a zero step, and counts down on a negative one). *)
Definition py_range (start stop step : Z) : list Z :=
  if step <=? 0 then []
  else map (fun k => start + Z.of_nat k * step)
           (seq 0 (Z.to_nat ((stop - start + step - 1) / step))).

(** [str(n)] for an integer. *)
Definition str (z : Z) : string := NilZero.string_of_int (Z.to_int z).

(** [int(s)] on a decimal literal; [None] stands for [ValueError]. *)
Definition py_int (s : string) : option Z :=
  option_map Z.of_int (NilZero.int_of_string s).

Fixpoint repeat_char (c : ascii) (n : nat) : string :=
  match n with
  | O => EmptyString
  | S n' => String c (repeat_char c n')
  end.

(** The format specification [0<width>d]: sign first, then zero padding. *)
Definition format_0d (width : nat) (z : Z) : string :=
  let sign := if z <? 0 then "-" else "" in
  let digits := str (Z.abs z) in
  sign ++ repeat_char "0" (width - String.length sign - String.length digits)
       ++ digits.

(** [s[:n]]. *)
Definition slice_to (n : nat) (s : string) : string := substring 0 n s.

(** Case conversion as Python does it on ASCII text: [str.upper],
    [str.lower] and [str.title] on a string whose characters are all below
    128.  Other characters are left as they are, which is not what Python
    does to letters outside ASCII; a statement about the case of text says
    [is_ascii]. *)
Definition is_upper (c : ascii) : bool :=
  let n := nat_of_ascii c in (65 <=? n)%nat && (n <=? 90)%nat.
Definition is_lower (c : ascii) : bool :=
  let n := nat_of_ascii c in (97 <=? n)%nat && (n <=? 122)%nat.
Definition char_upper (c : ascii) : ascii :=
  if is_lower c then ascii_of_nat (nat_of_ascii c - 32) else c.
Definition char_lower (c : ascii) : ascii :=
  if is_upper c then ascii_of_nat (nat_of_ascii c + 32) else c.

Fixpoint str_map (f : ascii -> ascii) (s : string) : string :=
  match s with
  | EmptyString => EmptyString
  | String c s' => String (f c) (str_map f s')
  end.

Definition str_upper : string -> string := str_map char_upper.
Definition str_lower : string -> string := str_map char_lower.

(** [s.title()] on ASCII text: a letter that follows a letter is lowered,
    any other letter is raised. *)
Fixpoint title_from (after_letter : bool) (s : string) : string :=
  match s with
  | EmptyString => EmptyString
  | String c s' =>
      if is_upper c || is_lower c
      then String (if after_letter then char_lower c else char_upper c)
                  (title_from true s')
      else String c (title_from false s')
  end.
Definition str_title : string -> string := title_from false.

Fixpoint chars (s : string) : list ascii :=
  match s with
  | EmptyString => []
  | String c s' => c :: chars s'
  end.

(** [s.isascii()]. *)
Definition is_ascii (s : string) : bool :=
  forallb (fun c => (nat_of_ascii c <? 128)%nat) (chars s).

Fixpoint starts_with (p s : string) : bool :=
  match p, s with
  | EmptyString, _ => true
  | String _ _, EmptyString => false
  | String a p', String b s' => Ascii.eqb a b && starts_with p' s'
  end.

(** [old in s] for a non-empty [old]. *)
Fixpoint contains (old s : string) : bool :=
  starts_with old s ||
  match s with
  | EmptyString => false
  | String _ s' => contains old s'
  end.

(** [s.replace(old, new)] for a non-empty [old]: occurrences are replaced
    from the left and do not overlap.  [skip] counts the characters of the
    occurrence just replaced that are still to be dropped. *)
Fixpoint replace_from (old new : string) (skip : nat) (s : string) : string :=
  match s with
  | EmptyString => EmptyString
  | String c s' =>
      match skip with
      | S k => replace_from old new k s'
      | O =>
          if starts_with old s
          then new ++ replace_from old new (String.length old - 1) s'
          else String c (replace_from old new 0 s')
      end
  end.
Definition str_replace (old new s : string) : string :=
  replace_from old new 0 s.

Definition is_space (c : ascii) : bool :=
  let n := nat_of_ascii c in
  (n =? 32)%nat || ((9 <=? n)%nat && (n <=? 13)%nat).

Fixpoint lstrip (s : string) : string :=
  match s with
  | EmptyString => EmptyString
  | String c s' => if is_space c then lstrip s' else s
  end.

Fixpoint rstrip (s : string) : string :=
  match s with
  | EmptyString => EmptyString
  | String c s' =>
      match rstrip s' with
      | EmptyString => if is_space c then EmptyString else String c EmptyString
      | r => String c r
      end
  end.

(** [s.strip()]. *)
Definition str_strip (s : string) : string := rstrip (lstrip s).

(** [l[j] = x] on a list of the right length. *)
Fixpoint list_set {A : Type} (l : list A) (j : nat) (x : A) : list A :=
  match l, j with
  | [], _ => []
  | _ :: l', O => x :: l'
  | y :: l', S j' => y :: list_set l' j' x
  end.

(** Comparison of floats, idealised on the rationals. *)
Definition Qltb (x y : Q) : bool := negb (Qle_bool y x).

(** Rounding of a rational to the nearest integer, ties to even. *)
Definition round_half_even (x : Q) : Z :=
  let n := Qnum x in
  let d := Z.pos (Qden x) in
  let f := n / d in
  let r2 := 2 * (n - f * d) in
  if r2 <? d then f
  else if d <? r2 then f + 1
  else if Z.even f then f else f + 1.

(** [round(x, ndigits)]. *)
Definition py_round (x : Q) (ndigits : nat) : Q :=
  let scale := Pos.pow 10 (Pos.of_nat ndigits) in
  match ndigits with
  | O => inject_Z (round_half_even x)
  | S _ => Qmake (round_half_even (x * inject_Z (Z.pos scale))) scale
  end.

(** [int(x)] on a float: truncation towards zero. *)
Definition int_of_float (x : Q) : Z := Z.quot (Qnum x) (Z.pos (Qden x)).

(* ===================================================================== *)
(** ** Monads and loops *)
(* ===================================================================== *)

Class Monad (m : Type -> Type) : Type := {
  ret : forall {A : Type}, A -> m A;
  bind : forall {A B : Type}, m A -> (A -> m B) -> m B
}.

Declare Scope monad_scope.
Delimit Scope monad_scope with monad.
Notation "x <- c1 ;; c2" := (bind c1 (fun x => c2))
  (at level 61, c1 at next level, right associativity) : monad_scope.
Notation "' pat <- c1 ;; c2" :=
  (bind c1 (fun x => match x with pat => c2 end))
  (at level 61, pat pattern, c1 at next level, right associativity)
  : monad_scope.
Notation "c1 ;; c2" := (bind c1 (fun _ => c2))
  (at level 61, right associativity) : monad_scope.
Local Open Scope monad_scope.

(** [for x in l: body(x)]. *)
Fixpoint for_each {m : Type -> Type} `{Monad m} {X : Type}
    (l : list X) (body : X -> m unit) : m unit :=
  match l with
  | [] => ret tt
  | x :: l' => body x ;; for_each l' body
  end.

(** [for x in l: s = body(x, s)]: a loop that updates local variables. *)
Fixpoint for_fold {m : Type -> Type} `{Monad m} {X S : Type}
    (l : list X) (s : S) (body : X -> S -> m S) : m S :=
  match l with
  | [] => ret s
  | x :: l' => s' <- body x s ;; for_fold l' s' body
  end.

(* ===================================================================== *)
(** ** Random sources: the [random] module, Faker and the clock *)
(* ===================================================================== *)

(** What the imported libraries compute, kept as data of the run. *)
Record Library : Type := {
  mersenne : Z -> N -> N;             (* seed -> the stream it starts *)
  provider : string -> N -> string;   (* Faker method, draw -> value *)
  strftime : string -> Z -> string;   (* format, date or time -> text *)
  format_float : string -> Q -> string (* format spec, float -> text *)
}.

Record Stream : Type := { cells : N -> N; pos : N }.

Record Sources : Type := {
  lib : Library;
  py_random : Stream;       (* the process-wide [random] generator *)
  faker_random : Stream;    (* the generator shared by Faker instances *)
  wall_clock : N -> Z;      (* successive readings, seconds since the epoch *)
  clock_reads : N
}.

Definition Gen (A : Type) : Type := Sources -> A * Sources.

#[global] Instance Monad_Gen : Monad Gen := {|
  ret := fun A a s => (a, s);
  bind := fun A B m f s => let (a, s') := m s in f a s'
|}.

Definition advance (st : Stream) : Stream :=
  {| cells := cells st; pos := N.succ (pos st) |}.

Definition draw_random : Gen N := fun s =>
  (cells (py_random s) (pos (py_random s)),
   {| lib := lib s; py_random := advance (py_random s);
      faker_random := faker_random s;
      wall_clock := wall_clock s; clock_reads := clock_reads s |}).

Definition draw_faker : Gen N := fun s =>
  (cells (faker_random s) (pos (faker_random s)),
   {| lib := lib s; py_random := py_random s;
      faker_random := advance (faker_random s);
      wall_clock := wall_clock s; clock_reads := clock_reads s |}).

Definition read_clock : Gen Z := fun s =>
  (wall_clock s (clock_reads s),
   {| lib := lib s; py_random := py_random s;
      faker_random := faker_random s;
      wall_clock := wall_clock s; clock_reads := N.succ (clock_reads s) |}).

Definition library : Gen Library := fun s => (lib s, s).

(** [random.seed(a)]. *)
Definition random_seed (a : Z) : Gen unit := fun s =>
  (tt,
   {| lib := lib s; py_random := {| cells := mersenne (lib s) a; pos := 0%N |};
      faker_random := faker_random s;
      wall_clock := wall_clock s; clock_reads := clock_reads s |}).

(** [Faker.seed(a)]. *)
Definition Faker_seed (a : Z) : Gen unit := fun s =>
  (tt,
   {| lib := lib s; py_random := py_random s;
      faker_random := {| cells := mersenne (lib s) a; pos := 0%N |};
      wall_clock := wall_clock s; clock_reads := clock_reads s |}).

(** [random.random()]: a multiple of 2^-53 in [0, 1). *)
Definition random_random : Gen Q :=
  k <- draw_random ;;
  ret (Qmake (Z.of_N (k mod 2 ^ 53)) (2 ^ 53)).

(** The generator's bounded draw, in [0, n) for a positive [n]. *)
Definition randbelow (n : Z) : Gen Z :=
  k <- draw_random ;;
  ret (Z.of_N k mod n).

(** [random.randint(a, b)]. *)
Definition random_randint (a b : Z) : Gen Z :=
  k <- randbelow (b - a + 1) ;;
  ret (a + k).

(** [random.uniform(a, b)]. *)
Definition random_uniform (a b : Q) : Gen Q :=
  u <- random_random ;;
  ret (a + (b - a) * u)%Q.

(** [random.choice(seq)] on a non-empty sequence; [d] is only a default for
    [nth]. *)
Definition random_choice {A : Type} (d : A) (items : list A) : Gen A :=
  i <- randbelow (Z.of_nat (List.length items)) ;;
  ret (nth (Z.to_nat i) items d).

(** [random.sample(population, k)], the pool algorithm the library uses for
    small populations. *)
Definition random_sample {A : Type} (d : A) (population : list A) (k : Z)
    : Gen (list A) :=
  let n := Z.of_nat (List.length population) in
  '(_, result) <-
    for_fold (py_range 0 k 1) (population, [])
      (fun i '(pool, result) =>
         j <- randbelow (n - i) ;;
         ret (list_set pool (Z.to_nat j) (nth (Z.to_nat (n - i - 1)) pool d),
              result ++ [nth (Z.to_nat j) pool d])) ;;
  ret result.

(** A Faker provider method that returns text, such as [fake.email()]. *)
Definition fake (method : string) : Gen string :=
  k <- draw_faker ;;
  l <- library ;;
  ret (provider l method k).

Definition day : Z := 86400.
Definition days (n : Z) : Z := n * day.
Definition years (n : Z) : Z := n * 365 * day.

(** [fake.date_time_between(start_date, end_date)], the bounds given as
    offsets in seconds from the present. *)
Definition fake_date_time_between (start_off end_off : Z) : Gen Z :=
  now <- read_clock ;;
  k <- draw_faker ;;
  ret (now + start_off + Z.of_N k mod (end_off - start_off + 1)).

(** [fake.date_between(start_date, end_date)]: a day number. *)
Definition fake_date_between (start_off end_off : Z) : Gen Z :=
  now <- read_clock ;;
  k <- draw_faker ;;
  ret (now / day + start_off / day
       + Z.of_N k mod (end_off / day - start_off / day + 1)).

(** [datetime.now(timezone.utc).date()]. *)
Definition today : Gen Z :=
  now <- read_clock ;;
  ret (now / day).

(** [d.strftime(fmt)]. *)
Definition date_strftime (d : Z) (fmt : string) : Gen string :=
  l <- library ;;
  ret (strftime l fmt d).

(** [f"{x:spec}"] on a float. *)
Definition fmt_float (spec : string) (x : Q) : Gen string :=
  l <- library ;;
  ret (format_float l spec x).

(* ===================================================================== *)
(** ** Data model *)
(* ===================================================================== *)

Inductive DBType : Type := postgres | mysql | redshift.

Record DBConfig : Type := {
  db_type : DBType;
  host : string;
  port : Z;
  database : string;
  user : string;
  password : string
}.

Definition SCHEMA_NAME : string := "bad_data_workshop".

(** A value bound to one placeholder of a parameterized statement. *)
Inductive Value : Type :=
| VNone
| VInt (z : Z)
| VFloat (q : Q)
| VStr (s : string)
| VBool (b : bool)
| VDateTime (t : Z)      (* seconds since the epoch *)
| VDate (d : Z).         (* day number *)

(** One tuple of a batch, in the column order of its table. *)
Definition Row : Type := list Value.

(** [Exception] and its subclasses, and [KeyboardInterrupt], which is not
    one of them. *)
Inductive Exn : Type :=
| Error (msg : string)
| KeyboardInterrupt.

Definition is_Exception (e : Exn) : bool :=
  match e with
  | Error _ => true
  | KeyboardInterrupt => false
  end.

Definition exn_text (e : Exn) : string :=
  match e with
  | Error msg => msg
  | KeyboardInterrupt => ""
  end.

Inductive Outcome (A : Type) : Type :=
| Ok (a : A)
| Raise (e : Exn).
Arguments Ok {A} a.
Arguments Raise {A} e.

(** What the program asks of the drivers and of the console.  [EnterClose]
    is no such request: it marks the entry into [DatabaseAdapter.close]. *)
Inductive Call : Type :=
| ImportModule (module_name : string)
| DriverConnect (driver : string) (cfg : DBConfig)
| SetAutocommit (value : bool)
| ConnectionCursor
| CursorExecute (sql : string) (params : option Row)
| CursorExecuteMany (sql : string) (params_list : list Row)
| CursorFetchAll
| ConnectionCommit
| CursorClose
| ConnectionClose
| ConsolePrint (text : string)
| ConsolePanel (text : string)
| ProgressEnter
| ProgressAddTask (description : string) (total : Z)
| ProgressUpdate (description : string)
| ProgressAdvance
| ProgressExit
| EnterClose.

(** A live driver object. *)
Inductive Handle : Type := Live.

(** The fields of a [DatabaseAdapter] object. *)
Record DatabaseAdapter : Type := {
  config : DBConfig;
  connection : option Handle;
  cursor : option Handle
}.

(** Everything a run can read or change. *)
Record World : Type := {
  sources : Sources;
  db : DatabaseAdapter;
  trace : list Call;               (* the calls that returned, oldest first *)
  ticks : nat;                     (* the calls attempted so far *)
  faults : nat -> option Exn;      (* what the n-th attempted call raises *)
  catalog : list string            (* the rows the catalog query yields *)
}.

(* ===================================================================== *)
(** ** The monad of the program *)
(* ===================================================================== *)

Definition M (A : Type) : Type := World -> Outcome A * World.

#[global] Instance Monad_M : Monad M := {|
  ret := fun A a w => (Ok a, w);
  bind := fun A B m f w =>
    match m w with
    | (Ok a, w') => f a w'
    | (Raise e, w') => (Raise e, w')
    end
|}.

Definition lift {A : Type} (g : Gen A) : M A := fun w =>
  let (a, s') := g (sources w) in
  (Ok a,
   {| sources := s'; db := db w; trace := trace w; ticks := ticks w;
      faults := faults w; catalog := catalog w |}).

Definition raise {A : Type} (e : Exn) : M A := fun w => (Raise e, w).

(** A call to a driver or to the console: it raises what the fault schedule
    says, and is recorded when it returns. *)
Definition call (c : Call) : M unit := fun w =>
  match faults w (ticks w) with
  | Some e =>
      (Raise e,
       {| sources := sources w; db := db w; trace := trace w;
          ticks := S (ticks w); faults := faults w; catalog := catalog w |})
  | None =>
      (Ok tt,
       {| sources := sources w; db := db w; trace := trace w ++ [c];
          ticks := S (ticks w); faults := faults w; catalog := catalog w |})
  end.

Definition mark (c : Call) : M unit := fun w =>
  (Ok tt,
   {| sources := sources w; db := db w; trace := trace w ++ [c];
      ticks := ticks w; faults := faults w; catalog := catalog w |}).

Definition this : M DatabaseAdapter := fun w => (Ok (db w), w).

Definition set_this (a : DatabaseAdapter) : M unit := fun w =>
  (Ok tt,
   {| sources := sources w; db := a; trace := trace w; ticks := ticks w;
      faults := faults w; catalog := catalog w |}).

Definition fetched : M (list string) := fun w => (Ok (catalog w), w).

(** [try: body finally: final]. *)
Definition try_finally {A : Type} (body : M A) (final : M unit) : M A :=
  fun w =>
    let (o, w1) := body w in
    match final w1 with
    | (Ok _, w2) => (o, w2)
    | (Raise e, w2) => (Raise e, w2)
    end.

(** [try: body except Exception as e: handler(e)]. *)
Definition try_except {A : Type} (body : M A) (handler : Exn -> M A) : M A :=
  fun w =>
    match body w with
    | (Ok a, w1) => (Ok a, w1)
    | (Raise e, w1) => if is_Exception e then handler e w1 else (Raise e, w1)
    end.

(* ===================================================================== *)
(** ** Database abstraction layer *)
(* ===================================================================== *)

Definition AttributeError (attr : string) : Exn :=
  Error ("'NoneType' object has no attribute '" ++ attr ++ "'").

Definition set_connection (h : option Handle) : M unit :=
  self <- this ;;
  set_this {| config := config self; connection := h; cursor := cursor self |}.

Definition set_cursor (h : option Handle) : M unit :=
  self <- this ;;
  set_this {| config := config self; connection := connection self;
              cursor := h |}.

(** [DatabaseAdapter.execute]. *)
Definition execute (sql : string) (params : option Row) : M unit :=
  self <- this ;;
  match params with
  | Some (_ :: _) =>
      match cursor self with
      | Some _ => call (CursorExecute sql params)
      | None => raise (AttributeError "execute")
      end
  | _ =>
      match cursor self with
      | Some _ => call (CursorExecute sql None)
      | None => raise (AttributeError "execute")
      end
  end.

(** [DatabaseAdapter.executemany]. *)
Definition executemany (sql : string) (params_list : list Row) : M unit :=
  self <- this ;;
  match cursor self with
  | Some _ => call (CursorExecuteMany sql params_list)
  | None => raise (AttributeError "executemany")
  end.

(** [DatabaseAdapter.commit]. *)
Definition commit : M unit :=
  self <- this ;;
  match connection self with
  | Some _ => call ConnectionCommit
  | None => raise (AttributeError "commit")
  end.

(** [DatabaseAdapter.close]. *)
Definition close : M unit :=
  mark EnterClose ;;
  self <- this ;;
  (match cursor self with
   | Some _ => call CursorClose
   | None => ret tt
   end) ;;
  match connection self with
  | Some _ => call ConnectionClose
  | None => ret tt
  end.

(** *** PostgresAdapter *)

Definition PostgresAdapter_connect : M unit :=
  self <- this ;;
  call (ImportModule "psycopg2") ;;
  call (DriverConnect "psycopg2" (config self)) ;;
  set_connection (Some Live) ;;
  call (SetAutocommit false) ;;
  call ConnectionCursor ;;
  set_cursor (Some Live).

Definition PostgresAdapter_create_schema : M unit :=
  execute ("CREATE SCHEMA IF NOT EXISTS " ++ SCHEMA_NAME) None ;;
  commit.

Definition PostgresAdapter_drop_schema : M unit :=
  execute ("DROP SCHEMA IF EXISTS " ++ SCHEMA_NAME ++ " CASCADE") None ;;
  commit.

Definition PostgresAdapter_get_auto_increment_syntax : string := "SERIAL".
Definition PostgresAdapter_get_table_prefix : string := SCHEMA_NAME ++ ".".
Definition PostgresAdapter_get_boolean_type : string := "BOOLEAN".

(** *** MySQLAdapter *)

Definition MySQLAdapter_connect : M unit :=
  self <- this ;;
  call (ImportModule "pymysql") ;;
  call (DriverConnect "pymysql" (config self)) ;;
  set_connection (Some Live) ;;
  call ConnectionCursor ;;
  set_cursor (Some Live).

Definition MySQLAdapter_create_schema : M unit := ret tt.

Definition sql_list_prefixed_tables : string :=
  "
            SELECT table_name FROM information_schema.tables
            WHERE table_schema = DATABASE()
            AND table_name LIKE 'bdw_%'
        ".

Definition MySQLAdapter_drop_schema : M unit :=
  execute sql_list_prefixed_tables None ;;
  self <- this ;;
  tables <- match cursor self with
            | Some _ => call CursorFetchAll ;; fetched
            | None => raise (AttributeError "fetchall")
            end ;;
  for_each tables (fun table_name =>
    execute ("DROP TABLE IF EXISTS " ++ table_name) None) ;;
  commit.

Definition MySQLAdapter_get_auto_increment_syntax : string :=
  "INT AUTO_INCREMENT".
Definition MySQLAdapter_get_table_prefix : string := "bdw_".
Definition MySQLAdapter_get_boolean_type : string := "TINYINT(1)".

(** *** RedshiftAdapter *)

Definition RedshiftAdapter_connect : M unit :=
  self <- this ;;
  call (ImportModule "redshift_connector") ;;
  call (DriverConnect "redshift_connector" (config self)) ;;
  set_connection (Some Live) ;;
  call (SetAutocommit false) ;;
  call ConnectionCursor ;;
  set_cursor (Some Live).

Definition RedshiftAdapter_create_schema : M unit :=
  execute ("CREATE SCHEMA IF NOT EXISTS " ++ SCHEMA_NAME) None ;;
  commit.

Definition RedshiftAdapter_drop_schema : M unit :=
  execute ("DROP SCHEMA IF EXISTS " ++ SCHEMA_NAME ++ " CASCADE") None ;;
  commit.

Definition RedshiftAdapter_get_auto_increment_syntax : string :=
  "INTEGER IDENTITY(1,1)".
Definition RedshiftAdapter_get_table_prefix : string := SCHEMA_NAME ++ ".".
Definition RedshiftAdapter_get_boolean_type : string := "BOOLEAN".

(** *** Dispatch on the class of the adapter *)

Definition connect : M unit :=
  self <- this ;;
  match db_type (config self) with
  | postgres => PostgresAdapter_connect
  | mysql => MySQLAdapter_connect
  | redshift => RedshiftAdapter_connect
  end.

Definition create_schema : M unit :=
  self <- this ;;
  match db_type (config self) with
  | postgres => PostgresAdapter_create_schema
  | mysql => MySQLAdapter_create_schema
  | redshift => RedshiftAdapter_create_schema
  end.

Definition drop_schema : M unit :=
  self <- this ;;
  match db_type (config self) with
  | postgres => PostgresAdapter_drop_schema
  | mysql => MySQLAdapter_drop_schema
  | redshift => RedshiftAdapter_drop_schema
  end.

Definition table_prefix_of (t : DBType) : string :=
  match t with
  | postgres => PostgresAdapter_get_table_prefix
  | mysql => MySQLAdapter_get_table_prefix
  | redshift => RedshiftAdapter_get_table_prefix
  end.

Definition auto_increment_syntax_of (t : DBType) : string :=
  match t with
  | postgres => PostgresAdapter_get_auto_increment_syntax
  | mysql => MySQLAdapter_get_auto_increment_syntax
  | redshift => RedshiftAdapter_get_auto_increment_syntax
  end.

Definition boolean_type_of (t : DBType) : string :=
  match t with
  | postgres => PostgresAdapter_get_boolean_type
  | mysql => MySQLAdapter_get_boolean_type
  | redshift => RedshiftAdapter_get_boolean_type
  end.

Definition get_table_prefix : M string :=
  self <- this ;; ret (table_prefix_of (db_type (config self))).

Definition get_auto_increment_syntax : M string :=
  self <- this ;; ret (auto_increment_syntax_of (db_type (config self))).

Definition get_boolean_type : M string :=
  self <- this ;; ret (boolean_type_of (db_type (config self))).

(** [get_adapter]: a fresh adapter of the class the configuration names. *)
Definition get_adapter (cfg : DBConfig) : DatabaseAdapter :=
  {| config := cfg; connection := None; cursor := None |}.

(* ===================================================================== *)
(** ** The SQL text of the generators *)
(* ===================================================================== *)

(* problem_01_no_primary_key, line 301 *)
Definition sql_create_customers_no_pk (prefix : string) : string :=
  "
        CREATE TABLE " ++ prefix ++ "customers_no_pk (
            customer_id INTEGER,
            first_name VARCHAR(100),
            last_name VARCHAR(100),
            email VARCHAR(255),
            created_at TIMESTAMP
        )
    ".

(* problem_01_no_primary_key, line 329 *)
Definition sql_insert_customers_no_pk (prefix : string) : string :=
  "
            INSERT INTO " ++ prefix ++ "customers_no_pk
            (customer_id, first_name, last_name, email, created_at)
            VALUES (%s, %s, %s, %s, %s)
            ".

(* problem_02_missing_foreign_keys, line 351 *)
Definition sql_create_products (prefix : string) (auto_inc : string) : string :=
  "
        CREATE TABLE " ++ prefix ++ "products (
            product_id " ++ auto_inc ++ " PRIMARY KEY,
            product_name VARCHAR(200),
            price DECIMAL(10,2)
        )
    ".

(* problem_02_missing_foreign_keys, line 364 *)
Definition sql_insert_products (prefix : string) : string :=
  "INSERT INTO " ++ prefix ++ "products (product_name, price) VALUES (%s, %s)".

(* problem_02_missing_foreign_keys, line 370 *)
Definition sql_create_orders_no_fk (prefix : string) (auto_inc : string) : string :=
  "
        CREATE TABLE " ++ prefix ++ "orders_no_fk (
            order_id " ++ auto_inc ++ " PRIMARY KEY,
            customer_id INTEGER,
            product_id INTEGER,
            quantity INTEGER,
            order_date TIMESTAMP
        )
    ".

(* problem_02_missing_foreign_keys, line 404 *)
Definition sql_insert_orders_no_fk (prefix : string) : string :=
  "
            INSERT INTO " ++ prefix ++ "orders_no_fk
            (customer_id, product_id, quantity, order_date)
            VALUES (%s, %s, %s, %s)
            ".

(* problem_03_wrong_data_types, line 424 *)
Definition sql_create_transactions_bad_types (prefix : string) : string :=
  "
        CREATE TABLE " ++ prefix ++ "transactions_bad_types (
            transaction_id VARCHAR(50),
            amount VARCHAR(50),
            transaction_date VARCHAR(50),
            quantity VARCHAR(20),
            is_refund VARCHAR(10),
            customer_age VARCHAR(10)
        )
    ".

(* problem_03_wrong_data_types, line 466 *)
Definition sql_insert_transactions_bad_types (prefix : string) : string :=
  "
            INSERT INTO " ++ prefix ++ "transactions_bad_types
            (transaction_id, amount, transaction_date, quantity, is_refund, customer_age)
            VALUES (%s, %s, %s, %s, %s, %s)
            ".

(* problem_04_missing_not_null, line 487 *)
Definition sql_create_employees_nulls (prefix : string) (auto_inc : string) (boolean_type : string) : string :=
  "
        CREATE TABLE " ++ prefix ++ "employees_nulls (
            employee_id " ++ auto_inc ++ " PRIMARY KEY,
            first_name VARCHAR(100),
            last_name VARCHAR(100),
            email VARCHAR(255),
            department VARCHAR(100),
            salary DECIMAL(10,2),
            hire_date DATE,
            manager_id INTEGER,
            is_active " ++ boolean_type ++ "
        )
    ".

(* problem_04_missing_not_null, line 521 *)
Definition sql_insert_employees_nulls (prefix : string) : string :=
  "
            INSERT INTO " ++ prefix ++ "employees_nulls
            (first_name, last_name, email, department, salary, hire_date,
             manager_id, is_active)
            VALUES (%s, %s, %s, %s, %s, %s, %s, %s)
            ".

(* problem_05_duplicate_records, line 543 *)
Definition sql_create_users_duplicates (prefix : string) (auto_inc : string) : string :=
  "
        CREATE TABLE " ++ prefix ++ "users_duplicates (
            row_id " ++ auto_inc ++ " PRIMARY KEY,
            user_id INTEGER,
            username VARCHAR(100),
            email VARCHAR(255),
            phone VARCHAR(50),
            created_at TIMESTAMP
        )
    ".

(* problem_05_duplicate_records, line 590 *)
Definition sql_insert_users_duplicates (prefix : string) : string :=
  "
                INSERT INTO " ++ prefix ++ "users_duplicates
                (user_id, username, email, phone, created_at)
                VALUES (%s, %s, %s, %s, %s)
                ".

(* problem_05_duplicate_records, line 601 *)
Definition sql_insert_users_duplicates_tail (prefix : string) : string :=
  "
            INSERT INTO " ++ prefix ++ "users_duplicates
            (user_id, username, email, phone, created_at)
            VALUES (%s, %s, %s, %s, %s)
            ".

(* problem_06_inconsistent_dates, line 621 *)
Definition sql_create_events_bad_dates (prefix : string) : string :=
  "
        CREATE TABLE " ++ prefix ++ "events_bad_dates (
            event_id INTEGER,
            event_name VARCHAR(200),
            start_date VARCHAR(50),
            end_date VARCHAR(50),
            registration_deadline VARCHAR(50)
        )
    ".

(* problem_06_inconsistent_dates, line 661 *)
Definition sql_insert_events_bad_dates (prefix : string) : string :=
  "
            INSERT INTO " ++ prefix ++ "events_bad_dates
            (event_id, event_name, start_date, end_date, registration_deadline)
            VALUES (%s, %s, %s, %s, %s)
            ".

(* problem_07_inconsistent_casing, line 681 *)
Definition sql_create_contacts_bad_casing (prefix : string) : string :=
  "
        CREATE TABLE " ++ prefix ++ "contacts_bad_casing (
            contact_id INTEGER,
            first_name VARCHAR(100),
            last_name VARCHAR(100),
            email VARCHAR(255),
            company VARCHAR(200),
            country VARCHAR(100)
        )
    ".

(* problem_07_inconsistent_casing, line 720 *)
Definition sql_insert_contacts_bad_casing (prefix : string) : string :=
  "
            INSERT INTO " ++ prefix ++ "contacts_bad_casing
            (contact_id, first_name, last_name, email, company, country)
            VALUES (%s, %s, %s, %s, %s, %s)
            ".

(* problem_08_whitespace_issues, line 740 *)
Definition sql_create_inventory_whitespace (prefix : string) : string :=
  "
        CREATE TABLE " ++ prefix ++ "inventory_whitespace (
            sku VARCHAR(100),
            product_name VARCHAR(200),
            category VARCHAR(100),
            supplier VARCHAR(200),
            warehouse_location VARCHAR(50)
        )
    ".

(* problem_08_whitespace_issues, line 776 *)
Definition sql_insert_inventory_whitespace (prefix : string) : string :=
  "
            INSERT INTO " ++ prefix ++ "inventory_whitespace
            (sku, product_name, category, supplier, warehouse_location)
            VALUES (%s, %s, %s, %s, %s)
            ".

(* problem_09_invalid_emails, line 796 *)
Definition sql_create_subscribers_bad_emails (prefix : string) : string :=
  "
        CREATE TABLE " ++ prefix ++ "subscribers_bad_emails (
            subscriber_id INTEGER,
            name VARCHAR(200),
            email VARCHAR(255),
            subscribed_at TIMESTAMP
        )
    ".

(* problem_09_invalid_emails, line 838 *)
Definition sql_insert_subscribers_bad_emails (prefix : string) : string :=
  "
            INSERT INTO " ++ prefix ++ "subscribers_bad_emails
            (subscriber_id, name, email, subscribed_at)
            VALUES (%s, %s, %s, %s)
            ".

(* problem_10_out_of_range, line 858 *)
Definition sql_create_sales_bad_values (prefix : string) : string :=
  "
        CREATE TABLE " ++ prefix ++ "sales_bad_values (
            sale_id INTEGER,
            product_name VARCHAR(200),
            unit_price DECIMAL(10,2),
            quantity INTEGER,
            discount_percent DECIMAL(5,2),
            sale_date DATE,
            customer_age INTEGER,
            rating DECIMAL(3,1)
        )
    ".

(* problem_10_out_of_range, line 949 *)
Definition sql_insert_sales_bad_values (prefix : string) : string :=
  "
            INSERT INTO " ++ prefix ++ "sales_bad_values
            (sale_id, product_name, unit_price, quantity, discount_percent,
             sale_date, customer_age, rating)
            VALUES (%s, %s, %s, %s, %s, %s, %s, %s)
            ".

(* problem_11_csv_in_columns, line 970 *)
Definition sql_create_articles_csv_tags (prefix : string) : string :=
  "
        CREATE TABLE " ++ prefix ++ "articles_csv_tags (
            article_id INTEGER,
            title VARCHAR(300),
            author VARCHAR(200),
            tags VARCHAR(500),
            categories VARCHAR(500),
            related_ids VARCHAR(200)
        )
    ".

(* problem_11_csv_in_columns, line 1029 *)
Definition sql_insert_articles_csv_tags (prefix : string) : string :=
  "
            INSERT INTO " ++ prefix ++ "articles_csv_tags
            (article_id, title, author, tags, categories, related_ids)
            VALUES (%s, %s, %s, %s, %s, %s)
            ".

(* problem_12_encoding_issues, line 1049 *)
Definition sql_create_international_data (prefix : string) : string :=
  "
        CREATE TABLE " ++ prefix ++ "international_data (
            record_id INTEGER,
            customer_name VARCHAR(300),
            address VARCHAR(500),
            notes VARCHAR(1000)
        )
    ".

(* problem_12_encoding_issues, line 1103 *)
Definition sql_insert_international_data (prefix : string) : string :=
  "
            INSERT INTO " ++ prefix ++ "international_data
            (record_id, customer_name, address, notes)
            VALUES (%s, %s, %s, %s)
            ".

(* problem_13_god_table, line 1124 *)
Definition sql_create_god_table (prefix : string) : string :=
  "
        CREATE TABLE " ++ prefix ++ "god_table (
            id INTEGER,
            -- Customer info (repeated for every order)
            customer_id INTEGER,
            customer_first_name VARCHAR(100),
            customer_last_name VARCHAR(100),
            customer_email VARCHAR(255),
            customer_phone VARCHAR(50),
            customer_address_line1 VARCHAR(200),
            customer_address_line2 VARCHAR(200),
            customer_city VARCHAR(100),
            customer_state VARCHAR(50),
            customer_zip VARCHAR(20),
            customer_country VARCHAR(100),
            customer_created_at TIMESTAMP,
            -- Order info
            order_id INTEGER,
            order_date TIMESTAMP,
            order_status VARCHAR(50),
            order_total DECIMAL(10,2),
            order_shipping_cost DECIMAL(10,2),
            order_tax DECIMAL(10,2),
            -- Product info (repeated for every line item)
            product_id INTEGER,
            product_name VARCHAR(200),
            product_description VARCHAR(1000),
            product_category VARCHAR(100),
            product_subcategory VARCHAR(100),
            product_brand VARCHAR(100),
            product_unit_price DECIMAL(10,2),
            product_cost DECIMAL(10,2),
            -- Line item
            quantity INTEGER,
            line_total DECIMAL(10,2),
            -- Shipping info
            shipping_carrier VARCHAR(100),
            shipping_tracking VARCHAR(100),
            shipping_method VARCHAR(50),
            estimated_delivery DATE,
            actual_delivery DATE
        )
    ".

(* problem_13_god_table, line 1249 *)
Definition sql_insert_god_table (prefix : string) : string :=
  "
                INSERT INTO " ++ prefix ++ "god_table
                (id, customer_id, customer_first_name, customer_last_name,
                 customer_email, customer_phone, customer_address_line1,
                 customer_address_line2, customer_city, customer_state,
                 customer_zip, customer_country, customer_created_at,
                 order_id, order_date, order_status, order_total,
                 order_shipping_cost, order_tax, product_id, product_name,
                 product_description, product_category, product_subcategory,
                 product_brand, product_unit_price, product_cost, quantity,
                 line_total, shipping_carrier, shipping_tracking,
                 shipping_method, estimated_delivery, actual_delivery)
                VALUES (%s, %s, %s, %s, %s, %s, %s, %s, %s, %s, %s, %s, %s,
                        %s, %s, %s, %s, %s, %s, %s, %s, %s, %s, %s, %s, %s,
                        %s, %s, %s, %s, %s, %s, %s, %s)
                ".

(* problem_13_god_table, line 1271 *)
Definition sql_insert_god_table_tail (prefix : string) : string :=
  "
            INSERT INTO " ++ prefix ++ "god_table
            (id, customer_id, customer_first_name, customer_last_name,
             customer_email, customer_phone, customer_address_line1,
             customer_address_line2, customer_city, customer_state,
             customer_zip, customer_country, customer_created_at,
             order_id, order_date, order_status, order_total,
             order_shipping_cost, order_tax, product_id, product_name,
             product_description, product_category, product_subcategory,
             product_brand, product_unit_price, product_cost, quantity,
             line_total, shipping_carrier, shipping_tracking,
             shipping_method, estimated_delivery, actual_delivery)
            VALUES (%s, %s, %s, %s, %s, %s, %s, %s, %s, %s, %s, %s, %s,
                    %s, %s, %s, %s, %s, %s, %s, %s, %s, %s, %s, %s, %s,
                    %s, %s, %s, %s, %s, %s, %s, %s)
            ".

(* problem_14_missing_indexes, line 1304 *)
Definition sql_create_audit_log_no_index (prefix : string) (auto_inc : string) : string :=
  "
        CREATE TABLE " ++ prefix ++ "audit_log_no_index (
            log_id " ++ auto_inc ++ " PRIMARY KEY,
            user_id INTEGER,
            action_type VARCHAR(50),
            resource_type VARCHAR(50),
            resource_id INTEGER,
            ip_address VARCHAR(45),
            user_agent VARCHAR(500),
            created_at TIMESTAMP,
            session_id VARCHAR(100),
            status VARCHAR(20)
        )
    ".

(* problem_14_missing_indexes, line 1339 *)
Definition sql_insert_audit_log_no_index (prefix : string) : string :=
  "
            INSERT INTO " ++ prefix ++ "audit_log_no_index
            (user_id, action_type, resource_type, resource_id, ip_address,
             user_agent, created_at, session_id, status)
            VALUES (%s, %s, %s, %s, %s, %s, %s, %s, %s)
            ".

(* problem_15_type_coercion, line 1361 *)
Definition sql_create_accounts_int_id (prefix : string) : string :=
  "
        CREATE TABLE " ++ prefix ++ "accounts_int_id (
            account_id INTEGER PRIMARY KEY,
            account_name VARCHAR(200),
            balance DECIMAL(15,2)
        )
    ".

(* problem_15_type_coercion, line 1370 *)
Definition sql_create_transactions_str_id (prefix : string) : string :=
  "
        CREATE TABLE " ++ prefix ++ "transactions_str_id (
            txn_id INTEGER,
            account_id VARCHAR(20),
            amount DECIMAL(10,2),
            txn_date DATE
        )
    ".

(* problem_15_type_coercion, line 1381 *)
Definition sql_insert_accounts_int_id (prefix : string) : string :=
  "INSERT INTO " ++ prefix ++ "accounts_int_id (account_id, account_name, balance) VALUES (%s, %s, %s)".

(* problem_15_type_coercion, line 1405 *)
Definition sql_insert_transactions_str_id (prefix : string) : string :=
  "
            INSERT INTO " ++ prefix ++ "transactions_str_id
            (txn_id, account_id, amount, txn_date)
            VALUES (%s, %s, %s, %s)
            ".


(* ===================================================================== *)
(** ** Data problem generators *)
(* ===================================================================== *)

Definition TAB : string := String (ascii_of_nat 9) "".
Definition NL : string := String (ascii_of_nat 10) "".
Definition DQ : string := String (ascii_of_nat 34) "".
Definition NUL : string := String (ascii_of_nat 0) "".

Definition len {A : Type} (l : list A) : Z := Z.of_nat (List.length l).

(** *** Problem 1: tables without primary keys *)

Definition problem_01_no_primary_key (num_rows : Z) : M unit :=
  prefix <- get_table_prefix ;;
  execute (sql_create_customers_no_pk prefix) None ;;
  (* Insert data including some exact duplicates *)
  let batch_size := 1000 in
  for_each (py_range 0 num_rows batch_size) (fun batch_start =>
    let batch_end := Z.min (batch_start + batch_size) num_rows in
    rows <- lift (for_fold (py_range batch_start batch_end 1) []
      (fun i rows =>
         row <- (first_name <- fake "first_name" ;;
                 last_name <- fake "last_name" ;;
                 email <- fake "email" ;;
                 created_at <- fake_date_time_between (- years 2) 0 ;;
                 ret [VInt (i + 1); VStr first_name; VStr last_name;
                      VStr email; VDateTime created_at]) ;;
         let rows := rows ++ [row] in
         (* Add some exact duplicates (10% chance) *)
         u <- random_random ;;
         if Qltb u 0.1 then ret (rows ++ [row]) else ret rows)) ;;
    executemany (sql_insert_customers_no_pk prefix) rows) ;;
  commit.

(** *** Problem 2: missing foreign key constraints *)

(** The customer of an order: 30% of orders reference non-existent
    customers. *)
Definition order_customer_id : Gen Z :=
  u <- random_random ;;
  if Qltb u 0.3
  then random_randint 900000 999999
  else random_randint 1 10000.

(** The product of an order: 20% of orders reference non-existent
    products. *)
Definition order_product_id : Gen Z :=
  u <- random_random ;;
  if Qltb u 0.2
  then random_randint 500 999
  else random_randint 1 100.

Definition problem_02_missing_foreign_keys (num_rows : Z) : M unit :=
  prefix <- get_table_prefix ;;
  auto_inc <- get_auto_increment_syntax ;;
  (* Create products table (with some products) *)
  execute (sql_create_products prefix auto_inc) None ;;
  (* Insert some products (only 100) *)
  products <- lift (for_fold (py_range 0 100 1) []
    (fun _ products =>
       catch_phrase <- fake "catch_phrase" ;;
       price <- random_uniform 10 500 ;;
       ret (products ++ [[VStr catch_phrase; VFloat (py_round price 2)]]))) ;;
  executemany (sql_insert_products prefix) products ;;
  (* Create orders table WITHOUT foreign key constraints *)
  execute (sql_create_orders_no_fk prefix auto_inc) None ;;
  (* Insert orders with many orphaned references *)
  let batch_size := 1000 in
  for_each (py_range 0 num_rows batch_size) (fun batch_start =>
    let batch_end := Z.min (batch_start + batch_size) num_rows in
    rows <- lift (for_fold (py_range batch_start batch_end 1) []
      (fun _ rows =>
         customer_id <- order_customer_id ;;
         product_id <- order_product_id ;;
         quantity <- random_randint 1 10 ;;
         order_date <- fake_date_time_between (- years 1) 0 ;;
         ret (rows ++ [[VInt customer_id; VInt product_id; VInt quantity;
                        VDateTime order_date]]))) ;;
    executemany (sql_insert_orders_no_fk prefix) rows) ;;
  commit.

(** *** Problem 3: wrong data types *)

Definition problem_03_wrong_data_types (num_rows : Z) : M unit :=
  prefix <- get_table_prefix ;;
  execute (sql_create_transactions_bad_types prefix) None ;;
  let batch_size := 1000 in
  for_each (py_range 0 num_rows batch_size) (fun batch_start =>
    let batch_end := Z.min (batch_start + batch_size) num_rows in
    rows <- lift (for_fold (py_range batch_start batch_end 1) []
      (fun i rows =>
         (* Store numbers as strings with inconsistent formatting *)
         a1 <- (x <- random_uniform 10 1000 ;; fmt_float ".2f" x) ;;
         a2 <- (x <- random_uniform 10 1000 ;;
                s <- fmt_float ".2f" x ;; ret ("$" ++ s)%string) ;;
         a3 <- (x <- random_uniform 10 1000 ;; fmt_float ".4f" x) ;;
         a4 <- (x <- random_uniform 10 1000 ;; ret (str (int_of_float x))) ;;
         let amount_formats := [a1; a2; a3; a4] in
         (* Store dates as strings with different formats *)
         date_val <- fake_date_between (- years 2) 0 ;;
         d1 <- date_strftime date_val "%Y-%m-%d" ;;
         d2 <- date_strftime date_val "%m/%d/%Y" ;;
         d3 <- date_strftime date_val "%d-%m-%Y" ;;
         d4 <- date_strftime date_val "%B %d, %Y" ;;
         d5 <- date_strftime date_val "%Y%m%d" ;;
         let date_formats := [d1; d2; d3; d4; d5] in
         amount <- random_choice "" amount_formats ;;
         transaction_date <- random_choice "" date_formats ;;
         quantity <- random_randint 1 100 ;;
         is_refund <- random_choice ""
           ["true"; "false"; "True"; "False"; "1"; "0"; "yes"; "no"] ;;
         customer_age <- random_randint 18 80 ;;
         ret (rows ++ [[VStr (str (i + 1)); VStr amount;
                        VStr transaction_date; VStr (str quantity);
                        VStr is_refund; VStr (str customer_age)]]))) ;;
    executemany (sql_insert_transactions_bad_types prefix) rows) ;;
  commit.

(** *** Problem 4: missing NOT NULL constraints *)

(** [value if random.random() > p else None]: the draw comes first. *)
Definition unless_null (p : Q) (value : Gen Value) : Gen Value :=
  u <- random_random ;;
  if Qltb p u then value else ret VNone.

Definition problem_04_missing_not_null (num_rows : Z) : M unit :=
  prefix <- get_table_prefix ;;
  auto_inc <- get_auto_increment_syntax ;;
  boolean_type <- get_boolean_type ;;
  execute (sql_create_employees_nulls prefix auto_inc boolean_type) None ;;
  let batch_size := 1000 in
  for_each (py_range 0 num_rows batch_size) (fun batch_start =>
    let batch_end := Z.min (batch_start + batch_size) num_rows in
    rows <- lift (for_fold (py_range batch_start batch_end 1) []
      (fun _ rows =>
         (* Randomly NULL out fields that shouldn't be NULL *)
         first_name <- unless_null 0.1 (s <- fake "first_name" ;; ret (VStr s)) ;;
         last_name <- unless_null 0.1 (s <- fake "last_name" ;; ret (VStr s)) ;;
         email <- unless_null 0.15 (s <- fake "email" ;; ret (VStr s)) ;;
         department <- unless_null 0.2
           (s <- fake "job" ;; ret (VStr (slice_to 100 s))) ;;
         salary <- unless_null 0.25
           (x <- random_uniform 30000 150000 ;; ret (VFloat (py_round x 2))) ;;
         hire_date <- unless_null 0.1
           (d <- fake_date_between (- years 10) 0 ;; ret (VDate d)) ;;
         manager_id <- unless_null 0.3
           (k <- random_randint 1 100 ;; ret (VInt k)) ;;
         is_active <- unless_null 0.2
           (b <- random_choice true [true; false] ;; ret (VBool b)) ;;
         ret (rows ++ [[first_name; last_name; email; department; salary;
                        hire_date; manager_id; is_active]]))) ;;
    executemany (sql_insert_employees_nulls prefix) rows) ;;
  commit.

(** *** Problem 5: duplicate records *)

Record BaseUser : Type := {
  user_id : Z;
  username : string;
  user_email : string;
  phone : string;
  created_at : Z
}.

Definition user_row (u : BaseUser) : Row :=
  [VInt (user_id u); VStr (username u); VStr (user_email u); VStr (phone u);
   VDateTime (created_at u)].

Definition problem_05_duplicate_records (num_rows : Z) : M unit :=
  prefix <- get_table_prefix ;;
  auto_inc <- get_auto_increment_syntax ;;
  execute (sql_create_users_duplicates prefix auto_inc) None ;;
  (* Generate base users; base set is 1/3 of total *)
  base_users <- lift (for_fold (py_range 0 (num_rows / 3) 1) []
    (fun i base_users =>
       name <- fake "user_name" ;;
       email <- fake "email" ;;
       phone_number <- fake "phone_number" ;;
       created <- fake_date_time_between (- years 2) 0 ;;
       ret (base_users ++
            [{| user_id := i + 1; username := name; user_email := email;
                phone := phone_number; created_at := created |}]))) ;;
  let batch_size := 1000 in
  (* Insert base users plus duplicates *)
  rows <- for_fold base_users []
    (fun u rows =>
       (* Add the original *)
       let rows := rows ++ [user_row u] in
       (* Add 1-3 duplicates for ~50% of users *)
       rows <- lift (c <- random_random ;;
                     if Qltb c 0.5
                     then k <- random_randint 1 3 ;;
                          for_fold (py_range 0 k 1) rows
                            (fun _ rows => ret (rows ++ [user_row u]))
                     else ret rows) ;;
       if batch_size <=? len rows
       then executemany (sql_insert_users_duplicates prefix) rows ;; ret []
       else ret rows) ;;
  (match rows with
   | _ :: _ => executemany (sql_insert_users_duplicates_tail prefix) rows
   | [] => ret tt
   end) ;;
  commit.

(** *** Problem 6: inconsistent date formats *)

Definition date_formats : list string :=
  ["%Y-%m-%d"; "%m/%d/%Y"; "%d/%m/%Y"; "%Y/%m/%d"; "%d-%m-%Y"; "%m-%d-%Y";
   "%B %d, %Y"; "%b %d, %Y"; "%d %B %Y"; "%Y%m%d"; "%d.%m.%Y"].

Definition problem_06_inconsistent_dates (num_rows : Z) : M unit :=
  prefix <- get_table_prefix ;;
  execute (sql_create_events_bad_dates prefix) None ;;
  let batch_size := 1000 in
  for_each (py_range 0 num_rows batch_size) (fun batch_start =>
    let batch_end := Z.min (batch_start + batch_size) num_rows in
    rows <- lift (for_fold (py_range batch_start batch_end 1) []
      (fun i rows =>
         start <- fake_date_between (- years 1) (years 1) ;;
         e <- random_randint 1 30 ;;
         let end_ := start + e in
         d <- random_randint 7 60 ;;
         let deadline := start - d in
         event_name <- fake "catch_phrase" ;;
         f1 <- random_choice "" date_formats ;;
         start_date <- date_strftime start f1 ;;
         f2 <- random_choice "" date_formats ;;
         end_date <- date_strftime end_ f2 ;;
         f3 <- random_choice "" date_formats ;;
         registration_deadline <- date_strftime deadline f3 ;;
         ret (rows ++ [[VInt (i + 1); VStr event_name; VStr start_date;
                        VStr end_date; VStr registration_deadline]]))) ;;
    executemany (sql_insert_events_bad_dates prefix) rows) ;;
  commit.

(** *** Problem 7: inconsistent string casing *)

(** Apply random casing to a string. *)
Definition randomize_case (s : string) : Gen string :=
  case_type <- random_choice ""
    ["lower"; "upper"; "title"; "mixed"; "original"] ;;
  if String.eqb case_type "lower" then ret (str_lower s)
  else if String.eqb case_type "upper" then ret (str_upper s)
  else if String.eqb case_type "title" then ret (str_title s)
  else if String.eqb case_type "mixed" then
    for_fold (chars s) ""
      (fun c acc =>
         u <- random_random ;;
         ret (acc ++ String (if Qltb 0.5 u then char_upper c
                             else char_lower c) "")%string)
  else ret s.

Definition problem_07_inconsistent_casing (num_rows : Z) : M unit :=
  prefix <- get_table_prefix ;;
  execute (sql_create_contacts_bad_casing prefix) None ;;
  let batch_size := 1000 in
  for_each (py_range 0 num_rows batch_size) (fun batch_start =>
    let batch_end := Z.min (batch_start + batch_size) num_rows in
    rows <- lift (for_fold (py_range batch_start batch_end 1) []
      (fun i rows =>
         first_name <- (s <- fake "first_name" ;; randomize_case s) ;;
         last_name <- (s <- fake "last_name" ;; randomize_case s) ;;
         email <- (s <- fake "email" ;; randomize_case s) ;;
         company <- (s <- fake "company" ;; randomize_case s) ;;
         country <- (s <- fake "country" ;; randomize_case s) ;;
         ret (rows ++ [[VInt (i + 1); VStr first_name; VStr last_name;
                        VStr email; VStr company; VStr country]]))) ;;
    executemany (sql_insert_contacts_bad_casing prefix) rows) ;;
  commit.

(** *** Problem 8: leading and trailing whitespace *)

Definition whitespace_chars : list string :=
  [" "; "  "; "   "; TAB; (" " ++ TAB)%string; NL;
   (" " ++ NL ++ " ")%string].

(** Add random leading/trailing whitespace. *)
Definition add_random_whitespace (s : string) : Gen string :=
  let result := s in
  u <- random_random ;;
  result <- (if Qltb u 0.4   (* 40% chance of leading whitespace *)
             then w <- random_choice "" whitespace_chars ;;
                  ret (w ++ result)%string
             else ret result) ;;
  u <- random_random ;;
  if Qltb u 0.4              (* 40% chance of trailing whitespace *)
  then w <- random_choice "" whitespace_chars ;; ret (result ++ w)%string
  else ret result.

Definition problem_08_whitespace_issues (num_rows : Z) : M unit :=
  prefix <- get_table_prefix ;;
  execute (sql_create_inventory_whitespace prefix) None ;;
  let batch_size := 1000 in
  for_each (py_range 0 num_rows batch_size) (fun batch_start =>
    let batch_end := Z.min (batch_start + batch_size) num_rows in
    rows <- lift (for_fold (py_range batch_start batch_end 1) []
      (fun i rows =>
         sku <- add_random_whitespace ("SKU-" ++ format_0d 6 (i + 1)) ;;
         product_name <- (s <- fake "catch_phrase" ;;
                          add_random_whitespace (slice_to 200 s)) ;;
         category <- (c <- random_choice ""
                        ["Electronics"; "Clothing"; "Food"; "Furniture";
                         "Tools"] ;;
                      add_random_whitespace c) ;;
         supplier <- (s <- fake "company" ;;
                      add_random_whitespace (slice_to 200 s)) ;;
         warehouse_location <-
           (w <- random_randint 1 10 ;;
            r <- random_randint 1 50 ;;
            s <- random_randint 1 100 ;;
            add_random_whitespace
              ("W" ++ str w ++ "-R" ++ str r ++ "-S" ++ str s)) ;;
         ret (rows ++ [[VStr sku; VStr product_name; VStr category;
                        VStr supplier; VStr warehouse_location]]))) ;;
    executemany (sql_insert_inventory_whitespace prefix) rows) ;;
  commit.

(** *** Problem 9: invalid email formats *)

(** Generate an invalid or malformed email. *)
Definition generate_bad_email : Gen string :=
  let bad_patterns : list (Gen string) :=
    [ fake "user_name"                                   (* No @ or domain *)
    ; (u <- fake "user_name" ;; ret (u ++ "@")%string)         (* No domain *)
    ; (d <- fake "domain_name" ;; ret ("@" ++ d)%string)   (* No local part *)
    ; (u <- fake "user_name" ;; d <- fake "domain_name" ;;
       ret (u ++ "@@" ++ d)%string)                             (* Double @ *)
    ; (u <- fake "user_name" ;; d <- fake "domain_name" ;;
       ret (u ++ " @" ++ d)%string)                                (* Space *)
    ; (u <- fake "user_name" ;; w <- fake "word" ;;
       ret (u ++ "@" ++ w)%string)                                (* No TLD *)
    ; (u <- fake "user_name" ;; d <- fake "domain_name" ;;
       ret (u ++ "@." ++ d)%string)                          (* Leading dot *)
    ; (u <- fake "user_name" ;; d <- fake "domain_name" ;;
       ret ("." ++ u ++ "@" ++ d)%string)              (* Leading dot local *)
    ; (u <- fake "user_name" ;; d <- fake "domain_name" ;;
       ret (u ++ "@" ++ d ++ ".")%string)                   (* Trailing dot *)
    ; ret "N/A"
    ; ret "none"
    ; ret "-"
    ; ret ""
    ; fake "phone_number"                  (* Phone number in email field *)
    ] in
  pattern <- random_choice (ret "") bad_patterns ;;
  pattern.

Definition problem_09_invalid_emails (num_rows : Z) : M unit :=
  prefix <- get_table_prefix ;;
  execute (sql_create_subscribers_bad_emails prefix) None ;;
  let batch_size := 1000 in
  for_each (py_range 0 num_rows batch_size) (fun batch_start =>
    let batch_end := Z.min (batch_start + batch_size) num_rows in
    rows <- lift (for_fold (py_range batch_start batch_end 1) []
      (fun i rows =>
         (* 30% bad emails *)
         email <- (u <- random_random ;;
                   if Qltb u 0.3 then generate_bad_email else fake "email") ;;
         name <- fake "name" ;;
         subscribed_at <- fake_date_time_between (- years 2) 0 ;;
         ret (rows ++ [[VInt (i + 1); VStr name; VStr email;
                        VDateTime subscribed_at]]))) ;;
    executemany (sql_insert_subscribers_bad_emails prefix) rows) ;;
  commit.

(** *** Problem 10: out-of-range values *)

(** The six values a branch of the generator assigns. *)
Record SaleValues : Type := {
  price : Q;
  quantity : Z;
  discount : Q;
  date : Z;
  age : Z;
  rating : Q
}.

Definition good_price : Gen Q :=
  x <- random_uniform 10 500 ;; ret (py_round x 2).
Definition good_quantity : Gen Z := random_randint 1 10.
Definition good_discount : Gen Q :=
  x <- random_uniform 0 30 ;; ret (py_round x 2).
Definition good_date : Gen Z := fake_date_between (- years 1) 0.
Definition good_age : Gen Z := random_randint 18 80.
Definition good_rating : Gen Q :=
  x <- random_uniform 1 5 ;; ret (py_round x 1).

Definition sale_values (now : Z) : Gen SaleValues :=
  (* Occasionally insert bad values *)
  u <- random_random ;;
  if Qltb u 0.2 then   (* 20% bad data *)
    bad_type <- random_choice ""
      ["negative_price"; "negative_quantity"; "huge_discount"; "future_date";
       "impossible_age"; "bad_rating"] ;;
    if String.eqb bad_type "negative_price" then
      x <- random_uniform 1 100 ;;
      let p := (- py_round x 2)%Q in
      q <- good_quantity ;; d <- good_discount ;; dt <- good_date ;;
      a <- good_age ;; r <- good_rating ;;
      ret {| price := p; quantity := q; discount := d; date := dt; age := a;
             rating := r |}
    else if String.eqb bad_type "negative_quantity" then
      p <- good_price ;;
      k <- random_randint 1 100 ;;
      let q := - k in
      d <- good_discount ;; dt <- good_date ;;
      a <- good_age ;; r <- good_rating ;;
      ret {| price := p; quantity := q; discount := d; date := dt; age := a;
             rating := r |}
    else if String.eqb bad_type "huge_discount" then
      p <- good_price ;; q <- good_quantity ;;
      x <- random_uniform 100 500 ;;   (* > 100% *)
      let d := py_round x 2 in
      dt <- good_date ;; a <- good_age ;; r <- good_rating ;;
      ret {| price := p; quantity := q; discount := d; date := dt; age := a;
             rating := r |}
    else if String.eqb bad_type "future_date" then
      p <- good_price ;; q <- good_quantity ;; d <- good_discount ;;
      k <- random_randint 1 365 ;;
      let dt := now + k in
      a <- good_age ;; r <- good_rating ;;
      ret {| price := p; quantity := q; discount := d; date := dt; age := a;
             rating := r |}
    else if String.eqb bad_type "impossible_age" then
      p <- good_price ;; q <- good_quantity ;; d <- good_discount ;;
      dt <- good_date ;;
      a <- random_choice 0 [-5; 0; 150; 999] ;;
      r <- good_rating ;;
      ret {| price := p; quantity := q; discount := d; date := dt; age := a;
             rating := r |}
    else   (* bad_rating *)
      p <- good_price ;; q <- good_quantity ;; d <- good_discount ;;
      dt <- good_date ;; a <- good_age ;;
      r <- random_choice 0%Q [(-1)%Q; 0%Q; 6%Q; 10%Q] ;;
      ret {| price := p; quantity := q; discount := d; date := dt; age := a;
             rating := r |}
  else
    p <- good_price ;; q <- good_quantity ;; d <- good_discount ;;
    dt <- good_date ;; a <- good_age ;; r <- good_rating ;;
    ret {| price := p; quantity := q; discount := d; date := dt; age := a;
           rating := r |}.

Definition problem_10_out_of_range (num_rows : Z) : M unit :=
  prefix <- get_table_prefix ;;
  execute (sql_create_sales_bad_values prefix) None ;;
  let batch_size := 1000 in
  now <- lift today ;;
  for_each (py_range 0 num_rows batch_size) (fun batch_start =>
    let batch_end := Z.min (batch_start + batch_size) num_rows in
    rows <- lift (for_fold (py_range batch_start batch_end 1) []
      (fun i rows =>
         v <- sale_values now ;;
         product_name <- fake "catch_phrase" ;;
         ret (rows ++ [[VInt (i + 1); VStr (slice_to 200 product_name);
                        VFloat (price v); VInt (quantity v);
                        VFloat (discount v); VDate (date v); VInt (age v);
                        VFloat (rating v)]]))) ;;
    executemany (sql_insert_sales_bad_values prefix) rows) ;;
  commit.

(** *** Problem 11: comma-separated values in columns *)

Definition all_tags : list string :=
  ["python"; "javascript"; "sql"; "database"; "web"; "api"; "security";
   "cloud"; "devops"; "testing"; "frontend"; "backend"; "mobile"; "ai"; "ml"].

Definition all_categories : list string :=
  ["Tutorial"; "News"; "Opinion"; "Review"; "Guide"; "Reference"].

Definition problem_11_csv_in_columns (num_rows : Z) : M unit :=
  prefix <- get_table_prefix ;;
  execute (sql_create_articles_csv_tags prefix) None ;;
  let batch_size := 1000 in
  for_each (py_range 0 num_rows batch_size) (fun batch_start =>
    let batch_end := Z.min (batch_start + batch_size) num_rows in
    rows <- lift (for_fold (py_range batch_start batch_end 1) []
      (fun i rows =>
         (* Create comma-separated tags (1-7 tags) *)
         k <- random_randint 1 7 ;;
         picked <- random_sample "" all_tags k ;;
         let tags := String.concat "," picked in
         (* Create comma-separated categories (1-3 categories) *)
         k <- random_randint 1 3 ;;
         picked <- random_sample "" all_categories k ;;
         let cats := String.concat "," picked in
         (* Create comma-separated related IDs *)
         k <- random_randint 0 5 ;;
         ids <- for_fold (py_range 0 k 1) []
                  (fun _ ids => r <- random_randint 1 num_rows ;;
                                ret (ids ++ [str r])) ;;
         let related := String.concat "," ids in
         title <- fake "sentence" ;;
         author <- fake "name" ;;
         ret (rows ++ [[VInt (i + 1); VStr (slice_to 300 title); VStr author;
                        VStr tags; VStr cats; VStr related]]))) ;;
    executemany (sql_insert_articles_csv_tags prefix) rows) ;;
  commit.

(** *** Problem 12: mixed encodings and special characters *)

(** Various problematic strings, as the bytes the source file holds. *)
Definition special_chars : list string :=
  ["Caf√© r√©sum√© na√Øve";
   "Êó•Êú¨Ë™û„ÉÜ„Çπ„Éà";
   "–¢–µ—Å—Ç –∫–∏—Ä–∏–ª–ª–∏—Ü—ã";
   "ŸÖÿ±ÿ≠ÿ®ÿß ÿ®ÿßŸÑÿπÿßŸÑŸÖ";
   "◊©◊ú◊ï◊ù ◊¢◊ï◊ú◊ù";
   "üéâ Party üéä Time üéà";
   ("Line1" ++ NL ++ "Line2" ++ NL ++ "Line3")%string;
   ("Quote " ++ DQ ++ "test" ++ DQ ++ " here")%string;
   ("Tab" ++ TAB ++ "here" ++ TAB ++ "too")%string;
   "NULL";
   "null";
   "<script>alert('xss')</script>";
   "O'Brien's caf√©";
   "50% off ‚Äî limited time!";
   "Price: ‚Ç¨100 or ¬£80";
   "√ëo√±o";
   (NUL ++ " null byte")%string;
   "Êú´Êú´Êú´";
   "Beyonc√©"].

(** A method of the multi-locale Faker [fake_locales]. *)
Definition fake_locales (method : string) : Gen string :=
  fake ("locales." ++ method).

Definition problem_12_encoding_issues (num_rows : Z) : M unit :=
  prefix <- get_table_prefix ;;
  execute (sql_create_international_data prefix) None ;;
  let batch_size := 1000 in
  for_each (py_range 0 num_rows batch_size) (fun batch_start =>
    let batch_end := Z.min (batch_start + batch_size) num_rows in
    rows <- lift (for_fold (py_range batch_start batch_end 1) []
      (fun i rows =>
         u <- random_random ;;
         '(name, address, notes) <-
           (if Qltb u 0.3 then   (* 30% special chars *)
              name <- random_choice "" special_chars ;;
              address <- random_choice "" special_chars ;;
              picked <- random_sample "" special_chars 3 ;;
              ret (name, address, String.concat " | " picked)
            else
              name <- fake_locales "name" ;;
              address <- fake_locales "address" ;;
              notes <- fake_locales "text" ;;
              ret (name, str_replace NL ", " address, notes)) ;;
         ret (rows ++ [[VInt (i + 1); VStr (slice_to 300 name);
                        VStr (slice_to 500 address);
                        VStr (slice_to 1000 notes)]]))) ;;
    executemany (sql_insert_international_data prefix) rows) ;;
  commit.

(** *** Problem 13: god table *)

Record Customer : Type := {
  c_id : Z; c_first : string; c_last : string; c_email : string;
  c_phone : string; c_addr1 : string; c_addr2 : string; c_city : string;
  c_state : string; c_zip : string; c_country : string; c_created : Z
}.

Record Product : Type := {
  p_id : Z; p_name : string; p_desc : string; p_cat : string;
  p_subcat : string; p_brand : string; p_price : Q; p_cost : Q
}.

Definition no_customer : Customer :=
  {| c_id := 0; c_first := ""; c_last := ""; c_email := ""; c_phone := "";
     c_addr1 := ""; c_addr2 := ""; c_city := ""; c_state := ""; c_zip := "";
     c_country := ""; c_created := 0 |}.

Definition no_product : Product :=
  {| p_id := 0; p_name := ""; p_desc := ""; p_cat := ""; p_subcat := "";
     p_brand := ""; p_price := 0; p_cost := 0 |}.

Definition god_row (i : Z) (customers : list Customer)
    (products : list Product) : Gen Row :=
  cust <- random_choice no_customer customers ;;
  prod <- random_choice no_product products ;;
  qty <- random_randint 1 5 ;;
  order_date <- fake_date_time_between (- years 1) 0 ;;
  order_id <- random_randint 10000 99999 ;;
  order_status <- random_choice ""
    ["pending"; "shipped"; "delivered"; "returned"] ;;
  shipping_cost <- random_uniform 5 20 ;;
  carrier <- random_choice "" ["UPS"; "FedEx"; "USPS"; "DHL"] ;;
  tracking <- fake "uuid4" ;;
  method <- random_choice "" ["standard"; "express"; "overnight"] ;;
  est <- random_randint 3 14 ;;
  u <- random_random ;;
  actual <- (if Qltb 0.3 u
             then k <- random_randint 3 20 ;;
                  ret (VDate ((order_date + days k) / day))
             else ret VNone) ;;
  ret [VInt (i + 1);
       VInt (c_id cust); VStr (c_first cust); VStr (c_last cust);
       VStr (c_email cust); VStr (c_phone cust); VStr (c_addr1 cust);
       VStr (c_addr2 cust); VStr (c_city cust); VStr (c_state cust);
       VStr (c_zip cust); VStr (c_country cust); VDateTime (c_created cust);
       VInt order_id; VDateTime order_date; VStr order_status;
       (* total with tax estimate *)
       VFloat (py_round (p_price prod * inject_Z qty * 1.1) 2);
       VFloat (py_round shipping_cost 2);
       VFloat (py_round (p_price prod * inject_Z qty * 0.08) 2);
       VInt (p_id prod); VStr (p_name prod); VStr (p_desc prod);
       VStr (p_cat prod); VStr (p_subcat prod); VStr (p_brand prod);
       VFloat (p_price prod); VFloat (p_cost prod);
       VInt qty; VFloat (py_round (p_price prod * inject_Z qty) 2);
       VStr carrier; VStr (slice_to 20 tracking); VStr method;
       VDate ((order_date + days est) / day);
       actual].

Definition problem_13_god_table (num_rows : Z) : M unit :=
  prefix <- get_table_prefix ;;
  (* Create a massively denormalized table *)
  execute (sql_create_god_table prefix) None ;;
  (* Generate denormalized data: 100 unique customers *)
  customers <- lift (for_fold (py_range 0 100 1) []
    (fun i customers =>
       first <- fake "first_name" ;;
       last <- fake "last_name" ;;
       email <- fake "email" ;;
       phone_number <- fake "phone_number" ;;
       addr1 <- fake "street_address" ;;
       u <- random_random ;;
       addr2 <- (if Qltb 0.7 u then fake "secondary_address" else ret "") ;;
       city <- fake "city" ;;
       state <- fake "state_abbr" ;;
       zip <- fake "zipcode" ;;
       created <- fake_date_time_between (- years 3) (- years 1) ;;
       ret (customers ++
            [{| c_id := i + 1; c_first := first; c_last := last;
                c_email := email; c_phone := phone_number; c_addr1 := addr1;
                c_addr2 := addr2; c_city := city; c_state := state;
                c_zip := zip; c_country := "USA"; c_created := created |}]))) ;;
  (* 50 unique products *)
  products <- lift (for_fold (py_range 0 50 1) []
    (fun i products =>
       name <- fake "catch_phrase" ;;
       desc <- fake "text" ;;
       cat <- random_choice ""
         ["Electronics"; "Clothing"; "Home"; "Sports"; "Books"] ;;
       subcat <- fake "word" ;;
       brand <- fake "company" ;;
       x <- random_uniform 10 500 ;;
       y <- random_uniform 5 250 ;;
       ret (products ++
            [{| p_id := i + 1; p_name := slice_to 200 name; p_desc := desc;
                p_cat := cat; p_subcat := subcat;
                p_brand := slice_to 100 brand; p_price := py_round x 2;
                p_cost := py_round y 2 |}]))) ;;
  let batch_size := 1000 in
  rows <- for_fold (py_range 0 num_rows 1) []
    (fun i rows =>
       row <- lift (god_row i customers products) ;;
       let rows := rows ++ [row] in
       if batch_size <=? len rows
       then executemany (sql_insert_god_table prefix) rows ;; ret []
       else ret rows) ;;
  (match rows with
   | _ :: _ => executemany (sql_insert_god_table_tail prefix) rows
   | [] => ret tt
   end) ;;
  commit.

(** *** Problem 14: missing indexes *)

Definition action_types : list string :=
  ["VIEW"; "CREATE"; "UPDATE"; "DELETE"; "LOGIN"; "LOGOUT"; "EXPORT"].
Definition resource_types : list string :=
  ["user"; "order"; "product"; "report"; "setting"; "document"].
Definition statuses : list string :=
  ["success"; "failure"; "pending"; "timeout"].

Definition problem_14_missing_indexes (num_rows : Z) : M unit :=
  prefix <- get_table_prefix ;;
  auto_inc <- get_auto_increment_syntax ;;
  (* Create table explicitly WITHOUT indexes *)
  execute (sql_create_audit_log_no_index prefix auto_inc) None ;;
  let batch_size := 1000 in
  for_each (py_range 0 num_rows batch_size) (fun batch_start =>
    let batch_end := Z.min (batch_start + batch_size) num_rows in
    rows <- lift (for_fold (py_range batch_start batch_end 1) []
      (fun _ rows =>
         uid <- random_randint 1 10000 ;;
         action_type <- random_choice "" action_types ;;
         resource_type <- random_choice "" resource_types ;;
         resource_id <- random_randint 1 100000 ;;
         ip_address <- fake "ipv4" ;;
         user_agent <- fake "user_agent" ;;
         created <- fake_date_time_between (- days 90) 0 ;;
         session_id <- fake "uuid4" ;;
         status <- random_choice "" statuses ;;
         ret (rows ++ [[VInt uid; VStr action_type; VStr resource_type;
                        VInt resource_id; VStr ip_address;
                        VStr (slice_to 500 user_agent); VDateTime created;
                        VStr session_id; VStr status]]))) ;;
    executemany (sql_insert_audit_log_no_index prefix) rows) ;;
  commit.

(** *** Problem 15: implicit type coercion traps *)

(** The text under which a transaction stores its account id. *)
Definition acct_id_text (acct_id : Z) (u : Q) : string :=
  (* 40% chance of leading zeros *)
  if Qltb u 0.4
  then format_0d 10 acct_id   (* Pad to 10 digits *)
  else str acct_id.

Definition problem_15_type_coercion (num_rows : Z) : M unit :=
  prefix <- get_table_prefix ;;
  (* Table 1: IDs as integers *)
  execute (sql_create_accounts_int_id prefix) None ;;
  (* Table 2: IDs as strings (with leading zeros!) *)
  execute (sql_create_transactions_str_id prefix) None ;;
  (* Insert accounts with integer IDs *)
  accounts <- lift (for_fold (py_range 0 1000 1) []
    (fun i accounts =>
       company <- fake "company" ;;
       balance <- random_uniform 100 100000 ;;
       ret (accounts ++ [[VInt (i + 1); VStr (slice_to 200 company);
                          VFloat (py_round balance 2)]]))) ;;
  executemany (sql_insert_accounts_int_id prefix) accounts ;;
  (* Insert transactions with STRING IDs (some with leading zeros) *)
  let batch_size := 1000 in
  for_each (py_range 0 num_rows batch_size) (fun batch_start =>
    let batch_end := Z.min (batch_start + batch_size) num_rows in
    rows <- lift (for_fold (py_range batch_start batch_end 1) []
      (fun i rows =>
         acct_id <- random_randint 1 1000 ;;
         u <- random_random ;;
         let acct_id_str := acct_id_text acct_id u in
         amount <- random_uniform (-1000) 1000 ;;
         txn_date <- fake_date_between (- years 1) 0 ;;
         ret (rows ++ [[VInt (i + 1); VStr acct_id_str;
                        VFloat (py_round amount 2); VDate txn_date]]))) ;;
    executemany (sql_insert_transactions_str_id prefix) rows) ;;
  commit.

(* ===================================================================== *)
(** ** Diagnostic queries *)
(* ===================================================================== *)

Record DiagnosticEntry : Type := {
  name : string;
  description : string;
  query : string
}.

Definition DIAGNOSTIC_QUERIES : list (string * DiagnosticEntry) :=
  [   ("problem_01",
    {| name := "Tables without Primary Keys";
       description := "Find duplicate rows that can't be uniquely identified";
       query := "
-- Find exact duplicate rows
SELECT customer_id, first_name, last_name, email, COUNT(*) as count
FROM {prefix}customers_no_pk
GROUP BY customer_id, first_name, last_name, email
HAVING COUNT(*) > 1
ORDER BY count DESC
LIMIT 20;
" |});
   ("problem_02",
    {| name := "Orphaned Foreign Key Records";
       description := "Find orders referencing non-existent customers/products";
       query := "
-- Find orders with non-existent customers
SELECT COUNT(*) as orphaned_customer_orders
FROM {prefix}orders_no_fk o
LEFT JOIN {prefix}customers_no_pk c ON o.customer_id = c.customer_id
WHERE c.customer_id IS NULL;

-- Find orders with non-existent products
SELECT COUNT(*) as orphaned_product_orders
FROM {prefix}orders_no_fk o
LEFT JOIN {prefix}products p ON o.product_id = p.product_id
WHERE p.product_id IS NULL;
" |});
   ("problem_03",
    {| name := "Wrong Data Types";
       description := "Identify strings that should be dates/numbers";
       query := "
-- Show the variety of date formats stored as strings
SELECT transaction_date, COUNT(*) as count
FROM {prefix}transactions_bad_types
GROUP BY transaction_date
ORDER BY count DESC
LIMIT 20;

-- Show amount formats
SELECT amount, COUNT(*) as count
FROM {prefix}transactions_bad_types
GROUP BY amount
ORDER BY count DESC
LIMIT 20;
" |});
   ("problem_04",
    {| name := "NULL Values in Critical Fields";
       description := "Count NULLs in fields that shouldn't be NULL";
       query := "
SELECT
    COUNT(*) as total_rows,
    SUM(CASE WHEN first_name IS NULL THEN 1 ELSE 0 END) as null_first_name,
    SUM(CASE WHEN last_name IS NULL THEN 1 ELSE 0 END) as null_last_name,
    SUM(CASE WHEN email IS NULL THEN 1 ELSE 0 END) as null_email,
    SUM(CASE WHEN salary IS NULL THEN 1 ELSE 0 END) as null_salary,
    SUM(CASE WHEN hire_date IS NULL THEN 1 ELSE 0 END) as null_hire_date
FROM {prefix}employees_nulls;
" |});
   ("problem_05",
    {| name := "Duplicate Records";
       description := "Find users that appear multiple times";
       query := "
SELECT user_id, username, email, COUNT(*) as occurrences
FROM {prefix}users_duplicates
GROUP BY user_id, username, email
HAVING COUNT(*) > 1
ORDER BY occurrences DESC
LIMIT 20;
" |});
   ("problem_06",
    {| name := "Inconsistent Date Formats";
       description := "Show the chaos of date format variations";
       query := "
SELECT start_date, COUNT(*) as count
FROM {prefix}events_bad_dates
GROUP BY start_date
ORDER BY count DESC
LIMIT 30;
" |});
   ("problem_07",
    {| name := "Inconsistent String Casing";
       description := "Find same value with different casing";
       query := "
SELECT LOWER(country) as normalized_country,
       COUNT(DISTINCT country) as case_variations,
       COUNT(*) as total_records
FROM {prefix}contacts_bad_casing
GROUP BY LOWER(country)
HAVING COUNT(DISTINCT country) > 1
ORDER BY case_variations DESC;
" |});
   ("problem_08",
    {| name := "Whitespace Issues";
       description := "Find values with leading/trailing whitespace";
       query := "
SELECT sku,
       LENGTH(sku) as length_with_whitespace,
       LENGTH(TRIM(sku)) as length_trimmed,
       LENGTH(sku) - LENGTH(TRIM(sku)) as whitespace_chars
FROM {prefix}inventory_whitespace
WHERE LENGTH(sku) != LENGTH(TRIM(sku))
LIMIT 20;
" |});
   ("problem_09",
    {| name := "Invalid Email Formats";
       description := "Find emails that don't match basic patterns";
       query := "
-- Emails without @ symbol
SELECT email, COUNT(*) as count
FROM {prefix}subscribers_bad_emails
WHERE email NOT LIKE '%@%' OR email = '' OR email IS NULL
GROUP BY email
ORDER BY count DESC
LIMIT 20;
" |});
   ("problem_10",
    {| name := "Out of Range Values";
       description := "Find business-logic violations";
       query := "
SELECT
    SUM(CASE WHEN unit_price < 0 THEN 1 ELSE 0 END) as negative_prices,
    SUM(CASE WHEN quantity < 0 THEN 1 ELSE 0 END) as negative_quantities,
    SUM(CASE WHEN discount_percent > 100 THEN 1 ELSE 0 END) as impossible_discounts,
    SUM(CASE WHEN sale_date > CURRENT_DATE THEN 1 ELSE 0 END) as future_dates,
    SUM(CASE WHEN customer_age < 0 OR customer_age > 120 THEN 1 ELSE 0 END) as impossible_ages,
    SUM(CASE WHEN rating < 1 OR rating > 5 THEN 1 ELSE 0 END) as invalid_ratings
FROM {prefix}sales_bad_values;
" |});
   ("problem_11",
    {| name := "CSV Values in Columns (1NF Violation)";
       description := "Show multi-valued fields that should be separate tables";
       query := "
-- Count articles by number of tags
SELECT
    (LENGTH(tags) - LENGTH(REPLACE(tags, ',', '')) + 1) as num_tags,
    COUNT(*) as article_count
FROM {prefix}articles_csv_tags
WHERE tags IS NOT NULL AND tags != ''
GROUP BY (LENGTH(tags) - LENGTH(REPLACE(tags, ',', '')) + 1)
ORDER BY num_tags;
" |});
   ("problem_12",
    {| name := "Encoding and Special Characters";
       description := "Find records with special characters";
       query := "
SELECT customer_name, LENGTH(customer_name) as length
FROM {prefix}international_data
WHERE customer_name LIKE '%ÔøΩ%'
   OR customer_name LIKE '%\n%'
   OR customer_name LIKE '%\t%'
LIMIT 20;
" |});
   ("problem_13",
    {| name := "God Table Redundancy";
       description := "Show data redundancy in denormalized table";
       query := "
-- Same customer info repeated many times
SELECT customer_id, customer_email,
       COUNT(*) as times_repeated,
       COUNT(DISTINCT order_id) as unique_orders
FROM {prefix}god_table
GROUP BY customer_id, customer_email
ORDER BY times_repeated DESC
LIMIT 10;
" |});
   ("problem_14",
    {| name := "Missing Indexes Impact";
       description := "Show query that would benefit from indexes";
       query := "
-- This query scans full table without indexes
-- In a real workshop, compare EXPLAIN plans before/after adding index
SELECT user_id, action_type, COUNT(*) as count
FROM {prefix}audit_log_no_index
WHERE created_at > CURRENT_DATE - INTERVAL '7 days'
  AND action_type = 'LOGIN'
  AND status = 'success'
GROUP BY user_id, action_type
ORDER BY count DESC
LIMIT 10;
" |});
   ("problem_15",
    {| name := "Type Coercion Join Failures";
       description := "Show how string/int ID mismatch breaks joins";
       query := "
-- This join may fail or produce wrong results due to type mismatch
SELECT
    a.account_id as int_id,
    t.account_id as str_id,
    a.account_name,
    t.amount
FROM {prefix}accounts_int_id a
JOIN {prefix}transactions_str_id t
    ON a.account_id = CAST(t.account_id AS INTEGER)
WHERE t.account_id LIKE '0%'
LIMIT 10;

-- Count of transactions that won't join properly with direct comparison
SELECT COUNT(*) as problematic_transactions
FROM {prefix}transactions_str_id
WHERE account_id LIKE '0%';
" |})
  ].

Definition db_type_name (t : DBType) : string :=
  match t with
  | postgres => "postgres"
  | mysql => "mysql"
  | redshift => "redshift"
  end.

(** Display diagnostic queries for all problems. *)
Definition show_diagnostics (t : DBType) : M unit :=
  let prefix := match t with
                | mysql => "bdw_"
                | _ => (SCHEMA_NAME ++ ".")%string
                end in
  call (ConsolePrint "") ;;
  call (ConsolePanel
          ("[bold cyan]Bad Data Workshop - Diagnostic Queries[/bold cyan]"
           ++ NL ++ NL
           ++ "Run these queries to discover and analyze the data problems.")) ;;
  for_each DIAGNOSTIC_QUERIES (fun '(problem_id, info) =>
    call (ConsolePrint "") ;;
    call (ConsolePrint
            ("[bold yellow]‚ïê‚ïê‚ïê " ++ name info ++ " ‚ïê‚ïê‚ïê[/bold yellow]")) ;;
    call (ConsolePrint ("[dim]" ++ description info ++ "[/dim]")) ;;
    call (ConsolePrint "") ;;
    (* Replace prefix placeholder *)
    let query := str_replace "{prefix}" prefix (query info) in
    call (ConsolePanel (str_strip query))).

(* ===================================================================== *)
(** ** Main setup and teardown *)
(* ===================================================================== *)

(** [d.get(key, default)] on a dictionary with string keys. *)
Fixpoint dict_get {V : Type} (d : list (string * V)) (key : string)
    (default : V) : V :=
  match d with
  | [] => default
  | (k, v) :: d' => if String.eqb k key then v else dict_get d' key default
  end.

(** Scale determines row counts. *)
Definition scales : list (string * Z) :=
  [("tiny", 100);         (* For quick testing *)
   ("small", 10000);      (* ~50MB *)
   ("medium", 100000);    (* ~500MB *)
   ("large", 500000);     (* ~2.5GB *)
   ("xlarge", 1000000)].  (* ~5GB *)

Definition problems (base_rows : Z) : list (string * (Z -> M unit) * Z) :=
  [("Problem 1: No Primary Keys", problem_01_no_primary_key, base_rows);
   ("Problem 2: Missing Foreign Keys", problem_02_missing_foreign_keys,
    base_rows);
   ("Problem 3: Wrong Data Types", problem_03_wrong_data_types, base_rows);
   ("Problem 4: Missing NOT NULL", problem_04_missing_not_null, base_rows);
   ("Problem 5: Duplicate Records", problem_05_duplicate_records, base_rows);
   ("Problem 6: Inconsistent Dates", problem_06_inconsistent_dates,
    base_rows);
   ("Problem 7: Inconsistent Casing", problem_07_inconsistent_casing,
    base_rows);
   ("Problem 8: Whitespace Issues", problem_08_whitespace_issues, base_rows);
   ("Problem 9: Invalid Emails", problem_09_invalid_emails, base_rows);
   ("Problem 10: Out of Range Values", problem_10_out_of_range, base_rows);
   ("Problem 11: CSV in Columns", problem_11_csv_in_columns, base_rows);
   ("Problem 12: Encoding Issues", problem_12_encoding_issues, base_rows);
   ("Problem 13: God Table", problem_13_god_table, base_rows * 2);
   ("Problem 14: Missing Indexes", problem_14_missing_indexes, base_rows * 5);
   ("Problem 15: Type Coercion", problem_15_type_coercion, base_rows)].

(** The digits of a natural number in groups of three, as [{n:,}] prints. *)
Fixpoint group_thousands (fuel : nat) (n : Z) : string :=
  match fuel with
  | O => str n
  | S fuel' =>
      if n <? 1000 then str n
      else (group_thousands fuel' (n / 1000) ++ ","
            ++ format_0d 3 (n mod 1000))%string
  end.

Definition format_thousands (n : Z) : string :=
  ((if (n <? 0)%Z then "-" else "")
   ++ group_thousands (Z.to_nat (Z.log2 (Z.abs n))) (Z.abs n))%string.

Definition error_line (e : Exn) : string :=
  (NL ++ "[red bold]Error:[/red bold] " ++ exn_text e)%string.

(** [with Progress(...) as progress: body]. *)
Definition with_progress {A : Type} (body : M A) : M A :=
  call ProgressEnter ;;
  try_finally body (call ProgressExit).

(** Set up the workshop database with all problems. *)
Definition setup_workshop (cfg : DBConfig) (scale : string) : M unit :=
  let base_rows := dict_get scales scale 10000 in
  let problems := problems base_rows in
  set_this (get_adapter cfg) ;;
  try_finally
    (try_except
       (call (ConsolePrint "") ;;
        call (ConsolePanel
                ("[bold green]Bad Data Workshop Setup[/bold green]"
                 ++ NL ++ NL
                 ++ "Database: [cyan]" ++ db_type_name (db_type cfg)
                 ++ "[/cyan]" ++ NL
                 ++ "Host: [cyan]" ++ host cfg ++ ":" ++ str (port cfg)
                 ++ "[/cyan]" ++ NL
                 ++ "Scale: [cyan]" ++ scale ++ "[/cyan] ("
                 ++ format_thousands base_rows ++ " base rows)")) ;;
        call (ConsolePrint (NL ++ "[cyan]Connecting to database...[/cyan]")) ;;
        connect ;;
        call (ConsolePrint "[green]‚úì Connected[/green]") ;;
        call (ConsolePrint "[cyan]Creating schema...[/cyan]") ;;
        create_schema ;;
        call (ConsolePrint "[green]‚úì Schema created[/green]") ;;
        call (ConsolePrint "") ;;
        with_progress
          (call (ProgressAddTask "[cyan]Setting up problems..."
                   (len problems)) ;;
           for_each problems (fun '(name, func, rows) =>
             call (ProgressUpdate ("[cyan]" ++ name ++ "...")) ;;
             func rows ;;
             call ProgressAdvance)) ;;
        call (ConsolePrint "") ;;
        call (ConsolePanel
                ("[bold green]‚úì Workshop setup complete![/bold green]"
                 ++ NL ++ NL
                 ++ "Created " ++ str (len problems) ++ " problem tables."
                 ++ NL
                 ++ "Run with [cyan]diagnose[/cyan] command to see diagnostic queries.")))
       (fun e => call (ConsolePrint (error_line e)) ;; raise e))
    close.

(** Remove all workshop data and schema. *)
Definition teardown_workshop (cfg : DBConfig) : M unit :=
  set_this (get_adapter cfg) ;;
  try_finally
    (try_except
       (call (ConsolePrint "") ;;
        call (ConsolePanel
                ("[bold red]Bad Data Workshop Teardown[/bold red]"
                 ++ NL ++ NL
                 ++ "Database: [cyan]" ++ db_type_name (db_type cfg)
                 ++ "[/cyan]" ++ NL
                 ++ "Host: [cyan]" ++ host cfg ++ ":" ++ str (port cfg)
                 ++ "[/cyan]")) ;;
        call (ConsolePrint (NL ++ "[cyan]Connecting to database...[/cyan]")) ;;
        connect ;;
        call (ConsolePrint "[green]‚úì Connected[/green]") ;;
        call (ConsolePrint "[red]Dropping schema and all objects...[/red]") ;;
        drop_schema ;;
        call (ConsolePrint "[green]‚úì Schema dropped[/green]") ;;
        call (ConsolePrint "") ;;
        call (ConsolePanel
                ("[bold green]‚úì Teardown complete![/bold green]"
                 ++ NL ++ NL ++ "All workshop data has been removed.")))
       (fun e => call (ConsolePrint (error_line e)) ;; raise e))
    close.

(* ===================================================================== *)
(** ** Command line *)
(* ===================================================================== *)

(** The parsed arguments of the three subcommands. *)
Inductive Command : Type :=
| Setup (t : DBType) (h : string) (p : option Z) (d u pw : string)
        (scale : string)
| Teardown (t : DBType) (h : string) (p : option Z) (d u pw : string)
| Diagnose (t : DBType).

(** Get default port for database type. *)
Definition get_default_port (t : DBType) : Z :=
  match t with
  | postgres => 5432
  | mysql => 3306
  | redshift => 5439
  end.

(** [args.port or get_default_port(args.db_type)]. *)
Definition port_or_default (p : option Z) (t : DBType) : Z :=
  match p with
  | Some n => if n =? 0 then get_default_port t else n
  | None => get_default_port t
  end.

(** What loading the module does: both generators are seeded. *)
Definition module_init : Gen unit :=
  Faker_seed 42 ;;
  random_seed 42.

(** Main entry point: the exit code of the command. *)
Definition main (cmd : Command) : M Z := fun w =>
  let body : M Z :=
    match cmd with
    | Diagnose t => show_diagnostics t ;; ret 0
    | Setup t h p d u pw scale =>
        setup_workshop {| db_type := t; host := h;
                          port := port_or_default p t; database := d;
                          user := u; password := pw |} scale ;;
        ret 0
    | Teardown t h p d u pw =>
        teardown_workshop {| db_type := t; host := h;
                             port := port_or_default p t; database := d;
                             user := u; password := pw |} ;;
        ret 0
    end in
  match body w with
  | (Ok code, w1) => (Ok code, w1)
  | (Raise KeyboardInterrupt, w1) =>
      (call (ConsolePrint
               (NL ++ "[yellow]Operation cancelled by user[/yellow]")) ;;
       ret 130) w1
  | (Raise e, w1) => (call (ConsolePrint (error_line e)) ;; ret 1) w1
  end.

(** One run of the script: the module is loaded, then [main] runs. *)
Definition script (cmd : Command) : M Z :=
  lift module_init ;;
  main cmd.

(* ===================================================================== *)
(** * Observing a run *)
(* ===================================================================== *)

(** How a computation ends from a world, and the calls it adds to the
    trace. *)
Definition outcome_of {A : Type} (m : M A) (w : World) : Outcome A :=
  fst (m w).

Definition calls_of {A : Type} (m : M A) (w : World) : list Call :=
  skipn (List.length (trace w)) (trace (snd (m w))).

(** The rows one call inserts. *)
Definition batch_rows (c : Call) : list Row :=
  match c with
  | CursorExecuteMany _ rows => rows
  | _ => []
  end.

(** A call that carries at most [B] rows. *)
Definition batch_le (B : nat) (c : Call) : Prop :=
  (List.length (batch_rows c) <= B)%nat.

(** The rows a trace inserts with the statement [sql], in order. *)
Definition rows_into (sql : string) (tr : list Call) : list Row :=
  flat_map (fun c =>
              match c with
              | CursorExecuteMany s rows => if String.eqb s sql then rows else []
              | _ => []
              end) tr.

(** The rows a trace inserts with one of the statements [sqls]. *)
Definition rows_into_any (sqls : list string) (tr : list Call) : list Row :=
  flat_map (fun c =>
              match c with
              | CursorExecuteMany s rows =>
                  if existsb (String.eqb s) sqls then rows else []
              | _ => []
              end) tr.

Definition is_prefix (tr full : list Call) : Prop :=
  exists rest, full = tr ++ rest.

(** A world where no call is scheduled to raise and both handles are live. *)
Definition healthy (w : World) : Prop :=
  (forall n, faults w n = None) /\
  cursor (db w) <> None /\ connection (db w) <> None.

(** [gpost g P]: whatever the streams hold, the value [g] returns is in [P]. *)
Definition gpost {A : Type} (g : Gen A) (P : A -> Prop) : Prop :=
  forall s, P (fst (g s)).

(** [mspec d m S F]: from any world whose adapter is [d], the computation [m]
    leaves the adapter and the fault schedule as they were and extends the
    trace by some calls [tr]; [S a tr] holds when it returns [a], [F tr] when
    it raises, and it only raises in a world that is not healthy. *)
Definition mspec (d : DatabaseAdapter) {A : Type} (m : M A)
    (S : A -> list Call -> Prop) (F : list Call -> Prop) : Prop :=
  forall w, db w = d ->
    exists tr,
      trace (snd (m w)) = trace w ++ tr /\
      db (snd (m w)) = d /\
      faults (snd (m w)) = faults w /\
      match fst (m w) with
      | Ok a => S a tr
      | Raise _ => F tr /\ ~ healthy w
      end.

(** ** The shape of a generator's calls *)

(** What the iteration of index [i] appends to the batch: one row. *)
Definition single (Q : Z -> Row -> Prop) (i : Z) (g : list Row) : Prop :=
  exists r, g = [r] /\ Q i r.

(** The rows of the batch that starts at [bs], grouped by iteration. *)
Definition batch_of (group : Z -> list Row -> Prop) (n bs : Z)
    (rows : list Row) : Prop :=
  exists groups,
    rows = List.concat groups /\
    Forall2 group (py_range bs (Z.min (bs + 1000) n) 1) groups.

(** The number of indices of the batch that starts at [bs]. *)
Definition batch_count (n bs : Z) : nat :=
  Z.to_nat (Z.min (bs + 1000) n - bs).

(** A generator that follows the common template: some calls [pre] that
    create and seed tables, then one bulk insert per batch, then a commit. *)
Record Template : Type := {
  t_pre : list Call -> Prop;     (* the calls before the first batch *)
  t_early : list Call -> Prop;   (* the calls of a run that raised in them *)
  t_sql : string;
  t_group : Z -> list Row -> Prop
}.

Definition template_done (T : Template) (n : Z) (tr : list Call) : Prop :=
  exists pre batches,
    t_pre T pre /\
    Forall2 (batch_of (t_group T) n) (py_range 0 n 1000) batches /\
    tr = pre ++ map (CursorExecuteMany (t_sql T)) batches
             ++ [ConnectionCommit].

Definition template_failed (T : Template) (n : Z) (tr : list Call) : Prop :=
  t_early T tr \/
  exists pre j batches,
    t_pre T pre /\
    Forall2 (batch_of (t_group T) n) (firstn j (py_range 0 n 1000)) batches /\
    tr = pre ++ map (CursorExecuteMany (t_sql T)) batches.

(** A generator that keeps one buffer across its loop and flushes it when it
    holds a full batch: the buffer grows by one group of rows per item. *)
Record Flushing (X : Type) : Type := {
  f_pre : list Call;
  f_sql : string;
  f_sql_tail : string;
  f_items : list X;                  (* what the loop runs over *)
  f_group : X -> list Row -> Prop;   (* what the iteration of an item appends *)
  f_most : nat                       (* the most rows a group holds *)
}.
Arguments f_pre {X} _.
Arguments f_sql {X} _.
Arguments f_sql_tail {X} _.
Arguments f_items {X} _.
Arguments f_group {X} _ _ _.
Arguments f_most {X} _.

(** What one iteration of a flushing loop does with the buffer [rows]: it
    appends a group and, when the buffer then holds a full batch, sends it
    and starts an empty one. *)
Definition flush_step (d : DatabaseAdapter) {X : Type} (sql : string)
    (group : X -> list Row -> Prop) (body : X -> list Row -> M (list Row))
    (x : X) (rows : list Row) : Prop :=
  mspec d (body x rows)
    (fun rows' tr =>
       exists g, group x g /\
         (((List.length (rows ++ g) < 1000)%nat /\
           rows' = rows ++ g /\ tr = []) \/
          ((1000 <= List.length (rows ++ g))%nat /\
           rows' = [] /\ tr = [CursorExecuteMany sql (rows ++ g)])))
    (fun tr =>
       tr = [] /\ exists g, group x g /\ (1000 <= List.length (rows ++ g))%nat).

(** A bulk insert sent by the loop: a full batch that the last group may
    have overshot. *)
Definition full_batch (most : nat) (b : list Row) : Prop :=
  (1000 <= List.length b < 1000 + most)%nat.

(** After [groups] were appended, [batches] were sent and [rest] is still in
    the buffer. *)
Definition flushed (most : nat) (groups batches : list (list Row))
    (rest : list Row) : Prop :=
  List.concat groups = List.concat batches ++ rest /\
  Forall (full_batch most) batches.

Definition tail_flush (sql : string) (rest : list Row) : list Call :=
  match rest with
  | [] => []
  | _ :: _ => [CursorExecuteMany sql rest]
  end.

Definition flushing_done {X : Type} (T : Flushing X) (tr : list Call)
    : Prop :=
  exists groups batches rest,
    Forall2 (f_group T) (f_items T) groups /\
    flushed (f_most T) groups batches rest /\
    (List.length rest < 1000)%nat /\
    tr = f_pre T ++ map (CursorExecuteMany (f_sql T)) batches
           ++ tail_flush (f_sql_tail T) rest ++ [ConnectionCommit].

Definition flushing_failed {X : Type} (T : Flushing X) (tr : list Call)
    : Prop :=
  exists j groups batches rest,
    Forall2 (f_group T) (firstn j (f_items T)) groups /\
    flushed (f_most T) groups batches rest /\
    (List.length rest < 1000 + f_most T)%nat /\
    is_prefix tr (f_pre T ++ map (CursorExecuteMany (f_sql T)) batches
                    ++ tail_flush (f_sql_tail T) rest).

(** ** Whole commands *)

(** [framed m w]: the run of [m] from [w] only adds calls to the trace. *)
Definition framed {A : Type} (m : M A) (w : World) : Prop :=
  trace (snd (m w)) = trace w ++ calls_of m w.

(** [emits P m]: however [m] ends, it adds to the trace only calls in
    [P]. *)
Definition emits (P : Call -> Prop) {A : Type} (m : M A) : Prop :=
  forall w, exists tr, trace (snd (m w)) = trace w ++ tr /\ Forall P tr.

(** [returning m S]: when [m] returns [a], the calls it added are in
    [S a]. *)
Definition returning {A : Type} (m : M A) (S : A -> list Call -> Prop)
    : Prop :=
  forall w, exists tr,
    trace (snd (m w)) = trace w ++ tr /\
    forall a, fst (m w) = Ok a -> S a tr.

(** A property of traces that calls in [P] before and after do not
    disturb. *)
Definition absorbing (P : Call -> Prop) (Q : list Call -> Prop) : Prop :=
  forall a tr b, Forall P a -> Forall P b -> Q tr -> Q (a ++ tr ++ b).

(** A world in which no call is scheduled to raise. *)
Definition quiet (w : World) : Prop := forall n, faults w n = None.

(** [runs m a tr]: in a quiet world [m] returns [a] after exactly the
    calls [tr]. *)
Definition runs {A : Type} (m : M A) (a : A) (tr : list Call) : Prop :=
  forall w, quiet w ->
    fst (m w) = Ok a /\ trace (snd (m w)) = trace w ++ tr /\
    quiet (snd (m w)).

(** ** The shape of each generator *)

Definition pfx (d : DatabaseAdapter) : string :=
  table_prefix_of (db_type (config d)).
Definition auto_inc_of (d : DatabaseAdapter) : string :=
  auto_increment_syntax_of (db_type (config d)).
Definition boolean_of (d : DatabaseAdapter) : string :=
  boolean_type_of (db_type (config d)).

Definition any_row (_ : Z) (_ : Row) : Prop := True.

(** One table, one row per index. *)
Definition plain_template (create insert : string)
    (group : Z -> list Row -> Prop) : Template :=
  {| t_pre := eq [CursorExecute create None];
     t_early := eq [];
     t_sql := insert;
     t_group := group |}.

(** Problem 1: a row, and for one row in ten the same row again. *)
Definition template_01 (d : DatabaseAdapter) : Template :=
  plain_template (sql_create_customers_no_pk (pfx d))
                 (sql_insert_customers_no_pk (pfx d))
                 (fun _ g => exists r, g = [r] \/ g = [r; r]).

(** An order row: the customer comes from its sampler, run on some state of
    the sources, and the product from its sampler, run on the state the
    first one left. *)
Definition order_row (r : Row) : Prop :=
  exists s quantity order_date,
    r = [VInt (fst (order_customer_id s));
         VInt (fst (order_product_id (snd (order_customer_id s))));
         VInt quantity; VDateTime order_date].

(** Problem 2: the products table is created and seeded, the orders table
    is created, then the orders are inserted. *)
Definition template_02 (d : DatabaseAdapter) : Template :=
  {| t_pre := fun pre =>
       exists products,
         List.length products = 100%nat /\
         pre = [CursorExecute (sql_create_products (pfx d) (auto_inc_of d))
                  None;
                CursorExecuteMany (sql_insert_products (pfx d)) products;
                CursorExecute (sql_create_orders_no_fk (pfx d) (auto_inc_of d))
                  None];
     t_early := fun tr =>
       tr = [] \/
       tr = [CursorExecute (sql_create_products (pfx d) (auto_inc_of d))
               None] \/
       exists products,
         List.length products = 100%nat /\
         tr = [CursorExecute (sql_create_products (pfx d) (auto_inc_of d))
                 None;
               CursorExecuteMany (sql_insert_products (pfx d)) products];
     t_sql := sql_insert_orders_no_fk (pfx d);
     t_group := single (fun _ r => order_row r) |}.

Definition template_03 (d : DatabaseAdapter) : Template :=
  plain_template (sql_create_transactions_bad_types (pfx d))
                 (sql_insert_transactions_bad_types (pfx d))
                 (single any_row).

Definition template_04 (d : DatabaseAdapter) : Template :=
  plain_template
    (sql_create_employees_nulls (pfx d) (auto_inc_of d) (boolean_of d))
    (sql_insert_employees_nulls (pfx d))
    (single any_row).

Definition template_06 (d : DatabaseAdapter) : Template :=
  plain_template (sql_create_events_bad_dates (pfx d))
                 (sql_insert_events_bad_dates (pfx d))
                 (single any_row).

Definition template_07 (d : DatabaseAdapter) : Template :=
  plain_template (sql_create_contacts_bad_casing (pfx d))
                 (sql_insert_contacts_bad_casing (pfx d))
                 (single any_row).

Definition template_08 (d : DatabaseAdapter) : Template :=
  plain_template (sql_create_inventory_whitespace (pfx d))
                 (sql_insert_inventory_whitespace (pfx d))
                 (single any_row).

Definition template_09 (d : DatabaseAdapter) : Template :=
  plain_template (sql_create_subscribers_bad_emails (pfx d))
                 (sql_insert_subscribers_bad_emails (pfx d))
                 (single any_row).

Definition template_10 (d : DatabaseAdapter) : Template :=
  plain_template (sql_create_sales_bad_values (pfx d))
                 (sql_insert_sales_bad_values (pfx d))
                 (single any_row).

Definition template_11 (d : DatabaseAdapter) : Template :=
  plain_template (sql_create_articles_csv_tags (pfx d))
                 (sql_insert_articles_csv_tags (pfx d))
                 (single any_row).

Definition template_12 (d : DatabaseAdapter) : Template :=
  plain_template (sql_create_international_data (pfx d))
                 (sql_insert_international_data (pfx d))
                 (single any_row).

Definition template_14 (d : DatabaseAdapter) : Template :=
  plain_template (sql_create_audit_log_no_index (pfx d) (auto_inc_of d))
                 (sql_insert_audit_log_no_index (pfx d))
                 (single any_row).

(** An account row: the integer id of its index. *)
Definition account_row (i : Z) (r : Row) : Prop :=
  exists account_name balance, r = [VInt (i + 1); VStr account_name;
                                    VFloat balance].

(** A transaction row: an account id is drawn, then the coin that decides
    how its text is written. *)
Definition transaction_row (i : Z) (r : Row) : Prop :=
  exists s amount txn_date,
    let acct_id := fst (random_randint 1 1000 s) in
    let u := fst (random_random (snd (random_randint 1 1000 s))) in
    r = [VInt (i + 1); VStr (acct_id_text acct_id u); VFloat amount;
         VDate txn_date].

(** Problem 15: both tables are created, the accounts are inserted, then
    the transactions. *)
Definition template_15 (d : DatabaseAdapter) : Template :=
  {| t_pre := fun pre =>
       exists accounts,
         Forall2 account_row (py_range 0 1000 1) accounts /\
         pre = [CursorExecute (sql_create_accounts_int_id (pfx d)) None;
                CursorExecute (sql_create_transactions_str_id (pfx d)) None;
                CursorExecuteMany (sql_insert_accounts_int_id (pfx d))
                  accounts];
     t_early := fun tr =>
       tr = [] \/
       tr = [CursorExecute (sql_create_accounts_int_id (pfx d)) None] \/
       tr = [CursorExecute (sql_create_accounts_int_id (pfx d)) None;
             CursorExecute (sql_create_transactions_str_id (pfx d)) None];
     t_sql := sql_insert_transactions_str_id (pfx d);
     t_group := single transaction_row |}.

(** How often the loop of the fifth generator appends the row of a user,
    from the state [s] of the sources at its coin: once, and when
    [random.random()] is below 0.5 as often again as [random.randint(1, 3)]
    then says. *)
Definition copies_from (s : Sources) : nat :=
  if Qltb (fst (random_random s)) 0.5
  then S (Z.to_nat (fst (random_randint 1 3 (snd (random_random s)))))
  else 1%nat.

(** Problem 5: every base user is written once and then, when the coin says
    so, up to three more times; the buffer is flushed when it holds a full
    batch. *)
Definition user_group (u : BaseUser) (g : list Row) : Prop :=
  exists s, g = repeat (user_row u) (copies_from s).

Definition base_user_ids (base_users : list BaseUser) (num_rows : Z) : Prop :=
  map user_id base_users = map (fun i => i + 1) (py_range 0 (num_rows / 3) 1).

Definition flushing_05 (d : DatabaseAdapter) (base_users : list BaseUser)
    : Flushing BaseUser :=
  {| f_pre := [CursorExecute
                 (sql_create_users_duplicates (pfx d) (auto_inc_of d)) None];
     f_sql := sql_insert_users_duplicates (pfx d);
     f_sql_tail := sql_insert_users_duplicates_tail (pfx d);
     f_items := base_users;
     f_group := user_group;
     f_most := 4 |}.

(** Problem 13: one row per index, flushed when a thousand are held. *)
Definition flushing_13 (d : DatabaseAdapter) (n : Z) : Flushing Z :=
  {| f_pre := [CursorExecute (sql_create_god_table (pfx d)) None];
     f_sql := sql_insert_god_table (pfx d);
     f_sql_tail := sql_insert_god_table_tail (pfx d);
     f_items := py_range 0 n 1;
     f_group := single any_row;
     f_most := 1 |}.

(** ** What the properties speak of *)

(** A call that runs SQL through the cursor. *)
Definition only_sql (c : Call) : Prop :=
  match c with
  | CursorExecute _ _ | CursorExecuteMany _ _ => True
  | _ => False
  end.

(** The protocol of a generator with batches of at most [B] rows: when it
    returns, the commit is its last call and the only one; when it raises,
    nothing was committed, and the world was not healthy. *)
Definition generator_protocol (B : nat) (m : M unit) : Prop :=
  forall w,
    match outcome_of m w with
    | Ok _ =>
        exists body,
          calls_of m w = body ++ [ConnectionCommit] /\
          Forall only_sql body /\ Forall (batch_le B) body
    | Raise _ =>
        Forall only_sql (calls_of m w) /\
        Forall (batch_le B) (calls_of m w) /\
        ~ healthy w
    end.

(** A template whose calls before the batches are SQL with at most [B] rows
    and whose groups hold at most [hi] rows. *)
Definition template_ok (B hi : nat) (T : Template) : Prop :=
  (forall pre, t_pre T pre ->
     Forall only_sql pre /\ Forall (batch_le B) pre) /\
  (forall tr, t_early T tr ->
     Forall only_sql tr /\ Forall (batch_le B) tr) /\
  (forall i g, t_group T i g -> (List.length g <= hi)%nat) /\
  (hi * 1000 <= B)%nat.

(** The largest bulk insert of each generator, in declaration order. *)
Definition batch_bounds : list nat :=
  [2000; 1000; 1000; 1000; 1003; 1000; 1000; 1000; 1000; 1000; 1000; 1000;
   1000; 1000; 1000]%nat.

(** The statements with which each generator fills its problem table. *)
Definition problem_inserts (d : DatabaseAdapter) : list (list string) :=
  [ [sql_insert_customers_no_pk (pfx d)];
    [sql_insert_orders_no_fk (pfx d)];
    [sql_insert_transactions_bad_types (pfx d)];
    [sql_insert_employees_nulls (pfx d)];
    [sql_insert_users_duplicates (pfx d);
     sql_insert_users_duplicates_tail (pfx d)];
    [sql_insert_events_bad_dates (pfx d)];
    [sql_insert_contacts_bad_casing (pfx d)];
    [sql_insert_inventory_whitespace (pfx d)];
    [sql_insert_subscribers_bad_emails (pfx d)];
    [sql_insert_sales_bad_values (pfx d)];
    [sql_insert_articles_csv_tags (pfx d)];
    [sql_insert_international_data (pfx d)];
    [sql_insert_god_table (pfx d); sql_insert_god_table_tail (pfx d)];
    [sql_insert_audit_log_no_index (pfx d)];
    [sql_insert_transactions_str_id (pfx d)] ].

(** A generator that, in a healthy world, returns after writing between
    [lo] and [hi] rows with the statements [sqls]. *)
Definition writes_rows (sqls : list string) (lo hi : nat) (m : M unit)
    (w : World) : Prop :=
  outcome_of m w = Ok tt /\
  (lo <= List.length (rows_into_any sqls (calls_of m w)) <= hi)%nat.

(** The rows a run writes with the statements [sqls]. *)
Definition rows_written (sqls : list string) (m : M unit) (w : World) : nat :=
  List.length (rows_into_any sqls (calls_of m w)).

(** All the rows a trace inserts, whatever the statement. *)
Definition all_rows (tr : list Call) : list Row :=
  flat_map (fun c =>
              match c with
              | CursorExecuteMany _ rows => rows
              | _ => []
              end) tr.

(** The rows a run inserts in all, into any table. *)
Definition rows_inserted (m : M unit) (w : World) : nat :=
  List.length (all_rows (calls_of m w)).

(** The rows the generator at position [i] inserts into a second table
    before it fills its own: the second one seeds 100 products, the
    fifteenth 1000 accounts. *)
Definition seed_rows (i : nat) : nat :=
  match i with
  | 1%nat => 100
  | 14%nat => 1000
  | _ => 0
  end.

(** A run that inserts in all the rows it writes with the statements [sqls]
    and [k] more. *)
Definition inserts_in_all (sqls : list string) (k : nat) (m : M unit)
    (w : World) : Prop :=
  rows_inserted m w = (rows_written sqls m w + k)%nat.

(** Every bulk insert of a run carries at most [B] rows. *)
Definition batches_within (B : nat) (m : M unit) (w : World) : Prop :=
  Forall (batch_le B) (calls_of m w).

Definition is_commit (c : Call) : bool :=
  match c with
  | ConnectionCommit => true
  | _ => false
  end.

(** How often a trace commits. *)
Definition commit_count (tr : list Call) : nat :=
  List.length (filter is_commit tr).

(** One commit, as the last call, after nothing but SQL; none when the
    generator raises. *)
Definition commits_once_last (m : M unit) (w : World) : Prop :=
  match outcome_of m w with
  | Ok _ =>
      exists body,
        calls_of m w = body ++ [ConnectionCommit] /\
        Forall only_sql body /\
        commit_count body = O /\
        commit_count (calls_of m w) = 1%nat
  | Raise _ =>
      Forall only_sql (calls_of m w) /\
      commit_count (calls_of m w) = O
  end.

(** The factor by which the generator at position [i] scales the base row
    count. *)
Definition row_factor (i : nat) : Z :=
  match i with
  | 12%nat => 2
  | 13%nat => 5
  | _ => 1
  end.

(** The rows the generator at position [i] writes when asked for [rows]:
    the first one writes some rows twice, the fifth writes one to four rows
    for a third of the count, the others write the count. *)
Definition row_count_ok (i : nat) (rows : Z) (k : nat) : Prop :=
  match i with
  | 0%nat => rows <= Z.of_nat k <= 2 * rows
  | 4%nat => rows / 3 <= Z.of_nat k <= 4 * (rows / 3)
  | _ => Z.of_nat k = rows
  end.

(** ** Samplers as functions of the draws *)

(** [random.random() < t] in terms of the draw [k] behind it: the 53-bit
    value of the draw is below [bound], the least integer not below
    [t * 2^53]. *)
Definition draw_below (bound : N) (k : N) : bool :=
  (k mod 2 ^ 53 <? bound)%N.

(** 0.3, 0.2 and 0.4 of the 2^53 values a draw can take, rounded up. *)
Definition three_tenths : N := 2702159776422298.
Definition two_tenths : N := 1801439850948199.
Definition four_tenths : N := 3602879701896397.

(** The draw [j] places after the position of the [random] generator. *)
Definition draw_at (s : Sources) (j : N) : N :=
  cells (py_random s) (pos (py_random s) + j)%N.

(** The customer of an order from a coin and a number. *)
Definition customer_of_draws (coin number : N) : Z :=
  if draw_below three_tenths coin
  then 900000 + Z.of_N number mod 100000
  else 1 + Z.of_N number mod 10000.

(** The product of an order from a coin and a number. *)
Definition product_of_draws (coin number : N) : Z :=
  if draw_below two_tenths coin
  then 500 + Z.of_N number mod 500
  else 1 + Z.of_N number mod 100.

(** The text of an account id from the draw of its coin. *)
Definition account_text_of_draws (acct_id : Z) (coin : N) : string :=
  if draw_below four_tenths coin
  then format_0d 10 acct_id
  else str acct_id.

(** The calls of the second generator when it returns: the products are
    seeded, then come the batches of orders. *)
Definition orders_trace (d : DatabaseAdapter) (products : list Row)
    (batches : list (list Row)) : list Call :=
  [CursorExecute (sql_create_products (pfx d) (auto_inc_of d)) None;
   CursorExecuteMany (sql_insert_products (pfx d)) products;
   CursorExecute (sql_create_orders_no_fk (pfx d) (auto_inc_of d)) None]
  ++ map (CursorExecuteMany (sql_insert_orders_no_fk (pfx d))) batches
  ++ [ConnectionCommit].

(** The calls of the fifteenth generator when it returns. *)
Definition transactions_trace (d : DatabaseAdapter) (accounts : list Row)
    (batches : list (list Row)) : list Call :=
  [CursorExecute (sql_create_accounts_int_id (pfx d)) None;
   CursorExecute (sql_create_transactions_str_id (pfx d)) None;
   CursorExecuteMany (sql_insert_accounts_int_id (pfx d)) accounts]
  ++ map (CursorExecuteMany (sql_insert_transactions_str_id (pfx d))) batches
  ++ [ConnectionCommit].

(** The first column of a row. *)
Definition first_column (r : Row) : Value := nth 0 r VNone.

(** Checks one account id: both texts parse back to it, and the padded one
    has ten characters. *)
Definition text_round_trips (a : Z) : bool :=
  match py_int (format_0d 10 a), py_int (str a) with
  | Some x, Some y =>
      (x =? a) && (y =? a)
      && Nat.eqb (String.length (format_0d 10 a)) 10
  | _, _ => false
  end.

(** ** Groups of duplicate users *)

Definition Q_eq_dec (x y : Q) : {x = y} + {x <> y}.
Proof. decide equality; [apply Pos.eq_dec | apply Z.eq_dec]. Defined.

Definition Value_eq_dec (a b : Value) : {a = b} + {a <> b}.
Proof.
  decide equality;
    first [apply Z.eq_dec | apply Q_eq_dec | apply string_dec
          | apply Bool.bool_dec].
Defined.

(** The columns that identify a user: user_id, username and email. *)
Definition key_of (r : Row) : list Value := firstn 3 r.

(** How many of [rows] carry the key [key]. *)
Definition group_count (key : list Value) (rows : list Row) : nat :=
  count_occ (list_eq_dec Value_eq_dec) (map key_of rows) key.

(** 0.5 of the 2^53 values a draw can take. *)
Definition half : N := 4503599627370496.

(** How often the fifth generator writes a user, from the draw of the coin
    and the draw behind [randint(1, 3)]: once when the coin is not below
    0.5, and otherwise once and one to three times more. *)
Definition copies_of_draws (coin number : N) : nat :=
  if draw_below half coin then (2 + N.to_nat (number mod 3))%nat else 1%nat.

(** A base user with the state of the sources at its coin: how often it is
    written, the rows that makes, and whether its coin asked for
    duplicates. *)
Definition copies_of (p : BaseUser * Sources) : nat :=
  copies_of_draws (draw_at (snd p) 0) (draw_at (snd p) 1).

Definition rows_of_user (p : BaseUser * Sources) : list Row :=
  repeat (user_row (fst p)) (copies_of p).

Definition duplicated (p : BaseUser * Sources) : Prop :=
  draw_below half (draw_at (snd p) 0) = true.

(** The rows the fifth generator wrote to its table. *)
Definition users_written (n : Z) (w : World) : list Row :=
  rows_into_any [sql_insert_users_duplicates (pfx (db w));
                 sql_insert_users_duplicates_tail (pfx (db w))]
    (calls_of (problem_05_duplicate_records n) w).

(** ** Closing the adapter *)

(** The driver calls [close] makes on an adapter. *)
Definition close_calls (d : DatabaseAdapter) : list Call :=
  (match cursor d with Some _ => [CursorClose] | None => [] end) ++
  (match connection d with Some _ => [ConnectionClose] | None => [] end).

(** A command that closes the adapter on its way out: [close] is entered
    once, after everything else, and what follows are its calls on the
    handles the adapter holds, up to the first that raises. *)
Definition closes_on_exit (m : M unit) (w : World) : Prop :=
  exists before after,
    calls_of m w = before ++ EnterClose :: after /\
    Forall (fun c => c <> EnterClose) before /\
    is_prefix after (close_calls (db (snd (m w)))).

(** [close] from the world [w]: it leaves the adapter as it is, touches no
    handle that is missing, raises nothing of its own, and with both
    handles missing does nothing and returns. *)
Definition close_is_safe (w : World) : Prop :=
  exists after,
    calls_of close w = EnterClose :: after /\
    is_prefix after (close_calls (db w)) /\
    db (snd (close w)) = db w /\
    (cursor (db w) = None -> ~ In CursorClose after) /\
    (connection (db w) = None -> ~ In ConnectionClose after) /\
    (forall e, outcome_of close w = Raise e -> exists k, faults w k = Some e) /\
    (cursor (db w) = None -> connection (db w) = None ->
     outcome_of close w = Ok tt /\ after = []).

(** A call that is SQL or a commit: what the generators emit. *)
Definition sql_or_commit (c : Call) : Prop :=
  only_sql c \/ c = ConnectionCommit.

(** ** The generators within setup *)

(** A call that is not a bulk insert. *)
Definition no_bulk (c : Call) : Prop :=
  match c with
  | CursorExecuteMany _ _ => False
  | _ => True
  end.

(** The calls of one entry of the list: the progress line is updated, the
    generator runs to its end from some world with the row count of the
    entry, and the progress bar advances. *)
Definition generator_run (p : string * (Z -> M unit) * Z) (seg : list Call)
    : Prop :=
  exists wi,
    outcome_of (snd (fst p) (snd p)) wi = Ok tt /\
    seg = ProgressUpdate ("[cyan]" ++ fst (fst p) ++ "...")
            :: calls_of (snd (fst p) (snd p)) wi ++ [ProgressAdvance].

(** A trace in which the entries of [l] ran one after the other, in the
    order of the list, and nothing else wrote rows. *)
Definition runs_generators (l : list (string * (Z -> M unit) * Z))
    (tr : list Call) : Prop :=
  exists pre segs post,
    tr = pre ++ List.concat segs ++ post /\
    Forall no_bulk pre /\ Forall no_bulk post /\
    Forall2 generator_run l segs.

Definition scale_tokens : list string :=
  ["tiny"; "small"; "medium"; "large"; "xlarge"].

(** The generators in the order of their declaration. *)
Definition generators_in_order : list (Z -> M unit) :=
  [problem_01_no_primary_key; problem_02_missing_foreign_keys;
   problem_03_wrong_data_types; problem_04_missing_not_null;
   problem_05_duplicate_records; problem_06_inconsistent_dates;
   problem_07_inconsistent_casing; problem_08_whitespace_issues;
   problem_09_invalid_emails; problem_10_out_of_range;
   problem_11_csv_in_columns; problem_12_encoding_issues;
   problem_13_god_table; problem_14_missing_indexes;
   problem_15_type_coercion].

(** The row count each generator is given. *)
Definition row_counts (base : Z) : list Z :=
  [base; base; base; base; base; base; base; base; base; base; base; base;
   2 * base; 5 * base; base].

(** ** The diagnose command *)

(** The prefix the diagnostic queries are shown with. *)
Definition diagnostic_prefix (t : DBType) : string :=
  match t with
  | mysql => "bdw_"
  | _ => (SCHEMA_NAME ++ ".")%string
  end.

(** The query of an entry as it is shown. *)
Definition emitted_query (t : DBType) (info : DiagnosticEntry) : string :=
  str_strip (str_replace "{prefix}" (diagnostic_prefix t) (query info)).

(** What the console receives for one entry. *)
Definition entry_calls (t : DBType) (info : DiagnosticEntry) : list Call :=
  [ConsolePrint "";
   ConsolePrint
     ("[bold yellow]‚ïê‚ïê‚ïê " ++ name info ++ " ‚ïê‚ïê‚ïê[/bold yellow]");
   ConsolePrint ("[dim]" ++ description info ++ "[/dim]");
   ConsolePrint "";
   ConsolePanel (emitted_query t info)].

Definition diagnose_header : list Call :=
  [ConsolePrint "";
   ConsolePanel
     ("[bold cyan]Bad Data Workshop - Diagnostic Queries[/bold cyan]"
      ++ NL ++ NL
      ++ "Run these queries to discover and analyze the data problems.")].

Definition diagnose_trace (t : DBType) : list Call :=
  diagnose_header
  ++ flat_map (fun p => entry_calls t (snd p)) DIAGNOSTIC_QUERIES.

(** The query shown for an entry is not empty, holds no placeholder, and
    names the prefix where the entry had a placeholder. *)
Definition query_ok (t : DBType) (info : DiagnosticEntry) : bool :=
  let q := emitted_query t info in
  negb (String.eqb q "")
  && negb (contains "{prefix}" q)
  && implb (contains "{prefix}" (query info))
           (contains (diagnostic_prefix t) q).

(** ** The dataset of a run *)

(** The rows a trace inserts, each with the statement that inserts it. *)
Definition dataset (tr : list Call) : list (string * Row) :=
  flat_map (fun c =>
              match c with
              | CursorExecuteMany sql rows => map (pair sql) rows
              | _ => []
              end) tr.

(** Two worlds that differ at most in the state of the two generators. *)
Definition same_but_generators (w1 w2 : World) : Prop :=
  lib (sources w1) = lib (sources w2) /\
  wall_clock (sources w1) = wall_clock (sources w2) /\
  clock_reads (sources w1) = clock_reads (sources w2) /\
  db w1 = db w2 /\ trace w1 = trace w2 /\ ticks w1 = ticks w2 /\
  faults w1 = faults w2 /\ catalog w1 = catalog w2.

(** The timestamp of the first row of a dataset. *)
Definition first_timestamp (d : list (string * Row)) : Value :=
  nth 4 (snd (nth 0 d ("", []))) VNone.

(* ===================================================================== *)
(** * A concrete world *)
(* ===================================================================== *)

(** The libraries the program draws from are not part of it; the properties
    below hold for any [Library].  To run the model on concrete inputs we fix
    one: a generator that scatters its 53-bit draws over the whole range, and
    providers that keep their arguments readable. *)
Definition sample_library : Library := {|
  mersenne := fun seed i =>
    Z.to_N (((seed + 7919 * Z.of_N i * Z.of_N i + 104729 * Z.of_N i)
             mod 1000003) * 9007199254);
  provider := fun method k => (method ++ "#" ++ str (Z.of_N k))%string;
  strftime := fun fmt d => (fmt ++ "@" ++ str d)%string;
  format_float := fun spec q =>
    (spec ++ "@" ++ str (Qnum q) ++ "/" ++ str (Z.pos (Qden q)))%string
|}.

(** Sources whose clock starts at [t0] and ticks once a reading; both
    generators are in the state [seed] leaves them in. *)
Definition sample_sources (seed t0 : Z) : Sources := {|
  lib := sample_library;
  py_random := {| cells := mersenne sample_library seed; pos := 0 |};
  faker_random := {| cells := mersenne sample_library seed; pos := 0 |};
  wall_clock := fun n => t0 + Z.of_N n;
  clock_reads := 0
|}.

Definition sample_config (t : DBType) : DBConfig := {|
  db_type := t; host := "localhost"; port := get_default_port t;
  database := "workshop"; user := "workshop"; password := "workshop"
|}.

(** Sources whose generators return the draw [k] every time. *)
Definition constant_sources (k : N) (t0 : Z) : Sources := {|
  lib := sample_library;
  py_random := {| cells := fun _ => k; pos := 0 |};
  faker_random := {| cells := fun _ => k; pos := 0 |};
  wall_clock := fun n => t0 + Z.of_N n;
  clock_reads := 0
|}.

(** A world with a connected adapter for backend [t] in which no call
    fails. *)
Definition connected_with (src : Sources) (t : DBType) : World := {|
  sources := src;
  db := {| config := sample_config t; connection := Some Live;
           cursor := Some Live |};
  trace := [];
  ticks := 0;
  faults := fun _ => None;
  catalog := ["bdw_customers_no_pk"; "bdw_products"]
|}.

Definition connected_world (t : DBType) (seed t0 : Z) : World :=
  connected_with (sample_sources seed t0) t.

(** The world a fresh process starts in: nothing is connected yet, and the
    call number [k] is scheduled to raise [e]. *)
Definition fresh_world (seed t0 : Z) (fault : nat -> option Exn) : World := {|
  sources := sample_sources seed t0;
  db := {| config := sample_config postgres; connection := None;
           cursor := None |};
  trace := [];
  ticks := 0;
  faults := fault;
  catalog := ["bdw_customers_no_pk"; "bdw_products"]
|}.

Definition no_fault : nat -> option Exn := fun _ => None.

Definition fault_at (k : nat) (e : Exn) : nat -> option Exn :=
  fun n => if Nat.eqb n k then Some e else None.

(** The largest bulk insert of a trace. *)
Definition largest_batch (tr : list Call) : nat :=
  fold_right Nat.max O (map (fun c => List.length (batch_rows c)) tr).

(* ===================================================================== *)
(** * Running to the end, and what a run can raise *)
(* ===================================================================== *)

(** An adapter that holds both of its handles. *)
Definition connected (d : DatabaseAdapter) : Prop :=
  cursor d <> None /\ connection d <> None.

(** Any adapter. *)
Definition anyhow (d : DatabaseAdapter) : Prop := True.

(** [succeeds pre m post]: in a world where no call is scheduled to raise
    and whose adapter is in [pre], the computation [m] returns, leaves the
    world as quiet as it was and the adapter in [post]. *)
Definition succeeds (pre : DatabaseAdapter -> Prop) {A : Type} (m : M A)
    (post : DatabaseAdapter -> Prop) : Prop :=
  forall w, quiet w -> pre (db w) ->
    exists a, fst (m w) = Ok a /\ quiet (snd (m w)) /\ post (db (snd (m w))).

(** An exception that some call of the world is scheduled to raise. *)
Definition scheduled (w : World) (e : Exn) : Prop :=
  exists k, faults w k = Some e.

(** [blames pre m post]: from a world whose adapter is in [pre], the
    computation [m] leaves the fault schedule alone; when it returns the
    adapter is in [post], and when it raises, it raises what a call was
    scheduled to raise. *)
Definition blames (pre : DatabaseAdapter -> Prop) {A : Type} (m : M A)
    (post : DatabaseAdapter -> Prop) : Prop :=
  forall w, pre (db w) ->
    faults (snd (m w)) = faults w /\
    match fst (m w) with
    | Ok _ => post (db (snd (m w)))
    | Raise e => scheduled w e
    end.

(** The line main prints when the user interrupts. *)
Definition cancelled_line : string :=
  (NL ++ "[yellow]Operation cancelled by user[/yellow]")%string.

(** The function main calls for a command, with the configuration it
    builds from the arguments. *)
Definition command_of (cmd : Command) : M unit :=
  match cmd with
  | Diagnose t => show_diagnostics t
  | Setup t h p d u pw scale =>
      setup_workshop {| db_type := t; host := h;
                        port := port_or_default p t; database := d;
                        user := u; password := pw |} scale
  | Teardown t h p d u pw =>
      teardown_workshop {| db_type := t; host := h;
                           port := port_or_default p t; database := d;
                           user := u; password := pw |}
  end.

(** What main makes of the outcome [o] of the command, in a run that ended
    with the trace [tr]: the exit code and the last line printed. *)
Definition exit_code_ok (o : Outcome unit) (code : Z) (tr : list Call)
    : Prop :=
  (code = 0 /\ o = Ok tt) \/
  (code = 130 /\ o = Raise KeyboardInterrupt /\
   exists before, tr = before ++ [ConsolePrint cancelled_line]) \/
  (code = 1 /\ exists msg,
     o = Raise (Error msg) /\
     exists before, tr = before ++ [ConsolePrint (error_line (Error msg))]).

(** A generator called on an adapter in the state [d]: with both handles it
    raises only what a call raises; without a cursor it raises an
    attribute error at its first statement and makes no call. *)
Definition needs_connection (m : M unit) (w : World) : Prop :=
  (connected (db w) ->
   forall e, outcome_of m w = Raise e -> scheduled w e) /\
  (cursor (db w) = None ->
   outcome_of m w = Raise (AttributeError "execute") /\ calls_of m w = []).

(* ===================================================================== *)
(** * The rows of each table *)
(* ===================================================================== *)

(** The Python type of a value bound to a column. *)
Inductive ColumnKind : Type :=
| KInt | KFloat | KStr | KBool | KDateTime | KDate.

(** A column: its kind, and whether the generator may bind [None] to it. *)
Definition Column : Type := (ColumnKind * bool)%type.

Definition has_kind (c : Column) (v : Value) : bool :=
  match v, fst c with
  | VNone, _ => snd c
  | VInt _, KInt => true
  | VFloat _, KFloat => true
  | VStr _, KStr => true
  | VBool _, KBool => true
  | VDateTime _, KDateTime => true
  | VDate _, KDate => true
  | _, _ => false
  end.

(** A row that binds one value of the right kind to each column. *)
Fixpoint conforms (sig : list Column) (r : Row) : bool :=
  match sig, r with
  | [], [] => true
  | c :: sig', v :: r' => has_kind c v && conforms sig' r'
  | _, _ => false
  end.

Definition col (k : ColumnKind) : Column := (k, false).
Definition nullable (k : ColumnKind) : Column := (k, true).

(** The columns each generator binds, read off the tuples it appends. *)
Definition sig_customers : list Column :=
  [col KInt; col KStr; col KStr; col KStr; col KDateTime].
Definition sig_products : list Column := [col KStr; col KFloat].
Definition sig_orders : list Column :=
  [col KInt; col KInt; col KInt; col KDateTime].
Definition sig_transactions_bad_types : list Column :=
  [col KStr; col KStr; col KStr; col KStr; col KStr; col KStr].
Definition sig_employees : list Column :=
  [nullable KStr; nullable KStr; nullable KStr; nullable KStr;
   nullable KFloat; nullable KDate; nullable KInt; nullable KBool].
Definition sig_users : list Column :=
  [col KInt; col KStr; col KStr; col KStr; col KDateTime].
Definition sig_events : list Column :=
  [col KInt; col KStr; col KStr; col KStr; col KStr].
Definition sig_contacts : list Column :=
  [col KInt; col KStr; col KStr; col KStr; col KStr; col KStr].
Definition sig_inventory : list Column :=
  [col KStr; col KStr; col KStr; col KStr; col KStr].
Definition sig_subscribers : list Column :=
  [col KInt; col KStr; col KStr; col KDateTime].
Definition sig_sales : list Column :=
  [col KInt; col KStr; col KFloat; col KInt; col KFloat; col KDate;
   col KInt; col KFloat].
Definition sig_articles : list Column :=
  [col KInt; col KStr; col KStr; col KStr; col KStr; col KStr].
Definition sig_international : list Column :=
  [col KInt; col KStr; col KStr; col KStr].
Definition sig_god_table : list Column :=
  [col KInt;
   col KInt; col KStr; col KStr; col KStr; col KStr; col KStr; col KStr;
   col KStr; col KStr; col KStr; col KStr; col KDateTime;
   col KInt; col KDateTime; col KStr; col KFloat; col KFloat; col KFloat;
   col KInt; col KStr; col KStr; col KStr; col KStr; col KStr; col KFloat;
   col KFloat;
   col KInt; col KFloat; col KStr; col KStr; col KStr; col KDate;
   nullable KDate].
Definition sig_audit_log : list Column :=
  [col KInt; col KStr; col KStr; col KInt; col KStr; col KStr;
   col KDateTime; col KStr; col KStr].
Definition sig_accounts : list Column := [col KInt; col KStr; col KFloat].
Definition sig_transactions : list Column :=
  [col KInt; col KStr; col KFloat; col KDate].

(** How often [old] occurs in [s]. *)
Fixpoint count_sub (old s : string) : nat :=
  ((if starts_with old s then 1 else 0)
   + match s with
     | EmptyString => 0
     | String _ s' => count_sub old s'
     end)%nat.

(** The number of parameters a statement takes. *)
Definition placeholders (sql : string) : nat := count_sub "%s" sql.

(** Every statement the generators pass to [executemany], with the columns
    of its rows. *)
Definition insert_signatures (d : DatabaseAdapter)
    : list (string * list Column) :=
  [ (sql_insert_customers_no_pk (pfx d), sig_customers);
    (sql_insert_products (pfx d), sig_products);
    (sql_insert_orders_no_fk (pfx d), sig_orders);
    (sql_insert_transactions_bad_types (pfx d), sig_transactions_bad_types);
    (sql_insert_employees_nulls (pfx d), sig_employees);
    (sql_insert_users_duplicates (pfx d), sig_users);
    (sql_insert_users_duplicates_tail (pfx d), sig_users);
    (sql_insert_events_bad_dates (pfx d), sig_events);
    (sql_insert_contacts_bad_casing (pfx d), sig_contacts);
    (sql_insert_inventory_whitespace (pfx d), sig_inventory);
    (sql_insert_subscribers_bad_emails (pfx d), sig_subscribers);
    (sql_insert_sales_bad_values (pfx d), sig_sales);
    (sql_insert_articles_csv_tags (pfx d), sig_articles);
    (sql_insert_international_data (pfx d), sig_international);
    (sql_insert_god_table (pfx d), sig_god_table);
    (sql_insert_god_table_tail (pfx d), sig_god_table);
    (sql_insert_audit_log_no_index (pfx d), sig_audit_log);
    (sql_insert_accounts_int_id (pfx d), sig_accounts);
    (sql_insert_transactions_str_id (pfx d), sig_transactions) ].

(** A call a generator may make: a statement without parameters, a bulk
    insert whose rows all have the columns of its statement, which takes
    one parameter per column, or a commit. *)
Definition well_typed_call (d : DatabaseAdapter) (c : Call) : Prop :=
  match c with
  | CursorExecute _ params => params = None
  | CursorExecuteMany sql rows =>
      exists sig,
        In (sql, sig) (insert_signatures d) /\
        placeholders sql = List.length sig /\
        Forall (fun r => conforms sig r = true /\
                         List.length r = placeholders sql) rows
  | ConnectionCommit => True
  | _ => False
  end.

(** The row a generator writes for the index [i]: it has the columns [sig]
    and, where the generator numbers its rows, the number [id i] in its
    first column. *)
Definition row_ok (sig : list Column) (id : option (Z -> Value)) (i : Z)
    (r : Row) : Prop :=
  conforms sig r = true /\
  match id with
  | Some f => first_column r = f i
  | None => True
  end.

Definition number (i : Z) : Value := VInt (i + 1).
Definition number_text (i : Z) : Value := VStr (str (i + 1)).

(** One row, or the same row twice. *)
Definition once_or_twice (Q : Z -> Row -> Prop) (i : Z) (g : list Row)
    : Prop :=
  exists r, Q i r /\ (g = [r] \/ g = [r; r]).

(** ** Templates that say what the rows hold *)

Definition rows_01 (d : DatabaseAdapter) : Template :=
  plain_template (sql_create_customers_no_pk (pfx d))
                 (sql_insert_customers_no_pk (pfx d))
                 (once_or_twice (row_ok sig_customers (Some number))).

Definition rows_02 (d : DatabaseAdapter) : Template :=
  {| t_pre := fun pre =>
       exists products,
         List.length products = 100%nat /\
         Forall (fun r => conforms sig_products r = true) products /\
         pre = [CursorExecute (sql_create_products (pfx d) (auto_inc_of d))
                  None;
                CursorExecuteMany (sql_insert_products (pfx d)) products;
                CursorExecute (sql_create_orders_no_fk (pfx d) (auto_inc_of d))
                  None];
     t_early := fun tr =>
       tr = [] \/
       tr = [CursorExecute (sql_create_products (pfx d) (auto_inc_of d))
               None] \/
       exists products,
         List.length products = 100%nat /\
         Forall (fun r => conforms sig_products r = true) products /\
         tr = [CursorExecute (sql_create_products (pfx d) (auto_inc_of d))
                 None;
               CursorExecuteMany (sql_insert_products (pfx d)) products];
     t_sql := sql_insert_orders_no_fk (pfx d);
     t_group := single (row_ok sig_orders None) |}.

Definition rows_03 (d : DatabaseAdapter) : Template :=
  plain_template (sql_create_transactions_bad_types (pfx d))
                 (sql_insert_transactions_bad_types (pfx d))
                 (single (row_ok sig_transactions_bad_types
                            (Some number_text))).

Definition rows_04 (d : DatabaseAdapter) : Template :=
  plain_template
    (sql_create_employees_nulls (pfx d) (auto_inc_of d) (boolean_of d))
    (sql_insert_employees_nulls (pfx d))
    (single (row_ok sig_employees None)).

Definition rows_06 (d : DatabaseAdapter) : Template :=
  plain_template (sql_create_events_bad_dates (pfx d))
                 (sql_insert_events_bad_dates (pfx d))
                 (single (row_ok sig_events (Some number))).

Definition rows_07 (d : DatabaseAdapter) : Template :=
  plain_template (sql_create_contacts_bad_casing (pfx d))
                 (sql_insert_contacts_bad_casing (pfx d))
                 (single (row_ok sig_contacts (Some number))).

Definition rows_08 (d : DatabaseAdapter) : Template :=
  plain_template (sql_create_inventory_whitespace (pfx d))
                 (sql_insert_inventory_whitespace (pfx d))
                 (single (row_ok sig_inventory None)).

Definition rows_09 (d : DatabaseAdapter) : Template :=
  plain_template (sql_create_subscribers_bad_emails (pfx d))
                 (sql_insert_subscribers_bad_emails (pfx d))
                 (single (row_ok sig_subscribers (Some number))).

Definition rows_10 (d : DatabaseAdapter) : Template :=
  plain_template (sql_create_sales_bad_values (pfx d))
                 (sql_insert_sales_bad_values (pfx d))
                 (single (row_ok sig_sales (Some number))).

Definition rows_11 (d : DatabaseAdapter) : Template :=
  plain_template (sql_create_articles_csv_tags (pfx d))
                 (sql_insert_articles_csv_tags (pfx d))
                 (single (row_ok sig_articles (Some number))).

Definition rows_12 (d : DatabaseAdapter) : Template :=
  plain_template (sql_create_international_data (pfx d))
                 (sql_insert_international_data (pfx d))
                 (single (row_ok sig_international (Some number))).

Definition rows_14 (d : DatabaseAdapter) : Template :=
  plain_template (sql_create_audit_log_no_index (pfx d) (auto_inc_of d))
                 (sql_insert_audit_log_no_index (pfx d))
                 (single (row_ok sig_audit_log None)).

Definition rows_15 (d : DatabaseAdapter) : Template :=
  {| t_pre := fun pre =>
       exists accounts,
         Forall2 (row_ok sig_accounts (Some number)) (py_range 0 1000 1)
           accounts /\
         pre = [CursorExecute (sql_create_accounts_int_id (pfx d)) None;
                CursorExecute (sql_create_transactions_str_id (pfx d)) None;
                CursorExecuteMany (sql_insert_accounts_int_id (pfx d))
                  accounts];
     t_early := fun tr =>
       tr = [] \/
       tr = [CursorExecute (sql_create_accounts_int_id (pfx d)) None] \/
       tr = [CursorExecute (sql_create_accounts_int_id (pfx d)) None;
             CursorExecute (sql_create_transactions_str_id (pfx d)) None];
     t_sql := sql_insert_transactions_str_id (pfx d);
     t_group := single (row_ok sig_transactions (Some number)) |}.

(** ** The god table *)

(** The columns of a customer and of a product, as the rows repeat them. *)
Definition customer_columns (c : Customer) : list Value :=
  [VInt (c_id c); VStr (c_first c); VStr (c_last c); VStr (c_email c);
   VStr (c_phone c); VStr (c_addr1 c); VStr (c_addr2 c); VStr (c_city c);
   VStr (c_state c); VStr (c_zip c); VStr (c_country c);
   VDateTime (c_created c)].

Definition product_columns (p : Product) : list Value :=
  [VInt (p_id p); VStr (p_name p); VStr (p_desc p); VStr (p_cat p);
   VStr (p_subcat p); VStr (p_brand p); VFloat (p_price p);
   VFloat (p_cost p)].

(** Columns 1 to 12 and 19 to 26 of a row of the god table. *)
Definition customer_part (r : Row) : list Value := firstn 12 (skipn 1 r).
Definition product_part (r : Row) : list Value := firstn 8 (skipn 19 r).

(** A row of the god table: numbered, with the columns of the table, and
    with the columns of one customer and one product of the pools. *)
Definition god_row_ok (customers : list Customer) (products : list Product)
    (i : Z) (r : Row) : Prop :=
  row_ok sig_god_table (Some number) i r /\
  (exists c, In c customers /\ customer_part r = customer_columns c) /\
  (exists p, In p products /\ product_part r = product_columns p).

(** The pools: a hundred customers and fifty products, numbered from 1. *)
Definition pools_ok (customers : list Customer) (products : list Product)
    : Prop :=
  map c_id customers = map (fun i => i + 1) (py_range 0 100 1) /\
  map p_id products = map (fun i => i + 1) (py_range 0 50 1).

Definition god_rows (d : DatabaseAdapter) (n : Z)
    (customers : list Customer) (products : list Product) : Flushing Z :=
  {| f_pre := [CursorExecute (sql_create_god_table (pfx d)) None];
     f_sql := sql_insert_god_table (pfx d);
     f_sql_tail := sql_insert_god_table_tail (pfx d);
     f_items := py_range 0 n 1;
     f_group := single (god_row_ok customers products);
     f_most := 1 |}.

(** ** Row numbers and batch sizes *)

(** The sizes of the bulk inserts a trace sends with the statements
    [sqls]. *)
Definition bulk_sizes (sqls : list string) (tr : list Call) : list nat :=
  flat_map (fun c =>
              match c with
              | CursorExecuteMany s rows =>
                  if existsb (String.eqb s) sqls
                  then [List.length rows] else []
              | _ => []
              end) tr.

(** The sizes of the batches of [n] rows. *)
Definition batch_sizes (n : Z) : list nat :=
  map (batch_count n) (py_range 0 n 1000).

(** A generator that, when nothing fails, returns after writing one row
    per index, numbered by [id], in the order of the indices. *)
Definition numbered_in_order (gen : Z -> M unit)
    (sqls : DatabaseAdapter -> list string) (id : Z -> Value) : Prop :=
  forall n w, healthy w ->
    outcome_of (gen n) w = Ok tt /\
    map first_column (rows_into_any (sqls (db w)) (calls_of (gen n) w))
    = map id (py_range 0 n 1).

(** A generator that, when nothing fails, returns after sending its rows in
    batches of a thousand and a last, smaller one. *)
Definition sends_batches (gen : Z -> M unit)
    (sqls : DatabaseAdapter -> list string) : Prop :=
  forall n w, healthy w ->
    outcome_of (gen n) w = Ok tt /\
    bulk_sizes (sqls (db w)) (calls_of (gen n) w) = batch_sizes n.

(** The generators that write one row per index, with the statements that
    fill their table. *)
Definition single_row_generators
    : list ((Z -> M unit) * (DatabaseAdapter -> list string)) :=
  [ (problem_02_missing_foreign_keys,
     fun d => [sql_insert_orders_no_fk (pfx d)]);
    (problem_03_wrong_data_types,
     fun d => [sql_insert_transactions_bad_types (pfx d)]);
    (problem_04_missing_not_null,
     fun d => [sql_insert_employees_nulls (pfx d)]);
    (problem_06_inconsistent_dates,
     fun d => [sql_insert_events_bad_dates (pfx d)]);
    (problem_07_inconsistent_casing,
     fun d => [sql_insert_contacts_bad_casing (pfx d)]);
    (problem_08_whitespace_issues,
     fun d => [sql_insert_inventory_whitespace (pfx d)]);
    (problem_09_invalid_emails,
     fun d => [sql_insert_subscribers_bad_emails (pfx d)]);
    (problem_10_out_of_range,
     fun d => [sql_insert_sales_bad_values (pfx d)]);
    (problem_11_csv_in_columns,
     fun d => [sql_insert_articles_csv_tags (pfx d)]);
    (problem_12_encoding_issues,
     fun d => [sql_insert_international_data (pfx d)]);
    (problem_13_god_table,
     fun d => [sql_insert_god_table (pfx d);
               sql_insert_god_table_tail (pfx d)]);
    (problem_14_missing_indexes,
     fun d => [sql_insert_audit_log_no_index (pfx d)]);
    (problem_15_type_coercion,
     fun d => [sql_insert_transactions_str_id (pfx d)]) ].

(** Those of them that number their rows, with the number of an index. *)
Definition numbered_generators
    : list ((Z -> M unit) * (DatabaseAdapter -> list string)
            * (Z -> Value)) :=
  [ (problem_03_wrong_data_types,
     fun d => [sql_insert_transactions_bad_types (pfx d)], number_text);
    (problem_06_inconsistent_dates,
     fun d => [sql_insert_events_bad_dates (pfx d)], number);
    (problem_07_inconsistent_casing,
     fun d => [sql_insert_contacts_bad_casing (pfx d)], number);
    (problem_09_invalid_emails,
     fun d => [sql_insert_subscribers_bad_emails (pfx d)], number);
    (problem_10_out_of_range,
     fun d => [sql_insert_sales_bad_values (pfx d)], number);
    (problem_11_csv_in_columns,
     fun d => [sql_insert_articles_csv_tags (pfx d)], number);
    (problem_12_encoding_issues,
     fun d => [sql_insert_international_data (pfx d)], number);
    (problem_13_god_table,
     fun d => [sql_insert_god_table (pfx d);
               sql_insert_god_table_tail (pfx d)], number);
    (problem_15_type_coercion,
     fun d => [sql_insert_transactions_str_id (pfx d)], number) ].

(** The last, smaller batch. *)
Definition last_batch (r : nat) : list nat :=
  if Nat.eqb r 0 then [] else [r].

(** ** Redundancy in the god table *)

(** In the rows [rows], the customer number decides the customer columns
    and the product number the product columns. *)
Definition numbers_decide (rows : list Row) : Prop :=
  forall r1 r2, In r1 rows -> In r2 rows ->
    (hd VNone (customer_part r1) = hd VNone (customer_part r2) ->
     customer_part r1 = customer_part r2) /\
    (hd VNone (product_part r1) = hd VNone (product_part r2) ->
     product_part r1 = product_part r2).

(** The customer and product numbers of a row are in the pools. *)
Definition numbers_in_pools (r : Row) : Prop :=
  (exists c, 1 <= c <= 100 /\ hd VNone (customer_part r) = VInt c) /\
  (exists p, 1 <= p <= 50 /\ hd VNone (product_part r) = VInt p).

(** ** Text helpers of generators 7 and 8 *)

(** [r] is [s] with one of the whitespace runs, or nothing, on each side. *)
Definition padded (s r : string) : Prop :=
  exists lead trail,
    In lead ("" :: whitespace_chars) /\ In trail ("" :: whitespace_chars) /\
    r = (lead ++ s ++ trail)%string.

(** Only whitespace. *)
Fixpoint all_space (s : string) : bool :=
  match s with
  | EmptyString => true
  | String c s' => is_space c && all_space s'
  end.

(** [r] differs from [s] in the case of its letters at most. *)
Definition same_but_case (s r : string) : Prop :=
  str_lower r = str_lower s /\ String.length r = String.length s.

(* ===================================================================== *)
(** * Reasoning about the sources of randomness *)
(* ===================================================================== *)


Lemma gpost_ret {A : Type} (a : A) (P : A -> Prop) :
  P a -> gpost (ret a) P.
Proof. intros H s. exact H. Qed.

Lemma gpost_bind {A B : Type} (g : Gen A) (f : A -> Gen B)
    (P : A -> Prop) (Q : B -> Prop) :
  gpost g P -> (forall a, P a -> gpost (f a) Q) -> gpost (bind g f) Q.
Proof.
  intros Hg Hf s. simpl. specialize (Hg s).
  destruct (g s) as [a s']. simpl in Hg. apply (Hf a Hg).
Qed.

Lemma gpost_true {A : Type} (g : Gen A) : gpost g (fun _ => True).
Proof. intros s. exact I. Qed.

Lemma gpost_next {A B : Type} (g : Gen A) (f : A -> Gen B) (Q : B -> Prop) :
  (forall a, gpost (f a) Q) -> gpost (bind g f) Q.
Proof.
  intros Hf. apply gpost_bind with (P := fun _ => True).
  - apply gpost_true.
  - intros a _. apply Hf.
Qed.

Lemma gpost_weaken {A : Type} (g : Gen A) (P Q : A -> Prop) :
  gpost g P -> (forall a, P a -> Q a) -> gpost g Q.
Proof. intros Hg HPQ s. apply HPQ, Hg. Qed.

Lemma gpost_exact {A : Type} (g : Gen A) :
  gpost g (fun a => exists s, a = fst (g s)).
Proof. intros s. exists s. reflexivity. Qed.

(** Two samplers in a row: the second runs on the state the first left. *)
Lemma gpost_two {A B C : Type} (g1 : Gen A) (g2 : Gen B)
    (f : A -> B -> Gen C) (Q : C -> Prop) :
  (forall s, gpost (f (fst (g1 s)) (fst (g2 (snd (g1 s))))) Q) ->
  gpost (bind g1 (fun a => bind g2 (fun b => f a b))) Q.
Proof.
  intros H s. simpl. specialize (H s).
  destruct (g1 s) as [a s1]. simpl in H.
  destruct (g2 s1) as [b s2]. simpl in H. apply H.
Qed.

(** A loop that only appends to its accumulator: the result is the initial
    list followed by what each iteration added, in order. *)
Lemma gpost_for_fold_app {X E : Type} (P : X -> list E -> Prop)
    (body : X -> list E -> Gen (list E)) (l : list X) :
  (forall x acc, In x l ->
     gpost (body x acc)
       (fun acc' => exists added, acc' = acc ++ added /\ P x added)) ->
  forall acc,
    gpost (for_fold l acc body)
      (fun acc' => exists groups,
         acc' = acc ++ List.concat groups /\ Forall2 P l groups).
Proof.
  induction l as [|x l IH]; intros Hbody acc.
  - apply gpost_ret. exists []. simpl. rewrite app_nil_r. auto.
  - simpl. eapply gpost_bind.
    + apply Hbody. left. reflexivity.
    + intros acc1 [added [-> Hadd]].
      eapply gpost_weaken.
      * apply IH. intros y a Hy. apply Hbody. right. exact Hy.
      * intros acc2 [groups [-> Hgroups]].
        exists (added :: groups). simpl. rewrite app_assoc. auto.
Qed.

(** The same for a loop that appends exactly one element per iteration. *)
Lemma gpost_for_fold_one {X E : Type} (P : X -> E -> Prop)
    (body : X -> list E -> Gen (list E)) (l : list X) :
  (forall x acc, In x l ->
     gpost (body x acc) (fun acc' => exists e, acc' = acc ++ [e] /\ P x e)) ->
  gpost (for_fold l [] body) (fun acc' => Forall2 P l acc').
Proof.
  intros Hbody.
  eapply gpost_weaken.
  - apply (gpost_for_fold_app (fun x added => exists e, added = [e] /\ P x e)).
    intros x acc Hx. eapply gpost_weaken; [apply (Hbody x acc Hx)|].
    intros acc' [e [-> He]]. exists [e]. eauto.
  - simpl. intros acc' [groups [-> Hg]]. clear Hbody.
    induction Hg as [|x g l' gs Hx _ IH]; simpl.
    + constructor.
    + destruct Hx as [e [-> He]]. simpl. constructor; auto.
Qed.

(** Ranges of the draws. *)
Lemma random_random_range :
  gpost random_random (fun u => (0 <= u)%Q /\ (u < 1)%Q).
Proof.
  intros s. simpl.
  set (k := (cells (py_random s) (pos (py_random s)) mod 2 ^ 53)%N).
  assert (Hk : (k < 2 ^ 53)%N) by (apply N.mod_lt; discriminate).
  unfold Qle, Qlt. simpl. split; [lia|].
  change (Z.pos (2 ^ 53)) with (Z.of_N (2 ^ 53)). lia.
Qed.

Lemma randbelow_range (n : Z) :
  0 < n -> gpost (randbelow n) (fun k => 0 <= k < n).
Proof. intros Hn s. simpl. apply Z.mod_pos_bound. exact Hn. Qed.

Lemma random_randint_range (a b : Z) :
  a <= b -> gpost (random_randint a b) (fun k => a <= k <= b).
Proof.
  intros Hab s. simpl.
  pose proof (Z.mod_pos_bound
                (Z.of_N (cells (py_random s) (pos (py_random s))))
                (b - a + 1)) as H.
  lia.
Qed.

(* ===================================================================== *)
(** * Reasoning about the calls of a computation *)
(* ===================================================================== *)



Lemma healthy_transport (w w' : World) :
  db w' = db w -> faults w' = faults w -> healthy w' -> healthy w.
Proof. unfold healthy. intros -> ->. auto. Qed.

Lemma mspec_ret (d : DatabaseAdapter) {A : Type} (a : A)
    (S : A -> list Call -> Prop) (F : list Call -> Prop) :
  S a [] -> mspec d (ret a) S F.
Proof.
  intros H w Hd. exists []. simpl. rewrite app_nil_r. auto.
Qed.

Lemma mspec_bind (d : DatabaseAdapter) {A B : Type} (m : M A) (f : A -> M B)
    (S1 : A -> list Call -> Prop) (F1 : list Call -> Prop)
    (S : B -> list Call -> Prop) (F : list Call -> Prop) :
  mspec d m S1 F1 ->
  (forall tr, F1 tr -> F tr) ->
  (forall a tr1, S1 a tr1 ->
     mspec d (f a) (fun b tr2 => S b (tr1 ++ tr2))
                   (fun tr2 => F (tr1 ++ tr2))) ->
  mspec d (bind m f) S F.
Proof.
  intros Hm HF Hf w Hd.
  destruct (Hm w Hd) as [tr1 [Ht1 [Hd1 [Hf1 Ho1]]]].
  simpl. destruct (m w) as [[a|e] w1]; simpl in *.
  - destruct (Hf a tr1 Ho1 w1 Hd1) as [tr2 [Ht2 [Hd2 [Hf2 Ho2]]]].
    exists (tr1 ++ tr2). rewrite Ht2, Ht1, app_assoc.
    repeat split; auto; try congruence.
    destruct (fst (f a w1)); auto.
    destruct Ho2 as [HF2 Hh]. split; auto.
    intros Hw. apply Hh. unfold healthy in *. rewrite Hd1, Hf1, <- Hd. exact Hw.
  - exists tr1. destruct Ho1 as [HF1 Hh]. repeat split; auto.
Qed.

Lemma mspec_weaken (d : DatabaseAdapter) {A : Type} (m : M A)
    (S S' : A -> list Call -> Prop) (F F' : list Call -> Prop) :
  mspec d m S F ->
  (forall a tr, S a tr -> S' a tr) -> (forall tr, F tr -> F' tr) ->
  mspec d m S' F'.
Proof.
  intros Hm HS HF w Hd.
  destruct (Hm w Hd) as [tr [Ht [Hd1 [Hf1 Ho]]]].
  exists tr. repeat split; auto.
  destruct (fst (m w)); [auto | destruct Ho; auto].
Qed.

(** Drawing values does not call anything and does not raise. *)
Lemma mspec_lift (d : DatabaseAdapter) {A : Type} (g : Gen A)
    (P : A -> Prop) (F : list Call -> Prop) :
  gpost g P -> mspec d (lift g) (fun a tr => tr = [] /\ P a) F.
Proof.
  intros Hg w Hd. exists []. unfold lift. specialize (Hg (sources w)).
  destruct (g (sources w)) as [a s']. simpl in *.
  rewrite app_nil_r. auto.
Qed.

Lemma mspec_this (d : DatabaseAdapter) (F : list Call -> Prop) :
  mspec d this (fun a tr => tr = [] /\ a = d) F.
Proof.
  intros w Hd. exists []. simpl. rewrite app_nil_r. auto.
Qed.

(** A call through a live handle: it is recorded, or it raises and leaves
    the trace as it was. *)
Lemma mspec_call (d : DatabaseAdapter) (c : Call) :
  mspec d (call c) (fun _ tr => tr = [c]) (fun tr => tr = []).
Proof.
  intros w Hd. unfold call.
  destruct (faults w (ticks w)) as [e|] eqn:E; simpl.
  - exists []. rewrite app_nil_r. repeat split; auto.
    intros [Hn _]. rewrite Hn in E. discriminate.
  - exists [c]. auto.
Qed.

Lemma mspec_raise_dead (d : DatabaseAdapter) {A : Type} (e : Exn)
    (S : A -> list Call -> Prop) :
  cursor d = None \/ connection d = None ->
  mspec d (raise e) S (fun tr => tr = []).
Proof.
  intros Hdead w Hd. exists []. simpl. rewrite app_nil_r.
  repeat split; auto.
  intros [_ [Hc Hn]]. rewrite Hd in Hc, Hn. destruct Hdead; auto.
Qed.

Lemma mspec_execute (d : DatabaseAdapter) (sql : string) :
  mspec d (execute sql None)
    (fun _ tr => tr = [CursorExecute sql None]) (fun tr => tr = []).
Proof.
  unfold execute.
  eapply mspec_bind; [apply mspec_this | intros tr H; exact H |].
  intros a tr1 [-> ->]. simpl.
  destruct (cursor d) eqn:E.
  - apply mspec_call.
  - apply mspec_raise_dead. auto.
Qed.

Lemma mspec_executemany (d : DatabaseAdapter) (sql : string)
    (rows : list Row) :
  mspec d (executemany sql rows)
    (fun _ tr => tr = [CursorExecuteMany sql rows]) (fun tr => tr = []).
Proof.
  unfold executemany.
  eapply mspec_bind; [apply mspec_this | intros tr H; exact H |].
  intros a tr1 [-> ->]. simpl.
  destruct (cursor d) eqn:E.
  - apply mspec_call.
  - apply mspec_raise_dead. auto.
Qed.

Lemma mspec_commit (d : DatabaseAdapter) :
  mspec d commit (fun _ tr => tr = [ConnectionCommit]) (fun tr => tr = []).
Proof.
  unfold commit.
  eapply mspec_bind; [apply mspec_this | intros tr H; exact H |].
  intros a tr1 [-> ->]. simpl.
  destruct (connection d) eqn:E.
  - apply mspec_call.
  - apply mspec_raise_dead. auto.
Qed.

Lemma mspec_get_table_prefix (d : DatabaseAdapter) (F : list Call -> Prop) :
  mspec d get_table_prefix
    (fun a tr => tr = [] /\ a = table_prefix_of (db_type (config d))) F.
Proof.
  unfold get_table_prefix.
  eapply mspec_bind; [apply (mspec_this d F) | auto |].
  intros a tr1 [-> ->]. apply mspec_ret. auto.
Qed.

Lemma mspec_get_auto_increment_syntax (d : DatabaseAdapter)
    (F : list Call -> Prop) :
  mspec d get_auto_increment_syntax
    (fun a tr => tr = [] /\ a = auto_increment_syntax_of (db_type (config d)))
    F.
Proof.
  unfold get_auto_increment_syntax.
  eapply mspec_bind; [apply (mspec_this d F) | auto |].
  intros a tr1 [-> ->]. apply mspec_ret. auto.
Qed.

Lemma mspec_get_boolean_type (d : DatabaseAdapter) (F : list Call -> Prop) :
  mspec d get_boolean_type
    (fun a tr => tr = [] /\ a = boolean_type_of (db_type (config d))) F.
Proof.
  unfold get_boolean_type.
  eapply mspec_bind; [apply (mspec_this d F) | auto |].
  intros a tr1 [-> ->]. apply mspec_ret. auto.
Qed.

(** *** Sequencing steps

    Each step consumes the first action of a computation and leaves the
    calls made so far in front of the trace the rest is specified on. *)

Lemma step_execute (d : DatabaseAdapter) {B : Type} (sql : string)
    (k : unit -> M B) (S : B -> list Call -> Prop) (F : list Call -> Prop) :
  F [] ->
  mspec d (k tt) (fun b tr => S b (CursorExecute sql None :: tr))
                 (fun tr => F (CursorExecute sql None :: tr)) ->
  mspec d (bind (execute sql None) k) S F.
Proof.
  intros HF Hk.
  eapply mspec_bind; [apply mspec_execute | intros tr ->; exact HF |].
  intros [] tr1 ->. exact Hk.
Qed.

Lemma step_executemany (d : DatabaseAdapter) {B : Type} (sql : string)
    (rows : list Row) (k : unit -> M B)
    (S : B -> list Call -> Prop) (F : list Call -> Prop) :
  F [] ->
  mspec d (k tt) (fun b tr => S b (CursorExecuteMany sql rows :: tr))
                 (fun tr => F (CursorExecuteMany sql rows :: tr)) ->
  mspec d (bind (executemany sql rows) k) S F.
Proof.
  intros HF Hk.
  eapply mspec_bind; [apply mspec_executemany | intros tr ->; exact HF |].
  intros [] tr1 ->. exact Hk.
Qed.

Lemma step_commit_last (d : DatabaseAdapter)
    (S : unit -> list Call -> Prop) (F : list Call -> Prop) :
  F [] -> S tt [ConnectionCommit] -> mspec d commit S F.
Proof.
  intros HF HS.
  eapply mspec_weaken; [apply mspec_commit | |].
  - intros [] tr ->. exact HS.
  - intros tr ->. exact HF.
Qed.

Lemma step_lift (d : DatabaseAdapter) {A B : Type} (g : Gen A) (k : A -> M B)
    (P : A -> Prop) (S : B -> list Call -> Prop) (F : list Call -> Prop) :
  gpost g P ->
  (forall a, P a -> mspec d (k a) S F) ->
  mspec d (bind (lift g) k) S F.
Proof.
  intros Hg Hk.
  eapply mspec_bind; [apply (mspec_lift d g P F Hg) | auto |].
  intros a tr1 [-> HP]. simpl. apply Hk. exact HP.
Qed.

Lemma step_prefix (d : DatabaseAdapter) {B : Type} (k : string -> M B)
    (S : B -> list Call -> Prop) (F : list Call -> Prop) :
  mspec d (k (table_prefix_of (db_type (config d)))) S F ->
  mspec d (bind get_table_prefix k) S F.
Proof.
  intros Hk.
  eapply mspec_bind; [apply (mspec_get_table_prefix d F) | auto |].
  intros a tr1 [-> ->]. exact Hk.
Qed.

Lemma step_auto_inc (d : DatabaseAdapter) {B : Type} (k : string -> M B)
    (S : B -> list Call -> Prop) (F : list Call -> Prop) :
  mspec d (k (auto_increment_syntax_of (db_type (config d)))) S F ->
  mspec d (bind get_auto_increment_syntax k) S F.
Proof.
  intros Hk.
  eapply mspec_bind; [apply (mspec_get_auto_increment_syntax d F) | auto |].
  intros a tr1 [-> ->]. exact Hk.
Qed.

Lemma step_boolean_type (d : DatabaseAdapter) {B : Type} (k : string -> M B)
    (S : B -> list Call -> Prop) (F : list Call -> Prop) :
  mspec d (k (boolean_type_of (db_type (config d)))) S F ->
  mspec d (bind get_boolean_type k) S F.
Proof.
  intros Hk.
  eapply mspec_bind; [apply (mspec_get_boolean_type d F) | auto |].
  intros a tr1 [-> ->]. exact Hk.
Qed.

(** *** The batch loop shared by thirteen generators

    One [executemany] per batch start, each with the rows drawn for it.  The
    loop stops at the first batch that raises. *)
Lemma mspec_batches (d : DatabaseAdapter) (sql : string)
    (fill : Z -> Gen (list Row)) (R : Z -> list Row -> Prop) (l : list Z) :
  (forall bs, In bs l -> gpost (fill bs) (R bs)) ->
  mspec d
    (for_each l (fun bs => rows <- lift (fill bs) ;; executemany sql rows))
    (fun _ tr => exists batches,
       Forall2 R l batches /\ tr = map (CursorExecuteMany sql) batches)
    (fun tr => exists j batches,
       (j < List.length l)%nat /\ Forall2 R (firstn j l) batches /\
       tr = map (CursorExecuteMany sql) batches).
Proof.
  induction l as [|bs l IH]; intros Hfill.
  - apply mspec_ret. exists []. auto.
  - simpl.
    apply mspec_bind with
      (S1 := fun (_ : unit) tr =>
               exists rows, R bs rows /\ tr = [CursorExecuteMany sql rows])
      (F1 := fun tr => tr = []).
    + eapply step_lift.
      * apply (Hfill bs). left. reflexivity.
      * intros rows HR.
        eapply mspec_weaken; [apply (mspec_executemany d sql rows) | |].
        -- intros a tr ->. exists rows. auto.
        -- intros tr Htr. exact Htr.
    + intros tr ->. exists O, []. simpl. repeat split; auto. lia.
    + intros [] tr1 [rows [HR ->]].
      eapply mspec_weaken.
      * apply IH. intros b Hb. apply Hfill. right. exact Hb.
      * intros a tr [batches [HB ->]].
        exists (rows :: batches). simpl. auto.
      * intros tr [j [batches [Hj [HB ->]]]].
        exists (S j), (rows :: batches). simpl. repeat split; auto. lia.
Qed.

(* ===================================================================== *)
(** * Ranges and batches *)
(* ===================================================================== *)

Lemma py_range_unit_length (a b : Z) :
  List.length (py_range a b 1) = Z.to_nat (b - a).
Proof.
  unfold py_range. simpl. rewrite length_map, length_seq.
  rewrite Z.div_1_r. f_equal. lia.
Qed.

Lemma py_range_batches (n : Z) :
  py_range 0 n 1000 =
  map (fun k => Z.of_nat k * 1000) (seq 0 (Z.to_nat ((n + 999) / 1000))).
Proof.
  unfold py_range. simpl.
  replace (n - 0 + 1000 - 1) with (n + 999) by lia.
  reflexivity.
Qed.

(** A batch start is a multiple of the batch size below the row count. *)
Lemma py_range_batches_In (n bs : Z) :
  In bs (py_range 0 n 1000) -> 0 <= bs < n /\ exists k, bs = k * 1000.
Proof.
  rewrite py_range_batches. intros H.
  apply in_map_iff in H. destruct H as [k [<- Hk]].
  apply in_seq in Hk. split; [|eexists; reflexivity].
  assert (Hc : Z.of_nat k < (n + 999) / 1000).
  { lia. }
  assert (Z.of_nat k + 1 <= (n + 999) / 1000) by lia.
  assert (1000 * (Z.of_nat k + 1) <= 1000 * ((n + 999) / 1000))
    by (apply Z.mul_le_mono_nonneg_l; lia).
  pose proof (Z.mul_div_le (n + 999) 1000). lia.
Qed.

Lemma batch_count_le (n bs : Z) : (batch_count n bs <= 1000)%nat.
Proof. unfold batch_count. lia. Qed.

Lemma batch_count_partial (n : Z) (j : nat) :
  Z.of_nat j <= (n + 999) / 1000 ->
  list_sum (map (fun k => batch_count n (Z.of_nat k * 1000)) (seq 0 j)) =
  Z.to_nat (Z.min (Z.of_nat j * 1000) n).
Proof.
  induction j as [|j IH]; intros Hj.
  - simpl. lia.
  - rewrite seq_S, map_app, list_sum_app, IH by lia. simpl.
    unfold batch_count.
    assert (Hlt : Z.of_nat j * 1000 < n).
    { assert (Z.of_nat j + 1 <= (n + 999) / 1000) by lia.
      assert (1000 * (Z.of_nat j + 1) <= 1000 * ((n + 999) / 1000))
        by (apply Z.mul_le_mono_nonneg_l; lia).
      pose proof (Z.mul_div_le (n + 999) 1000). lia. }
    lia.
Qed.

(** The batches cover the requested rows exactly. *)
Lemma batch_count_total (n : Z) :
  list_sum (map (batch_count n) (py_range 0 n 1000)) = Z.to_nat n.
Proof.
  rewrite py_range_batches, map_map.
  destruct (Z_lt_le_dec 0 n) as [Hn|Hn].
  - rewrite batch_count_partial.
    + rewrite Z2Nat.id by (apply Z.div_pos; lia).
      pose proof (Z.mul_succ_div_gt (n + 999) 1000). lia.
    + rewrite Z2Nat.id by (apply Z.div_pos; lia). lia.
  - assert ((n + 999) / 1000 <= 0).
    { apply Z.lt_succ_r. apply Z.div_lt_upper_bound; lia. }
    replace (Z.to_nat ((n + 999) / 1000)) with O by lia. simpl. lia.
Qed.

Lemma length_concat_sum {A : Type} (ls : list (list A)) :
  List.length (List.concat ls) = list_sum (map (@List.length A) ls).
Proof.
  induction ls as [|l ls IH]; simpl; [reflexivity|].
  rewrite length_app, IH. reflexivity.
Qed.

(** Sizes of related lists add up. *)
Lemma Forall2_sum_bounds {A B : Type} (R : A -> B -> Prop)
    (c : A -> nat) (s : B -> nat) (lo hi : nat) (l : list A) (l' : list B) :
  (forall a b, R a b -> (lo * c a <= s b <= hi * c a)%nat) ->
  Forall2 R l l' ->
  (lo * list_sum (map c l) <= list_sum (map s l')
   <= hi * list_sum (map c l))%nat.
Proof.
  intros HR H. induction H as [|a b l l' Hab _ IH]; simpl; [lia|].
  specialize (HR a b Hab). nia.
Qed.

Lemma Forall2_Forall_r {A B : Type} (R : A -> B -> Prop) (P : B -> Prop)
    (l : list A) (l' : list B) :
  (forall a b, R a b -> P b) -> Forall2 R l l' -> Forall P l'.
Proof.
  intros HR H. induction H; constructor; eauto.
Qed.

Lemma Forall2_firstn_In {A B : Type} (R : A -> B -> Prop) (P : B -> Prop)
    (j : nat) (l : list A) (l' : list B) :
  (forall a b, In a l -> R a b -> P b) ->
  Forall2 R (firstn j l) l' -> Forall P l'.
Proof.
  intros HR H.
  assert (Hin : forall a, In a (firstn j l) -> In a l).
  { intros a Ha. rewrite <- (firstn_skipn j l). apply in_or_app. auto. }
  induction H as [|a b m m' Hab _ IH]; constructor.
  - apply (HR a b); [apply Hin; left; reflexivity | exact Hab].
  - apply IH. intros a' Ha'. apply Hin. right. exact Ha'.
Qed.

(** A group per index, between [lo] and [hi] rows each. *)
Lemma batch_of_length (group : Z -> list Row -> Prop) (lo hi : nat)
    (n bs : Z) (rows : list Row) :
  (forall i g, group i g -> (lo <= List.length g <= hi)%nat) ->
  batch_of group n bs rows ->
  (lo * batch_count n bs <= List.length rows <= hi * batch_count n bs)%nat.
Proof.
  intros Hg [groups [-> HF]].
  rewrite length_concat_sum.
  assert (Hone : forall i g, group i g ->
            (lo * (fun _ : Z => 1%nat) i <= List.length g
             <= hi * (fun _ : Z => 1%nat) i)%nat).
  { intros i g Hig. specialize (Hg i g Hig). cbv beta. lia. }
  pose proof (Forall2_sum_bounds group (fun _ => 1%nat) (@List.length Row)
                lo hi _ _ Hone HF) as H.
  assert (Hc : list_sum (map (fun _ : Z => 1%nat)
                 (py_range bs (Z.min (bs + 1000) n) 1)) = batch_count n bs).
  { unfold batch_count. rewrite <- py_range_unit_length.
    generalize (py_range bs (Z.min (bs + 1000) n) 1).
    intros l. induction l; simpl; auto. }
  rewrite Hc in H. exact H.
Qed.

(** A loop that appends one row per index fills a batch of single rows. *)
Lemma fill_one (Q : Z -> Row -> Prop) (n bs : Z)
    (body : Z -> list Row -> Gen (list Row)) :
  (forall i acc,
     gpost (body i acc) (fun acc' => exists e, acc' = acc ++ [e] /\ Q i e)) ->
  gpost (for_fold (py_range bs (Z.min (bs + 1000) n) 1) [] body)
        (batch_of (single Q) n bs).
Proof.
  intros Hbody.
  eapply gpost_weaken.
  - apply (gpost_for_fold_app (single Q)).
    intros i acc _. eapply gpost_weaken; [apply Hbody|].
    intros acc' [e [-> He]]. exists [e]. split; [reflexivity|].
    exists e. auto.
  - intros rows [groups [-> HF]]. exists groups. auto.
Qed.

(** A loop that appends a group of rows per index. *)
Lemma fill_groups (group : Z -> list Row -> Prop) (n bs : Z)
    (body : Z -> list Row -> Gen (list Row)) :
  (forall i acc,
     gpost (body i acc)
       (fun acc' => exists g, acc' = acc ++ g /\ group i g)) ->
  gpost (for_fold (py_range bs (Z.min (bs + 1000) n) 1) [] body)
        (batch_of group n bs).
Proof.
  intros Hbody.
  eapply gpost_weaken.
  - apply (gpost_for_fold_app group). intros i acc _. apply Hbody.
  - intros rows [groups [-> HF]]. exists groups. auto.
Qed.

(* ===================================================================== *)
(** * The two loop shapes of the generators *)
(* ===================================================================== *)

(** The batch loop and the commit that follows it, after the calls [pre]. *)
Lemma template_tail (d : DatabaseAdapter) (T : Template) (n : Z)
    (pre : list Call) (fill : Z -> Gen (list Row)) :
  t_pre T pre ->
  (forall bs, In bs (py_range 0 n 1000) ->
     gpost (fill bs) (batch_of (t_group T) n bs)) ->
  mspec d
    (for_each (py_range 0 n 1000)
       (fun bs => rows <- lift (fill bs) ;; executemany (t_sql T) rows) ;;
     commit)
    (fun _ tr => template_done T n (pre ++ tr))
    (fun tr => template_failed T n (pre ++ tr)).
Proof.
  intros Hpre Hfill.
  eapply mspec_bind.
  - apply (mspec_batches d (t_sql T) fill (batch_of (t_group T) n)).
    exact Hfill.
  - intros tr [j [batches [Hj [HB ->]]]].
    right. exists pre, j, batches. auto.
  - intros [] tr1 [batches [HB ->]].
    apply step_commit_last.
    + right. exists pre, (List.length (py_range 0 n 1000)), batches.
      rewrite firstn_all, app_nil_r. auto.
    + exists pre, batches. auto.
Qed.

Lemma flush_loop (d : DatabaseAdapter) {X : Type} (sql : string) (most : nat)
    (group : X -> list Row -> Prop) (body : X -> list Row -> M (list Row))
    (l : list X) :
  (forall x rows, In x l -> flush_step d sql group body x rows) ->
  (forall x g, In x l -> group x g -> (List.length g <= most)%nat) ->
  forall rows0, (List.length rows0 < 1000)%nat ->
  mspec d (for_fold l rows0 body)
    (fun rows tr =>
       exists groups batches,
         Forall2 group l groups /\
         rows0 ++ List.concat groups = List.concat batches ++ rows /\
         Forall (full_batch most) batches /\
         (List.length rows < 1000)%nat /\
         tr = map (CursorExecuteMany sql) batches)
    (fun tr =>
       exists j groups batches rest,
         Forall2 group (firstn j l) groups /\
         rows0 ++ List.concat groups = List.concat batches ++ rest /\
         Forall (full_batch most) batches /\
         (List.length rest < 1000 + most)%nat /\
         tr = map (CursorExecuteMany sql) batches).
Proof.
  induction l as [|x l IH]; intros Hstep Hmost rows0 Hlen.
  - apply mspec_ret. exists [], []. simpl. rewrite app_nil_r.
    repeat split; auto.
  - simpl. eapply mspec_bind.
    + apply (Hstep x rows0). left. reflexivity.
    + intros tr [-> [g [Hg Hfull]]].
      exists 1%nat, [g], [], (rows0 ++ g). simpl. rewrite app_nil_r.
      repeat split; auto.
      rewrite length_app.
      specialize (Hmost x g (or_introl eq_refl) Hg). lia.
    + intros rows1 tr1 [g [Hg Hcase]].
      assert (Hg' : (List.length g <= most)%nat)
        by (apply (Hmost x g); [left; reflexivity | exact Hg]).
      assert (IH' : forall r, (List.length r < 1000)%nat ->
                mspec d (for_fold l r body)
                  (fun rows tr =>
                     exists groups batches,
                       Forall2 group l groups /\
                       r ++ List.concat groups = List.concat batches ++ rows /\
                       Forall (full_batch most) batches /\
                       (List.length rows < 1000)%nat /\
                       tr = map (CursorExecuteMany sql) batches)
                  (fun tr =>
                     exists j groups batches rest,
                       Forall2 group (firstn j l) groups /\
                       r ++ List.concat groups = List.concat batches ++ rest /\
                       Forall (full_batch most) batches /\
                       (List.length rest < 1000 + most)%nat /\
                       tr = map (CursorExecuteMany sql) batches)).
      { intros r Hr. apply IH; auto.
        - intros y rows Hy. apply Hstep. right. exact Hy.
        - intros y h Hy. apply Hmost. right. exact Hy. }
      destruct Hcase as [[Hlt [-> ->]] | [Hge [-> ->]]].
      * eapply mspec_weaken; [apply (IH' (rows0 ++ g) Hlt) | |].
        -- intros rows tr [groups [batches [HG [Heq [HB [Hr ->]]]]]].
           exists (g :: groups), batches. simpl.
           rewrite app_assoc. repeat split; auto.
        -- intros tr [j [groups [batches [rest [HG [Heq [HB [Hr ->]]]]]]]].
           exists (S j), (g :: groups), batches, rest. simpl.
           rewrite app_assoc. repeat split; auto.
      * eapply mspec_weaken; [apply (IH' [])|  |]; [simpl; lia | |].
        -- intros rows tr [groups [batches [HG [Heq [HB [Hr ->]]]]]].
           exists (g :: groups), ((rows0 ++ g) :: batches). simpl in *.
           rewrite <- app_assoc, <- Heq, <- app_assoc.
           repeat split; auto.
           constructor; auto. unfold full_batch.
           rewrite length_app in *. lia.
        -- intros tr [j [groups [batches [rest [HG [Heq [HB [Hr ->]]]]]]]].
           exists (S j), (g :: groups), ((rows0 ++ g) :: batches), rest.
           simpl in *.
           rewrite <- app_assoc, <- Heq, <- app_assoc.
           repeat split; auto.
           constructor; auto. unfold full_batch.
           rewrite length_app in *. lia.
Qed.

(** The flushing loop, the flush of what is left and the commit, after the
    calls [f_pre]. *)
Lemma flushing_tail (d : DatabaseAdapter) {X : Type} (T : Flushing X)
    (body : X -> list Row -> M (list Row)) :
  (forall x rows, In x (f_items T) ->
     flush_step d (f_sql T) (f_group T) body x rows) ->
  (forall x g, In x (f_items T) -> f_group T x g ->
     (List.length g <= f_most T)%nat) ->
  mspec d
    (rows <- for_fold (f_items T) [] body ;;
     (match rows with
      | _ :: _ => executemany (f_sql_tail T) rows
      | [] => ret tt
      end) ;;
     commit)
    (fun _ tr => flushing_done T (f_pre T ++ tr))
    (fun tr => flushing_failed T (f_pre T ++ tr)).
Proof.
  intros Hstep Hmost.
  eapply mspec_bind.
  - apply (flush_loop d (f_sql T) (f_most T) (f_group T) body (f_items T)
             Hstep Hmost []).
    simpl. lia.
  - intros tr [j [groups [batches [rest [HG [Heq [HB [Hr ->]]]]]]]].
    exists j, groups, batches, rest. simpl in Heq.
    repeat split; auto.
    exists (tail_flush (f_sql_tail T) rest). rewrite <- app_assoc. reflexivity.
  - intros rows tr1 [groups [batches [HG [Heq [HB [Hr ->]]]]]].
    simpl in Heq.
    assert (Hfail : flushing_failed T
                      (f_pre T ++ map (CursorExecuteMany (f_sql T)) batches)).
    { exists (List.length (f_items T)), groups, batches, rows.
      rewrite firstn_all. repeat split; auto; [lia|].
      exists (tail_flush (f_sql_tail T) rows).
      rewrite <- app_assoc. reflexivity. }
    destruct rows as [|r rows].
    + apply mspec_bind with (S1 := fun (_ : unit) tr => tr = [])
                            (F1 := fun _ => False).
      * apply mspec_ret. reflexivity.
      * intros tr Htr. exact (False_ind _ Htr).
      * intros [] tr2 ->. simpl.
        apply step_commit_last.
        -- rewrite app_nil_r. exact Hfail.
        -- exists groups, batches, []. simpl. repeat split; auto.
    + apply step_executemany.
      * rewrite app_nil_r. exact Hfail.
      * apply step_commit_last.
        -- exists (List.length (f_items T)), groups, batches, (r :: rows).
           rewrite firstn_all. repeat split; auto; [lia|].
           exists []. simpl. rewrite app_nil_r. reflexivity.
        -- exists groups, batches, (r :: rows). simpl in *.
           repeat split; auto.
Qed.

(* ===================================================================== *)
(** * The calls of each generator *)
(* ===================================================================== *)

(** Steps through a sampler whose draws do not matter, down to the row it
    appends. *)
Ltac gauto :=
  repeat match goal with
    | |- gpost (bind _ _) _ => apply gpost_next; intros
    | |- gpost (ret _) _ =>
        apply gpost_ret; eexists; split; [reflexivity | exact I]
    | |- gpost (if ?b then _ else _) _ => destruct b
    | |- gpost (match ?x with _ => _ end) _ => destruct x
    end.

(** The shape of a generator with one table and rows whose content does
    not matter. *)
Ltac plain_shape T pre :=
  cbv zeta;
  repeat first [ apply step_prefix | apply step_auto_inc
               | apply step_boolean_type ];
  apply step_execute; [left; reflexivity|];
  apply (template_tail _ T _ pre);
  [ reflexivity
  | intros bs _; apply fill_one; intros i acc; unfold any_row; gauto ].

Lemma problem_01_shape (d : DatabaseAdapter) (n : Z) :
  mspec d (problem_01_no_primary_key n)
    (fun _ => template_done (template_01 d) n)
    (template_failed (template_01 d) n).
Proof.
  unfold problem_01_no_primary_key. cbv zeta.
  apply step_prefix. apply step_execute; [left; reflexivity|].
  apply (template_tail d (template_01 d) n
           [CursorExecute (sql_create_customers_no_pk (pfx d)) None]).
  - reflexivity.
  - intros bs _. apply fill_groups. intros i acc.
    apply gpost_next; intros row. apply gpost_next; intros u.
    destruct (Qltb u 0.1); apply gpost_ret.
    + exists [row; row]. split; [rewrite <- app_assoc; reflexivity|].
      exists row. auto.
    + exists [row]. split; [reflexivity|]. exists row. auto.
Qed.

Lemma seed_length (P : Z -> Row -> Prop) (k : Z) (rows : list Row) :
  Forall2 P (py_range 0 k 1) rows -> List.length rows = Z.to_nat k.
Proof.
  intros H. apply Forall2_length in H.
  rewrite py_range_unit_length in H. rewrite <- H. f_equal. lia.
Qed.

Lemma problem_02_shape (d : DatabaseAdapter) (n : Z) :
  mspec d (problem_02_missing_foreign_keys n)
    (fun _ => template_done (template_02 d) n)
    (template_failed (template_02 d) n).
Proof.
  unfold problem_02_missing_foreign_keys. cbv zeta.
  apply step_prefix. apply step_auto_inc.
  apply step_execute; [left; left; reflexivity|].
  apply step_lift with (P := fun products => List.length products = 100%nat).
  { eapply gpost_weaken.
    - apply (gpost_for_fold_one any_row). intros i acc _.
      unfold any_row. gauto.
    - intros rows H. apply seed_length in H. exact H. }
  intros products Hlen.
  apply step_executemany; [left; right; left; reflexivity|].
  apply step_execute; [left; right; right; exists products; auto|].
  apply (template_tail d (template_02 d) n
           [CursorExecute (sql_create_products (pfx d) (auto_inc_of d)) None;
            CursorExecuteMany (sql_insert_products (pfx d)) products;
            CursorExecute (sql_create_orders_no_fk (pfx d) (auto_inc_of d))
              None]).
  - exists products. auto.
  - intros bs _. apply fill_one. intros i acc.
    apply gpost_two; intros s.
    apply gpost_next; intros quantity. apply gpost_next; intros order_date.
    apply gpost_ret. eexists. split; [reflexivity|].
    exists s, quantity, order_date. reflexivity.
Qed.

Lemma problem_03_shape (d : DatabaseAdapter) (n : Z) :
  mspec d (problem_03_wrong_data_types n)
    (fun _ => template_done (template_03 d) n)
    (template_failed (template_03 d) n).
Proof.
  unfold problem_03_wrong_data_types.
  plain_shape (template_03 d)
    [CursorExecute (sql_create_transactions_bad_types (pfx d)) None].
Qed.

Lemma problem_04_shape (d : DatabaseAdapter) (n : Z) :
  mspec d (problem_04_missing_not_null n)
    (fun _ => template_done (template_04 d) n)
    (template_failed (template_04 d) n).
Proof.
  unfold problem_04_missing_not_null.
  plain_shape (template_04 d)
    [CursorExecute
       (sql_create_employees_nulls (pfx d) (auto_inc_of d) (boolean_of d))
       None].
Qed.

Lemma problem_06_shape (d : DatabaseAdapter) (n : Z) :
  mspec d (problem_06_inconsistent_dates n)
    (fun _ => template_done (template_06 d) n)
    (template_failed (template_06 d) n).
Proof.
  unfold problem_06_inconsistent_dates.
  plain_shape (template_06 d)
    [CursorExecute (sql_create_events_bad_dates (pfx d)) None].
Qed.

Lemma problem_07_shape (d : DatabaseAdapter) (n : Z) :
  mspec d (problem_07_inconsistent_casing n)
    (fun _ => template_done (template_07 d) n)
    (template_failed (template_07 d) n).
Proof.
  unfold problem_07_inconsistent_casing.
  plain_shape (template_07 d)
    [CursorExecute (sql_create_contacts_bad_casing (pfx d)) None].
Qed.

Lemma problem_08_shape (d : DatabaseAdapter) (n : Z) :
  mspec d (problem_08_whitespace_issues n)
    (fun _ => template_done (template_08 d) n)
    (template_failed (template_08 d) n).
Proof.
  unfold problem_08_whitespace_issues.
  plain_shape (template_08 d)
    [CursorExecute (sql_create_inventory_whitespace (pfx d)) None].
Qed.

Lemma problem_09_shape (d : DatabaseAdapter) (n : Z) :
  mspec d (problem_09_invalid_emails n)
    (fun _ => template_done (template_09 d) n)
    (template_failed (template_09 d) n).
Proof.
  unfold problem_09_invalid_emails.
  plain_shape (template_09 d)
    [CursorExecute (sql_create_subscribers_bad_emails (pfx d)) None].
Qed.

Lemma problem_10_shape (d : DatabaseAdapter) (n : Z) :
  mspec d (problem_10_out_of_range n)
    (fun _ => template_done (template_10 d) n)
    (template_failed (template_10 d) n).
Proof.
  unfold problem_10_out_of_range. cbv zeta.
  apply step_prefix. apply step_execute; [left; reflexivity|].
  apply step_lift with (P := fun _ => True); [apply gpost_true|].
  intros now _.
  apply (template_tail d (template_10 d) n
           [CursorExecute (sql_create_sales_bad_values (pfx d)) None]).
  - reflexivity.
  - intros bs _. apply fill_one. intros i acc. unfold any_row. gauto.
Qed.

Lemma problem_11_shape (d : DatabaseAdapter) (n : Z) :
  mspec d (problem_11_csv_in_columns n)
    (fun _ => template_done (template_11 d) n)
    (template_failed (template_11 d) n).
Proof.
  unfold problem_11_csv_in_columns.
  plain_shape (template_11 d)
    [CursorExecute (sql_create_articles_csv_tags (pfx d)) None].
Qed.

Lemma problem_12_shape (d : DatabaseAdapter) (n : Z) :
  mspec d (problem_12_encoding_issues n)
    (fun _ => template_done (template_12 d) n)
    (template_failed (template_12 d) n).
Proof.
  unfold problem_12_encoding_issues.
  plain_shape (template_12 d)
    [CursorExecute (sql_create_international_data (pfx d)) None].
Qed.

Lemma problem_14_shape (d : DatabaseAdapter) (n : Z) :
  mspec d (problem_14_missing_indexes n)
    (fun _ => template_done (template_14 d) n)
    (template_failed (template_14 d) n).
Proof.
  unfold problem_14_missing_indexes.
  plain_shape (template_14 d)
    [CursorExecute (sql_create_audit_log_no_index (pfx d) (auto_inc_of d))
       None].
Qed.

Lemma problem_15_shape (d : DatabaseAdapter) (n : Z) :
  mspec d (problem_15_type_coercion n)
    (fun _ => template_done (template_15 d) n)
    (template_failed (template_15 d) n).
Proof.
  unfold problem_15_type_coercion. cbv zeta.
  apply step_prefix.
  apply step_execute; [left; left; reflexivity|].
  apply step_execute; [left; right; left; reflexivity|].
  apply step_lift
    with (P := fun accounts => Forall2 account_row (py_range 0 1000 1) accounts).
  { apply (gpost_for_fold_one account_row). intros i acc _.
    apply gpost_next; intros company. apply gpost_next; intros balance.
    apply gpost_ret. eexists. split; [reflexivity|].
    eexists. eexists. reflexivity. }
  intros accounts Hacc.
  apply step_executemany; [left; right; right; reflexivity|].
  apply (template_tail d (template_15 d) n
           [CursorExecute (sql_create_accounts_int_id (pfx d)) None;
            CursorExecute (sql_create_transactions_str_id (pfx d)) None;
            CursorExecuteMany (sql_insert_accounts_int_id (pfx d)) accounts]).
  - exists accounts. auto.
  - intros bs _. apply fill_one. intros i acc.
    apply gpost_two; intros s.
    apply gpost_next; intros amount. apply gpost_next; intros txn_date.
    apply gpost_ret. eexists. split; [reflexivity|].
    exists s, (py_round amount 2), txn_date. reflexivity.
Qed.

(** *** The two generators that flush a buffer *)

Lemma flush_or_keep_spec (d : DatabaseAdapter) (sql : string)
    (rows' : list Row) :
  mspec d
    (if 1000 <=? len rows'
     then executemany sql rows' ;; ret []
     else ret rows')
    (fun r tr =>
       ((List.length rows' < 1000)%nat /\ r = rows' /\ tr = []) \/
       ((1000 <= List.length rows')%nat /\ r = [] /\
        tr = [CursorExecuteMany sql rows']))
    (fun tr => tr = [] /\ (1000 <= List.length rows')%nat).
Proof.
  unfold len.
  destruct (Z.leb_spec 1000 (Z.of_nat (List.length rows'))) as [H|H].
  - eapply mspec_bind; [apply mspec_executemany | |].
    + intros tr ->. split; [reflexivity | lia].
    + intros [] tr1 ->. apply mspec_ret. right.
      repeat split; auto. lia.
  - apply mspec_ret. left. repeat split; auto. lia.
Qed.

(** Appending the same element at every iteration. *)
Lemma for_fold_repeat {X E : Type} (x : E) (l : list X) (acc : list E) :
  gpost (for_fold l acc (fun _ r => ret (r ++ [x])))
        (fun r => r = acc ++ repeat x (List.length l)).
Proof.
  revert acc. induction l as [|y l IH]; intros acc.
  - apply gpost_ret. simpl. rewrite app_nil_r. reflexivity.
  - intros s. pose proof (IH (acc ++ [x]) s) as H.
    simpl in *. rewrite H, <- app_assoc. reflexivity.
Qed.

(** The copies of a row are between one and four. *)
Lemma copies_from_range (s : Sources) : (1 <= copies_from s <= 4)%nat.
Proof.
  unfold copies_from. destruct (Qltb _ 0.5); [|lia].
  pose proof (random_randint_range 1 3 ltac:(lia) (snd (random_random s)))
    as H.
  cbv beta in H. lia.
Qed.

(** What the loop of the fifth generator appends for a user, the row it
    wrote first included. *)
Lemma duplicates_from (x : Row) (rows : list Row) (s : Sources) :
  fst ((c <- random_random ;;
        if Qltb c 0.5
        then k <- random_randint 1 3 ;;
             for_fold (py_range 0 k 1) (rows ++ [x])
               (fun _ rows => ret (rows ++ [x]))
        else ret (rows ++ [x])) s)
  = rows ++ repeat x (copies_from s).
Proof.
  unfold copies_from.
  change (fst ((c <- random_random ;;
                if Qltb c 0.5
                then k <- random_randint 1 3 ;;
                     for_fold (py_range 0 k 1) (rows ++ [x])
                       (fun _ rows => ret (rows ++ [x]))
                else ret (rows ++ [x])) s))
    with (fst ((if Qltb (fst (random_random s)) 0.5
                then k <- random_randint 1 3 ;;
                     for_fold (py_range 0 k 1) (rows ++ [x])
                       (fun _ rows => ret (rows ++ [x]))
                else ret (rows ++ [x])) (snd (random_random s)))).
  destruct (Qltb (fst (random_random s)) 0.5); [|reflexivity].
  set (s1 := snd (random_random s)).
  change (fst ((k <- random_randint 1 3 ;;
                for_fold (py_range 0 k 1) (rows ++ [x])
                  (fun _ rows => ret (rows ++ [x]))) s1))
    with (fst (for_fold (m := Gen)
                 (py_range 0 (fst (random_randint 1 3 s1)) 1)
                 (rows ++ [x]) (fun _ rows => ret (rows ++ [x]))
                 (snd (random_randint 1 3 s1)))).
  rewrite (for_fold_repeat x _ (rows ++ [x]) (snd (random_randint 1 3 s1))).
  rewrite py_range_unit_length, Z.sub_0_r, <- app_assoc. reflexivity.
Qed.

Lemma base_users_exist (n : Z) : exists base_users, base_user_ids base_users n.
Proof.
  exists (map (fun i => {| user_id := i + 1; username := "";
                           user_email := ""; phone := ""; created_at := 0 |})
              (py_range 0 (n / 3) 1)).
  unfold base_user_ids. rewrite map_map. reflexivity.
Qed.

Lemma flushing_failed_nil {X : Type} (T : Flushing X) : flushing_failed T [].
Proof.
  exists O, [], [], []. simpl.
  split; [constructor|].
  split; [split; [reflexivity | constructor]|].
  split; [lia|].
  exists (f_pre T ++ []). reflexivity.
Qed.

Lemma problem_05_shape (d : DatabaseAdapter) (n : Z) :
  mspec d (problem_05_duplicate_records n)
    (fun _ tr => exists base_users,
       base_user_ids base_users n /\
       flushing_done (flushing_05 d base_users) tr)
    (fun tr => exists base_users,
       base_user_ids base_users n /\
       flushing_failed (flushing_05 d base_users) tr).
Proof.
  unfold problem_05_duplicate_records. cbv zeta.
  apply step_prefix. apply step_auto_inc.
  apply step_execute.
  { destruct (base_users_exist n) as [bu Hbu]. exists bu. split; auto.
    apply flushing_failed_nil. }
  apply step_lift with (P := fun base_users => base_user_ids base_users n).
  { eapply gpost_weaken.
    - apply (gpost_for_fold_one (fun i u => user_id u = i + 1)).
      intros i acc _.
      repeat (apply gpost_next; intros).
      apply gpost_ret. eexists. split; reflexivity.
    - intros bu H. unfold base_user_ids.
      induction H as [|i u l l' Hu _ IH]; simpl; [reflexivity|].
      rewrite Hu, IH. reflexivity. }
  intros base_users Hids.
  eapply mspec_weaken.
  - apply (flushing_tail d (flushing_05 d base_users)).
    + intros u rows _. unfold flush_step.
      apply step_lift
        with (P := fun rows' => exists g, user_group u g /\ rows' = rows ++ g).
      * intros s. exists (repeat (user_row u) (copies_from s)).
        split; [exists s; reflexivity|].
        apply duplicates_from.
      * intros rows' [g [Hg ->]].
        eapply mspec_weaken; [apply flush_or_keep_spec | |].
        -- intros r tr H. exists g. split; [exact Hg | exact H].
        -- intros tr [-> H]. split; [reflexivity|]. exists g. auto.
    + intros u g _ [s ->]. rewrite repeat_length. simpl.
      pose proof (copies_from_range s). lia.
  - intros [] tr H. exists base_users. auto.
  - intros tr H. exists base_users. auto.
Qed.

Lemma problem_13_shape (d : DatabaseAdapter) (n : Z) :
  mspec d (problem_13_god_table n)
    (fun _ => flushing_done (flushing_13 d n))
    (flushing_failed (flushing_13 d n)).
Proof.
  unfold problem_13_god_table. cbv zeta.
  apply step_prefix.
  apply step_execute; [apply flushing_failed_nil|].
  apply step_lift with (P := fun _ => True); [apply gpost_true|].
  intros customers _.
  apply step_lift with (P := fun _ => True); [apply gpost_true|].
  intros products _.
  apply (flushing_tail d (flushing_13 d n)).
  - intros i rows _. unfold flush_step.
    apply step_lift with (P := fun _ => True); [apply gpost_true|].
    intros row _.
    eapply mspec_weaken;
      [apply (flush_or_keep_spec d _ (rows ++ [row])) | |].
    + intros r tr H. exists [row]. split; [|exact H].
      exists row. split; [reflexivity | exact I].
    + intros tr [-> H]. split; [reflexivity|]. exists [row].
      split; [|exact H]. exists row. split; [reflexivity | exact I].
  - intros i g _ [r [-> _]]. simpl. lia.
Qed.

(* ===================================================================== *)
(** * From the shape of a run to its protocol *)
(* ===================================================================== *)

Lemma skipn_app_exact {A : Type} (l l' : list A) :
  skipn (List.length l) (l ++ l') = l'.
Proof. induction l; simpl; auto. Qed.

(** What a specification says of one run. *)
Lemma mspec_run (d : DatabaseAdapter) {A : Type} (m : M A)
    (S : A -> list Call -> Prop) (F : list Call -> Prop) (w : World) :
  mspec d m S F -> db w = d ->
  match outcome_of m w with
  | Ok a => S a (calls_of m w)
  | Raise _ => F (calls_of m w) /\ ~ healthy w
  end.
Proof.
  intros Hm Hd. destruct (Hm w Hd) as [tr [Ht [_ [_ Ho]]]].
  unfold outcome_of, calls_of. rewrite Ht, skipn_app_exact. exact Ho.
Qed.

Lemma Forall_map_executemany (P : Call -> Prop) (sql : string)
    (batches : list (list Row)) :
  Forall (fun rows => P (CursorExecuteMany sql rows)) batches ->
  Forall P (map (CursorExecuteMany sql) batches).
Proof.
  intros H. induction H; simpl; constructor; auto.
Qed.

Lemma only_sql_batches (sql : string) (batches : list (list Row)) :
  Forall only_sql (map (CursorExecuteMany sql) batches).
Proof.
  apply Forall_map_executemany. apply Forall_forall. intros; exact I.
Qed.

Lemma batch_of_le (group : Z -> list Row -> Prop) (hi : nat) (n bs : Z)
    (rows : list Row) :
  (forall i g, group i g -> (List.length g <= hi)%nat) ->
  batch_of group n bs rows -> (List.length rows <= hi * 1000)%nat.
Proof.
  intros Hg Hb.
  assert (Hg' : forall i g, group i g -> (0 <= List.length g <= hi)%nat)
    by (intros i g H; specialize (Hg i g H); lia).
  pose proof (batch_of_length group 0 hi n bs rows Hg' Hb) as H.
  pose proof (batch_count_le n bs). nia.
Qed.

Lemma template_batches_le (T : Template) (B hi : nat) (n : Z) (j : nat)
    (batches : list (list Row)) :
  template_ok B hi T ->
  Forall2 (batch_of (t_group T) n) (firstn j (py_range 0 n 1000)) batches ->
  Forall (batch_le B) (map (CursorExecuteMany (t_sql T)) batches).
Proof.
  intros [_ [_ [Hg HB]]] HF.
  apply Forall_map_executemany.
  eapply Forall2_Forall_r; [|exact HF].
  intros bs rows Hb. unfold batch_le. simpl.
  pose proof (batch_of_le _ hi n bs rows Hg Hb). lia.
Qed.

(** A generator that follows a template obeys the protocol. *)
Lemma template_protocol (B hi : nat) (T : DatabaseAdapter -> Template)
    (n : Z) (m : M unit) :
  (forall d, template_ok B hi (T d)) ->
  (forall d, mspec d m (fun _ => template_done (T d) n)
                       (template_failed (T d) n)) ->
  generator_protocol B m.
Proof.
  intros Hok Hm w.
  pose proof (mspec_run (db w) m _ _ w (Hm (db w)) eq_refl) as H.
  specialize (Hok (db w)).
  destruct (outcome_of m w).
  - destruct H as [pre [batches [Hpre [HF ->]]]].
    exists (pre ++ map (CursorExecuteMany (t_sql (T (db w)))) batches).
    rewrite <- app_assoc. split; [reflexivity|].
    destruct Hok as [Hp Hrest]. destruct (Hp pre Hpre) as [Hs Hb].
    split; apply Forall_app; split; auto.
    + apply only_sql_batches.
    + apply (template_batches_le (T (db w)) B hi n
               (List.length (py_range 0 n 1000))); [split; auto|].
      rewrite firstn_all. exact HF.
  - destruct H as [[Hearly | [pre [j [batches [Hpre [HF ->]]]]]] Hh].
    + destruct Hok as [_ [He _]]. destruct (He _ Hearly). auto.
    + destruct Hok as [Hp Hrest]. destruct (Hp pre Hpre) as [Hs Hb].
      repeat split; auto; apply Forall_app; split; auto.
      * apply only_sql_batches.
      * apply (template_batches_le (T (db w)) B hi n j); [split; auto|].
        exact HF.
Qed.

Lemma Forall_is_prefix (P : Call -> Prop) (tr full : list Call) :
  is_prefix tr full -> Forall P full -> Forall P tr.
Proof.
  intros [rest ->] H. apply Forall_app in H. tauto.
Qed.

Lemma tail_flush_Forall (P : Call -> Prop) (sql : string) (rest : list Row) :
  P (CursorExecuteMany sql rest) -> Forall P (tail_flush sql rest).
Proof.
  intros H. destruct rest; simpl; constructor; auto.
Qed.

(** A generator that flushes a buffer obeys the protocol. *)
Lemma flushing_calls_ok {X : Type} (T : Flushing X) (B : nat)
    (batches : list (list Row)) (rest : list Row) :
  Forall only_sql (f_pre T) -> Forall (batch_le B) (f_pre T) ->
  (999 + f_most T <= B)%nat ->
  Forall (full_batch (f_most T)) batches ->
  (List.length rest < 1000 + f_most T)%nat ->
  let full := f_pre T ++ map (CursorExecuteMany (f_sql T)) batches
                ++ tail_flush (f_sql_tail T) rest in
  Forall only_sql full /\ Forall (batch_le B) full.
Proof.
  intros Hs Hb HB Hfull Hrest. simpl.
  split; apply Forall_app; split; auto; apply Forall_app; split.
  - apply only_sql_batches.
  - apply tail_flush_Forall. exact I.
  - apply Forall_map_executemany.
    eapply Forall_impl; [|exact Hfull].
    intros b [_ Hlt]. unfold batch_le. simpl. lia.
  - apply tail_flush_Forall. unfold batch_le. simpl. lia.
Qed.

Lemma flushing_done_protocol {X : Type} (T : Flushing X) (B : nat)
    (tr : list Call) :
  Forall only_sql (f_pre T) -> Forall (batch_le B) (f_pre T) ->
  (999 + f_most T <= B)%nat ->
  flushing_done T tr ->
  exists body,
    tr = body ++ [ConnectionCommit] /\
    Forall only_sql body /\ Forall (batch_le B) body.
Proof.
  intros Hs Hb HB [groups [batches [rest [HG [[Heq Hfull] [Hr ->]]]]]].
  exists (f_pre T ++ map (CursorExecuteMany (f_sql T)) batches
            ++ tail_flush (f_sql_tail T) rest).
  split; [rewrite <- !app_assoc; reflexivity|].
  apply flushing_calls_ok; auto. lia.
Qed.

Lemma flushing_failed_protocol {X : Type} (T : Flushing X) (B : nat)
    (tr : list Call) :
  Forall only_sql (f_pre T) -> Forall (batch_le B) (f_pre T) ->
  (999 + f_most T <= B)%nat ->
  flushing_failed T tr ->
  Forall only_sql tr /\ Forall (batch_le B) tr.
Proof.
  intros Hs Hb HB [j [groups [batches [rest [HG [[Heq Hfull] [Hr Hp]]]]]]].
  destruct (flushing_calls_ok T B batches rest Hs Hb HB Hfull Hr) as [H1 H2].
  split; eapply Forall_is_prefix; eauto.
Qed.

(** *** The fifteen generators *)

(** Goals about explicit lists of calls. *)
Ltac calls_ok :=
  repeat first [ apply Forall_nil | apply Forall_cons ];
  first [ exact I | unfold batch_le; simpl; lia ].

Lemma plain_template_ok (create insert : string)
    (group : Z -> list Row -> Prop) (B hi : nat) :
  (forall i g, group i g -> (List.length g <= hi)%nat) ->
  (hi * 1000 <= B)%nat ->
  template_ok B hi (plain_template create insert group).
Proof.
  intros Hg HB. unfold template_ok, plain_template. simpl.
  repeat split; auto.
  - subst pre. calls_ok.
  - subst pre. calls_ok.
  - subst tr. constructor.
  - subst tr. constructor.
Qed.

Lemma single_length (Q : Z -> Row -> Prop) (i : Z) (g : list Row) :
  single Q i g -> List.length g = 1%nat.
Proof. intros [r [-> _]]. reflexivity. Qed.

Lemma single_le (Q : Z -> Row -> Prop) (i : Z) (g : list Row) :
  single Q i g -> (List.length g <= 1)%nat.
Proof. intros H. rewrite (single_length Q i g H). lia. Qed.

Ltac plain_ok :=
  intros d; apply plain_template_ok; [apply single_le | lia].

Lemma template_01_ok (d : DatabaseAdapter) : template_ok 2000 2 (template_01 d).
Proof.
  apply plain_template_ok; [|lia].
  intros i g [r [-> | ->]]; simpl; lia.
Qed.

Lemma template_02_ok (d : DatabaseAdapter) : template_ok 1000 1 (template_02 d).
Proof.
  unfold template_ok, template_02. simpl. repeat split.
  - destruct H as [products [Hlen ->]]. calls_ok.
  - destruct H as [products [Hlen ->]]. calls_ok.
  - destruct H as [-> | [-> | [products [Hlen ->]]]];
      try constructor; calls_ok.
  - destruct H as [-> | [-> | [products [Hlen ->]]]];
      try constructor; calls_ok.
  - apply single_le.
  - lia.
Qed.

Lemma template_15_ok (d : DatabaseAdapter) : template_ok 1000 1 (template_15 d).
Proof.
  unfold template_ok, template_15. simpl. repeat split.
  - destruct H as [accounts [Hacc ->]]. calls_ok.
  - destruct H as [accounts [Hacc ->]].
    apply seed_length in Hacc. calls_ok.
  - destruct H as [-> | [-> | ->]]; try constructor; calls_ok.
  - destruct H as [-> | [-> | ->]]; try constructor; calls_ok.
  - apply single_le.
  - lia.
Qed.

Lemma problem_01_protocol (n : Z) :
  generator_protocol 2000 (problem_01_no_primary_key n).
Proof.
  apply (template_protocol 2000 2 template_01 n);
    [apply template_01_ok | intros d; apply problem_01_shape].
Qed.

Lemma problem_02_protocol (n : Z) :
  generator_protocol 1000 (problem_02_missing_foreign_keys n).
Proof.
  apply (template_protocol 1000 1 template_02 n);
    [apply template_02_ok | intros d; apply problem_02_shape].
Qed.

Lemma problem_03_protocol (n : Z) :
  generator_protocol 1000 (problem_03_wrong_data_types n).
Proof.
  apply (template_protocol 1000 1 template_03 n);
    [plain_ok | intros d; apply problem_03_shape].
Qed.

Lemma problem_04_protocol (n : Z) :
  generator_protocol 1000 (problem_04_missing_not_null n).
Proof.
  apply (template_protocol 1000 1 template_04 n);
    [plain_ok | intros d; apply problem_04_shape].
Qed.

Lemma problem_05_protocol (n : Z) :
  generator_protocol 1003 (problem_05_duplicate_records n).
Proof.
  intros w.
  pose proof (mspec_run (db w) _ _ _ w (problem_05_shape (db w) n) eq_refl)
    as H.
  assert (Hs : forall bu, Forall only_sql (f_pre (flushing_05 (db w) bu)))
    by (intros; simpl; calls_ok).
  assert (Hb : forall bu, Forall (batch_le 1003)
                            (f_pre (flushing_05 (db w) bu)))
    by (intros; simpl; calls_ok).
  destruct (outcome_of (problem_05_duplicate_records n) w).
  - destruct H as [bu [_ H]].
    apply (flushing_done_protocol (flushing_05 (db w) bu)); auto.
  - destruct H as [[bu [_ H]] Hh].
    destruct (flushing_failed_protocol (flushing_05 (db w) bu) 1003 _
                (Hs bu) (Hb bu) (le_n _) H).
    auto.
Qed.

Lemma problem_06_protocol (n : Z) :
  generator_protocol 1000 (problem_06_inconsistent_dates n).
Proof.
  apply (template_protocol 1000 1 template_06 n);
    [plain_ok | intros d; apply problem_06_shape].
Qed.

Lemma problem_07_protocol (n : Z) :
  generator_protocol 1000 (problem_07_inconsistent_casing n).
Proof.
  apply (template_protocol 1000 1 template_07 n);
    [plain_ok | intros d; apply problem_07_shape].
Qed.

Lemma problem_08_protocol (n : Z) :
  generator_protocol 1000 (problem_08_whitespace_issues n).
Proof.
  apply (template_protocol 1000 1 template_08 n);
    [plain_ok | intros d; apply problem_08_shape].
Qed.

Lemma problem_09_protocol (n : Z) :
  generator_protocol 1000 (problem_09_invalid_emails n).
Proof.
  apply (template_protocol 1000 1 template_09 n);
    [plain_ok | intros d; apply problem_09_shape].
Qed.

Lemma problem_10_protocol (n : Z) :
  generator_protocol 1000 (problem_10_out_of_range n).
Proof.
  apply (template_protocol 1000 1 template_10 n);
    [plain_ok | intros d; apply problem_10_shape].
Qed.

Lemma problem_11_protocol (n : Z) :
  generator_protocol 1000 (problem_11_csv_in_columns n).
Proof.
  apply (template_protocol 1000 1 template_11 n);
    [plain_ok | intros d; apply problem_11_shape].
Qed.

Lemma problem_12_protocol (n : Z) :
  generator_protocol 1000 (problem_12_encoding_issues n).
Proof.
  apply (template_protocol 1000 1 template_12 n);
    [plain_ok | intros d; apply problem_12_shape].
Qed.

Lemma problem_13_protocol (n : Z) :
  generator_protocol 1000 (problem_13_god_table n).
Proof.
  intros w.
  pose proof (mspec_run (db w) _ _ _ w (problem_13_shape (db w) n) eq_refl)
    as H.
  assert (Hs : Forall only_sql (f_pre (flushing_13 (db w) n)))
    by (simpl; calls_ok).
  assert (Hb : Forall (batch_le 1000) (f_pre (flushing_13 (db w) n)))
    by (simpl; calls_ok).
  destruct (outcome_of (problem_13_god_table n) w).
  - apply (flushing_done_protocol (flushing_13 (db w) n)); auto.
  - destruct H as [H Hh].
    destruct (flushing_failed_protocol (flushing_13 (db w) n) 1000 _
                Hs Hb (le_n _) H).
    auto.
Qed.

Lemma problem_14_protocol (n : Z) :
  generator_protocol 1000 (problem_14_missing_indexes n).
Proof.
  apply (template_protocol 1000 1 template_14 n);
    [plain_ok | intros d; apply problem_14_shape].
Qed.

Lemma problem_15_protocol (n : Z) :
  generator_protocol 1000 (problem_15_type_coercion n).
Proof.
  apply (template_protocol 1000 1 template_15 n);
    [apply template_15_ok | intros d; apply problem_15_shape].
Qed.

(** Every generator of the list obeys the protocol with its own bound. *)
Lemma problems_protocol (base : Z) :
  Forall2 (fun B (p : string * (Z -> M unit) * Z) =>
             forall n, generator_protocol B (snd (fst p) n))
          batch_bounds (problems base).
Proof.
  unfold batch_bounds, problems.
  repeat constructor; simpl; intros n.
  - apply problem_01_protocol.
  - apply problem_02_protocol.
  - apply problem_03_protocol.
  - apply problem_04_protocol.
  - apply problem_05_protocol.
  - apply problem_06_protocol.
  - apply problem_07_protocol.
  - apply problem_08_protocol.
  - apply problem_09_protocol.
  - apply problem_10_protocol.
  - apply problem_11_protocol.
  - apply problem_12_protocol.
  - apply problem_13_protocol.
  - apply problem_14_protocol.
  - apply problem_15_protocol.
Qed.

(* ===================================================================== *)
(** * The rows a generator writes *)
(* ===================================================================== *)

Lemma rows_into_any_app (sqls : list string) (a b : list Call) :
  rows_into_any sqls (a ++ b) = rows_into_any sqls a ++ rows_into_any sqls b.
Proof. unfold rows_into_any. apply flat_map_app. Qed.

Lemma rows_into_any_batches (sqls : list string) (sql : string)
    (batches : list (list Row)) :
  existsb (String.eqb sql) sqls = true ->
  rows_into_any sqls (map (CursorExecuteMany sql) batches)
  = List.concat batches.
Proof.
  intros H. induction batches as [|b bs IH]; simpl; [reflexivity|].
  rewrite H. f_equal. exact IH.
Qed.

Lemma rows_into_any_tail (sqls : list string) (sql : string)
    (rest : list Row) :
  existsb (String.eqb sql) sqls = true ->
  rows_into_any sqls (tail_flush sql rest) = rest.
Proof.
  intros H. destruct rest as [|r rest]; simpl; [reflexivity|].
  rewrite H, app_nil_r. reflexivity.
Qed.

Lemma existsb_head (sql : string) (more : list string) :
  existsb (String.eqb sql) (sql :: more) = true.
Proof. simpl. rewrite String.eqb_refl. reflexivity. Qed.

Lemma existsb_second (sql other : string) (more : list string) :
  existsb (String.eqb sql) (other :: sql :: more) = true.
Proof. simpl. rewrite String.eqb_refl. apply orb_true_r. Qed.

(** The batches of a template hold between [lo] and [hi] rows per index. *)
Lemma template_rows (group : Z -> list Row -> Prop) (lo hi : nat) (n : Z)
    (batches : list (list Row)) :
  (forall i g, group i g -> (lo <= List.length g <= hi)%nat) ->
  Forall2 (batch_of group n) (py_range 0 n 1000) batches ->
  (lo * Z.to_nat n <= List.length (List.concat batches)
   <= hi * Z.to_nat n)%nat.
Proof.
  intros Hg HF. rewrite length_concat_sum, <- (batch_count_total n).
  apply (Forall2_sum_bounds (batch_of group n) (batch_count n)
           (@List.length Row) lo hi); [|exact HF].
  intros bs rows Hb. apply (batch_of_length group lo hi n bs rows Hg Hb).
Qed.

(** A template generator in a healthy world: it returns, and its statement
    wrote the rows of its batches. *)
Lemma template_writes (T : Template) (lo hi : nat) (n : Z) (m : M unit)
    (w : World) :
  mspec (db w) m (fun _ => template_done T n) (template_failed T n) ->
  (forall pre, t_pre T pre -> rows_into_any [t_sql T] pre = []) ->
  (forall i g, t_group T i g -> (lo <= List.length g <= hi)%nat) ->
  healthy w ->
  writes_rows [t_sql T] (lo * Z.to_nat n) (hi * Z.to_nat n) m w.
Proof.
  intros Hm Hpre Hg Hw.
  pose proof (mspec_run (db w) m _ _ w Hm eq_refl) as H.
  unfold writes_rows.
  destruct (outcome_of m w) as [[]|e].
  - split; [reflexivity|].
    destruct H as [pre [batches [Hp [HF ->]]]].
    rewrite !rows_into_any_app, (Hpre pre Hp),
      (rows_into_any_batches _ _ _ (existsb_head _ _)).
    simpl. rewrite app_nil_r. apply (template_rows _ lo hi n batches Hg HF).
  - destruct H as [_ Hh]. contradiction.
Qed.

Lemma plain_pre_silent (create insert sql : string)
    (group : Z -> list Row -> Prop) (pre : list Call) :
  t_pre (plain_template create insert group) pre ->
  rows_into_any [sql] pre = [].
Proof. simpl. intros <-. reflexivity. Qed.

Lemma single_bounds (Q : Z -> Row -> Prop) (i : Z) (g : list Row) :
  single Q i g -> (1 <= List.length g <= 1)%nat.
Proof. intros H. rewrite (single_length Q i g H). lia. Qed.

Ltac plain_writes shape :=
  intros Hw;
  match goal with
  | |- writes_rows _ _ _ (_ ?n) ?w =>
      pose proof (template_writes _ 1 1 n _ w (shape (db w) n)
                    (plain_pre_silent _ _ _ _) (single_bounds _) Hw) as H;
      rewrite !Nat.mul_1_l in H; exact H
  end.

Lemma problem_01_writes (n : Z) (w : World) :
  healthy w ->
  writes_rows [sql_insert_customers_no_pk (pfx (db w))]
    (Z.to_nat n) (2 * Z.to_nat n) (problem_01_no_primary_key n) w.
Proof.
  intros Hw.
  pose proof (template_writes _ 1 2 n _ w (problem_01_shape (db w) n)
                (plain_pre_silent _ _ _ _)) as H.
  rewrite Nat.mul_1_l in H. apply H; [|exact Hw].
  intros i g [r [-> | ->]]; simpl; lia.
Qed.

Lemma problem_02_writes (n : Z) (w : World) :
  healthy w ->
  writes_rows [sql_insert_orders_no_fk (pfx (db w))]
    (Z.to_nat n) (Z.to_nat n) (problem_02_missing_foreign_keys n) w.
Proof.
  intros Hw.
  pose proof (template_writes (template_02 (db w)) 1 1 n _ w
                (problem_02_shape (db w) n)) as H.
  rewrite !Nat.mul_1_l in H. apply H; [| apply single_bounds | exact Hw].
  intros pre [products [_ ->]]. unfold pfx. simpl.
  destruct (db_type (config (db w))); reflexivity.
Qed.

Lemma problem_03_writes (n : Z) (w : World) :
  healthy w ->
  writes_rows [sql_insert_transactions_bad_types (pfx (db w))]
    (Z.to_nat n) (Z.to_nat n) (problem_03_wrong_data_types n) w.
Proof. plain_writes problem_03_shape. Qed.

Lemma problem_04_writes (n : Z) (w : World) :
  healthy w ->
  writes_rows [sql_insert_employees_nulls (pfx (db w))]
    (Z.to_nat n) (Z.to_nat n) (problem_04_missing_not_null n) w.
Proof. plain_writes problem_04_shape. Qed.

Lemma problem_06_writes (n : Z) (w : World) :
  healthy w ->
  writes_rows [sql_insert_events_bad_dates (pfx (db w))]
    (Z.to_nat n) (Z.to_nat n) (problem_06_inconsistent_dates n) w.
Proof. plain_writes problem_06_shape. Qed.

Lemma problem_07_writes (n : Z) (w : World) :
  healthy w ->
  writes_rows [sql_insert_contacts_bad_casing (pfx (db w))]
    (Z.to_nat n) (Z.to_nat n) (problem_07_inconsistent_casing n) w.
Proof. plain_writes problem_07_shape. Qed.

Lemma problem_08_writes (n : Z) (w : World) :
  healthy w ->
  writes_rows [sql_insert_inventory_whitespace (pfx (db w))]
    (Z.to_nat n) (Z.to_nat n) (problem_08_whitespace_issues n) w.
Proof. plain_writes problem_08_shape. Qed.

Lemma problem_09_writes (n : Z) (w : World) :
  healthy w ->
  writes_rows [sql_insert_subscribers_bad_emails (pfx (db w))]
    (Z.to_nat n) (Z.to_nat n) (problem_09_invalid_emails n) w.
Proof. plain_writes problem_09_shape. Qed.

Lemma problem_10_writes (n : Z) (w : World) :
  healthy w ->
  writes_rows [sql_insert_sales_bad_values (pfx (db w))]
    (Z.to_nat n) (Z.to_nat n) (problem_10_out_of_range n) w.
Proof. plain_writes problem_10_shape. Qed.

Lemma problem_11_writes (n : Z) (w : World) :
  healthy w ->
  writes_rows [sql_insert_articles_csv_tags (pfx (db w))]
    (Z.to_nat n) (Z.to_nat n) (problem_11_csv_in_columns n) w.
Proof. plain_writes problem_11_shape. Qed.

Lemma problem_12_writes (n : Z) (w : World) :
  healthy w ->
  writes_rows [sql_insert_international_data (pfx (db w))]
    (Z.to_nat n) (Z.to_nat n) (problem_12_encoding_issues n) w.
Proof. plain_writes problem_12_shape. Qed.

Lemma problem_14_writes (n : Z) (w : World) :
  healthy w ->
  writes_rows [sql_insert_audit_log_no_index (pfx (db w))]
    (Z.to_nat n) (Z.to_nat n) (problem_14_missing_indexes n) w.
Proof. plain_writes problem_14_shape. Qed.

Lemma problem_15_writes (n : Z) (w : World) :
  healthy w ->
  writes_rows [sql_insert_transactions_str_id (pfx (db w))]
    (Z.to_nat n) (Z.to_nat n) (problem_15_type_coercion n) w.
Proof.
  intros Hw.
  pose proof (template_writes (template_15 (db w)) 1 1 n _ w
                (problem_15_shape (db w) n)) as H.
  rewrite !Nat.mul_1_l in H. apply H; [| apply single_bounds | exact Hw].
  intros pre [accounts [_ ->]]. unfold pfx. simpl.
  destruct (db_type (config (db w))); reflexivity.
Qed.

(** The rows of a generator that flushes a buffer are its groups. *)
Lemma flushing_done_rows {X : Type} (T : Flushing X) (tr : list Call) :
  rows_into_any [f_sql T; f_sql_tail T] (f_pre T) = [] ->
  flushing_done T tr ->
  exists groups,
    Forall2 (f_group T) (f_items T) groups /\
    rows_into_any [f_sql T; f_sql_tail T] tr = List.concat groups.
Proof.
  intros Hpre [groups [batches [rest [HG [[Heq _] [_ ->]]]]]].
  exists groups. split; [exact HG|].
  rewrite !rows_into_any_app, Hpre,
    (rows_into_any_batches _ _ _ (existsb_head _ _)),
    (rows_into_any_tail _ _ _ (existsb_second _ _ _)).
  simpl. rewrite app_nil_r. symmetry. exact Heq.
Qed.

Lemma groups_total {X : Type} (group : X -> list Row -> Prop) (lo hi : nat)
    (l : list X) (groups : list (list Row)) :
  (forall x g, group x g -> (lo <= List.length g <= hi)%nat) ->
  Forall2 group l groups ->
  (lo * List.length l <= List.length (List.concat groups)
   <= hi * List.length l)%nat.
Proof.
  intros Hg HF. rewrite length_concat_sum.
  assert (Hone : forall x g, group x g ->
            (lo * (fun _ : X => 1%nat) x <= List.length g
             <= hi * (fun _ : X => 1%nat) x)%nat).
  { intros x g H. specialize (Hg x g H). cbv beta. lia. }
  pose proof (Forall2_sum_bounds group (fun _ => 1%nat) (@List.length Row)
                lo hi l groups Hone HF) as H.
  assert (Hc : list_sum (map (fun _ : X => 1%nat) l) = List.length l)
    by (clear; induction l; simpl; auto).
  rewrite Hc in H. exact H.
Qed.

Lemma problem_05_writes (n : Z) (w : World) :
  healthy w ->
  writes_rows [sql_insert_users_duplicates (pfx (db w));
               sql_insert_users_duplicates_tail (pfx (db w))]
    (Z.to_nat (n / 3)) (4 * Z.to_nat (n / 3))
    (problem_05_duplicate_records n) w.
Proof.
  intros Hw.
  pose proof (mspec_run (db w) _ _ _ w (problem_05_shape (db w) n) eq_refl)
    as H.
  unfold writes_rows.
  destruct (outcome_of (problem_05_duplicate_records n) w) as [[]|e].
  - split; [reflexivity|].
    destruct H as [bu [Hids H]].
    destruct (flushing_done_rows (flushing_05 (db w) bu) _ eq_refl H)
      as [groups [HG Hrows]].
    simpl in Hrows, HG. rewrite Hrows.
    assert (Hlen : List.length bu = Z.to_nat (n / 3)).
    { unfold base_user_ids in Hids.
      apply (f_equal (@List.length Z)) in Hids.
      rewrite !length_map, py_range_unit_length in Hids.
      rewrite Hids. f_equal. lia. }
    pose proof (groups_total user_group 1 4 bu groups) as Hb.
    rewrite Hlen, Nat.mul_1_l in Hb. apply Hb; [|exact HG].
    intros u g [s ->]. rewrite repeat_length. apply copies_from_range.
  - destruct H as [_ Hh]. contradiction.
Qed.

Lemma problem_13_writes (n : Z) (w : World) :
  healthy w ->
  writes_rows [sql_insert_god_table (pfx (db w));
               sql_insert_god_table_tail (pfx (db w))]
    (Z.to_nat n) (Z.to_nat n) (problem_13_god_table n) w.
Proof.
  intros Hw.
  pose proof (mspec_run (db w) _ _ _ w (problem_13_shape (db w) n) eq_refl)
    as H.
  unfold writes_rows.
  destruct (outcome_of (problem_13_god_table n) w) as [[]|e].
  - split; [reflexivity|].
    destruct (flushing_done_rows (flushing_13 (db w) n) _ eq_refl H)
      as [groups [HG Hrows]].
    simpl in Hrows, HG. rewrite Hrows.
    pose proof (groups_total (single any_row) 1 1 _ groups
                  (single_bounds any_row) HG) as Hb.
    rewrite py_range_unit_length, !Nat.mul_1_l in Hb.
    replace (n - 0) with n in Hb by lia. exact Hb.
  - destruct H as [_ Hh]. contradiction.
Qed.

(** ** All the rows of a run *)

Lemma all_rows_app (a b : list Call) :
  all_rows (a ++ b) = all_rows a ++ all_rows b.
Proof. unfold all_rows. apply flat_map_app. Qed.

Lemma all_rows_batches (sql : string) (batches : list (list Row)) :
  all_rows (map (CursorExecuteMany sql) batches) = List.concat batches.
Proof.
  induction batches as [|b bs IH]; simpl; [reflexivity|].
  f_equal. exact IH.
Qed.

Lemma all_rows_tail (sql : string) (rest : list Row) :
  all_rows (tail_flush sql rest) = rest.
Proof.
  destruct rest as [|r rest]; simpl; [reflexivity|].
  rewrite app_nil_r. reflexivity.
Qed.

(** A template generator in a healthy world inserts the rows of its table
    and the [k] rows of the calls before the first batch. *)
Lemma template_total (T : Template) (k : nat) (n : Z) (m : M unit)
    (w : World) :
  mspec (db w) m (fun _ => template_done T n) (template_failed T n) ->
  (forall pre, t_pre T pre ->
     rows_into_any [t_sql T] pre = [] /\ List.length (all_rows pre) = k) ->
  healthy w ->
  rows_inserted m w = (rows_written [t_sql T] m w + k)%nat.
Proof.
  intros Hm Hpre Hw.
  pose proof (mspec_run (db w) m _ _ w Hm eq_refl) as H.
  unfold rows_inserted, rows_written.
  destruct (outcome_of m w) as [[]|e].
  - destruct H as [pre [batches [Hp [HF ->]]]].
    destruct (Hpre pre Hp) as [Hnone Hk].
    rewrite !rows_into_any_app, Hnone,
      (rows_into_any_batches _ _ _ (existsb_head _ _)).
    rewrite !all_rows_app, all_rows_batches.
    simpl. rewrite !app_nil_r, length_app, Hk. lia.
  - destruct H as [_ Hh]. contradiction.
Qed.

Lemma plain_pre_none (create insert : string)
    (group : Z -> list Row -> Prop) (pre : list Call) :
  t_pre (plain_template create insert group) pre ->
  rows_into_any [insert] pre = [] /\ List.length (all_rows pre) = 0%nat.
Proof. simpl. intros <-. split; reflexivity. Qed.

(** A flushing generator whose first calls insert nothing writes all its
    rows with its two statements. *)
Lemma flushing_total {X : Type} (T : Flushing X) (tr : list Call) :
  rows_into_any [f_sql T; f_sql_tail T] (f_pre T) = [] ->
  all_rows (f_pre T) = [] ->
  flushing_done T tr ->
  all_rows tr = rows_into_any [f_sql T; f_sql_tail T] tr.
Proof.
  intros Hpre Hall [groups [batches [rest [HG [[Heq _] [_ ->]]]]]].
  rewrite !rows_into_any_app, Hpre,
    (rows_into_any_batches _ _ _ (existsb_head _ _)),
    (rows_into_any_tail _ _ _ (existsb_second _ _ _)).
  rewrite !all_rows_app, Hall, all_rows_batches, all_rows_tail.
  reflexivity.
Qed.

Ltac plain_total shape :=
  intros Hw;
  match goal with
  | |- inserts_in_all _ _ (_ ?n) ?w =>
      exact (template_total _ 0 n _ w (shape (db w) n)
               (plain_pre_none _ _ _) Hw)
  end.

Lemma problem_01_total (n : Z) (w : World) :
  healthy w ->
  inserts_in_all [sql_insert_customers_no_pk (pfx (db w))] 0
    (problem_01_no_primary_key n) w.
Proof. plain_total problem_01_shape. Qed.

Lemma problem_02_total (n : Z) (w : World) :
  healthy w ->
  inserts_in_all [sql_insert_orders_no_fk (pfx (db w))] 100
    (problem_02_missing_foreign_keys n) w.
Proof.
  intros Hw.
  apply (template_total (template_02 (db w)) 100 n _ w
           (problem_02_shape (db w) n)); [|exact Hw].
  intros pre [products [Hlen ->]]. split.
  - unfold pfx. simpl. destruct (db_type (config (db w))); reflexivity.
  - simpl. rewrite app_nil_r. exact Hlen.
Qed.

Lemma problem_03_total (n : Z) (w : World) :
  healthy w ->
  inserts_in_all [sql_insert_transactions_bad_types (pfx (db w))] 0
    (problem_03_wrong_data_types n) w.
Proof. plain_total problem_03_shape. Qed.

Lemma problem_04_total (n : Z) (w : World) :
  healthy w ->
  inserts_in_all [sql_insert_employees_nulls (pfx (db w))] 0
    (problem_04_missing_not_null n) w.
Proof. plain_total problem_04_shape. Qed.

Lemma problem_05_total (n : Z) (w : World) :
  healthy w ->
  inserts_in_all [sql_insert_users_duplicates (pfx (db w));
                  sql_insert_users_duplicates_tail (pfx (db w))] 0
    (problem_05_duplicate_records n) w.
Proof.
  intros Hw.
  pose proof (mspec_run (db w) _ _ _ w (problem_05_shape (db w) n) eq_refl)
    as H.
  unfold inserts_in_all, rows_inserted, rows_written.
  destruct (outcome_of (problem_05_duplicate_records n) w) as [[]|e].
  - destruct H as [bu [_ H]].
    rewrite (flushing_total (flushing_05 (db w) bu) _ eq_refl eq_refl H).
    simpl. lia.
  - destruct H as [_ Hh]. contradiction.
Qed.

Lemma problem_06_total (n : Z) (w : World) :
  healthy w ->
  inserts_in_all [sql_insert_events_bad_dates (pfx (db w))] 0
    (problem_06_inconsistent_dates n) w.
Proof. plain_total problem_06_shape. Qed.

Lemma problem_07_total (n : Z) (w : World) :
  healthy w ->
  inserts_in_all [sql_insert_contacts_bad_casing (pfx (db w))] 0
    (problem_07_inconsistent_casing n) w.
Proof. plain_total problem_07_shape. Qed.

Lemma problem_08_total (n : Z) (w : World) :
  healthy w ->
  inserts_in_all [sql_insert_inventory_whitespace (pfx (db w))] 0
    (problem_08_whitespace_issues n) w.
Proof. plain_total problem_08_shape. Qed.

Lemma problem_09_total (n : Z) (w : World) :
  healthy w ->
  inserts_in_all [sql_insert_subscribers_bad_emails (pfx (db w))] 0
    (problem_09_invalid_emails n) w.
Proof. plain_total problem_09_shape. Qed.

Lemma problem_10_total (n : Z) (w : World) :
  healthy w ->
  inserts_in_all [sql_insert_sales_bad_values (pfx (db w))] 0
    (problem_10_out_of_range n) w.
Proof. plain_total problem_10_shape. Qed.

Lemma problem_11_total (n : Z) (w : World) :
  healthy w ->
  inserts_in_all [sql_insert_articles_csv_tags (pfx (db w))] 0
    (problem_11_csv_in_columns n) w.
Proof. plain_total problem_11_shape. Qed.

Lemma problem_12_total (n : Z) (w : World) :
  healthy w ->
  inserts_in_all [sql_insert_international_data (pfx (db w))] 0
    (problem_12_encoding_issues n) w.
Proof. plain_total problem_12_shape. Qed.

Lemma problem_13_total (n : Z) (w : World) :
  healthy w ->
  inserts_in_all [sql_insert_god_table (pfx (db w));
                  sql_insert_god_table_tail (pfx (db w))] 0
    (problem_13_god_table n) w.
Proof.
  intros Hw.
  pose proof (mspec_run (db w) _ _ _ w (problem_13_shape (db w) n) eq_refl)
    as H.
  unfold inserts_in_all, rows_inserted, rows_written.
  destruct (outcome_of (problem_13_god_table n) w) as [[]|e].
  - rewrite (flushing_total (flushing_13 (db w) n) _ eq_refl eq_refl H).
    simpl. lia.
  - destruct H as [_ Hh]. contradiction.
Qed.

Lemma problem_14_total (n : Z) (w : World) :
  healthy w ->
  inserts_in_all [sql_insert_audit_log_no_index (pfx (db w))] 0
    (problem_14_missing_indexes n) w.
Proof. plain_total problem_14_shape. Qed.

Lemma problem_15_total (n : Z) (w : World) :
  healthy w ->
  inserts_in_all [sql_insert_transactions_str_id (pfx (db w))] 1000
    (problem_15_type_coercion n) w.
Proof.
  intros Hw.
  apply (template_total (template_15 (db w)) 1000 n _ w
           (problem_15_shape (db w) n)); [|exact Hw].
  intros pre [accounts [HF ->]]. split.
  - unfold pfx. simpl. destruct (db_type (config (db w))); reflexivity.
  - simpl. rewrite app_nil_r.
    rewrite <- (Forall2_length HF), py_range_unit_length. reflexivity.
Qed.

(* ===================================================================== *)
(** * Reasoning about whole commands *)
(* ===================================================================== *)

Lemma calls_of_trace {A : Type} (m : M A) (w : World) (tr : list Call) :
  trace (snd (m w)) = trace w ++ tr -> calls_of m w = tr.
Proof. intros H. unfold calls_of. rewrite H. apply skipn_app_exact. Qed.

Lemma emits_weaken (P P' : Call -> Prop) {A : Type} (m : M A) :
  (forall c, P c -> P' c) -> emits P m -> emits P' m.
Proof.
  intros HP Hm w. destruct (Hm w) as [tr [Ht Hf]].
  exists tr. split; [exact Ht|]. eapply Forall_impl; eauto.
Qed.

Lemma emits_silent (P : Call -> Prop) {A : Type} (m : M A) :
  (forall w, trace (snd (m w)) = trace w) -> emits P m.
Proof.
  intros H w. exists []. rewrite app_nil_r. split; [apply H|constructor].
Qed.

Lemma emits_ret (P : Call -> Prop) {A : Type} (a : A) : emits P (ret a).
Proof. apply emits_silent. reflexivity. Qed.

Lemma emits_raise (P : Call -> Prop) {A : Type} (e : Exn) :
  emits P (@raise A e).
Proof. apply emits_silent. reflexivity. Qed.

Lemma emits_this (P : Call -> Prop) : emits P this.
Proof. apply emits_silent. reflexivity. Qed.

Lemma emits_set_this (P : Call -> Prop) (a : DatabaseAdapter) :
  emits P (set_this a).
Proof. apply emits_silent. reflexivity. Qed.

Lemma emits_fetched (P : Call -> Prop) : emits P fetched.
Proof. apply emits_silent. reflexivity. Qed.

Lemma emits_lift (P : Call -> Prop) {A : Type} (g : Gen A) :
  emits P (lift g).
Proof.
  apply emits_silent. intros w. unfold lift.
  destruct (g (sources w)). reflexivity.
Qed.

Lemma emits_call (P : Call -> Prop) (c : Call) : P c -> emits P (call c).
Proof.
  intros Hc w. unfold call. destruct (faults w (ticks w)); simpl.
  - exists []. rewrite app_nil_r. split; [reflexivity|constructor].
  - exists [c]. split; [reflexivity|]. constructor; [exact Hc|constructor].
Qed.

Lemma emits_mark (P : Call -> Prop) (c : Call) : P c -> emits P (mark c).
Proof.
  intros Hc w. exists [c]. split; [reflexivity|].
  constructor; [exact Hc|constructor].
Qed.

Lemma emits_bind (P : Call -> Prop) {A B : Type} (m : M A) (f : A -> M B) :
  emits P m -> (forall a, emits P (f a)) -> emits P (bind m f).
Proof.
  intros Hm Hf w. destruct (Hm w) as [tr1 [Ht1 Hp1]]. simpl.
  destruct (m w) as [[a|e] w1]; simpl in *.
  - destruct (Hf a w1) as [tr2 [Ht2 Hp2]].
    exists (tr1 ++ tr2). rewrite Ht2, Ht1, app_assoc.
    split; [reflexivity|]. apply Forall_app. auto.
  - exists tr1. auto.
Qed.

Lemma try_finally_world {A : Type} (body : M A) (final : M unit)
    (w : World) :
  snd (try_finally body final w) = snd (final (snd (body w))).
Proof.
  unfold try_finally. destruct (body w) as [o w1]. simpl.
  destruct (final w1) as [[u|e] w2]; reflexivity.
Qed.

Lemma emits_try_finally (P : Call -> Prop) {A : Type} (body : M A)
    (final : M unit) :
  emits P body -> emits P final -> emits P (try_finally body final).
Proof.
  intros Hb Hf w. rewrite try_finally_world.
  destruct (Hb w) as [tr1 [Ht1 Hp1]].
  destruct (Hf (snd (body w))) as [tr2 [Ht2 Hp2]].
  exists (tr1 ++ tr2). rewrite Ht2, Ht1, app_assoc.
  split; [reflexivity|]. apply Forall_app. auto.
Qed.

Lemma emits_try_except (P : Call -> Prop) {A : Type} (body : M A)
    (handler : Exn -> M A) :
  emits P body -> (forall e, emits P (handler e)) ->
  emits P (try_except body handler).
Proof.
  intros Hb Hh w. destruct (Hb w) as [tr1 [Ht1 Hp1]]. unfold try_except.
  destruct (body w) as [[a|e] w1]; simpl in *.
  - exists tr1. auto.
  - destruct (is_Exception e).
    + destruct (Hh e w1) as [tr2 [Ht2 Hp2]].
      exists (tr1 ++ tr2). rewrite Ht2, Ht1, app_assoc.
      split; [reflexivity|]. apply Forall_app. auto.
    + exists tr1. auto.
Qed.

Lemma emits_for_each (P : Call -> Prop) {X : Type} (l : list X)
    (body : X -> M unit) :
  (forall x, In x l -> emits P (body x)) -> emits P (for_each l body).
Proof.
  induction l as [|x l IH]; intros H; simpl.
  - apply emits_ret.
  - apply emits_bind.
    + apply H. left. reflexivity.
    + intros _. apply IH. intros y Hy. apply H. right. exact Hy.
Qed.

(** Steps through a command built from calls whose membership in the
    property is decided by computation. *)
Ltac emits_call_ok :=
  first [ exact I | discriminate | left; exact I | right; reflexivity ].

Ltac emits_auto :=
  repeat match goal with
    | |- emits _ (bind _ _) => apply emits_bind; [|intros]
    | |- emits _ (ret _) => apply emits_ret
    | |- emits _ (raise _) => apply emits_raise
    | |- emits _ this => apply emits_this
    | |- emits _ (set_this _) => apply emits_set_this
    | |- emits _ fetched => apply emits_fetched
    | |- emits _ (lift _) => apply emits_lift
    | |- emits _ (call _) => apply emits_call; emits_call_ok
    | |- emits _ (mark _) => apply emits_mark; emits_call_ok
    | |- emits _ (try_finally _ _) => apply emits_try_finally
    | |- emits _ (try_except _ _) => apply emits_try_except; [|intros]
    | |- emits _ (for_each _ _) => apply emits_for_each; intros
    | |- emits _ (match ?x with _ => _ end) => destruct x
    end.

Section Emits.
Variable P : Call -> Prop.
Hypothesis P_execute : forall sql params, P (CursorExecute sql params).
Hypothesis P_commit : P ConnectionCommit.
Hypothesis P_import : forall name, P (ImportModule name).
Hypothesis P_connect : forall driver cfg, P (DriverConnect driver cfg).
Hypothesis P_autocommit : forall b, P (SetAutocommit b).
Hypothesis P_cursor : P ConnectionCursor.
Hypothesis P_fetch : P CursorFetchAll.

Lemma emits_execute (sql : string) (params : option Row) :
  emits P (execute sql params).
Proof.
  unfold execute. apply emits_bind; [apply emits_this|]. intros self.
  destruct params as [[|r rs]|]; destruct (cursor self);
    first [apply emits_raise | apply emits_call; apply P_execute].
Qed.

Lemma emits_commit : emits P commit.
Proof.
  unfold commit. apply emits_bind; [apply emits_this|]. intros self.
  destruct (connection self);
    first [apply emits_raise | apply emits_call; apply P_commit].
Qed.

Lemma emits_connect : emits P connect.
Proof.
  unfold connect. apply emits_bind; [apply emits_this|]. intros self.
  destruct (db_type (config self));
    unfold PostgresAdapter_connect, MySQLAdapter_connect,
      RedshiftAdapter_connect, set_connection, set_cursor;
    repeat first [ apply emits_bind; [|intros]
                 | apply emits_this | apply emits_set_this
                 | apply emits_call; auto ].
Qed.

Lemma emits_create_schema : emits P create_schema.
Proof.
  unfold create_schema. apply emits_bind; [apply emits_this|]. intros self.
  destruct (db_type (config self));
    unfold PostgresAdapter_create_schema, MySQLAdapter_create_schema,
      RedshiftAdapter_create_schema;
    repeat first [ apply emits_execute | apply emits_commit
                 | apply emits_ret | apply emits_bind; [|intros] ].
Qed.

Lemma emits_drop_schema : emits P drop_schema.
Proof.
  unfold drop_schema. apply emits_bind; [apply emits_this|]. intros self.
  destruct (db_type (config self));
    unfold PostgresAdapter_drop_schema, MySQLAdapter_drop_schema,
      RedshiftAdapter_drop_schema;
    repeat match goal with
      | |- emits _ (execute _ _) => apply emits_execute
      | |- emits _ commit => apply emits_commit
      | |- emits _ (bind _ _) => apply emits_bind; [|intros]
      | |- emits _ (ret _) => apply emits_ret
      | |- emits _ this => apply emits_this
      | |- emits _ fetched => apply emits_fetched
      | |- emits _ (raise _) => apply emits_raise
      | |- emits _ (call _) => apply emits_call; auto
      | |- emits _ (for_each _ _) => apply emits_for_each; intros
      | |- emits _ (match ?x with _ => _ end) => destruct x
      end.
Qed.
End Emits.

(** *** The generators within a command *)

Lemma mspec_framed {A : Type} (m : M A)
    (S : DatabaseAdapter -> A -> list Call -> Prop)
    (F : DatabaseAdapter -> list Call -> Prop) :
  (forall d, mspec d m (S d) (F d)) -> forall w, framed m w.
Proof.
  intros Hm w. destruct (Hm (db w) w eq_refl) as [tr [Ht _]].
  unfold framed, calls_of. rewrite Ht, skipn_app_exact. reflexivity.
Qed.

Lemma problems_framed (base : Z) :
  Forall (fun p : string * (Z -> M unit) * Z =>
            forall n w, framed (snd (fst p) n) w)
         (problems base).
Proof.
  unfold problems.
  repeat (apply Forall_cons; [simpl; intros n|]); [..|apply Forall_nil].
  - apply (mspec_framed _ _ _ (fun d => problem_01_shape d n)).
  - apply (mspec_framed _ _ _ (fun d => problem_02_shape d n)).
  - apply (mspec_framed _ _ _ (fun d => problem_03_shape d n)).
  - apply (mspec_framed _ _ _ (fun d => problem_04_shape d n)).
  - apply (mspec_framed _ _ _ (fun d => problem_05_shape d n)).
  - apply (mspec_framed _ _ _ (fun d => problem_06_shape d n)).
  - apply (mspec_framed _ _ _ (fun d => problem_07_shape d n)).
  - apply (mspec_framed _ _ _ (fun d => problem_08_shape d n)).
  - apply (mspec_framed _ _ _ (fun d => problem_09_shape d n)).
  - apply (mspec_framed _ _ _ (fun d => problem_10_shape d n)).
  - apply (mspec_framed _ _ _ (fun d => problem_11_shape d n)).
  - apply (mspec_framed _ _ _ (fun d => problem_12_shape d n)).
  - apply (mspec_framed _ _ _ (fun d => problem_13_shape d n)).
  - apply (mspec_framed _ _ _ (fun d => problem_14_shape d n)).
  - apply (mspec_framed _ _ _ (fun d => problem_15_shape d n)).
Qed.

Lemma protocol_emits (B : nat) (m : M unit) :
  generator_protocol B m -> (forall w, framed m w) -> emits sql_or_commit m.
Proof.
  intros Hp Hf w. exists (calls_of m w). split; [apply Hf|].
  specialize (Hp w). destruct (outcome_of m w).
  - destruct Hp as [body [-> [Hs _]]]. apply Forall_app. split.
    + eapply Forall_impl; [|exact Hs]. intros c Hc. left. exact Hc.
    + constructor; [right; reflexivity|constructor].
  - destruct Hp as [Hs _].
    eapply Forall_impl; [|exact Hs]. intros c Hc. left. exact Hc.
Qed.

Lemma Forall2_Forall_both {X Y : Type} (R : X -> Y -> Prop) (P Q : Y -> Prop)
    (l : list X) (l' : list Y) :
  (forall x y, R x y -> P y -> Q y) ->
  Forall2 R l l' -> Forall P l' -> Forall Q l'.
Proof.
  intros H HF. induction HF; intros HP; inversion HP; subst; constructor;
    eauto.
Qed.

Lemma problems_emit (base : Z) :
  Forall (fun p : string * (Z -> M unit) * Z =>
            forall n, emits sql_or_commit (snd (fst p) n))
         (problems base).
Proof.
  apply (Forall2_Forall_both _ _ _ _ _
           (fun B p Hp Hf n => protocol_emits B _ (Hp n) (Hf n))
           (problems_protocol base) (problems_framed base)).
Qed.

(* ===================================================================== *)
(** * Properties of the generators *)
(* ===================================================================== *)

Lemma connected_world_healthy (t : DBType) (seed t0 : Z) :
  healthy (connected_world t seed t0).
Proof. repeat split; simpl; discriminate. Qed.

Lemma only_sql_no_commit (tr : list Call) :
  Forall only_sql tr -> commit_count tr = O.
Proof.
  unfold commit_count. induction 1 as [|c tr Hc _ IH]; [reflexivity|].
  destruct c; simpl in *; try contradiction; exact IH.
Qed.

Lemma commit_count_app (a b : list Call) :
  commit_count (a ++ b) = (commit_count a + commit_count b)%nat.
Proof. unfold commit_count. rewrite filter_app, length_app. reflexivity. Qed.

Lemma protocol_commits (B : nat) (m : M unit) :
  generator_protocol B m -> forall w, commits_once_last m w.
Proof.
  intros H w. specialize (H w). unfold commits_once_last.
  destruct (outcome_of m w).
  - destruct H as [body [Heq [Hsql _]]]. exists body.
    pose proof (only_sql_no_commit body Hsql) as H0.
    repeat split; auto.
    rewrite Heq, commit_count_app, H0. reflexivity.
  - destruct H as [Hsql _]. split; [exact Hsql|].
    apply only_sql_no_commit, Hsql.
Qed.

Lemma protocol_batches (B : nat) (m : M unit) :
  generator_protocol B m -> forall w, batches_within B m w.
Proof.
  intros H w. specialize (H w). unfold batches_within.
  destruct (outcome_of m w).
  - destruct H as [body [-> [_ Hb]]]. apply Forall_app. split; [exact Hb|].
    constructor; [|constructor]. unfold batch_le. simpl. lia.
  - apply H.
Qed.

Lemma largest_batch_le (B : nat) (tr : list Call) :
  Forall (batch_le B) tr -> (largest_batch tr <= B)%nat.
Proof.
  unfold largest_batch.
  induction 1 as [|c tr Hc _ IH]; simpl; [lia|].
  unfold batch_le in Hc. lia.
Qed.

Lemma base_rows_positive (scale : string) : 0 < dict_get scales scale 10000.
Proof.
  unfold scales. simpl.
  repeat match goal with
         | |- context [if ?b then _ else _] => destruct b
         end; lia.
Qed.

(** Case analysis on a position in a list given in full. *)
Ltac by_position i Hp k :=
  destruct i as [|i];
  [ k | first [ solve [destruct i; discriminate Hp] | by_position i Hp k ] ].

(** C10: each of the fifteen generators, for any row count and from any
    world, commits exactly once when it returns, as its last call and after
    nothing but SQL executions; when it raises, its trace holds no commit. *)
Theorem generators_commit_once_last (base : Z) :
  Forall (fun p : string * (Z -> M unit) * Z =>
            forall n w, commits_once_last (snd (fst p) n) w)
         (problems base).
Proof.
  apply (Forall2_Forall_r _ _ _ _
           (fun B p H n => protocol_commits B _ (H n))
           (problems_protocol base)).
Qed.

(** C2, amended: every call of every generator carries at most the rows of
    [batch_bounds]: 2000 for the first generator, whose batch of 1000
    iterations may write each row twice, 1003 for the fifth, whose buffer is
    checked after up to four rows were appended, and 1000 for the others. *)
Theorem bulk_inserts_bounded (base : Z) :
  Forall2 (fun B (p : string * (Z -> M unit) * Z) =>
             forall n w, batches_within B (snd (fst p) n) w)
          batch_bounds (problems base).
Proof.
  eapply Forall2_impl; [|apply (problems_protocol base)].
  intros B p H n. apply (protocol_batches B), H.
Qed.

(** C2, as stated, fails: asked for 1000 rows, the first generator sends
    one bulk insert of more than 1000 rows. *)
Lemma customers_batch_exceeds_1000 :
  ~ batches_within 1000 (problem_01_no_primary_key 1000)
      (connected_world postgres 42 1700000000).
Proof.
  intros H. apply largest_batch_le in H. vm_compute in H. lia.
Qed.

(** The bound of the first generator is reached: when every coin falls
    below 0.1, a batch of 1000 iterations sends 2000 rows. *)
Example customers_batch_reaches_2000 :
  largest_batch (calls_of (problem_01_no_primary_key 1000)
                   (connected_with (constant_sources 0 1700000000) postgres))
  = 2000%nat.
Proof. vm_compute. reflexivity. Qed.

(** C1, amended: at every scale, in a world where no call fails, the
    generator at position [i] of the list is asked for the base count times
    its factor (2 for the thirteenth, 5 for the fourteenth, 1 otherwise),
    returns, and has written exactly that many rows to its table; except the
    first, which writes between that many and twice as many, and the fifth,
    which writes between a third of it and four thirds.  The rows it inserts
    in all are those of its table and, for the second generator, the 100
    products and, for the fifteenth, the 1000 accounts it seeds first. *)
Theorem rows_written_per_generator (scale : string) (i : nat)
    (name : string) (func : Z -> M unit) (rows : Z) (sqls : list string)
    (w : World) :
  nth_error (problems (dict_get scales scale 10000)) i
    = Some (name, func, rows) ->
  nth_error (problem_inserts (db w)) i = Some sqls ->
  healthy w ->
  rows = dict_get scales scale 10000 * row_factor i /\
  outcome_of (func rows) w = Ok tt /\
  row_count_ok i rows (rows_written sqls (func rows) w) /\
  rows_inserted (func rows) w
  = (rows_written sqls (func rows) w + seed_rows i)%nat.
Proof.
  intros Hp Hs Hw.
  pose proof (base_rows_positive scale) as Hpos.
  set (base := dict_get scales scale 10000) in *.
  assert (Hfin : forall lo hi,
            writes_rows sqls lo hi (func rows) w ->
            outcome_of (func rows) w = Ok tt /\
            (lo <= rows_written sqls (func rows) w <= hi)%nat)
    by (intros lo hi H; exact H).
  by_position i Hp
    ltac:(injection Hp as <- <- <-; injection Hs as <-;
          split; [unfold row_factor; lia|]).
  - destruct (Hfin _ _ (problem_01_writes _ w Hw)) as [Ho Hk].
    split; [exact Ho|].
    split; [|exact (problem_01_total _ w Hw)].
    unfold row_count_ok. lia.
  - destruct (Hfin _ _ (problem_02_writes _ w Hw)) as [Ho Hk].
    split; [exact Ho|].
    split; [|exact (problem_02_total _ w Hw)].
    unfold row_count_ok. lia.
  - destruct (Hfin _ _ (problem_03_writes _ w Hw)) as [Ho Hk].
    split; [exact Ho|].
    split; [|exact (problem_03_total _ w Hw)].
    unfold row_count_ok. lia.
  - destruct (Hfin _ _ (problem_04_writes _ w Hw)) as [Ho Hk].
    split; [exact Ho|].
    split; [|exact (problem_04_total _ w Hw)].
    unfold row_count_ok. lia.
  - destruct (Hfin _ _ (problem_05_writes _ w Hw)) as [Ho Hk].
    split; [exact Ho|].
    split; [|exact (problem_05_total _ w Hw)].
    unfold row_count_ok.
    assert (0 <= base / 3) by (apply Z.div_pos; lia). lia.
  - destruct (Hfin _ _ (problem_06_writes _ w Hw)) as [Ho Hk].
    split; [exact Ho|].
    split; [|exact (problem_06_total _ w Hw)].
    unfold row_count_ok. lia.
  - destruct (Hfin _ _ (problem_07_writes _ w Hw)) as [Ho Hk].
    split; [exact Ho|].
    split; [|exact (problem_07_total _ w Hw)].
    unfold row_count_ok. lia.
  - destruct (Hfin _ _ (problem_08_writes _ w Hw)) as [Ho Hk].
    split; [exact Ho|].
    split; [|exact (problem_08_total _ w Hw)].
    unfold row_count_ok. lia.
  - destruct (Hfin _ _ (problem_09_writes _ w Hw)) as [Ho Hk].
    split; [exact Ho|].
    split; [|exact (problem_09_total _ w Hw)].
    unfold row_count_ok. lia.
  - destruct (Hfin _ _ (problem_10_writes _ w Hw)) as [Ho Hk].
    split; [exact Ho|].
    split; [|exact (problem_10_total _ w Hw)].
    unfold row_count_ok. lia.
  - destruct (Hfin _ _ (problem_11_writes _ w Hw)) as [Ho Hk].
    split; [exact Ho|].
    split; [|exact (problem_11_total _ w Hw)].
    unfold row_count_ok. lia.
  - destruct (Hfin _ _ (problem_12_writes _ w Hw)) as [Ho Hk].
    split; [exact Ho|].
    split; [|exact (problem_12_total _ w Hw)].
    unfold row_count_ok. lia.
  - destruct (Hfin _ _ (problem_13_writes _ w Hw)) as [Ho Hk].
    split; [exact Ho|].
    split; [|exact (problem_13_total _ w Hw)].
    unfold row_count_ok. lia.
  - destruct (Hfin _ _ (problem_14_writes _ w Hw)) as [Ho Hk].
    split; [exact Ho|].
    split; [|exact (problem_14_total _ w Hw)].
    unfold row_count_ok. lia.
  - destruct (Hfin _ _ (problem_15_writes _ w Hw)) as [Ho Hk].
    split; [exact Ho|].
    split; [|exact (problem_15_total _ w Hw)].
    unfold row_count_ok. lia.
Qed.

Lemma rows_written_per_generator_tiny :
  let w := connected_world postgres 42 1700000000 in
  100 = dict_get scales "tiny" 10000 * row_factor 14 /\
  outcome_of (problem_15_type_coercion 100) w = Ok tt /\
  row_count_ok 14 100
    (rows_written [sql_insert_transactions_str_id (pfx (db w))]
       (problem_15_type_coercion 100) w) /\
  rows_inserted (problem_15_type_coercion 100) w
  = (rows_written [sql_insert_transactions_str_id (pfx (db w))]
       (problem_15_type_coercion 100) w + seed_rows 14)%nat.
Proof.
  intros w.
  apply (rows_written_per_generator "tiny" 14 "Problem 15: Type Coercion"
           problem_15_type_coercion 100 _ w).
  - reflexivity.
  - reflexivity.
  - apply connected_world_healthy.
Defined.

(** C1, as stated, fails: at scale tiny the first generator is asked for
    100 rows and writes 114. *)
Lemma customers_rows_not_base :
  let w := connected_world postgres 42 1700000000 in
  nth_error (problems (dict_get scales "tiny" 10000)) 0
    = Some ("Problem 1: No Primary Keys", problem_01_no_primary_key, 100) /\
  rows_written [sql_insert_customers_no_pk (pfx (db w))]
    (problem_01_no_primary_key 100) w = 114%nat /\
  rows_written [sql_insert_customers_no_pk (pfx (db w))]
    (problem_01_no_primary_key 100) w <> 100%nat.
Proof.
  intros w.
  assert (H : rows_written [sql_insert_customers_no_pk (pfx (db w))]
                (problem_01_no_primary_key 100) w = 114%nat)
    by (vm_compute; reflexivity).
  split; [reflexivity|]. split; [exact H|]. rewrite H. discriminate.
Qed.

(** The rows of the seeded tables count: asked for 100 rows, the second
    generator inserts 200 rows in all and the fifteenth 1100. *)
Example seeded_rows_count :
  let w := connected_world postgres 42 1700000000 in
  rows_inserted (problem_02_missing_foreign_keys 100) w = 200%nat /\
  rows_inserted (problem_15_type_coercion 100) w = 1100%nat.
Proof. intros w. split; vm_compute; reflexivity. Qed.

(* ===================================================================== *)
(** * Properties of the generated ids *)
(* ===================================================================== *)

(** A coin below a tenth-valued threshold, in terms of its draw. *)
Lemma coin_below (num : Z) (bound : N) (k : N) :
  10 * Z.of_N bound - 10 < num * 2 ^ 53 <= 10 * Z.of_N bound ->
  Qltb (Qmake (Z.of_N (k mod 2 ^ 53)) (2 ^ 53)) (Qmake num 10)
  = draw_below bound k.
Proof.
  intros Hb. unfold Qltb, draw_below, Qle_bool. simpl Qnum. simpl Qden.
  set (x := (k mod 2 ^ 53)%N).
  change (Z.pos (2 ^ 53)) with (2 ^ 53).
  destruct (N.ltb_spec x bound) as [H|H].
  - apply negb_true_iff, Z.leb_gt. lia.
  - apply negb_false_iff, Z.leb_le. lia.
Qed.

Lemma order_customer_id_draws (s : Sources) :
  fst (order_customer_id s) = customer_of_draws (draw_at s 0) (draw_at s 1) /\
  py_random (snd (order_customer_id s)) = advance (advance (py_random s)).
Proof.
  unfold order_customer_id, customer_of_draws, draw_at.
  cbn [bind Monad_Gen random_random draw_random ret].
  rewrite (coin_below 3 three_tenths) by (unfold three_tenths; lia).
  rewrite N.add_0_r, N.add_1_r.
  destruct (draw_below three_tenths _); split; reflexivity.
Qed.

Lemma order_product_id_draws (s : Sources) :
  fst (order_product_id s) = product_of_draws (draw_at s 0) (draw_at s 1) /\
  py_random (snd (order_product_id s)) = advance (advance (py_random s)).
Proof.
  unfold order_product_id, product_of_draws, draw_at.
  cbn [bind Monad_Gen random_random draw_random ret].
  rewrite (coin_below 2 two_tenths) by (unfold two_tenths; lia).
  rewrite N.add_0_r, N.add_1_r.
  destruct (draw_below two_tenths _); split; reflexivity.
Qed.

Lemma batch_of_single_rows (Q : Z -> Row -> Prop) (n bs : Z)
    (rows : list Row) :
  batch_of (single Q) n bs rows -> Forall (fun r => exists i, Q i r) rows.
Proof.
  intros [groups [-> HF]].
  induction HF as [|i g l groups [r [-> Hr]] _ IH]; simpl; constructor.
  - exists i. exact Hr.
  - exact IH.
Qed.

Lemma batches_single_rows (Q : Z -> Row -> Prop) (n : Z) (starts : list Z)
    (batches : list (list Row)) :
  Forall2 (batch_of (single Q) n) starts batches ->
  Forall (Forall (fun r => exists i, Q i r)) batches.
Proof.
  apply Forall2_Forall_r. intros bs rows. apply batch_of_single_rows.
Qed.

Lemma customer_of_draws_range (coin number : N) :
  if draw_below three_tenths coin
  then 900000 <= customer_of_draws coin number <= 999999
  else 1 <= customer_of_draws coin number <= 10000.
Proof.
  unfold customer_of_draws. destruct (draw_below three_tenths coin).
  - pose proof (Z.mod_pos_bound (Z.of_N number) 100000). lia.
  - pose proof (Z.mod_pos_bound (Z.of_N number) 10000). lia.
Qed.

Lemma product_of_draws_range (coin number : N) :
  if draw_below two_tenths coin
  then 500 <= product_of_draws coin number <= 999
  else 1 <= product_of_draws coin number <= 100.
Proof.
  unfold product_of_draws. destruct (draw_below two_tenths coin).
  - pose proof (Z.mod_pos_bound (Z.of_N number) 500). lia.
  - pose proof (Z.mod_pos_bound (Z.of_N number) 100). lia.
Qed.

Lemma draw_at_advance2 (s s' : Sources) (j : N) :
  py_random s' = advance (advance (py_random s)) ->
  draw_at s' j = draw_at s (2 + j).
Proof.
  intros H. unfold draw_at. rewrite H. cbn [advance pos cells].
  f_equal. lia.
Qed.



(** *** Account ids *)

Lemma account_ids (starts : list Z) (accounts : list Row) :
  Forall2 account_row starts accounts ->
  map first_column accounts = map (fun i => VInt (i + 1)) starts.
Proof.
  induction 1 as [|i r l rows [name [balance ->]] _ IH]; simpl;
    [reflexivity|].
  rewrite IH. reflexivity.
Qed.

Lemma In_py_range_unit (a lo hi : Z) :
  lo <= a < hi -> In a (py_range lo hi 1).
Proof.
  intros H. unfold py_range. simpl. apply in_map_iff.
  exists (Z.to_nat (a - lo)). split; [lia|].
  apply in_seq. rewrite Z.div_1_r. lia.
Qed.

Lemma text_round_trips_all :
  forallb text_round_trips (py_range 1 1001 1) = true.
Proof. vm_compute. reflexivity. Qed.

Lemma account_text_round_trips (a : Z) :
  1 <= a <= 1000 ->
  py_int (format_0d 10 a) = Some a /\ py_int (str a) = Some a /\
  String.length (format_0d 10 a) = 10%nat.
Proof.
  intros Ha.
  pose proof (proj1 (forallb_forall _ _) text_round_trips_all a
                (In_py_range_unit a 1 1001 ltac:(lia))) as H.
  unfold text_round_trips in H.
  destruct (py_int (format_0d 10 a)) as [x|]; [|discriminate].
  destruct (py_int (str a)) as [y|]; [|discriminate].
  apply andb_true_iff in H. destruct H as [H H3].
  apply andb_true_iff in H. destruct H as [H1 H2].
  apply Z.eqb_eq in H1, H2. apply Nat.eqb_eq in H3. subst. auto.
Qed.

Lemma account_text_draws (s : Sources) :
  let a := fst (random_randint 1 1000 s) in
  let u := fst (random_random (snd (random_randint 1 1000 s))) in
  a = 1 + Z.of_N (draw_at s 0) mod 1000 /\
  acct_id_text a u = account_text_of_draws a (draw_at s 1).
Proof.
  unfold acct_id_text, account_text_of_draws, draw_at.
  cbn [bind Monad_Gen random_random random_randint randbelow draw_random ret
       fst snd py_random advance pos cells].
  rewrite (coin_below 4 four_tenths) by (unfold four_tenths; lia).
  rewrite N.add_0_r, N.add_1_r. split; reflexivity.
Qed.



(* ===================================================================== *)
(** * Groups of duplicate users *)
(* ===================================================================== *)

Lemma group_count_app (key : list Value) (a b : list Row) :
  group_count key (a ++ b) = (group_count key a + group_count key b)%nat.
Proof. unfold group_count. rewrite map_app. apply count_occ_app. Qed.

Lemma group_count_repeat (key : list Value) (r : Row) (c : nat) :
  group_count key (repeat r c)
  = if list_eq_dec Value_eq_dec (key_of r) key then c else O.
Proof.
  unfold group_count. induction c as [|c IH]; simpl.
  - destruct (list_eq_dec Value_eq_dec (key_of r) key); reflexivity.
  - rewrite IH. destruct (list_eq_dec Value_eq_dec (key_of r) key);
      reflexivity.
Qed.

Lemma key_user_id (u u' : BaseUser) :
  key_of (user_row u) = key_of (user_row u') -> user_id u = user_id u'.
Proof. unfold key_of, user_row. simpl. intros H. injection H. auto. Qed.

(** A key that no user of [us] carries does not occur in their groups. *)
Lemma group_count_absent (key : list Value) (us : list BaseUser)
    (groups : list (list Row)) :
  Forall2 user_group us groups ->
  (forall u, In u us -> key_of (user_row u) <> key) ->
  group_count key (List.concat groups) = O.
Proof.
  induction 1 as [|u g us groups [s ->] _ IH]; intros Hkey;
    [reflexivity|].
  simpl. rewrite group_count_app, group_count_repeat.
  destruct (list_eq_dec Value_eq_dec (key_of (user_row u)) key) as [E|_].
  - exfalso. apply (Hkey u); [left; reflexivity | exact E].
  - apply IH. intros u' Hu'. apply Hkey. right. exact Hu'.
Qed.

(** Users with distinct ids: no key occurs more than four times. *)
Lemma group_count_bound (us : list BaseUser) (groups : list (list Row)) :
  NoDup (map user_id us) ->
  Forall2 user_group us groups ->
  forall key, (group_count key (List.concat groups) <= 4)%nat.
Proof.
  intros Hnd HF key. revert Hnd.
  induction HF as [|u g us groups [s ->] HF IH]; intros Hnd.
  - simpl. unfold group_count. simpl. lia.
  - simpl. inversion Hnd as [|x l Hnot Hnd']; subst.
    pose proof (copies_from_range s) as Hc.
    rewrite group_count_app, group_count_repeat.
    destruct (list_eq_dec Value_eq_dec (key_of (user_row u)) key) as [E|_].
    + rewrite (group_count_absent key us groups HF); [lia|].
      intros u' Hu' E'. apply Hnot.
      rewrite (key_user_id u u') by congruence.
      apply in_map. exact Hu'.
    + apply IH. exact Hnd'.
Qed.

Lemma NoDup_py_range_unit (a b : Z) : NoDup (py_range a b 1).
Proof.
  unfold py_range. simpl.
  apply Injective_map_NoDup; [|apply seq_NoDup].
  intros x y H. lia.
Qed.

Lemma base_user_ids_NoDup (us : list BaseUser) (n : Z) :
  base_user_ids us n -> NoDup (map user_id us).
Proof.
  unfold base_user_ids. intros ->.
  apply Injective_map_NoDup; [|apply NoDup_py_range_unit].
  intros x y H. lia.
Qed.

Lemma NoDup_firstn {A : Type} (j : nat) (l : list A) :
  NoDup l -> NoDup (firstn j l).
Proof.
  intros H. rewrite <- (firstn_skipn j l) in H.
  apply NoDup_app_remove_r in H. exact H.
Qed.

(** The rows of a run of a flushing generator that raised come first among
    the rows of the groups built so far. *)
Lemma flushing_failed_rows {X : Type} (T : Flushing X) (tr : list Call) :
  rows_into_any [f_sql T; f_sql_tail T] (f_pre T) = [] ->
  flushing_failed T tr ->
  exists j groups more,
    Forall2 (f_group T) (firstn j (f_items T)) groups /\
    rows_into_any [f_sql T; f_sql_tail T] tr ++ more = List.concat groups.
Proof.
  intros Hpre [j [groups [batches [rest [HG [[Heq _] [_ [after Hfull]]]]]]]].
  exists j, groups, (rows_into_any [f_sql T; f_sql_tail T] after).
  split; [exact HG|].
  rewrite <- rows_into_any_app, <- Hfull.
  rewrite !rows_into_any_app, Hpre,
    (rows_into_any_batches _ _ _ (existsb_head _ _)),
    (rows_into_any_tail _ _ _ (existsb_second _ _ _)).
  simpl. symmetry. exact Heq.
Qed.

(** The copies of a row in terms of the two draws. *)
Lemma copies_from_draws (s : Sources) :
  copies_from s = copies_of_draws (draw_at s 0) (draw_at s 1).
Proof.
  unfold copies_from, copies_of_draws, draw_at.
  cbn [bind Monad_Gen random_random random_randint randbelow draw_random ret
       fst snd py_random advance pos cells].
  rewrite (coin_below 5 half) by (unfold half; lia).
  rewrite N.add_0_r, N.add_1_r.
  destruct (draw_below half _); [|reflexivity].
  set (k := cells (py_random s) (N.succ (pos (py_random s)))).
  replace (3 - 1 + 1) with 3 by lia.
  pose proof (Z.mod_pos_bound (Z.of_N k) 3 ltac:(lia)) as Hb.
  assert (Hm : Z.of_N (k mod 3) = Z.of_N k mod 3)
    by (rewrite N2Z.inj_mod; reflexivity).
  lia.
Qed.

(** The groups of the base users are the rows of the users, each with the
    state of the sources at its coin. *)
Lemma groups_of_users (us : list BaseUser) (groups : list (list Row)) :
  Forall2 user_group us groups ->
  exists users : list (BaseUser * Sources),
    map fst users = us /\ List.concat groups = flat_map rows_of_user users.
Proof.
  induction 1 as [|u g us groups [s ->] _ [users [Hu Hg]]].
  - exists []. split; reflexivity.
  - exists ((u, s) :: users). split; [simpl; rewrite Hu; reflexivity|].
    simpl. rewrite Hg. unfold rows_of_user at 1, copies_of. simpl.
    rewrite copies_from_draws. reflexivity.
Qed.

(** A key that no user carries is in no row. *)
Lemma group_count_no_user (key : list Value)
    (users : list (BaseUser * Sources)) :
  (forall p, In p users -> key_of (user_row (fst p)) <> key) ->
  group_count key (flat_map rows_of_user users) = O.
Proof.
  induction users as [|p users IH]; intros Hkey; [reflexivity|].
  simpl. unfold rows_of_user at 1.
  rewrite group_count_app, group_count_repeat.
  destruct (list_eq_dec Value_eq_dec (key_of (user_row (fst p))) key)
    as [E|_].
  - exfalso. apply (Hkey p); [left; reflexivity | exact E].
  - apply IH. intros q Hq. apply Hkey. right. exact Hq.
Qed.

(** Users with distinct ids: the group of a user holds its copies. *)
Lemma group_count_user (users : list (BaseUser * Sources))
    (p : BaseUser * Sources) :
  NoDup (map (fun q => user_id (fst q)) users) ->
  In p users ->
  group_count (key_of (user_row (fst p))) (flat_map rows_of_user users)
  = copies_of p.
Proof.
  induction users as [|q users IH]; intros Hnd Hin; [contradiction|].
  inversion Hnd as [|x l Hnot Hnd']; subst.
  simpl. unfold rows_of_user at 1.
  rewrite group_count_app, group_count_repeat.
  destruct Hin as [-> | Hin].
  - destruct (list_eq_dec Value_eq_dec (key_of (user_row (fst p)))
                (key_of (user_row (fst p)))) as [_|N]; [|contradiction].
    rewrite group_count_no_user; [lia|].
    intros q Hq E. apply Hnot.
    rewrite <- (key_user_id _ _ E).
    apply (in_map (fun q => user_id (fst q))). exact Hq.
  - destruct (list_eq_dec Value_eq_dec (key_of (user_row (fst q)))
                (key_of (user_row (fst p)))) as [E|_].
    + exfalso. apply Hnot. rewrite (key_user_id _ _ E).
      apply (in_map (fun q => user_id (fst q))). exact Hin.
    + apply (IH Hnd' Hin).
Qed.

Lemma copies_of_duplicated (p : BaseUser * Sources) :
  (1 < copies_of p)%nat <-> duplicated p.
Proof.
  unfold copies_of, copies_of_draws, duplicated.
  destruct (draw_below half (draw_at (snd p) 0)); split; intros H.
  - reflexivity.
  - generalize (N.to_nat (draw_at (snd p) 1 mod 3)). intros k. lia.
  - exfalso. lia.
  - discriminate H.
Qed.


Lemma group_count_le_length (key : list Value) (rows : list Row) :
  (group_count key rows <= List.length rows)%nat.
Proof.
  unfold group_count. rewrite <- (length_map key_of rows).
  apply count_occ_bound.
Qed.


(** Duplicates do occur: asked for 30 rows in the sample world, the fifth
    generator writes some user more than once. *)
Example duplicates_occur :
  let w := connected_world postgres 42 1700000000 in
  existsb (fun r => (1 <? group_count (key_of r) (users_written 30 w))%nat)
          (users_written 30 w) = true.
Proof. vm_compute. reflexivity. Qed.

(* ===================================================================== *)
(** * Closing the adapter on the way out *)
(* ===================================================================== *)

Lemma close_trace (w : World) :
  exists after,
    trace (snd (close w)) = trace w ++ EnterClose :: after /\
    is_prefix after (close_calls (db w)) /\
    db (snd (close w)) = db w /\
    (cursor (db w) = None -> ~ In CursorClose after) /\
    (connection (db w) = None -> ~ In ConnectionClose after) /\
    (forall e, fst (close w) = Raise e -> exists k, faults w k = Some e) /\
    (cursor (db w) = None -> connection (db w) = None ->
     fst (close w) = Ok tt /\ after = []).
Proof.
  destruct w as [src [cfg [c|] [k|]] tr tk fl cat];
    unfold close, close_calls, call, mark, this; simpl;
    destruct (fl tk) eqn:E1; simpl;
    try (destruct (fl (S tk)) eqn:E2; simpl);
    rewrite <- ?app_assoc; simpl;
    eexists; (split; [reflexivity|]);
    (split; [eexists; simpl; reflexivity|]);
    (split; [reflexivity|]);
    (split; [intros H; first [discriminate H | simpl; intuition discriminate]|]);
    (split; [intros H; first [discriminate H | simpl; intuition discriminate]|]);
    (split;
     [ intros exn H;
       first [ discriminate H
             | injection H as <-;
               first [exists tk; exact E1 | exists (S tk); exact E2] ]
     | intros H1 H2; first [discriminate | split; reflexivity] ]).
Qed.

Lemma close_is_safe_always (w : World) : close_is_safe w.
Proof.
  destruct (close_trace w) as [after [Ht H]].
  exists after. split; [apply calls_of_trace, Ht | exact H].
Qed.

(** A command that runs its body inside [try ... finally: db.close()]. *)
Lemma closes_on_exit_finally (a : DatabaseAdapter) (body : M unit)
    (w : World) :
  emits (fun c => c <> EnterClose) body ->
  closes_on_exit (set_this a ;; try_finally body close) w.
Proof.
  intros Hb.
  set (w0 := snd (set_this a w)).
  assert (Hm : snd ((set_this a ;; try_finally body close) w)
               = snd (close (snd (body w0)))).
  { simpl. fold w0. apply try_finally_world. }
  destruct (Hb w0) as [before [Ht1 Hp]].
  destruct (close_trace (snd (body w0))) as [after [Ht2 [Hpre [Hdb _]]]].
  exists before, after. split; [|split].
  - apply calls_of_trace. rewrite Hm, Ht2, Ht1, <- app_assoc. reflexivity.
  - exact Hp.
  - rewrite Hm, Hdb. exact Hpre.
Qed.

Lemma not_close_of_generator (c : Call) :
  sql_or_commit c -> c <> EnterClose.
Proof. intros [H | ->]; [destruct c; try contradiction|]; discriminate. Qed.

(** Steps through the body of a command whose calls are not [close]. *)
Ltac not_close :=
  repeat match goal with
    | |- emits _ connect => apply emits_connect; intros; discriminate
    | |- emits _ create_schema =>
        apply emits_create_schema; intros; discriminate
    | |- emits _ drop_schema => apply emits_drop_schema; intros; discriminate
    | |- emits _ (with_progress _) => unfold with_progress
    | |- emits _ (bind _ _) => apply emits_bind; [|intros]
    | |- emits _ (ret _) => apply emits_ret
    | |- emits _ (raise _) => apply emits_raise
    | |- emits _ (call _) => apply emits_call; discriminate
    | |- emits _ (try_finally _ _) => apply emits_try_finally
    | |- emits _ (try_except _ _) => apply emits_try_except; [|intros]
    end.

(** C8: every run of setup and of teardown, from any world and whatever
    raises in it, enters [close] exactly once, as the last thing it does:
    the calls after the entry are those of [close] itself, on the cursor
    and then on the connection if the adapter holds them at that point, up
    to the first that raises.  And [close], from any world, makes no call
    on a handle that is missing, raises only what a driver call raises, and
    with both handles missing makes no call at all and returns. *)
Theorem close_on_the_way_out (cfg : DBConfig) (scale : string) (w : World) :
  closes_on_exit (setup_workshop cfg scale) w /\
  closes_on_exit (teardown_workshop cfg) w /\
  close_is_safe w.
Proof.
  split; [|split].
  - unfold setup_workshop. cbv zeta. apply closes_on_exit_finally.
    not_close.
    apply emits_for_each. intros [[name func] rows] Hin.
    not_close.
    eapply emits_weaken; [apply not_close_of_generator|].
    apply (proj1 (Forall_forall _ _) (problems_emit _) _ Hin rows).
  - unfold teardown_workshop. apply closes_on_exit_finally. not_close.
  - apply close_is_safe_always.
Qed.

(* ===================================================================== *)
(** * The scale controller *)
(* ===================================================================== *)

Lemma returning_weaken {A : Type} (m : M A)
    (S S' : A -> list Call -> Prop) :
  (forall a tr, S a tr -> S' a tr) -> returning m S -> returning m S'.
Proof.
  intros HS Hm w. destruct (Hm w) as [tr [Ht H]].
  exists tr. split; [exact Ht|]. intros a Ha. apply HS, H, Ha.
Qed.

Section Returning.
Variable P : Call -> Prop.
Variable Q : list Call -> Prop.
Hypothesis Q_absorbing : absorbing P Q.

Lemma returning_pre {A B : Type} (m : M A) (f : A -> M B) :
  emits P m -> (forall a, returning (f a) (fun _ => Q)) ->
  returning (bind m f) (fun _ => Q).
Proof.
  intros Hm Hf w. destruct (Hm w) as [tr1 [Ht1 Hp1]]. simpl.
  destruct (m w) as [[a|e] w1]; simpl in *.
  - destruct (Hf a w1) as [tr2 [Ht2 HQ]].
    exists (tr1 ++ tr2). rewrite Ht2, Ht1, app_assoc.
    split; [reflexivity|]. intros b Hb.
    rewrite <- (app_nil_r tr2).
    apply Q_absorbing; [exact Hp1 | constructor | apply (HQ b Hb)].
  - exists tr1. split; [exact Ht1|]. intros; discriminate.
Qed.

Lemma returning_post {A B : Type} (m : M A) (f : A -> M B) :
  returning m (fun _ => Q) -> (forall a, emits P (f a)) ->
  returning (bind m f) (fun _ => Q).
Proof.
  intros Hm Hf w. destruct (Hm w) as [tr1 [Ht1 HQ]]. simpl.
  destruct (m w) as [[a|e] w1]; simpl in *.
  - destruct (Hf a w1) as [tr2 [Ht2 Hp2]].
    exists (tr1 ++ tr2). rewrite Ht2, Ht1, app_assoc.
    split; [reflexivity|]. intros b Hb.
    apply (Q_absorbing [] tr1 tr2); [constructor | exact Hp2|].
    apply (HQ a eq_refl).
  - exists tr1. split; [exact Ht1|]. intros; discriminate.
Qed.

Lemma returning_finally {A : Type} (body : M A) (final : M unit) :
  returning body (fun _ => Q) -> emits P final ->
  returning (try_finally body final) (fun _ => Q).
Proof.
  intros Hb Hf w. pose proof (try_finally_world body final w) as Hw.
  destruct (Hb w) as [tr1 [Ht1 HQ]].
  destruct (Hf (snd (body w))) as [tr2 [Ht2 Hp2]].
  exists (tr1 ++ tr2). rewrite Hw, Ht2, Ht1, app_assoc.
  split; [reflexivity|]. intros a Ha.
  apply (Q_absorbing [] tr1 tr2); [constructor | exact Hp2|].
  unfold try_finally in Ha. destruct (body w) as [o w1].
  destruct (final w1) as [[u|e] w2]; simpl in Ha; [|discriminate].
  apply (HQ a Ha).
Qed.

Lemma returning_except {A : Type} (body : M A) (handler : Exn -> M A) :
  returning body (fun _ => Q) ->
  (forall e, emits P (handler e)) ->
  (forall e w a, fst (handler e w) <> Ok a) ->
  returning (try_except body handler) (fun _ => Q).
Proof.
  intros Hb Hh Hno w. destruct (Hb w) as [tr1 [Ht1 HQ]]. unfold try_except.
  destruct (body w) as [[a|e] w1]; simpl in *.
  - exists tr1. split; [exact Ht1|]. intros b Hb'. apply (HQ a eq_refl).
  - destruct (is_Exception e).
    + destruct (Hh e w1) as [tr2 [Ht2 Hp2]].
      exists (tr1 ++ tr2). rewrite Ht2, Ht1, app_assoc.
      split; [reflexivity|]. intros b Hb'. exfalso. apply (Hno e w1 b Hb').
    + exists tr1. split; [exact Ht1|]. intros; discriminate.
Qed.
End Returning.

Lemma returning_for_each {X : Type} (R : X -> list Call -> Prop)
    (l : list X) (body : X -> M unit) :
  (forall x, In x l -> returning (body x) (fun _ => R x)) ->
  returning (for_each l body)
    (fun _ tr => exists segs, tr = List.concat segs /\ Forall2 R l segs).
Proof.
  induction l as [|x l IH]; intros H w; simpl.
  - exists []. rewrite app_nil_r. split; [reflexivity|].
    intros _ _. exists []. split; [reflexivity|constructor].
  - destruct (H x (or_introl eq_refl) w) as [tr1 [Ht1 HR]].
    destruct (body x w) as [[u|e] w1]; simpl in *.
    + destruct (IH (fun y Hy => H y (or_intror Hy)) w1) as [tr2 [Ht2 Hsegs]].
      exists (tr1 ++ tr2). rewrite Ht2, Ht1, app_assoc.
      split; [reflexivity|]. intros a Ha.
      destruct (Hsegs a Ha) as [segs [-> HF]].
      exists (tr1 :: segs). split; [reflexivity|].
      constructor; [apply (HR u eq_refl) | exact HF].
    + exists tr1. split; [exact Ht1|]. intros; discriminate.
Qed.

Lemma returning_bind {A B : Type} (m : M A) (f : A -> M B)
    (S1 : A -> list Call -> Prop) (S2 : A -> B -> list Call -> Prop) :
  returning m S1 -> (forall a, returning (f a) (S2 a)) ->
  returning (bind m f)
    (fun b tr => exists a tr1 tr2,
       tr = tr1 ++ tr2 /\ S1 a tr1 /\ S2 a b tr2).
Proof.
  intros Hm Hf w. destruct (Hm w) as [tr1 [Ht1 H1]]. simpl.
  destruct (m w) as [[a|e] w1]; simpl in *.
  - destruct (Hf a w1) as [tr2 [Ht2 H2]].
    exists (tr1 ++ tr2). rewrite Ht2, Ht1, app_assoc.
    split; [reflexivity|]. intros b Hb.
    exists a, tr1, tr2. auto.
  - exists tr1. split; [exact Ht1|]. intros; discriminate.
Qed.

Lemma returning_call (c : Call) :
  returning (call c) (fun _ tr => tr = [c]).
Proof.
  intros w. unfold call. destruct (faults w (ticks w)); simpl.
  - exists []. rewrite app_nil_r. split; [reflexivity|]. intros; discriminate.
  - exists [c]. auto.
Qed.

(** A run that returns is the run from the world it started in. *)
Lemma returning_self {A : Type} (m : M A) :
  (forall w, framed m w) ->
  returning m
    (fun a tr => exists wi, outcome_of m wi = Ok a /\ tr = calls_of m wi).
Proof.
  intros Hf w. exists (calls_of m w). split; [apply Hf|].
  intros a Ha. exists w. auto.
Qed.

(** One turn of the loop of setup. *)
Lemma generator_step_returning (name : string) (func : Z -> M unit)
    (rows : Z) :
  (forall w, framed (func rows) w) ->
  returning (call (ProgressUpdate ("[cyan]" ++ name ++ "...")) ;;
             func rows ;;
             call ProgressAdvance)
    (fun _ => generator_run (name, func, rows)).
Proof.
  intros Hf.
  eapply returning_weaken;
    [| apply returning_bind;
       [ apply returning_call
       | intros ?; apply returning_bind;
         [ apply (returning_self _ Hf) | intros ?; apply returning_call ] ] ].
  intros a tr [a1 [tr1 [tr2 [-> [-> H]]]]].
  destruct H as [a2 [tr3 [tr4 [-> [[wi [Ho ->]] ->]]]]].
  exists wi. destruct a2. split; [exact Ho | reflexivity].
Qed.

Lemma runs_generators_absorbing (l : list (string * (Z -> M unit) * Z)) :
  absorbing no_bulk (runs_generators l).
Proof.
  intros a tr b Ha Hb [pre [segs [post [-> [Hpre [Hpost HF]]]]]].
  exists (a ++ pre), segs, (post ++ b).
  rewrite <- !app_assoc. split; [reflexivity|].
  split; [apply Forall_app; auto|]. split; [apply Forall_app; auto|].
  exact HF.
Qed.

Lemma error_handler_raises (e : Exn) (w : World) (a : unit) :
  fst ((call (ConsolePrint (error_line e)) ;; raise e) w) <> Ok a.
Proof.
  simpl. unfold call. destruct (faults w (ticks w)); simpl; discriminate.
Qed.

Lemma scale_default (scale : string) :
  ~ In scale scale_tokens -> dict_get scales scale 10000 = 10000.
Proof.
  intros H. unfold scales. cbn [dict_get].
  repeat match goal with
         | |- context [String.eqb ?a scale] =>
             destruct (String.eqb_spec a scale) as [E|_];
             [exfalso; apply H; rewrite <- E; simpl; tauto|]
         end.
  reflexivity.
Qed.

(** Steps over the calls of setup that stand before the generators. *)
Ltac before_generators l :=
  repeat match goal with
    | |- returning (bind (with_progress _) _) _ => fail 1
    | |- returning (bind _ _) _ =>
        apply (returning_pre no_bulk _ (runs_generators_absorbing l));
        [ first [ apply emits_connect; intros; exact I
                | apply emits_create_schema; intros; exact I
                | apply emits_set_this
                | apply emits_call; exact I ]
        | intros _ ]
    end.

Lemma setup_runs_generators (cfg : DBConfig) (scale : string) :
  returning (setup_workshop cfg scale)
    (fun _ => runs_generators (problems (dict_get scales scale 10000))).
Proof.
  unfold setup_workshop. cbv zeta.
  set (l := problems (dict_get scales scale 10000)).
  pose proof (runs_generators_absorbing l) as Habs.
  apply (returning_pre no_bulk _ Habs); [apply emits_set_this | intros _].
  apply (returning_finally no_bulk _ Habs); [|unfold close; emits_auto].
  apply (returning_except no_bulk);
    [| intros e; emits_auto | apply error_handler_raises].
  before_generators l.
  apply (returning_post no_bulk _ Habs); [|intros _; emits_auto].
  unfold with_progress.
  apply (returning_pre no_bulk _ Habs); [apply emits_call; exact I|intros _].
  apply (returning_finally no_bulk _ Habs); [|apply emits_call; exact I].
  apply (returning_pre no_bulk _ Habs); [apply emits_call; exact I|intros _].
  eapply returning_weaken;
    [|apply (returning_for_each generator_run l)].
  - intros _ tr [segs [-> HF]]. exists [], segs, [].
    rewrite app_nil_r. repeat split; auto.
  - intros [[name func] rows] Hin.
    apply generator_step_returning.
    apply (proj1 (Forall_forall _ _) (problems_framed _) _ Hin rows).
Qed.

(** C3: the scale table gives 100 rows for tiny, 10000 for small, 100000
    for medium, 500000 for large and 1000000 for xlarge, and 10000 for any
    other token; the list of problems names the fifteen generators in the
    order of their declaration, each with the base count but the thirteenth
    with twice and the fourteenth with five times the base count; and a run
    of setup that returns has run, between its other calls and in this
    order, every generator of the list to its end with its row count. *)
Theorem scale_controller :
  (dict_get scales "tiny" 10000 = 100 /\
   dict_get scales "small" 10000 = 10000 /\
   dict_get scales "medium" 10000 = 100000 /\
   dict_get scales "large" 10000 = 500000 /\
   dict_get scales "xlarge" 10000 = 1000000) /\
  (forall scale,
     ~ In scale scale_tokens -> dict_get scales scale 10000 = 10000) /\
  (forall base,
     map (fun p => snd (fst p)) (problems base) = generators_in_order /\
     map snd (problems base) = row_counts base) /\
  (forall cfg scale w,
     outcome_of (setup_workshop cfg scale) w = Ok tt ->
     runs_generators (problems (dict_get scales scale 10000))
       (calls_of (setup_workshop cfg scale) w)).
Proof.
  split; [repeat split|]. split; [apply scale_default|]. split.
  - intros base. split; [reflexivity|].
    unfold row_counts.
    replace (2 * base) with (base * 2) by lia.
    replace (5 * base) with (base * 5) by lia. reflexivity.
  - intros cfg scale w Ho.
    destruct (setup_runs_generators cfg scale w) as [tr [Ht H]].
    rewrite (calls_of_trace _ _ _ Ht). apply (H tt Ho).
Qed.

Lemma scale_controller_tiny :
  runs_generators (problems (dict_get scales "tiny" 10000))
    (calls_of (setup_workshop (sample_config postgres) "tiny")
       (fresh_world 42 1700000000 no_fault)).
Proof.
  apply (proj2 (proj2 (proj2 scale_controller))).
  vm_compute. reflexivity.
Defined.

(* ===================================================================== *)
(** * The diagnose command *)
(* ===================================================================== *)

Lemma runs_ret {A : Type} (a : A) : runs (ret a) a [].
Proof. intros w Hw. simpl. rewrite app_nil_r. auto. Qed.

Lemma runs_call (c : Call) : runs (call c) tt [c].
Proof.
  intros w Hw. unfold call. rewrite (Hw (ticks w)). simpl. auto.
Qed.

Lemma runs_bind {A B : Type} (m : M A) (f : A -> M B) (a : A) (b : B)
    (tr1 tr2 : list Call) :
  runs m a tr1 -> runs (f a) b tr2 -> runs (bind m f) b (tr1 ++ tr2).
Proof.
  intros Hm Hf w Hw. destruct (Hm w Hw) as [Ho [Ht Hq]]. simpl.
  destruct (m w) as [o w1]. simpl in *. subst o.
  destruct (Hf w1 Hq) as [Ho2 [Ht2 Hq2]].
  rewrite Ht2, Ht, app_assoc. auto.
Qed.

Lemma runs_call_then {B : Type} (c : Call) (k : M B) (b : B)
    (tr : list Call) :
  runs k b tr -> runs (call c ;; k) b (c :: tr).
Proof. intros Hk. apply (runs_bind _ _ tt b [c] tr (runs_call c) Hk). Qed.

Lemma runs_for_each {X : Type} (l : list X) (body : X -> M unit)
    (f : X -> list Call) :
  (forall x, runs (body x) tt (f x)) ->
  runs (for_each l body) tt (flat_map f l).
Proof.
  intros H. induction l as [|x l IH]; simpl.
  - apply runs_ret.
  - apply (runs_bind _ _ tt tt (f x) (flat_map f l) (H x) IH).
Qed.

Lemma show_diagnostics_runs (t : DBType) :
  runs (show_diagnostics t) tt (diagnose_trace t).
Proof.
  unfold show_diagnostics, diagnose_trace, diagnose_header. cbv zeta.
  apply runs_call_then. apply runs_call_then.
  apply (runs_for_each _ _ (fun p => entry_calls t (snd p))).
  intros [problem_id info]. unfold entry_calls.
  do 4 apply runs_call_then. apply runs_call.
Qed.

Lemma queries_ok :
  forallb (fun t => forallb (fun p => query_ok t (snd p)) DIAGNOSTIC_QUERIES)
    [postgres; mysql; redshift] = true.
Proof. vm_compute. reflexivity. Qed.

Lemma query_ok_entry (t : DBType) (p : string * DiagnosticEntry) :
  In p DIAGNOSTIC_QUERIES -> query_ok t (snd p) = true.
Proof.
  intros Hp.
  assert (Ht : In t [postgres; mysql; redshift])
    by (destruct t; simpl; tauto).
  pose proof (proj1 (forallb_forall _ _) queries_ok t Ht) as H.
  apply (proj1 (forallb_forall _ _) H p Hp).
Qed.

(** C9: for each of the three backends, in a world where no call fails,
    the diagnose command returns 0 after printing a header and then, for
    each of the fifteen entries of the table in order, four lines and a
    panel with the query of the entry in which the placeholder was replaced
    by the prefix of the backend (the schema name and a dot for postgres
    and redshift, bdw_ for mysql) and which was then stripped; every query
    shown is non-empty and holds no placeholder. *)
Theorem diagnose_shows_all_queries (t : DBType) (w : World) :
  quiet w ->
  outcome_of (main (Diagnose t)) w = Ok 0 /\
  calls_of (main (Diagnose t)) w = diagnose_trace t /\
  List.length DIAGNOSTIC_QUERIES = 15%nat /\
  diagnostic_prefix t = match t with
                        | mysql => "bdw_"
                        | _ => "bad_data_workshop."
                        end /\
  Forall (fun p : string * DiagnosticEntry =>
            In (ConsolePanel (emitted_query t (snd p)))
               (calls_of (main (Diagnose t)) w) /\
            emitted_query t (snd p) <> "" /\
            contains "{prefix}" (emitted_query t (snd p)) = false /\
            (contains "{prefix}" (query (snd p)) = true ->
             contains (diagnostic_prefix t) (emitted_query t (snd p)) = true))
         DIAGNOSTIC_QUERIES.
Proof.
  intros Hw.
  assert (Hrun : runs (show_diagnostics t ;; ret 0) 0 (diagnose_trace t)).
  { rewrite <- (app_nil_r (diagnose_trace t)).
    apply (runs_bind _ _ tt 0 _ [] (show_diagnostics_runs t) (runs_ret 0)). }
  destruct (Hrun w Hw) as [Ho [Ht _]].
  assert (Hmain : main (Diagnose t) w = (show_diagnostics t ;; ret 0) w).
  { unfold main. destruct ((show_diagnostics t ;; ret 0) w) as [[c|e] w1];
      [reflexivity | simpl in Ho; discriminate]. }
  assert (Hcalls : calls_of (main (Diagnose t)) w = diagnose_trace t).
  { apply calls_of_trace. rewrite Hmain. exact Ht. }
  split; [unfold outcome_of; rewrite Hmain; exact Ho|].
  split; [exact Hcalls|]. split; [reflexivity|].
  split; [destruct t; reflexivity|].
  apply Forall_forall. intros p Hp.
  pose proof (query_ok_entry t p Hp) as Hq. unfold query_ok in Hq.
  apply andb_true_iff in Hq. destruct Hq as [Hq H3].
  apply andb_true_iff in Hq. destruct Hq as [H1 H2].
  apply negb_true_iff in H1, H2.
  split; [|split; [|split]].
  - rewrite Hcalls. unfold diagnose_trace. apply in_or_app. right.
    apply in_flat_map. exists p. split; [exact Hp|].
    unfold entry_calls. simpl. tauto.
  - apply String.eqb_neq. exact H1.
  - exact H2.
  - intros Hc. rewrite Hc in H3. exact H3.
Qed.

Lemma diagnose_shows_all_queries_mysql :
  let w := fresh_world 42 1700000000 no_fault in
  outcome_of (main (Diagnose mysql)) w = Ok 0 /\
  calls_of (main (Diagnose mysql)) w = diagnose_trace mysql /\
  List.length DIAGNOSTIC_QUERIES = 15%nat /\
  diagnostic_prefix mysql = "bdw_" /\
  Forall (fun p : string * DiagnosticEntry =>
            In (ConsolePanel (emitted_query mysql (snd p)))
               (calls_of (main (Diagnose mysql)) w) /\
            emitted_query mysql (snd p) <> "" /\
            contains "{prefix}" (emitted_query mysql (snd p)) = false /\
            (contains "{prefix}" (query (snd p)) = true ->
             contains (diagnostic_prefix mysql) (emitted_query mysql (snd p))
             = true))
         DIAGNOSTIC_QUERIES.
Proof.
  intros w.
  apply (diagnose_shows_all_queries mysql w).
  intros n. reflexivity.
Defined.

(* ===================================================================== *)
(** * Reproducible runs *)
(* ===================================================================== *)

(** Loading the module leaves the two generators in the state of the
    seed, whatever state they were in. *)
Lemma module_init_forgets (w1 w2 : World) :
  same_but_generators w1 w2 ->
  snd (lift module_init w1) = snd (lift module_init w2).
Proof.
  destruct w1 as [[l1 p1 f1 c1 r1] d1 t1 k1 fl1 cat1].
  destruct w2 as [[l2 p2 f2 c2 r2] d2 t2 k2 fl2 cat2].
  unfold same_but_generators. simpl.
  intros [-> [-> [-> [-> [-> [-> [-> ->]]]]]]]. reflexivity.
Qed.

Lemma script_run (cmd : Command) (w : World) :
  script cmd w = main cmd (snd (lift module_init w)).
Proof.
  unfold script. simpl. unfold lift.
  destruct (module_init (sources w)). reflexivity.
Qed.

(** C6, amended: two runs of a command, setup among them, that start from
    worlds with the same libraries, clock, adapter, fault schedule and
    catalog end the same way after the same calls, so with the same
    dataset, whatever state the two random generators were in before the
    module seeded them. *)
Theorem seeded_runs_agree (cmd : Command) (w1 w2 : World) :
  same_but_generators w1 w2 ->
  outcome_of (script cmd) w1 = outcome_of (script cmd) w2 /\
  calls_of (script cmd) w1 = calls_of (script cmd) w2 /\
  dataset (calls_of (script cmd) w1) = dataset (calls_of (script cmd) w2).
Proof.
  intros H.
  assert (Hrun : script cmd w1 = script cmd w2).
  { rewrite !script_run, (module_init_forgets w1 w2 H). reflexivity. }
  assert (Hc : calls_of (script cmd) w1 = calls_of (script cmd) w2).
  { unfold calls_of. rewrite Hrun.
    destruct H as [_ [_ [_ [_ [-> _]]]]]. reflexivity. }
  split; [unfold outcome_of; rewrite Hrun; reflexivity|].
  split; [exact Hc | rewrite Hc; reflexivity].
Qed.

Lemma seeded_runs_agree_tiny :
  let cmd := Setup postgres "localhost" None "workshop" "workshop" "workshop"
               "tiny" in
  let w1 := fresh_world 1 1700000000 no_fault in
  let w2 := fresh_world 2 1700000000 no_fault in
  outcome_of (script cmd) w1 = outcome_of (script cmd) w2 /\
  calls_of (script cmd) w1 = calls_of (script cmd) w2 /\
  dataset (calls_of (script cmd) w1) = dataset (calls_of (script cmd) w2).
Proof.
  intros cmd w1 w2.
  apply (seeded_runs_agree cmd w1 w2).
  repeat split; reflexivity.
Defined.

(** C6, as stated, fails: two runs of setup with the same seed, backend
    and scale that start a day apart return, and their datasets differ in
    the timestamp of the first row. *)
Lemma datasets_differ_with_the_clock :
  let cmd := Setup postgres "localhost" None "workshop" "workshop" "workshop"
               "tiny" in
  let w1 := fresh_world 42 1700000000 no_fault in
  let w2 := fresh_world 42 1700086400 no_fault in
  outcome_of (script cmd) w1 = Ok 0 /\
  outcome_of (script cmd) w2 = Ok 0 /\
  dataset (calls_of (script cmd) w1) <> dataset (calls_of (script cmd) w2).
Proof.
  intros cmd w1 w2.
  split; [vm_compute; reflexivity|]. split; [vm_compute; reflexivity|].
  intros H. apply (f_equal first_timestamp) in H.
  vm_compute in H. discriminate H.
Qed.

(* ===================================================================== *)
(** * Commands that run to the end *)
(* ===================================================================== *)

Lemma succeeds_weaken (pre pre' post post' : DatabaseAdapter -> Prop)
    {A : Type} (m : M A) :
  (forall d, pre' d -> pre d) -> (forall d, post d -> post' d) ->
  succeeds pre m post -> succeeds pre' m post'.
Proof.
  intros Hpre Hpost Hm w Hq Hd.
  destruct (Hm w Hq (Hpre _ Hd)) as [a [Ho [Hq' Hp]]].
  exists a. auto.
Qed.

Lemma succeeds_ret (I : DatabaseAdapter -> Prop) {A : Type} (a : A) :
  succeeds I (ret a) I.
Proof. intros w Hq Hd. exists a. auto. Qed.

Lemma succeeds_lift (I : DatabaseAdapter -> Prop) {A : Type} (g : Gen A) :
  succeeds I (lift g) I.
Proof.
  intros w Hq Hd. unfold lift. destruct (g (sources w)) as [a s].
  exists a. auto.
Qed.

Lemma succeeds_call (I : DatabaseAdapter -> Prop) (c : Call) :
  succeeds I (call c) I.
Proof.
  intros w Hq Hd. unfold call. rewrite (Hq (ticks w)). exists tt. auto.
Qed.

Lemma succeeds_mark (I : DatabaseAdapter -> Prop) (c : Call) :
  succeeds I (mark c) I.
Proof. intros w Hq Hd. exists tt. auto. Qed.

Lemma succeeds_set_this (pre post : DatabaseAdapter -> Prop)
    (a : DatabaseAdapter) :
  post a -> succeeds pre (set_this a) post.
Proof. intros Ha w Hq Hd. exists tt. auto. Qed.

Lemma succeeds_bind (pre mid post : DatabaseAdapter -> Prop) {A B : Type}
    (m : M A) (f : A -> M B) :
  succeeds pre m mid -> (forall a, succeeds mid (f a) post) ->
  succeeds pre (bind m f) post.
Proof.
  intros Hm Hf w Hq Hd. destruct (Hm w Hq Hd) as [a [Ho [Hq1 Hmid]]].
  simpl. destruct (m w) as [o w1]. simpl in *. subst o.
  apply (Hf a w1 Hq1 Hmid).
Qed.

(** Binding the adapter itself: what follows may rely on what is known of
    it. *)
Lemma succeeds_this_bind (I post : DatabaseAdapter -> Prop) {B : Type}
    (f : DatabaseAdapter -> M B) :
  (forall self, I self -> succeeds (fun d => d = self) (f self) post) ->
  succeeds I (bind this f) post.
Proof.
  intros Hf w Hq Hd. simpl. apply (Hf (db w) Hd w Hq eq_refl).
Qed.

Lemma succeeds_for_each (I : DatabaseAdapter -> Prop) {X : Type}
    (l : list X) (body : X -> M unit) :
  (forall x, In x l -> succeeds I (body x) I) ->
  succeeds I (for_each l body) I.
Proof.
  induction l as [|x l IH]; intros H; simpl.
  - apply succeeds_ret.
  - apply (succeeds_bind I I I).
    + apply H. left. reflexivity.
    + intros _. apply IH. intros y Hy. apply H. right. exact Hy.
Qed.

Lemma succeeds_try_finally (pre mid post : DatabaseAdapter -> Prop)
    {A : Type} (body : M A) (final : M unit) :
  succeeds pre body mid -> succeeds mid final post ->
  succeeds pre (try_finally body final) post.
Proof.
  intros Hb Hf w Hq Hd. destruct (Hb w Hq Hd) as [a [Ho [Hq1 Hmid]]].
  unfold try_finally. destruct (body w) as [o w1]. simpl in *. subst o.
  destruct (Hf w1 Hq1 Hmid) as [u [Ho2 [Hq2 Hp]]].
  destruct (final w1) as [o2 w2]. simpl in *. subst o2.
  exists a. auto.
Qed.

Lemma succeeds_try_except (pre post : DatabaseAdapter -> Prop) {A : Type}
    (body : M A) (handler : Exn -> M A) :
  succeeds pre body post -> succeeds pre (try_except body handler) post.
Proof.
  intros Hb w Hq Hd. destruct (Hb w Hq Hd) as [a [Ho [Hq1 Hp]]].
  unfold try_except. destruct (body w) as [o w1]. simpl in *. subst o.
  exists a. auto.
Qed.

(** A specification of the calls of a computation that holds for every
    adapter says that it returns when nothing fails. *)
Lemma succeeds_mspec {A : Type} (m : M A)
    (S : DatabaseAdapter -> A -> list Call -> Prop)
    (F : DatabaseAdapter -> list Call -> Prop) :
  (forall d, mspec d m (S d) (F d)) -> succeeds connected m connected.
Proof.
  intros Hm w Hq [Hc Hk].
  destruct (Hm (db w) w eq_refl) as [tr [_ [Hd [Hf Ho]]]].
  destruct (fst (m w)) as [a|e].
  - exists a. split; [reflexivity|]. split.
    + intros n. rewrite Hf. apply Hq.
    + rewrite Hd. split; assumption.
  - destruct Ho as [_ Hh]. exfalso. apply Hh. repeat split; assumption.
Qed.

Lemma succeeds_execute (sql : string) (params : option Row) :
  succeeds connected (execute sql params) connected.
Proof.
  intros w Hq [Hc Hk]. unfold execute. simpl.
  destruct (cursor (db w)) eqn:E; [|contradiction].
  assert (Hcall : forall c, exists a,
            fst (call c w) = Ok a /\ quiet (snd (call c w)) /\
            connected (db (snd (call c w)))).
  { intros c. apply (succeeds_call connected c w Hq).
    split; [rewrite E; discriminate | exact Hk]. }
  destruct params as [[|r rs]|]; apply Hcall.
Qed.

Lemma succeeds_commit : succeeds connected commit connected.
Proof.
  apply (succeeds_mspec commit (fun _ _ tr => tr = [ConnectionCommit])
           (fun _ tr => tr = [])).
  intros d. apply mspec_commit.
Qed.

(** Steps over the console and progress calls of a command. *)
Ltac succeeds_calls I :=
  repeat match goal with
    | |- succeeds _ (bind (call _) _) _ =>
        apply (succeeds_bind I I); [apply succeeds_call | intros _]
    | |- succeeds _ (call _) _ => apply succeeds_call
    end.

Lemma succeeds_set_connection :
  succeeds anyhow (set_connection (Some Live))
    (fun d => connection d <> None).
Proof. intros w Hq _. exists tt. simpl. repeat split; auto; discriminate. Qed.

Lemma succeeds_set_cursor :
  succeeds (fun d => connection d <> None) (set_cursor (Some Live))
    connected.
Proof.
  intros w Hq Hk. exists tt. simpl. repeat split; auto; discriminate.
Qed.

Lemma succeeds_connect : succeeds anyhow connect connected.
Proof.
  unfold connect. apply succeeds_this_bind. intros self _.
  apply (succeeds_weaken anyhow _ connected _); [intros; exact I | auto |].
  destruct (db_type (config self));
    unfold PostgresAdapter_connect, MySQLAdapter_connect,
      RedshiftAdapter_connect;
    (apply succeeds_this_bind; intros self' _;
     apply (succeeds_weaken anyhow _ connected _); [intros; exact I | auto |]);
    succeeds_calls anyhow;
    (apply (succeeds_bind anyhow (fun d => connection d <> None));
     [apply succeeds_set_connection | intros _]);
    succeeds_calls (fun d : DatabaseAdapter => connection d <> None);
    apply succeeds_set_cursor.
Qed.

Lemma succeeds_create_schema : succeeds connected create_schema connected.
Proof.
  apply succeeds_this_bind. intros self Hself.
  apply (succeeds_weaken connected _ connected _);
    [intros d ->; exact Hself | auto |].
  destruct (db_type (config self));
    unfold PostgresAdapter_create_schema, MySQLAdapter_create_schema,
      RedshiftAdapter_create_schema;
    first [ apply succeeds_ret
          | apply (succeeds_bind connected connected connected);
            [apply succeeds_execute | intros _; apply succeeds_commit] ].
Qed.

Lemma succeeds_drop_schema : succeeds connected drop_schema connected.
Proof.
  apply succeeds_this_bind. intros self Hself.
  apply (succeeds_weaken connected _ connected _);
    [intros d ->; exact Hself | auto |].
  destruct (db_type (config self));
    unfold PostgresAdapter_drop_schema, MySQLAdapter_drop_schema,
      RedshiftAdapter_drop_schema;
    try (apply (succeeds_bind connected connected connected);
         [apply succeeds_execute | intros _; apply succeeds_commit]).
  apply (succeeds_bind connected connected connected);
    [apply succeeds_execute | intros _].
  apply succeeds_this_bind. intros self' [Hc Hk].
  apply (succeeds_weaken connected _ connected _);
    [intros d ->; split; assumption | auto |].
  destruct (cursor self'); [|contradiction].
  apply (succeeds_bind connected connected connected).
  - apply (succeeds_bind connected connected connected);
      [apply succeeds_call | intros _].
    intros w Hq Hd. exists (catalog w). auto.
  - intros tables. apply (succeeds_bind connected connected connected).
    + apply succeeds_for_each. intros t _. apply succeeds_execute.
    + intros _. apply succeeds_commit.
Qed.

Lemma succeeds_close (I : DatabaseAdapter -> Prop) : succeeds I close I.
Proof.
  unfold close. apply (succeeds_bind I I I); [apply succeeds_mark|].
  intros _. apply succeeds_this_bind. intros self Hself.
  apply (succeeds_weaken I _ I _); [intros d ->; exact Hself | auto |].
  apply (succeeds_bind I I I).
  - destruct (cursor self); [apply succeeds_call | apply succeeds_ret].
  - intros _.
    destruct (connection self); [apply succeeds_call | apply succeeds_ret].
Qed.

Lemma problems_succeed (base : Z) :
  Forall (fun p : string * (Z -> M unit) * Z =>
            forall n, succeeds connected (snd (fst p) n) connected)
         (problems base).
Proof.
  unfold problems.
  repeat (apply Forall_cons; [simpl; intros n|]); [..|apply Forall_nil].
  - apply (succeeds_mspec _ _ _ (fun d => problem_01_shape d n)).
  - apply (succeeds_mspec _ _ _ (fun d => problem_02_shape d n)).
  - apply (succeeds_mspec _ _ _ (fun d => problem_03_shape d n)).
  - apply (succeeds_mspec _ _ _ (fun d => problem_04_shape d n)).
  - apply (succeeds_mspec _ _ _ (fun d => problem_05_shape d n)).
  - apply (succeeds_mspec _ _ _ (fun d => problem_06_shape d n)).
  - apply (succeeds_mspec _ _ _ (fun d => problem_07_shape d n)).
  - apply (succeeds_mspec _ _ _ (fun d => problem_08_shape d n)).
  - apply (succeeds_mspec _ _ _ (fun d => problem_09_shape d n)).
  - apply (succeeds_mspec _ _ _ (fun d => problem_10_shape d n)).
  - apply (succeeds_mspec _ _ _ (fun d => problem_11_shape d n)).
  - apply (succeeds_mspec _ _ _ (fun d => problem_12_shape d n)).
  - apply (succeeds_mspec _ _ _ (fun d => problem_13_shape d n)).
  - apply (succeeds_mspec _ _ _ (fun d => problem_14_shape d n)).
  - apply (succeeds_mspec _ _ _ (fun d => problem_15_shape d n)).
Qed.

Lemma succeeds_setup (cfg : DBConfig) (scale : string) :
  succeeds anyhow (setup_workshop cfg scale) connected.
Proof.
  unfold setup_workshop. cbv zeta.
  apply (succeeds_bind anyhow anyhow);
    [apply succeeds_set_this; exact I | intros _].
  apply (succeeds_try_finally anyhow connected); [|apply succeeds_close].
  apply succeeds_try_except.
  succeeds_calls anyhow.
  apply (succeeds_bind anyhow connected); [apply succeeds_connect|intros _].
  succeeds_calls connected.
  apply (succeeds_bind connected connected);
    [apply succeeds_create_schema | intros _].
  succeeds_calls connected.
  apply (succeeds_bind connected connected).
  - unfold with_progress.
    succeeds_calls connected.
    apply (succeeds_try_finally connected connected);
      [|apply succeeds_call].
    succeeds_calls connected.
    apply succeeds_for_each. intros [[name func] rows] Hin.
    succeeds_calls connected.
    apply (succeeds_bind connected connected); [|intros _; apply succeeds_call].
    apply (proj1 (Forall_forall _ _) (problems_succeed _) _ Hin rows).
  - intros _. succeeds_calls connected.
Qed.

Lemma succeeds_teardown (cfg : DBConfig) :
  succeeds anyhow (teardown_workshop cfg) connected.
Proof.
  unfold teardown_workshop.
  apply (succeeds_bind anyhow anyhow);
    [apply succeeds_set_this; exact I | intros _].
  apply (succeeds_try_finally anyhow connected); [|apply succeeds_close].
  apply succeeds_try_except.
  succeeds_calls anyhow.
  apply (succeeds_bind anyhow connected); [apply succeeds_connect|intros _].
  succeeds_calls connected.
  apply (succeeds_bind connected connected);
    [apply succeeds_drop_schema | intros _].
  succeeds_calls connected.
Qed.

Lemma main_of_body {A : Type} (m : M A) (w : World) :
  (exists a, fst (m w) = Ok a) ->
  (let body := m ;; ret 0 in
   match body w with
   | (Ok code, w1) => (Ok code, w1)
   | (Raise KeyboardInterrupt, w1) =>
       (call (ConsolePrint cancelled_line) ;; ret 130) w1
   | (Raise e, w1) => (call (ConsolePrint (error_line e)) ;; ret 1) w1
   end) = (Ok 0, snd (m w)).
Proof.
  intros [a Ho]. cbv zeta. cbn [bind Monad_M ret].
  destruct (m w) as [[x|e] w1]; simpl in *; [reflexivity | discriminate].
Qed.

Lemma main_returns (cmd : Command) (w : World) :
  quiet w -> exists w1, main cmd w = (Ok 0, w1) /\ quiet w1.
Proof.
  intros Hq. unfold main. destruct cmd as [t h p d u pw scale|t h p d u pw|t].
  - match goal with
    | |- context [setup_workshop ?cfg scale] =>
        destruct (succeeds_setup cfg scale w Hq I) as [a [Ho [Hq1 _]]];
        exists (snd (setup_workshop cfg scale w))
    end.
    split; [|exact Hq1]. apply (main_of_body _ w). eauto.
  - match goal with
    | |- context [teardown_workshop ?cfg] =>
        destruct (succeeds_teardown cfg w Hq I) as [a [Ho [Hq1 _]]];
        exists (snd (teardown_workshop cfg w))
    end.
    split; [|exact Hq1]. apply (main_of_body _ w). eauto.
  - destruct (show_diagnostics_runs t w Hq) as [Ho [_ Hq1]].
    exists (snd (show_diagnostics t w)).
    split; [|exact Hq1]. apply (main_of_body _ w). eauto.
Qed.

(** X1: in a world where no driver or console call fails, every command
    runs to its end and exits with code 0: setup on any backend and at any
    scale, teardown, and diagnose; so does the whole script, which seeds the
    generators first. *)
Theorem commands_run_to_the_end (cmd : Command) (w : World) :
  quiet w ->
  outcome_of (main cmd) w = Ok 0 /\ outcome_of (script cmd) w = Ok 0.
Proof.
  intros Hq. split.
  - destruct (main_returns cmd w Hq) as [w1 [H _]].
    unfold outcome_of. rewrite H. reflexivity.
  - unfold outcome_of. rewrite script_run.
    assert (Hq' : quiet (snd (lift module_init w))).
    { unfold lift. destruct (module_init (sources w)). exact Hq. }
    destruct (main_returns cmd _ Hq') as [w1 [H _]].
    rewrite H. reflexivity.
Qed.

Lemma commands_run_to_the_end_setup :
  let cmd := Setup redshift "localhost" None "workshop" "workshop" "workshop"
               "xlarge" in
  let w := fresh_world 42 1700000000 no_fault in
  outcome_of (main cmd) w = Ok 0 /\ outcome_of (script cmd) w = Ok 0.
Proof.
  intros cmd w. apply (commands_run_to_the_end cmd w).
  intros n. reflexivity.
Defined.

(* ===================================================================== *)
(** * What a run can raise *)
(* ===================================================================== *)

Lemma blames_weaken (pre pre' post post' : DatabaseAdapter -> Prop)
    {A : Type} (m : M A) :
  (forall d, pre' d -> pre d) -> (forall d, post d -> post' d) ->
  blames pre m post -> blames pre' m post'.
Proof.
  intros Hpre Hpost Hm w Hd. destruct (Hm w (Hpre _ Hd)) as [Hf Ho].
  split; [exact Hf|]. destruct (fst (m w)); auto.
Qed.

Lemma blames_ret (I : DatabaseAdapter -> Prop) {A : Type} (a : A) :
  blames I (ret a) I.
Proof. intros w Hd. simpl. auto. Qed.

Lemma blames_lift (I : DatabaseAdapter -> Prop) {A : Type} (g : Gen A) :
  blames I (lift g) I.
Proof.
  intros w Hd. unfold lift. destruct (g (sources w)). simpl. auto.
Qed.

Lemma blames_call (I : DatabaseAdapter -> Prop) (c : Call) :
  blames I (call c) I.
Proof.
  intros w Hd. unfold call. destruct (faults w (ticks w)) eqn:E; simpl.
  - split; [reflexivity|]. exists (ticks w). exact E.
  - auto.
Qed.

Lemma blames_mark (I : DatabaseAdapter -> Prop) (c : Call) :
  blames I (mark c) I.
Proof. intros w Hd. simpl. auto. Qed.

Lemma blames_set_this (pre post : DatabaseAdapter -> Prop)
    (a : DatabaseAdapter) :
  post a -> blames pre (set_this a) post.
Proof. intros Ha w Hd. simpl. auto. Qed.

Lemma blames_fetched (I : DatabaseAdapter -> Prop) : blames I fetched I.
Proof. intros w Hd. simpl. auto. Qed.

Lemma scheduled_transport (w w1 : World) (e : Exn) :
  faults w1 = faults w -> scheduled w1 e -> scheduled w e.
Proof. intros H [k Hk]. exists k. rewrite <- H. exact Hk. Qed.

Lemma blames_bind (pre mid post : DatabaseAdapter -> Prop) {A B : Type}
    (m : M A) (f : A -> M B) :
  blames pre m mid -> (forall a, blames mid (f a) post) ->
  blames pre (bind m f) post.
Proof.
  intros Hm Hf w Hd. destruct (Hm w Hd) as [Hf1 Ho1]. simpl.
  destruct (m w) as [[a|e] w1]; simpl in *.
  - destruct (Hf a w1 Ho1) as [Hf2 Ho2].
    split; [congruence|].
    destruct (fst (f a w1)); [exact Ho2|].
    apply (scheduled_transport w w1 _ Hf1 Ho2).
  - auto.
Qed.

Lemma blames_this_bind (I post : DatabaseAdapter -> Prop) {B : Type}
    (f : DatabaseAdapter -> M B) :
  (forall self, I self -> blames (fun d => d = self) (f self) post) ->
  blames I (bind this f) post.
Proof. intros Hf w Hd. simpl. apply (Hf (db w) Hd w eq_refl). Qed.

Lemma blames_for_each (I : DatabaseAdapter -> Prop) {X : Type}
    (l : list X) (body : X -> M unit) :
  (forall x, In x l -> blames I (body x) I) ->
  blames I (for_each l body) I.
Proof.
  induction l as [|x l IH]; intros H; simpl.
  - apply blames_ret.
  - apply (blames_bind I I I).
    + apply H. left. reflexivity.
    + intros _. apply IH. intros y Hy. apply H. right. exact Hy.
Qed.

Lemma blames_for_fold (I : DatabaseAdapter -> Prop) {X S : Type}
    (l : list X) (body : X -> S -> M S) :
  (forall x s, blames I (body x s) I) ->
  forall s, blames I (for_fold l s body) I.
Proof.
  intros H. induction l as [|x l IH]; intros s; simpl.
  - apply blames_ret.
  - apply (blames_bind I I I); [apply H | intros s'; apply IH].
Qed.

Lemma blames_try_finally (pre post : DatabaseAdapter -> Prop) {A : Type}
    (body : M A) (final : M unit) (mid : DatabaseAdapter -> Prop) :
  blames pre body mid -> blames anyhow final post ->
  blames pre (try_finally body final) anyhow.
Proof.
  intros Hb Hf w Hd. destruct (Hb w Hd) as [Hf1 Ho1].
  unfold try_finally. destruct (body w) as [o w1]. simpl in *.
  destruct (Hf w1 I) as [Hf2 Ho2].
  destruct (final w1) as [[u|e] w2]; simpl in *.
  - split; [congruence|]. destruct o; [exact I | exact Ho1].
  - split; [congruence|]. apply (scheduled_transport w w1 _ Hf1 Ho2).
Qed.

(** [try: body except Exception as e: report(e); raise]. *)
Lemma blames_reporting (pre post : DatabaseAdapter -> Prop) {A : Type}
    (body : M A) (report : Exn -> Call) :
  blames pre body post ->
  blames pre (try_except body (fun e => call (report e) ;; raise e)) post.
Proof.
  intros Hb w Hd. destruct (Hb w Hd) as [Hf1 Ho1]. unfold try_except.
  destruct (body w) as [[a|e] w1]; simpl in *; [auto|].
  destruct (is_Exception e); simpl; [|auto].
  unfold call. destruct (faults w1 (ticks w1)) eqn:E; simpl.
  - split; [exact Hf1|]. exists (ticks w1). rewrite <- Hf1. exact E.
  - auto.
Qed.

Lemma blames_execute (sql : string) (params : option Row) :
  blames connected (execute sql params) connected.
Proof.
  apply blames_this_bind. intros self [Hc Hk].
  apply (blames_weaken connected _ connected _);
    [intros d ->; split; assumption | auto |].
  destruct params as [[|r rs]|]; destruct (cursor self);
    first [contradiction | apply blames_call].
Qed.

Lemma blames_executemany (sql : string) (rows : list Row) :
  blames connected (executemany sql rows) connected.
Proof.
  apply blames_this_bind. intros self [Hc Hk].
  apply (blames_weaken connected _ connected _);
    [intros d ->; split; assumption | auto |].
  destruct (cursor self); first [contradiction | apply blames_call].
Qed.

Lemma blames_commit : blames connected commit connected.
Proof.
  apply blames_this_bind. intros self [Hc Hk].
  apply (blames_weaken connected _ connected _);
    [intros d ->; split; assumption | auto |].
  destruct (connection self); first [contradiction | apply blames_call].
Qed.

Lemma blames_getter (I : DatabaseAdapter -> Prop) {A : Type}
    (f : DatabaseAdapter -> A) :
  blames I (self <- this ;; ret (f self)) I.
Proof. intros w Hd. simpl. auto. Qed.

(** Steps through a generator: every statement goes through the adapter. *)
Ltac blames_auto :=
  cbv zeta;
  repeat match goal with
    | |- blames _ get_table_prefix _ => apply blames_getter
    | |- blames _ get_auto_increment_syntax _ => apply blames_getter
    | |- blames _ get_boolean_type _ => apply blames_getter
    | |- blames _ (execute _ _) _ => apply blames_execute
    | |- blames _ (executemany _ _) _ => apply blames_executemany
    | |- blames _ commit _ => apply blames_commit
    | |- blames _ (lift _) _ => apply blames_lift
    | |- blames _ (ret _) _ => apply blames_ret
    | |- blames _ (bind _ _) _ =>
        apply (blames_bind connected connected connected); [|intros]
    | |- blames _ (for_each _ _) _ => apply blames_for_each; intros
    | |- blames _ (for_fold _ _ _) _ => apply blames_for_fold; intros
    | |- blames _ (if ?b then _ else _) _ => destruct b
    | |- blames _ (match ?x with _ => _ end) _ => destruct x
    end.

Lemma problems_blame (base : Z) :
  Forall (fun p : string * (Z -> M unit) * Z =>
            forall n, blames connected (snd (fst p) n) connected)
         (problems base).
Proof.
  unfold problems.
  repeat (apply Forall_cons; [simpl; intros n|]); [..|apply Forall_nil].
  - unfold problem_01_no_primary_key. blames_auto.
  - unfold problem_02_missing_foreign_keys. blames_auto.
  - unfold problem_03_wrong_data_types. blames_auto.
  - unfold problem_04_missing_not_null. blames_auto.
  - unfold problem_05_duplicate_records. blames_auto.
  - unfold problem_06_inconsistent_dates. blames_auto.
  - unfold problem_07_inconsistent_casing. blames_auto.
  - unfold problem_08_whitespace_issues. blames_auto.
  - unfold problem_09_invalid_emails. blames_auto.
  - unfold problem_10_out_of_range. blames_auto.
  - unfold problem_11_csv_in_columns. blames_auto.
  - unfold problem_12_encoding_issues. blames_auto.
  - unfold problem_13_god_table. blames_auto.
  - unfold problem_14_missing_indexes. blames_auto.
  - unfold problem_15_type_coercion. blames_auto.
Qed.

(** *** The adapter and the commands *)

Ltac blames_calls I :=
  repeat match goal with
    | |- blames _ (bind (call _) _) _ =>
        apply (blames_bind I I); [apply blames_call | intros _]
    | |- blames _ (call _) _ => apply blames_call
    end.

Lemma blames_set_connection :
  blames anyhow (set_connection (Some Live)) (fun d => connection d <> None).
Proof. intros w _. simpl. split; [reflexivity | discriminate]. Qed.

Lemma blames_set_cursor :
  blames (fun d => connection d <> None) (set_cursor (Some Live)) connected.
Proof.
  intros w Hk. simpl. split; [reflexivity|]. split; [discriminate|exact Hk].
Qed.

Lemma blames_connect : blames anyhow connect connected.
Proof.
  unfold connect. apply blames_this_bind. intros self _.
  apply (blames_weaken anyhow _ connected _); [intros; exact I | auto |].
  destruct (db_type (config self));
    unfold PostgresAdapter_connect, MySQLAdapter_connect,
      RedshiftAdapter_connect;
    (apply blames_this_bind; intros self' _;
     apply (blames_weaken anyhow _ connected _); [intros; exact I | auto |]);
    blames_calls anyhow;
    (apply (blames_bind anyhow (fun d => connection d <> None));
     [apply blames_set_connection | intros _]);
    blames_calls (fun d : DatabaseAdapter => connection d <> None);
    apply blames_set_cursor.
Qed.

Lemma blames_create_schema : blames connected create_schema connected.
Proof.
  apply blames_this_bind. intros self Hself.
  apply (blames_weaken connected _ connected _);
    [intros d ->; exact Hself | auto |].
  destruct (db_type (config self));
    unfold PostgresAdapter_create_schema, MySQLAdapter_create_schema,
      RedshiftAdapter_create_schema;
    blames_auto.
Qed.

Lemma blames_drop_schema : blames connected drop_schema connected.
Proof.
  apply blames_this_bind. intros self Hself.
  apply (blames_weaken connected _ connected _);
    [intros d ->; exact Hself | auto |].
  destruct (db_type (config self));
    unfold PostgresAdapter_drop_schema, MySQLAdapter_drop_schema,
      RedshiftAdapter_drop_schema;
    try solve [blames_auto].
  apply (blames_bind connected connected); [apply blames_execute|intros _].
  apply blames_this_bind. intros self' [Hc Hk].
  apply (blames_weaken connected _ connected _);
    [intros d ->; split; assumption | auto |].
  destruct (cursor self'); [|contradiction].
  apply (blames_bind connected connected).
  - apply (blames_bind connected connected);
      [apply blames_call | intros _; apply blames_fetched].
  - intros tables. blames_auto.
Qed.

Lemma blames_close : blames anyhow close anyhow.
Proof.
  unfold close. apply (blames_bind anyhow anyhow); [apply blames_mark|].
  intros _. apply blames_this_bind. intros self _.
  apply (blames_weaken anyhow _ anyhow _); [intros; exact I | auto |].
  apply (blames_bind anyhow anyhow).
  - destruct (cursor self); [apply blames_call | apply blames_ret].
  - intros _.
    destruct (connection self); [apply blames_call | apply blames_ret].
Qed.

Lemma blames_setup (cfg : DBConfig) (scale : string) :
  blames anyhow (setup_workshop cfg scale) anyhow.
Proof.
  unfold setup_workshop. cbv zeta.
  apply (blames_bind anyhow anyhow);
    [apply blames_set_this; exact I | intros _].
  apply (blames_try_finally anyhow anyhow _ _ anyhow); [|apply blames_close].
  apply (blames_reporting anyhow anyhow _
           (fun e => ConsolePrint (error_line e))).
  blames_calls anyhow.
  apply (blames_bind anyhow connected); [apply blames_connect|intros _].
  blames_calls connected.
  apply (blames_bind connected connected);
    [apply blames_create_schema | intros _].
  blames_calls connected.
  apply (blames_bind connected anyhow).
  - unfold with_progress.
    blames_calls connected.
    apply (blames_try_finally connected anyhow _ _ connected);
      [|apply blames_call].
    blames_calls connected.
    apply blames_for_each. intros [[name func] rows] Hin.
    blames_calls connected.
    apply (blames_bind connected connected); [|intros _; apply blames_call].
    apply (proj1 (Forall_forall _ _) (problems_blame _) _ Hin rows).
  - intros _. blames_calls anyhow.
Qed.

Lemma blames_teardown (cfg : DBConfig) :
  blames anyhow (teardown_workshop cfg) anyhow.
Proof.
  unfold teardown_workshop.
  apply (blames_bind anyhow anyhow);
    [apply blames_set_this; exact I | intros _].
  apply (blames_try_finally anyhow anyhow _ _ connected); [|apply blames_close].
  apply (blames_reporting anyhow connected _
           (fun e => ConsolePrint (error_line e))).
  blames_calls anyhow.
  apply (blames_bind anyhow connected); [apply blames_connect|intros _].
  blames_calls connected.
  apply (blames_bind connected connected);
    [apply blames_drop_schema | intros _].
  blames_calls connected.
Qed.

Lemma blames_show_diagnostics (t : DBType) :
  blames anyhow (show_diagnostics t) anyhow.
Proof.
  unfold show_diagnostics. cbv zeta. blames_calls anyhow.
  apply blames_for_each. intros [problem_id info] _. blames_calls anyhow.
Qed.

(** What main does with the outcome of the command. *)
Lemma main_handles (m : M unit) (w : World) :
  blames anyhow m anyhow ->
  let r := (let body := m ;; ret 0 in
            match body w with
            | (Ok code, w1) => (Ok code, w1)
            | (Raise KeyboardInterrupt, w1) =>
                (call (ConsolePrint cancelled_line) ;; ret 130) w1
            | (Raise e, w1) => (call (ConsolePrint (error_line e)) ;; ret 1) w1
            end) in
  match fst r with
  | Ok code =>
      (code = 0 /\ fst (m w) = Ok tt) \/
      (code = 130 /\ fst (m w) = Raise KeyboardInterrupt /\
       exists tr, trace (snd r) = tr ++ [ConsolePrint cancelled_line]) \/
      (code = 1 /\ exists msg,
         fst (m w) = Raise (Error msg) /\
         exists tr,
           trace (snd r) = tr ++ [ConsolePrint (error_line (Error msg))])
  | Raise e => scheduled w e
  end.
Proof.
  intros Hb. destruct (Hb w I) as [Hf Ho].
  cbv zeta. cbn [bind Monad_M ret].
  destruct (m w) as [[[]|e] w1]; simpl in *.
  - left. auto.
  - destruct e as [msg|]; unfold call;
      destruct (faults w1 (ticks w1)) eqn:E; simpl.
    + exists (ticks w1). rewrite <- Hf. exact E.
    + right. right. split; [reflexivity|]. exists msg.
      split; [reflexivity|]. eexists. reflexivity.
    + exists (ticks w1). rewrite <- Hf. exact E.
    + right. left. split; [reflexivity|]. split; [reflexivity|].
      eexists. reflexivity.
Qed.


(* ===================================================================== *)
(** * Exit codes and errors *)
(* ===================================================================== *)

Lemma blames_command (cmd : Command) : blames anyhow (command_of cmd) anyhow.
Proof.
  destruct cmd; simpl.
  - apply blames_setup.
  - apply blames_teardown.
  - apply blames_show_diagnostics.
Qed.


(** X3: whatever setup or teardown raises was raised by a driver or console
    call: the adapter is connected before it is used, so neither command
    fails for want of a cursor or a connection. *)
Theorem commands_raise_what_calls_raise (cfg : DBConfig) (scale : string)
    (w : World) (e : Exn) :
  outcome_of (setup_workshop cfg scale) w = Raise e \/
  outcome_of (teardown_workshop cfg) w = Raise e ->
  scheduled w e.
Proof.
  intros [H | H].
  - destruct (blames_setup cfg scale w I) as [_ Ho].
    unfold outcome_of in H. rewrite H in Ho. exact Ho.
  - destruct (blames_teardown cfg w I) as [_ Ho].
    unfold outcome_of in H. rewrite H in Ho. exact Ho.
Qed.

Lemma commands_raise_what_calls_raise_refused :
  scheduled (fresh_world 42 1700000000
               (fault_at 4 (Error "connection refused")))
    (Error "connection refused").
Proof.
  apply (commands_raise_what_calls_raise (sample_config postgres) "tiny").
  left. vm_compute. reflexivity.
Defined.

(** *** Generators and the connection *)

Lemma dead_execute {B : Type} (sql : string) (params : option Row)
    (k : unit -> M B) (w : World) :
  cursor (db w) = None ->
  bind (execute sql params) k w = (Raise (AttributeError "execute"), w).
Proof.
  intros H. unfold execute. cbn [bind Monad_M this].
  rewrite H. destruct params as [[|r rs]|]; reflexivity.
Qed.

Lemma getter_then {A B : Type} (f : DatabaseAdapter -> A) (k : A -> M B)
    (w : World) :
  bind (self <- this ;; ret (f self)) k w = k (f (db w)) w.
Proof. reflexivity. Qed.

Lemma calls_of_same {A : Type} (m : M A) (w : World) (o : Outcome A) :
  m w = (o, w) -> outcome_of m w = o /\ calls_of m w = [].
Proof.
  intros H. unfold outcome_of, calls_of. rewrite H. simpl.
  split; [reflexivity | apply skipn_all].
Qed.

(** A generator whose first statement goes through a missing cursor. *)
Ltac dead_start H :=
  apply calls_of_same;
  unfold get_table_prefix, get_auto_increment_syntax, get_boolean_type;
  repeat (rewrite getter_then; cbv beta);
  apply (dead_execute _ _ _ _ H).

Lemma problems_dead (base : Z) :
  Forall (fun p : string * (Z -> M unit) * Z =>
            forall n w, cursor (db w) = None ->
              outcome_of (snd (fst p) n) w = Raise (AttributeError "execute")
              /\ calls_of (snd (fst p) n) w = [])
         (problems base).
Proof.
  unfold problems.
  repeat (apply Forall_cons; [simpl; intros n w H|]); [..|apply Forall_nil].
  - unfold problem_01_no_primary_key. dead_start H.
  - unfold problem_02_missing_foreign_keys. dead_start H.
  - unfold problem_03_wrong_data_types. dead_start H.
  - unfold problem_04_missing_not_null. dead_start H.
  - unfold problem_05_duplicate_records. dead_start H.
  - unfold problem_06_inconsistent_dates. dead_start H.
  - unfold problem_07_inconsistent_casing. dead_start H.
  - unfold problem_08_whitespace_issues. dead_start H.
  - unfold problem_09_invalid_emails. dead_start H.
  - unfold problem_10_out_of_range. dead_start H.
  - unfold problem_11_csv_in_columns. dead_start H.
  - unfold problem_12_encoding_issues. dead_start H.
  - unfold problem_13_god_table. dead_start H.
  - unfold problem_14_missing_indexes. dead_start H.
  - unfold problem_15_type_coercion. dead_start H.
Qed.

Lemma Forall_and {X : Type} (P Q : X -> Prop) (l : list X) :
  Forall P l -> Forall Q l -> Forall (fun x => P x /\ Q x) l.
Proof.
  intros HP HQ. apply Forall_forall. intros x Hx.
  split; [apply (proj1 (Forall_forall P l) HP x Hx)
         | apply (proj1 (Forall_forall Q l) HQ x Hx)].
Qed.

(** X4: each of the fifteen generators, for any row count: called on an
    adapter that holds its cursor and its connection, it raises only what
    a driver call raises; called on an adapter without a cursor, it raises
    the attribute error of its first statement without sending anything. *)
Theorem generators_need_connection (base : Z) :
  Forall (fun p : string * (Z -> M unit) * Z =>
            forall n w, needs_connection (snd (fst p) n) w)
         (problems base).
Proof.
  eapply Forall_impl; [|apply (Forall_and _ _ _ (problems_blame base)
                                 (problems_dead base))].
  intros p [Hb Hd] n w. split.
  - intros Hc e He. destruct (Hb n w Hc) as [_ Ho].
    unfold outcome_of in He. rewrite He in Ho. exact Ho.
  - apply Hd.
Qed.

(* ===================================================================== *)
(** * What the rows of each generator hold *)
(* ===================================================================== *)

(** Steps through a sampler down to the row it appends, and checks the
    row against its columns. *)
Ltac rauto :=
  repeat match goal with
    | |- gpost (bind _ _) _ => apply gpost_next; intros
    | |- gpost (ret _) _ =>
        apply gpost_ret; eexists;
        split; [reflexivity
               | split; [reflexivity | first [reflexivity | exact I]]]
    | |- gpost (if ?b then _ else _) _ => destruct b
    | |- gpost (match ?x with _ => _ end) _ => destruct x
    end.

Ltac rows_shape T pre :=
  cbv zeta;
  repeat first [ apply step_prefix | apply step_auto_inc
               | apply step_boolean_type ];
  apply step_execute; [left; reflexivity|];
  apply (template_tail _ T _ pre);
  [ reflexivity
  | intros bs _; apply fill_one; intros i acc; unfold row_ok; rauto ].

Lemma problem_01_rows (d : DatabaseAdapter) (n : Z) :
  mspec d (problem_01_no_primary_key n)
    (fun _ => template_done (rows_01 d) n)
    (template_failed (rows_01 d) n).
Proof.
  unfold problem_01_no_primary_key. cbv zeta.
  apply step_prefix. apply step_execute; [left; reflexivity|].
  apply (template_tail d (rows_01 d) n
           [CursorExecute (sql_create_customers_no_pk (pfx d)) None]).
  - reflexivity.
  - intros bs _. apply fill_groups. intros i acc.
    apply gpost_bind
      with (P := fun row => row_ok sig_customers (Some number) i row).
    + repeat (apply gpost_next; intros). apply gpost_ret.
      split; reflexivity.
    + intros row Hrow. apply gpost_next; intros u.
      destruct (Qltb u 0.1); apply gpost_ret.
      * exists [row; row]. split; [rewrite <- app_assoc; reflexivity|].
        exists row. auto.
      * exists [row]. split; [reflexivity|]. exists row. auto.
Qed.

Lemma problem_02_rows (d : DatabaseAdapter) (n : Z) :
  mspec d (problem_02_missing_foreign_keys n)
    (fun _ => template_done (rows_02 d) n)
    (template_failed (rows_02 d) n).
Proof.
  unfold problem_02_missing_foreign_keys. cbv zeta.
  apply step_prefix. apply step_auto_inc.
  apply step_execute; [left; left; reflexivity|].
  apply step_lift
    with (P := fun products =>
                 List.length products = 100%nat /\
                 Forall (fun r => conforms sig_products r = true) products).
  { eapply gpost_weaken.
    - apply (gpost_for_fold_one
               (fun (_ : Z) r => conforms sig_products r = true)).
      intros i acc _. repeat (apply gpost_next; intros).
      apply gpost_ret. eexists. split; reflexivity.
    - intros rows H. split; [apply (seed_length _ _ _ H)|].
      apply (Forall2_Forall_r _ _ _ _ (fun _ _ Hr => Hr) H). }
  intros products [Hlen Hsig].
  apply step_executemany; [left; right; left; reflexivity|].
  apply step_execute; [left; right; right; exists products; auto|].
  apply (template_tail d (rows_02 d) n
           [CursorExecute (sql_create_products (pfx d) (auto_inc_of d)) None;
            CursorExecuteMany (sql_insert_products (pfx d)) products;
            CursorExecute (sql_create_orders_no_fk (pfx d) (auto_inc_of d))
              None]).
  - exists products. auto.
  - intros bs _. apply fill_one. intros i acc. unfold row_ok. rauto.
Qed.

Lemma problem_03_rows (d : DatabaseAdapter) (n : Z) :
  mspec d (problem_03_wrong_data_types n)
    (fun _ => template_done (rows_03 d) n)
    (template_failed (rows_03 d) n).
Proof.
  unfold problem_03_wrong_data_types.
  rows_shape (rows_03 d)
    [CursorExecute (sql_create_transactions_bad_types (pfx d)) None].
Qed.

(** A field that may be nulled out keeps its kind. *)
Lemma unless_null_kind (k : ColumnKind) (p : Q) (value : Gen Value) :
  gpost value (fun v => has_kind (nullable k) v = true) ->
  gpost (unless_null p value) (fun v => has_kind (nullable k) v = true).
Proof.
  intros Hv. unfold unless_null. apply gpost_next; intros u.
  destruct (Qltb p u); [exact Hv | apply gpost_ret; reflexivity].
Qed.

Ltac nullable_field k :=
  eapply gpost_bind;
  [ apply (unless_null_kind k);
    repeat (apply gpost_next; intros); apply gpost_ret; reflexivity
  | intros ? ? ].

Lemma problem_04_rows (d : DatabaseAdapter) (n : Z) :
  mspec d (problem_04_missing_not_null n)
    (fun _ => template_done (rows_04 d) n)
    (template_failed (rows_04 d) n).
Proof.
  unfold problem_04_missing_not_null. cbv zeta.
  apply step_prefix. apply step_auto_inc. apply step_boolean_type.
  apply step_execute; [left; reflexivity|].
  apply (template_tail d (rows_04 d) n
           [CursorExecute
              (sql_create_employees_nulls (pfx d) (auto_inc_of d)
                 (boolean_of d)) None]).
  - reflexivity.
  - intros bs _. apply fill_one. intros i acc.
    nullable_field KStr. nullable_field KStr. nullable_field KStr.
    nullable_field KStr. nullable_field KFloat. nullable_field KDate.
    nullable_field KInt. nullable_field KBool.
    apply gpost_ret. eexists. split; [reflexivity|].
    split; [|exact I].
    cbv beta in *. cbn [conforms sig_employees].
    repeat match goal with
           | H : has_kind _ _ = true |- _ => rewrite H; clear H
           end.
    reflexivity.
Qed.

Lemma problem_06_rows (d : DatabaseAdapter) (n : Z) :
  mspec d (problem_06_inconsistent_dates n)
    (fun _ => template_done (rows_06 d) n)
    (template_failed (rows_06 d) n).
Proof.
  unfold problem_06_inconsistent_dates.
  rows_shape (rows_06 d)
    [CursorExecute (sql_create_events_bad_dates (pfx d)) None].
Qed.

Lemma problem_07_rows (d : DatabaseAdapter) (n : Z) :
  mspec d (problem_07_inconsistent_casing n)
    (fun _ => template_done (rows_07 d) n)
    (template_failed (rows_07 d) n).
Proof.
  unfold problem_07_inconsistent_casing.
  rows_shape (rows_07 d)
    [CursorExecute (sql_create_contacts_bad_casing (pfx d)) None].
Qed.

Lemma problem_08_rows (d : DatabaseAdapter) (n : Z) :
  mspec d (problem_08_whitespace_issues n)
    (fun _ => template_done (rows_08 d) n)
    (template_failed (rows_08 d) n).
Proof.
  unfold problem_08_whitespace_issues.
  rows_shape (rows_08 d)
    [CursorExecute (sql_create_inventory_whitespace (pfx d)) None].
Qed.

Lemma problem_09_rows (d : DatabaseAdapter) (n : Z) :
  mspec d (problem_09_invalid_emails n)
    (fun _ => template_done (rows_09 d) n)
    (template_failed (rows_09 d) n).
Proof.
  unfold problem_09_invalid_emails.
  rows_shape (rows_09 d)
    [CursorExecute (sql_create_subscribers_bad_emails (pfx d)) None].
Qed.

Lemma problem_10_rows (d : DatabaseAdapter) (n : Z) :
  mspec d (problem_10_out_of_range n)
    (fun _ => template_done (rows_10 d) n)
    (template_failed (rows_10 d) n).
Proof.
  unfold problem_10_out_of_range. cbv zeta.
  apply step_prefix. apply step_execute; [left; reflexivity|].
  apply step_lift with (P := fun _ => True); [apply gpost_true|].
  intros now _.
  apply (template_tail d (rows_10 d) n
           [CursorExecute (sql_create_sales_bad_values (pfx d)) None]).
  - reflexivity.
  - intros bs _. apply fill_one. intros i acc. unfold row_ok. rauto.
Qed.

Lemma problem_11_rows (d : DatabaseAdapter) (n : Z) :
  mspec d (problem_11_csv_in_columns n)
    (fun _ => template_done (rows_11 d) n)
    (template_failed (rows_11 d) n).
Proof.
  unfold problem_11_csv_in_columns.
  rows_shape (rows_11 d)
    [CursorExecute (sql_create_articles_csv_tags (pfx d)) None].
Qed.

Lemma problem_12_rows (d : DatabaseAdapter) (n : Z) :
  mspec d (problem_12_encoding_issues n)
    (fun _ => template_done (rows_12 d) n)
    (template_failed (rows_12 d) n).
Proof.
  unfold problem_12_encoding_issues.
  rows_shape (rows_12 d)
    [CursorExecute (sql_create_international_data (pfx d)) None].
Qed.

Lemma problem_14_rows (d : DatabaseAdapter) (n : Z) :
  mspec d (problem_14_missing_indexes n)
    (fun _ => template_done (rows_14 d) n)
    (template_failed (rows_14 d) n).
Proof.
  unfold problem_14_missing_indexes.
  rows_shape (rows_14 d)
    [CursorExecute (sql_create_audit_log_no_index (pfx d) (auto_inc_of d))
       None].
Qed.

Lemma problem_15_rows (d : DatabaseAdapter) (n : Z) :
  mspec d (problem_15_type_coercion n)
    (fun _ => template_done (rows_15 d) n)
    (template_failed (rows_15 d) n).
Proof.
  unfold problem_15_type_coercion. cbv zeta.
  apply step_prefix.
  apply step_execute; [left; left; reflexivity|].
  apply step_execute; [left; right; left; reflexivity|].
  apply step_lift
    with (P := fun accounts =>
                 Forall2 (row_ok sig_accounts (Some number))
                   (py_range 0 1000 1) accounts).
  { apply (gpost_for_fold_one (row_ok sig_accounts (Some number))).
    intros i acc _. unfold row_ok. rauto. }
  intros accounts Hacc.
  apply step_executemany; [left; right; right; reflexivity|].
  apply (template_tail d (rows_15 d) n
           [CursorExecute (sql_create_accounts_int_id (pfx d)) None;
            CursorExecute (sql_create_transactions_str_id (pfx d)) None;
            CursorExecuteMany (sql_insert_accounts_int_id (pfx d)) accounts]).
  - exists accounts. auto.
  - intros bs _. apply fill_one. intros i acc. unfold row_ok. rauto.
Qed.

(** *** The god table *)

Lemma random_choice_In {A : Type} (d : A) (items : list A) :
  items <> [] -> gpost (random_choice d items) (fun x => In x items).
Proof.
  intros Hne s. unfold random_choice. simpl.
  apply nth_In.
  assert (Hlen : 0 < Z.of_nat (List.length items)).
  { destruct items; [contradiction | simpl; lia]. }
  pose proof (Z.mod_pos_bound
                (Z.of_N (cells (py_random s) (pos (py_random s))))
                (Z.of_nat (List.length items)) Hlen).
  lia.
Qed.

Lemma god_row_spec (i : Z) (customers : list Customer)
    (products : list Product) :
  customers <> [] -> products <> [] ->
  gpost (god_row i customers products) (god_row_ok customers products i).
Proof.
  intros Hc Hp. unfold god_row.
  eapply gpost_bind; [apply (random_choice_In _ _ Hc)|]. intros cust Hcust.
  eapply gpost_bind; [apply (random_choice_In _ _ Hp)|]. intros prod Hprod.
  do 10 (apply gpost_next; intros).
  apply gpost_bind
    with (P := fun v => has_kind (nullable KDate) v = true).
  { destruct (Qltb 0.3 _); [apply gpost_next; intros|];
      apply gpost_ret; reflexivity. }
  intros actual Hact. apply gpost_ret.
  split; [split|split].
  - cbn [conforms sig_god_table]. cbv beta in Hact. rewrite Hact.
    reflexivity.
  - reflexivity.
  - exists cust. split; [exact Hcust | reflexivity].
  - exists prod. split; [exact Hprod | reflexivity].
Qed.

Lemma pools_exist : exists customers products, pools_ok customers products.
Proof.
  exists (map (fun i => {| c_id := i + 1; c_first := ""; c_last := "";
                           c_email := ""; c_phone := ""; c_addr1 := "";
                           c_addr2 := ""; c_city := ""; c_state := "";
                           c_zip := ""; c_country := ""; c_created := 0 |})
              (py_range 0 100 1)),
         (map (fun i => {| p_id := i + 1; p_name := ""; p_desc := "";
                           p_cat := ""; p_subcat := ""; p_brand := "";
                           p_price := 0; p_cost := 0 |})
              (py_range 0 50 1)).
  split; rewrite map_map; reflexivity.
Qed.

Lemma Forall2_map_eq {X Y Z' : Type} (f : Y -> Z') (g : X -> Z')
    (l : list X) (l' : list Y) :
  Forall2 (fun x y => f y = g x) l l' -> map f l' = map g l.
Proof.
  induction 1 as [|x y l l' H _ IH]; simpl; [reflexivity|].
  rewrite H, IH. reflexivity.
Qed.

Lemma pool_not_empty {A : Type} (f : A -> Z) (l : list A) (k : Z) :
  0 < k -> map f l = map (fun i => i + 1) (py_range 0 k 1) -> l <> [].
Proof.
  intros Hk H ->. apply (f_equal (@List.length Z)) in H.
  rewrite !length_map, py_range_unit_length in H. simpl in H. lia.
Qed.

Lemma problem_13_rows (d : DatabaseAdapter) (n : Z) :
  mspec d (problem_13_god_table n)
    (fun _ tr => exists customers products,
       pools_ok customers products /\
       flushing_done (god_rows d n customers products) tr)
    (fun tr => exists customers products,
       pools_ok customers products /\
       flushing_failed (god_rows d n customers products) tr).
Proof.
  unfold problem_13_god_table. cbv zeta.
  apply step_prefix.
  apply step_execute.
  { destruct pools_exist as [cs [ps H]]. exists cs, ps. split; [exact H|].
    apply flushing_failed_nil. }
  apply step_lift
    with (P := fun customers =>
                 map c_id customers = map (fun i => i + 1) (py_range 0 100 1)).
  { eapply gpost_weaken.
    - apply (gpost_for_fold_one (fun i c => c_id c = i + 1)).
      intros i acc _. repeat (apply gpost_next; intros).
      apply gpost_ret. eexists. split; reflexivity.
    - intros cs H. apply (Forall2_map_eq c_id (fun i => i + 1) _ _ H). }
  intros customers Hcs.
  apply step_lift
    with (P := fun products =>
                 map p_id products = map (fun i => i + 1) (py_range 0 50 1)).
  { eapply gpost_weaken.
    - apply (gpost_for_fold_one (fun i p => p_id p = i + 1)).
      intros i acc _. repeat (apply gpost_next; intros).
      apply gpost_ret. eexists. split; reflexivity.
    - intros ps H. apply (Forall2_map_eq p_id (fun i => i + 1) _ _ H). }
  intros products Hps.
  assert (Hc : customers <> []) by (apply (pool_not_empty c_id _ 100); [lia|auto]).
  assert (Hp : products <> []) by (apply (pool_not_empty p_id _ 50); [lia|auto]).
  eapply mspec_weaken.
  - apply (flushing_tail d (god_rows d n customers products)).
    + intros i rows _. unfold flush_step.
      apply step_lift with (P := god_row_ok customers products i);
        [apply (god_row_spec i _ _ Hc Hp)|].
      intros row Hrow.
      eapply mspec_weaken;
        [apply (flush_or_keep_spec d _ (rows ++ [row])) | |].
      * intros r tr H. exists [row]. split; [|exact H].
        exists row. split; [reflexivity | exact Hrow].
      * intros tr [-> H]. split; [reflexivity|]. exists [row].
        split; [|exact H]. exists row. split; [reflexivity | exact Hrow].
    + intros i g _ [r [-> _]]. simpl. lia.
  - intros [] tr H. exists customers, products.
    split; [split; auto | exact H].
  - intros tr H. exists customers, products. split; [split; auto | exact H].
Qed.

(* ===================================================================== *)
(** * Rows and statements agree *)
(* ===================================================================== *)

Lemma conforms_length (sig : list Column) (r : Row) :
  conforms sig r = true -> List.length r = List.length sig.
Proof.
  revert r. induction sig as [|c sig IH]; intros [|v r] H; simpl in *;
    try discriminate; [reflexivity|].
  apply andb_true_iff in H. destruct H as [_ H].
  rewrite (IH r H). reflexivity.
Qed.

(** Every statement takes one parameter per column of its rows. *)
Lemma signatures_match (d : DatabaseAdapter) :
  Forall (fun e : string * list Column =>
            placeholders (fst e) = List.length (snd e))
         (insert_signatures d).
Proof.
  unfold insert_signatures, pfx.
  destruct (db_type (config d));
    repeat (apply Forall_cons; [vm_compute; reflexivity|]);
    apply Forall_nil.
Qed.

Lemma typed_bulk (d : DatabaseAdapter) (sql : string) (sig : list Column)
    (rows : list Row) :
  In (sql, sig) (insert_signatures d) ->
  Forall (fun r => conforms sig r = true) rows ->
  well_typed_call d (CursorExecuteMany sql rows).
Proof.
  intros Hin Hrows.
  pose proof (proj1 (Forall_forall _ _) (signatures_match d) _ Hin) as Hp.
  simpl in Hp. exists sig. split; [exact Hin|]. split; [exact Hp|].
  eapply Forall_impl; [|exact Hrows].
  intros r Hr. split; [exact Hr|]. rewrite Hp. apply conforms_length, Hr.
Qed.

Lemma Forall_concat_groups {X : Type} (P : Row -> Prop)
    (group : X -> list Row -> Prop) (l : list X) (groups : list (list Row)) :
  (forall x g, group x g -> Forall P g) ->
  Forall2 group l groups -> Forall P (List.concat groups).
Proof.
  intros Hg HF. induction HF as [|x g l groups Hx _ IH]; simpl.
  - constructor.
  - apply Forall_app. split; [apply (Hg x g Hx) | exact IH].
Qed.

Lemma typed_batches (d : DatabaseAdapter) (T : Template)
    (sig : list Column) (n : Z) (starts : list Z)
    (batches : list (list Row)) :
  In (t_sql T, sig) (insert_signatures d) ->
  (forall i g, t_group T i g -> Forall (fun r => conforms sig r = true) g) ->
  Forall2 (batch_of (t_group T) n) starts batches ->
  Forall (well_typed_call d) (map (CursorExecuteMany (t_sql T)) batches).
Proof.
  intros Hin Hg HF. apply Forall_map_executemany.
  eapply Forall2_Forall_r; [|exact HF].
  intros bs rows [groups [-> HG]]. apply (typed_bulk d _ sig _ Hin).
  apply (Forall_concat_groups _ _ _ _ Hg HG).
Qed.

(** A generator that follows a template whose rows have the columns of
    its statement. *)
Lemma template_typed (T : DatabaseAdapter -> Template) (sig : list Column)
    (n : Z) (m : M unit) :
  (forall d, In (t_sql (T d), sig) (insert_signatures d)) ->
  (forall d pre, t_pre (T d) pre -> Forall (well_typed_call d) pre) ->
  (forall d tr, t_early (T d) tr -> Forall (well_typed_call d) tr) ->
  (forall d i g, t_group (T d) i g ->
     Forall (fun r => conforms sig r = true) g) ->
  (forall d, mspec d m (fun _ => template_done (T d) n)
                       (template_failed (T d) n)) ->
  forall w, Forall (well_typed_call (db w)) (calls_of m w).
Proof.
  intros Hin Hpre Hearly Hg Hm w.
  pose proof (mspec_run (db w) m _ _ w (Hm (db w)) eq_refl) as H.
  destruct (outcome_of m w).
  - destruct H as [pre [batches [Hp [HF ->]]]].
    apply Forall_app. split; [apply (Hpre _ _ Hp)|].
    apply Forall_app. split.
    + apply (typed_batches _ _ sig n _ _ (Hin _) (Hg _) HF).
    + constructor; [exact I | constructor].
  - destruct H as [[He | [pre [j [batches [Hp [HF ->]]]]]] _].
    + apply (Hearly _ _ He).
    + apply Forall_app. split; [apply (Hpre _ _ Hp)|].
      apply (typed_batches _ _ sig n _ _ (Hin _) (Hg _) HF).
Qed.

Lemma Forall_app_l {A : Type} (P : A -> Prop) (l l' : list A) :
  Forall P (l ++ l') -> Forall P l.
Proof. intros H. apply Forall_app in H. tauto. Qed.

Lemma Forall_concat_inv {A : Type} (P : A -> Prop) (ls : list (list A)) :
  Forall P (List.concat ls) -> Forall (Forall P) ls.
Proof.
  induction ls as [|l ls IH]; simpl; intros H; constructor.
  - apply (Forall_app_l _ _ _ H).
  - apply IH. apply Forall_app in H. tauto.
Qed.

(** A generator that flushes a buffer of rows with the columns of its
    statements. *)
Lemma flushing_typed {X : Type} (d : DatabaseAdapter) (T : Flushing X)
    (sig : list Column) (tr : list Call) :
  In (f_sql T, sig) (insert_signatures d) ->
  In (f_sql_tail T, sig) (insert_signatures d) ->
  Forall (well_typed_call d) (f_pre T) ->
  (forall x g, f_group T x g -> Forall (fun r => conforms sig r = true) g) ->
  flushing_done T tr \/ flushing_failed T tr ->
  Forall (well_typed_call d) tr.
Proof.
  intros Hin Htail Hpre Hg H.
  assert (Hfull : forall groups batches rest (items : list X),
            Forall2 (f_group T) items groups ->
            List.concat groups = List.concat batches ++ rest ->
            Forall (well_typed_call d)
              (f_pre T ++ map (CursorExecuteMany (f_sql T)) batches
                 ++ tail_flush (f_sql_tail T) rest)).
  { intros groups batches rest items HG Heq.
    pose proof (Forall_concat_groups _ _ _ _ Hg HG) as Hall.
    rewrite Heq in Hall. apply Forall_app in Hall. destruct Hall as [Hb Hr].
    apply Forall_app. split; [exact Hpre|].
    apply Forall_app. split.
    - apply Forall_map_executemany.
      eapply Forall_impl; [|apply (Forall_concat_inv _ _ Hb)].
      intros b Hb'. apply (typed_bulk d _ sig _ Hin Hb').
    - apply tail_flush_Forall. apply (typed_bulk d _ sig _ Htail Hr). }
  destruct H as [[groups [batches [rest [HG [[Heq _] [_ ->]]]]]]
                | [j [groups [batches [rest [HG [[Heq _] [_ Hp]]]]]]]].
  - rewrite !app_assoc. apply Forall_app. split.
    + rewrite <- !app_assoc. apply (Hfull groups batches rest _ HG Heq).
    + constructor; [exact I | constructor].
  - apply (Forall_is_prefix _ _ _ Hp).
    apply (Hfull groups batches rest _ HG Heq).
Qed.

Ltac in_signatures :=
  unfold insert_signatures;
  repeat first [ left; reflexivity | right ].

Ltac typed_calls :=
  repeat first [ apply Forall_nil | apply Forall_cons ];
  try reflexivity.

Lemma single_rows (sig : list Column) (id : option (Z -> Value)) (i : Z)
    (g : list Row) :
  single (row_ok sig id) i g -> Forall (fun r => conforms sig r = true) g.
Proof. intros [r [-> [H _]]]. constructor; [exact H | constructor]. Qed.

Ltac plain_typed T sig shape n :=
  apply (template_typed T sig n);
  [ intros d; simpl; in_signatures
  | intros d pre <-; typed_calls
  | intros d tr <-; typed_calls
  | intros d i g; apply single_rows
  | intros d; apply shape ].

(** X5: every call of every generator, however the run ends, is a
    statement without parameters, a commit, or a bulk insert with one of
    the nineteen INSERT statements whose rows all bind a value of the right
    Python type to each column, as many values as the statement has [%s]
    placeholders; [None] is bound only by the fourth generator and to the
    last column of the god table. *)
Theorem rows_fit_their_statements (base : Z) :
  Forall (fun p : string * (Z -> M unit) * Z =>
            forall n w,
              Forall (well_typed_call (db w)) (calls_of (snd (fst p) n) w))
         (problems base).
Proof.
  unfold problems.
  repeat (apply Forall_cons; [simpl; intros n|]); [..|apply Forall_nil].
  - apply (template_typed rows_01 sig_customers n);
      [ intros d; simpl; in_signatures
      | intros d pre <-; typed_calls
      | intros d tr <-; typed_calls
      | | intros d; apply problem_01_rows ].
    intros d i g [r [[Hr _] [-> | ->]]]; repeat constructor; exact Hr.
  - apply (template_typed rows_02 sig_orders n);
      [ intros d; simpl; in_signatures
      | | | intros d i g; apply single_rows
      | intros d; apply problem_02_rows ].
    + intros d pre [products [_ [Hsig ->]]]. typed_calls.
      apply (typed_bulk d _ sig_products); [in_signatures | exact Hsig].
    + intros d tr [-> | [-> | [products [_ [Hsig ->]]]]]; typed_calls.
      apply (typed_bulk d _ sig_products); [in_signatures | exact Hsig].
  - plain_typed rows_03 sig_transactions_bad_types problem_03_rows n.
  - plain_typed rows_04 sig_employees problem_04_rows n.
  - intros w.
    pose proof (mspec_run (db w) _ _ _ w (problem_05_shape (db w) n) eq_refl)
      as H.
    assert (Hany : forall bu tr,
              flushing_done (flushing_05 (db w) bu) tr \/
              flushing_failed (flushing_05 (db w) bu) tr ->
              Forall (well_typed_call (db w)) tr).
    { intros bu tr. apply (flushing_typed (db w) _ sig_users);
        [ simpl; in_signatures | simpl; in_signatures
        | simpl; typed_calls | ].
      intros u g [s ->]. apply Forall_forall.
      intros r Hr. apply repeat_spec in Hr. subst r. reflexivity. }
    destruct (outcome_of (problem_05_duplicate_records n) w).
    + destruct H as [bu [_ H]]. apply (Hany bu). left. exact H.
    + destruct H as [[bu [_ H]] _]. apply (Hany bu). right. exact H.
  - plain_typed rows_06 sig_events problem_06_rows n.
  - plain_typed rows_07 sig_contacts problem_07_rows n.
  - plain_typed rows_08 sig_inventory problem_08_rows n.
  - plain_typed rows_09 sig_subscribers problem_09_rows n.
  - plain_typed rows_10 sig_sales problem_10_rows n.
  - plain_typed rows_11 sig_articles problem_11_rows n.
  - plain_typed rows_12 sig_international problem_12_rows n.
  - intros w.
    pose proof (mspec_run (db w) _ _ _ w (problem_13_rows (db w) n) eq_refl)
      as H.
    assert (Hany : forall cs ps tr,
              flushing_done (god_rows (db w) n cs ps) tr \/
              flushing_failed (god_rows (db w) n cs ps) tr ->
              Forall (well_typed_call (db w)) tr).
    { intros cs ps tr. apply (flushing_typed (db w) _ sig_god_table);
        [ simpl; in_signatures | simpl; in_signatures
        | simpl; typed_calls | ].
      intros i g [r [-> [[Hr _] _]]]. constructor; [exact Hr|constructor]. }
    destruct (outcome_of (problem_13_god_table n) w).
    + destruct H as [cs [ps [_ H]]]. apply (Hany cs ps). left. exact H.
    + destruct H as [[cs [ps [_ H]]] _]. apply (Hany cs ps). right. exact H.
  - plain_typed rows_14 sig_audit_log problem_14_rows n.
  - apply (template_typed rows_15 sig_transactions n);
      [ intros d; simpl; in_signatures
      | | | intros d i g; apply single_rows
      | intros d; apply problem_15_rows ].
    + intros d pre [accounts [Hacc ->]]. typed_calls.
      apply (typed_bulk d _ sig_accounts); [in_signatures|].
      apply (Forall2_Forall_r _ _ _ _ (fun i r Hr => proj1 Hr) Hacc).
    + intros d tr [-> | [-> | ->]]; typed_calls.
Qed.

(* ===================================================================== *)
(** * Indices, batches and row numbers *)
(* ===================================================================== *)

Lemma py_range_unit (a b : Z) :
  py_range a b 1 = map (fun k => a + Z.of_nat k) (seq 0 (Z.to_nat (b - a))).
Proof.
  unfold py_range. simpl. rewrite Z.div_1_r.
  replace (b - a + 1 - 1) with (b - a) by lia.
  apply map_ext. intros k. lia.
Qed.

Lemma map_seq_shift {A : Type} (f : nat -> A) (s len : nat) :
  map f (seq s len) = map (fun k => f (s + k)%nat) (seq 0 len).
Proof.
  revert f s. induction len as [|len IH]; intros f s; [reflexivity|].
  simpl. rewrite Nat.add_0_r. f_equal.
  rewrite (IH f (S s)), (IH (fun k => f (s + k)%nat) 1%nat).
  apply map_ext. intros k. f_equal. lia.
Qed.

Lemma py_range_app (a b c : Z) :
  a <= b <= c -> py_range a b 1 ++ py_range b c 1 = py_range a c 1.
Proof.
  intros H. rewrite !py_range_unit.
  replace (Z.to_nat (c - a))
    with (Z.to_nat (b - a) + Z.to_nat (c - b))%nat by lia.
  rewrite seq_app, map_app. f_equal. simpl.
  rewrite (map_seq_shift _ (Z.to_nat (b - a))).
  apply map_ext. intros k. lia.
Qed.

(** The batches run over every index once, in order. *)
Lemma batches_cover (n : Z) :
  List.concat (map (fun bs => py_range bs (Z.min (bs + 1000) n) 1)
                 (py_range 0 n 1000))
  = py_range 0 n 1.
Proof.
  rewrite py_range_batches, map_map.
  set (K := Z.to_nat ((n + 999) / 1000)).
  assert (Hpart : forall j, (j <= K)%nat ->
            List.concat
              (map (fun k => py_range (Z.of_nat k * 1000)
                               (Z.min (Z.of_nat k * 1000 + 1000) n) 1)
                 (seq 0 j))
            = py_range 0 (Z.min (Z.of_nat j * 1000) n) 1).
  { induction j as [|j IH]; intros Hj.
    { simpl. rewrite py_range_unit.
      replace (Z.to_nat (Z.min 0 n - 0)) with O by lia. reflexivity. }
    rewrite seq_S, map_app, concat_app, IH by lia.
    rewrite Nat.add_0_l. cbn [map List.concat]. rewrite app_nil_r.
    assert (Hlt : Z.of_nat j * 1000 < n).
    { assert (Z.of_nat j + 1 <= (n + 999) / 1000) by lia.
      assert (1000 * (Z.of_nat j + 1) <= 1000 * ((n + 999) / 1000))
        by (apply Z.mul_le_mono_nonneg_l; lia).
      pose proof (Z.mul_div_le (n + 999) 1000). lia. }
    replace (Z.min (Z.of_nat j * 1000) n) with (Z.of_nat j * 1000) by lia.
    replace (Z.min (Z.of_nat (S j) * 1000) n)
      with (Z.min (Z.of_nat j * 1000 + 1000) n) by lia.
    apply py_range_app. lia. }
  rewrite (Hpart K (le_n K)).
  destruct (Z_lt_le_dec 0 n) as [Hn|Hn].
  - assert (n <= Z.of_nat K * 1000).
    { unfold K. rewrite Z2Nat.id by (apply Z.div_pos; lia).
      pose proof (Z.mul_succ_div_gt (n + 999) 1000). lia. }
    replace (Z.min (Z.of_nat K * 1000) n) with n by lia. reflexivity.
  - assert (HK : K = O).
    { unfold K. assert ((n + 999) / 1000 <= 0).
      { apply Z.lt_succ_r. apply Z.div_lt_upper_bound; lia. }
      lia. }
    rewrite HK. simpl.
    rewrite !py_range_unit.
    replace (Z.to_nat (Z.min 0 n - 0)) with O by lia.
    replace (Z.to_nat (n - 0)) with O by lia. reflexivity.
Qed.

Lemma Forall2_concat {A B : Type} (R : A -> B -> Prop)
    (la : list (list A)) (lb : list (list B)) :
  Forall2 (Forall2 R) la lb -> Forall2 R (List.concat la) (List.concat lb).
Proof.
  induction 1 as [|a b la lb H _ IH]; simpl; [constructor|].
  apply Forall2_app; assumption.
Qed.

Lemma groups_single (Q : Z -> Row -> Prop) (l : list Z)
    (groups : list (list Row)) :
  Forall2 (single Q) l groups -> Forall2 Q l (List.concat groups).
Proof.
  induction 1 as [|x g l groups [r [-> Hr]] _ IH]; simpl; constructor;
    assumption.
Qed.

(** The rows of the batches of a generator that writes one row per index
    are one row per index of the whole range. *)
Lemma batches_rows (Q : Z -> Row -> Prop) (n : Z)
    (batches : list (list Row)) :
  Forall2 (batch_of (single Q) n) (py_range 0 n 1000) batches ->
  Forall2 Q (py_range 0 n 1) (List.concat batches).
Proof.
  intros H. rewrite <- (batches_cover n).
  apply Forall2_concat.
  generalize dependent (py_range 0 n 1000). intros starts H.
  induction H as [|bs rows starts batches [groups [-> HG]] _ IH]; simpl;
    constructor; [|exact IH].
  apply (groups_single Q _ _ HG).
Qed.

Lemma bulk_sizes_app (sqls : list string) (a b : list Call) :
  bulk_sizes sqls (a ++ b) = bulk_sizes sqls a ++ bulk_sizes sqls b.
Proof. unfold bulk_sizes. apply flat_map_app. Qed.

Lemma bulk_sizes_batches (sqls : list string) (sql : string)
    (batches : list (list Row)) :
  existsb (String.eqb sql) sqls = true ->
  bulk_sizes sqls (map (CursorExecuteMany sql) batches)
  = map (@List.length Row) batches.
Proof.
  intros H. induction batches as [|b bs IH]; simpl; [reflexivity|].
  rewrite H. simpl. f_equal. exact IH.
Qed.

Lemma batches_sizes (Q : Z -> Row -> Prop) (n : Z) (starts : list Z)
    (batches : list (list Row)) :
  Forall2 (batch_of (single Q) n) starts batches ->
  map (@List.length Row) batches = map (batch_count n) starts.
Proof.
  induction 1 as [|bs rows starts batches Hb _ IH]; simpl; [reflexivity|].
  rewrite IH. f_equal.
  pose proof (batch_of_length (single Q) 1 1 n bs rows
                (single_bounds Q) Hb). lia.
Qed.

(** What a run of a single-row template generator writes when nothing
    fails. *)
Lemma template_single_run (T : Template) (Q : Z -> Row -> Prop) (n : Z)
    (m : M unit) (w : World) :
  mspec (db w) m (fun _ => template_done T n) (template_failed T n) ->
  t_group T = single Q ->
  (forall pre, t_pre T pre ->
     rows_into_any [t_sql T] pre = [] /\ bulk_sizes [t_sql T] pre = []) ->
  healthy w ->
  outcome_of m w = Ok tt /\
  Forall2 Q (py_range 0 n 1) (rows_into_any [t_sql T] (calls_of m w)) /\
  bulk_sizes [t_sql T] (calls_of m w) = batch_sizes n.
Proof.
  intros Hm Hgroup Hpre Hw.
  pose proof (mspec_run (db w) m _ _ w Hm eq_refl) as H.
  destruct (outcome_of m w) as [[]|e].
  - split; [reflexivity|].
    destruct H as [pre [batches [Hp [HF ->]]]]. rewrite Hgroup in HF.
    destruct (Hpre pre Hp) as [Hr Hs].
    rewrite !rows_into_any_app, !bulk_sizes_app, Hr, Hs,
      (rows_into_any_batches _ _ _ (existsb_head _ _)),
      (bulk_sizes_batches _ _ _ (existsb_head _ _)).
    simpl. rewrite !app_nil_r. split.
    + apply (batches_rows Q n batches HF).
    + apply (batches_sizes Q n _ _ HF).
  - destruct H as [_ Hh]. contradiction.
Qed.

(** *** The sizes of the batches *)

Lemma map_seq_const {A : Type} (f : nat -> A) (c : A) (b : nat) :
  (forall k, (k < b)%nat -> f k = c) -> map f (seq 0 b) = repeat c b.
Proof.
  induction b as [|b IH]; intros H; [reflexivity|].
  rewrite seq_S, map_app, IH by (intros k Hk; apply H; lia).
  simpl. rewrite (H b) by lia.
  clear. induction b; simpl; [reflexivity|]. f_equal. assumption.
Qed.

(** Full batches, then what is left. *)
Lemma batch_sizes_decomp (n : Z) (b r : nat) :
  Z.to_nat n = (1000 * b + r)%nat -> (r < 1000)%nat ->
  batch_sizes n = repeat 1000%nat b ++ last_batch r.
Proof.
  intros Hn Hr. unfold batch_sizes, last_batch.
  rewrite py_range_batches, map_map.
  destruct (Z_lt_le_dec 0 n) as [Hpos|Hneg].
  - assert (Hz : n = 1000 * Z.of_nat b + Z.of_nat r) by lia.
    destruct (Nat.eqb_spec r 0) as [-> | Hr0].
    + assert (HK : (n + 999) / 1000 = Z.of_nat b).
      { symmetry. apply (Z.div_unique (n + 999) 1000 (Z.of_nat b) 999); lia. }
      rewrite HK, Nat2Z.id, app_nil_r.
      apply map_seq_const. intros k Hk. unfold batch_count. lia.
    + assert (HK : (n + 999) / 1000 = Z.of_nat (S b)).
      { symmetry.
        apply (Z.div_unique (n + 999) 1000 (Z.of_nat (S b))
                 (Z.of_nat r - 1)); lia. }
      rewrite HK, Nat2Z.id, seq_S, map_app. f_equal.
      * apply map_seq_const. intros k Hk. unfold batch_count. lia.
      * simpl. unfold batch_count. f_equal. lia.
  - assert (HK : (n + 999) / 1000 <= 0).
    { apply Z.lt_succ_r. apply Z.div_lt_upper_bound; lia. }
    replace (Z.to_nat ((n + 999) / 1000)) with O by lia.
    assert (b = O) by lia. assert (r = O) by lia. subst. reflexivity.
Qed.

Lemma bulk_sizes_tail (sqls : list string) (sql : string) (rest : list Row) :
  existsb (String.eqb sql) sqls = true ->
  bulk_sizes sqls (tail_flush sql rest) = last_batch (List.length rest).
Proof.
  intros H. destruct rest as [|r rest]; simpl; [reflexivity|].
  rewrite H. reflexivity.
Qed.

Lemma full_batches_sizes (batches : list (list Row)) :
  Forall (full_batch 1) batches ->
  map (@List.length Row) batches = repeat 1000%nat (List.length batches) /\
  List.length (List.concat batches) = (1000 * List.length batches)%nat.
Proof.
  induction 1 as [|b bs [Hlo Hhi] _ [IH1 IH2]]; simpl; [auto|].
  rewrite IH1, length_app, IH2. split; [f_equal|]; lia.
Qed.

(** What a run of the god table generator writes when nothing fails. *)
Lemma god_table_run (n : Z) (w : World) :
  healthy w ->
  outcome_of (problem_13_god_table n) w = Ok tt /\
  exists customers products,
    pools_ok customers products /\
    Forall2 (god_row_ok customers products) (py_range 0 n 1)
      (rows_into_any [sql_insert_god_table (pfx (db w));
                      sql_insert_god_table_tail (pfx (db w))]
         (calls_of (problem_13_god_table n) w)) /\
    bulk_sizes [sql_insert_god_table (pfx (db w));
                sql_insert_god_table_tail (pfx (db w))]
      (calls_of (problem_13_god_table n) w) = batch_sizes n.
Proof.
  intros Hw.
  pose proof (mspec_run (db w) _ _ _ w (problem_13_rows (db w) n) eq_refl)
    as H.
  destruct (outcome_of (problem_13_god_table n) w) as [[]|e];
    [|destruct H as [_ Hh]; contradiction].
  split; [reflexivity|].
  destruct H as [cs [ps [Hpools H]]]. exists cs, ps. split; [exact Hpools|].
  destruct H as [groups [batches [rest [HG [[Heq Hfull] [Hrest ->]]]]]].
  simpl in HG, Heq, Hfull, Hrest |- *.
  set (sqls := [sql_insert_god_table (pfx (db w));
                sql_insert_god_table_tail (pfx (db w))]).
  assert (H1 : existsb (String.eqb (sql_insert_god_table (pfx (db w)))) sqls
               = true) by apply existsb_head.
  assert (H2 : existsb (String.eqb (sql_insert_god_table_tail (pfx (db w))))
                 sqls = true) by apply existsb_second.
  change (CursorExecute (sql_create_god_table (pfx (db w))) None
          :: map (CursorExecuteMany (sql_insert_god_table (pfx (db w))))
               batches
             ++ tail_flush (sql_insert_god_table_tail (pfx (db w))) rest
             ++ [ConnectionCommit])
    with ([CursorExecute (sql_create_god_table (pfx (db w))) None]
          ++ map (CursorExecuteMany (sql_insert_god_table (pfx (db w))))
               batches
          ++ tail_flush (sql_insert_god_table_tail (pfx (db w))) rest
          ++ [ConnectionCommit]).
  rewrite !rows_into_any_app, !bulk_sizes_app,
    (rows_into_any_batches _ _ _ H1), (rows_into_any_tail _ _ _ H2),
    (bulk_sizes_batches _ _ _ H1), (bulk_sizes_tail _ _ _ H2).
  simpl. rewrite !app_nil_r, <- Heq. split.
  - apply (groups_single _ _ _ HG).
  - destruct (full_batches_sizes batches Hfull) as [Hs Hl]. rewrite Hs.
    symmetry. apply batch_sizes_decomp; [|exact Hrest].
    pose proof (groups_single _ _ _ HG) as Hrows.
    apply Forall2_length in Hrows.
    rewrite py_range_unit_length, Heq, length_app, Hl in Hrows.
    replace (n - 0) with n in Hrows by lia. exact Hrows.
Qed.

(* ===================================================================== *)
(** * Row numbers, batch sizes and the god table *)
(* ===================================================================== *)

Lemma ids_of_rows (sig : list Column) (id : Z -> Value) (l : list Z)
    (rows : list Row) :
  Forall2 (row_ok sig (Some id)) l rows ->
  map first_column rows = map id l.
Proof.
  induction 1 as [|i r l rows [_ Hid] _ IH]; simpl; [reflexivity|].
  rewrite Hid, IH. reflexivity.
Qed.

Lemma plain_pre_quiet (create insert sql : string)
    (group : Z -> list Row -> Prop) (pre : list Call) :
  t_pre (plain_template create insert group) pre ->
  rows_into_any [sql] pre = [] /\ bulk_sizes [sql] pre = [].
Proof. simpl. intros <-. split; reflexivity. Qed.

Lemma rows_02_pre_quiet (d : DatabaseAdapter) (pre : list Call) :
  t_pre (rows_02 d) pre ->
  rows_into_any [t_sql (rows_02 d)] pre = [] /\
  bulk_sizes [t_sql (rows_02 d)] pre = [].
Proof.
  intros [products [_ [_ ->]]]. unfold pfx. simpl.
  destruct (db_type (config d)); split; reflexivity.
Qed.

Lemma rows_15_pre_quiet (d : DatabaseAdapter) (pre : list Call) :
  t_pre (rows_15 d) pre ->
  rows_into_any [t_sql (rows_15 d)] pre = [] /\
  bulk_sizes [t_sql (rows_15 d)] pre = [].
Proof.
  intros [accounts [_ ->]]. unfold pfx. simpl.
  destruct (db_type (config d)); split; reflexivity.
Qed.

Ltac plain_run shape :=
  intros n w Hw;
  destruct (template_single_run _ _ n _ w (shape (db w) n) eq_refl
              (plain_pre_quiet _ _ _ _) Hw) as [Ho [Hrows Hsizes]].

(** X6: each of the nine generators that number their rows, when nothing
    fails, returns after writing to its table exactly one row per index
    from 0 to n - 1, in that order across all batches, with the number
    i + 1 in the first column (as text for the third generator). *)
Theorem rows_are_numbered_in_order :
  Forall (fun e : (Z -> M unit) * (DatabaseAdapter -> list string)
                  * (Z -> Value) =>
            numbered_in_order (fst (fst e)) (snd (fst e)) (snd e))
         numbered_generators.
Proof.
  unfold numbered_generators, numbered_in_order.
  repeat (apply Forall_cons; [simpl|]); [..|apply Forall_nil].
  - plain_run problem_03_rows.
    split; [exact Ho | apply (ids_of_rows _ _ _ _ Hrows)].
  - plain_run problem_06_rows.
    split; [exact Ho | apply (ids_of_rows _ _ _ _ Hrows)].
  - plain_run problem_07_rows.
    split; [exact Ho | apply (ids_of_rows _ _ _ _ Hrows)].
  - plain_run problem_09_rows.
    split; [exact Ho | apply (ids_of_rows _ _ _ _ Hrows)].
  - plain_run problem_10_rows.
    split; [exact Ho | apply (ids_of_rows _ _ _ _ Hrows)].
  - plain_run problem_11_rows.
    split; [exact Ho | apply (ids_of_rows _ _ _ _ Hrows)].
  - plain_run problem_12_rows.
    split; [exact Ho | apply (ids_of_rows _ _ _ _ Hrows)].
  - intros n w Hw.
    destruct (god_table_run n w Hw) as [Ho [cs [ps [_ [Hrows _]]]]].
    split; [exact Ho|].
    apply (ids_of_rows sig_god_table).
    eapply Forall2_impl; [|exact Hrows]. intros i r [H _]. exact H.
  - intros n w Hw.
    destruct (template_single_run _ _ n _ w (problem_15_rows (db w) n)
                eq_refl (rows_15_pre_quiet (db w)) Hw)
      as [Ho [Hrows _]].
    split; [exact Ho | apply (ids_of_rows _ _ _ _ Hrows)].
Qed.

(** X7: each of the thirteen generators that write one row per index, when
    nothing fails, sends its n rows in bulk inserts of exactly 1000 rows
    followed by one of n mod 1000 rows when that is not zero; asked for no
    rows, or fewer, it sends no bulk insert to its table. *)
Theorem rows_are_sent_in_batches :
  Forall (fun e : (Z -> M unit) * (DatabaseAdapter -> list string) =>
            sends_batches (fst e) (snd e))
         single_row_generators /\
  (forall n, 0 <= n ->
     batch_sizes n = repeat 1000%nat (Z.to_nat (n / 1000))
                     ++ last_batch (Z.to_nat (n mod 1000))) /\
  (forall n, n <= 0 -> batch_sizes n = []).
Proof.
  split; [|split].
  - unfold single_row_generators, sends_batches.
    repeat (apply Forall_cons; [simpl|]); [..|apply Forall_nil].
    + intros n w Hw.
      destruct (template_single_run _ _ n _ w (problem_02_rows (db w) n)
                  eq_refl (rows_02_pre_quiet (db w)) Hw)
        as [Ho [_ Hsizes]].
      split; assumption.
    + plain_run problem_03_rows. split; assumption.
    + plain_run problem_04_rows. split; assumption.
    + plain_run problem_06_rows. split; assumption.
    + plain_run problem_07_rows. split; assumption.
    + plain_run problem_08_rows. split; assumption.
    + plain_run problem_09_rows. split; assumption.
    + plain_run problem_10_rows. split; assumption.
    + plain_run problem_11_rows. split; assumption.
    + plain_run problem_12_rows. split; assumption.
    + intros n w Hw.
      destruct (god_table_run n w Hw) as [Ho [cs [ps [_ [_ Hsizes]]]]].
      split; assumption.
    + plain_run problem_14_rows. split; assumption.
    + intros n w Hw.
      destruct (template_single_run _ _ n _ w (problem_15_rows (db w) n)
                  eq_refl (rows_15_pre_quiet (db w)) Hw)
        as [Ho [_ Hsizes]].
      split; assumption.
  - intros n Hn. apply batch_sizes_decomp.
    + pose proof (Z.div_mod n 1000 ltac:(lia)).
      pose proof (Z.mod_pos_bound n 1000 ltac:(lia)).
      assert (0 <= n / 1000) by (apply Z.div_pos; lia). lia.
    + pose proof (Z.mod_pos_bound n 1000 ltac:(lia)). lia.
  - intros n Hn. apply (batch_sizes_decomp n 0 0); lia.
Qed.

(** *** The god table *)

Lemma NoDup_map_In_inj {A B : Type} (f : A -> B) (l : list A) (x y : A) :
  NoDup (map f l) -> In x l -> In y l -> f x = f y -> x = y.
Proof.
  induction l as [|a l IH]; simpl; intros Hnd Hx Hy Hf; [contradiction|].
  inversion Hnd as [|b m Hnot Hnd']; subst.
  destruct Hx as [-> | Hx]; destruct Hy as [-> | Hy]; auto.
  - exfalso. apply Hnot. rewrite Hf. apply in_map, Hy.
  - exfalso. apply Hnot. rewrite <- Hf. apply in_map, Hx.
Qed.

Lemma numbered_NoDup (k : Z) :
  NoDup (map (fun i => i + 1) (py_range 0 k 1)).
Proof.
  apply Injective_map_NoDup; [|apply NoDup_py_range_unit].
  intros x y H. lia.
Qed.

Lemma numbered_range (k x : Z) :
  In x (map (fun i => i + 1) (py_range 0 k 1)) -> 1 <= x <= k.
Proof.
  intros H. apply in_map_iff in H. destruct H as [i [<- Hi]].
  rewrite py_range_unit in Hi. apply in_map_iff in Hi.
  destruct Hi as [j [<- Hj]]. apply in_seq in Hj. lia.
Qed.

Lemma Forall2_In_r {A B : Type} (R : A -> B -> Prop) (l : list A)
    (l' : list B) (y : B) :
  Forall2 R l l' -> In y l' -> exists x, R x y.
Proof.
  induction 1 as [|a b l l' H _ IH]; simpl; [contradiction|].
  intros [<- | Hy]; [exists a; exact H | apply IH, Hy].
Qed.

(** X8: when nothing fails, the god table generator returns, and in the
    rows it wrote the customer number, between 1 and 100, decides the
    eleven other customer columns, and the product number, between 1 and
    50, decides the seven other product columns: rows that share a number
    repeat the same customer or product. *)
Theorem god_table_repeats_its_pools (n : Z) (w : World) :
  healthy w ->
  let rows := rows_into_any [sql_insert_god_table (pfx (db w));
                             sql_insert_god_table_tail (pfx (db w))]
                (calls_of (problem_13_god_table n) w) in
  outcome_of (problem_13_god_table n) w = Ok tt /\
  List.length rows = Z.to_nat n /\
  Forall numbers_in_pools rows /\
  numbers_decide rows.
Proof.
  intros Hw rows.
  destruct (god_table_run n w Hw) as [Ho [cs [ps [[Hcs Hps] [Hrows _]]]]].
  fold rows in Hrows.
  split; [exact Ho|]. split; [|split].
  - apply Forall2_length in Hrows. rewrite py_range_unit_length in Hrows.
    rewrite <- Hrows. f_equal. lia.
  - apply Forall_forall. intros r Hr.
    destruct (Forall2_In_r _ _ _ r Hrows Hr)
      as [i [_ [[c [Hc Hcp]] [p [Hp Hpp]]]]].
    split.
    + exists (c_id c). rewrite Hcp. split; [|reflexivity].
      apply (numbered_range 100). rewrite <- Hcs. apply in_map, Hc.
    + exists (p_id p). rewrite Hpp. split; [|reflexivity].
      apply (numbered_range 50). rewrite <- Hps. apply in_map, Hp.
  - intros r1 r2 H1 H2.
    destruct (Forall2_In_r _ _ _ r1 Hrows H1)
      as [i1 [_ [[c1 [Hc1 Hcp1]] [p1 [Hp1 Hpp1]]]]].
    destruct (Forall2_In_r _ _ _ r2 Hrows H2)
      as [i2 [_ [[c2 [Hc2 Hcp2]] [p2 [Hp2 Hpp2]]]]].
    rewrite Hcp1, Hcp2, Hpp1, Hpp2. split; intros Heq.
    + assert (c1 = c2).
      { apply (NoDup_map_In_inj c_id cs); auto.
        - rewrite Hcs. apply numbered_NoDup.
        - simpl in Heq. congruence. }
      subst. reflexivity.
    + assert (p1 = p2).
      { apply (NoDup_map_In_inj p_id ps); auto.
        - rewrite Hps. apply numbered_NoDup.
        - simpl in Heq. congruence. }
      subst. reflexivity.
Qed.

Lemma god_table_repeats_its_pools_sample :
  let w := connected_world postgres 42 1700000000 in
  let rows := rows_into_any [sql_insert_god_table (pfx (db w));
                             sql_insert_god_table_tail (pfx (db w))]
                (calls_of (problem_13_god_table 2500) w) in
  outcome_of (problem_13_god_table 2500) w = Ok tt /\
  List.length rows = Z.to_nat 2500 /\
  Forall numbers_in_pools rows /\
  numbers_decide rows.
Proof.
  intros w.
  apply (god_table_repeats_its_pools 2500 w).
  apply connected_world_healthy.
Defined.
(* ===================================================================== *)
(** * The text helpers: whitespace and casing *)
(* ===================================================================== *)

Lemma lstrip_all_space (l s : string) :
  all_space l = true -> lstrip (l ++ s) = lstrip s.
Proof.
  induction l as [|c l IH]; simpl; intros H; [reflexivity|].
  apply andb_true_iff in H. destruct H as [Hc Hl].
  rewrite Hc. apply IH, Hl.
Qed.

Lemma rstrip_only_space (t : string) :
  all_space t = true -> rstrip t = ""%string.
Proof.
  induction t as [|c t IH]; simpl; intros H; [reflexivity|].
  apply andb_true_iff in H. destruct H as [Hc Ht].
  rewrite (IH Ht), Hc. reflexivity.
Qed.

Lemma rstrip_all_space (s t : string) :
  all_space t = true -> rstrip (s ++ t) = rstrip s.
Proof.
  intros Ht. induction s as [|c s IH]; simpl.
  - apply rstrip_only_space, Ht.
  - rewrite IH. reflexivity.
Qed.

Lemma lstrip_only_space (t : string) :
  all_space t = true -> lstrip t = ""%string.
Proof.
  induction t as [|c t IH]; simpl; intros H; [reflexivity|].
  apply andb_true_iff in H. destruct H as [Hc Ht].
  rewrite Hc. apply IH, Ht.
Qed.

Lemma strip_trailing_space (s t : string) :
  all_space t = true -> rstrip (lstrip (s ++ t)) = rstrip (lstrip s).
Proof.
  intros Ht. induction s as [|c s IH].
  - simpl. rewrite (lstrip_only_space t Ht). reflexivity.
  - simpl. destruct (is_space c).
    + exact IH.
    + change (String c (s ++ t)) with (String c s ++ t)%string.
      apply rstrip_all_space, Ht.
Qed.

Lemma strip_padding (l s t : string) :
  all_space l = true -> all_space t = true ->
  str_strip (l ++ s ++ t) = str_strip s.
Proof.
  intros Hl Ht. unfold str_strip.
  rewrite (lstrip_all_space l _ Hl). apply strip_trailing_space, Ht.
Qed.

Lemma whitespace_is_space (x : string) :
  In x ("" :: whitespace_chars) -> all_space x = true.
Proof.
  intros H. simpl in H.
  repeat (destruct H as [<- | H]; [reflexivity|]). contradiction.
Qed.

Lemma append_empty (s : string) : (s ++ "")%string = s.
Proof. induction s as [|c s IH]; simpl; [|rewrite IH]; reflexivity. Qed.

Lemma append_assoc (a b c : string) :
  ((a ++ b) ++ c)%string = (a ++ b ++ c)%string.
Proof. induction a as [|x a IH]; simpl; [|rewrite IH]; reflexivity. Qed.

Lemma whitespace_chars_exist : whitespace_chars <> [].
Proof. discriminate. Qed.

Lemma padded_strip (s r : string) : padded s r -> str_strip r = str_strip s.
Proof.
  intros [l [t [Hl [Ht ->]]]].
  apply strip_padding; apply whitespace_is_space; assumption.
Qed.

(** X9: Whatever the draws, [add_random_whitespace s] returns [s] with at
    most one of the seven whitespace runs in front and at most one behind,
    and nothing else changed: stripping the result gives what stripping [s]
    gives. *)
Theorem whitespace_only_pads (s : string) :
  gpost (add_random_whitespace s)
    (fun r => padded s r /\ str_strip r = str_strip s).
Proof.
  apply gpost_weaken with (P := padded s);
    [| intros r H; split; [exact H | apply padded_strip, H]].
  unfold add_random_whitespace.
  apply gpost_next. intros u1.
  apply gpost_bind with
    (P := fun r => exists lead, In lead ("" :: whitespace_chars) /\
                                r = (lead ++ s)%string).
  - destruct (Qltb u1 0.4).
    + eapply gpost_bind; [apply random_choice_In, whitespace_chars_exist|].
      intros w Hw. apply gpost_ret. exists w. split; [right; exact Hw|].
      reflexivity.
    + apply gpost_ret. exists ""%string. split; [left|]; reflexivity.
  - intros r [lead [Hlead ->]].
    apply gpost_next. intros u2.
    destruct (Qltb u2 0.4).
    + eapply gpost_bind; [apply random_choice_In, whitespace_chars_exist|].
      intros w Hw. apply gpost_ret. exists lead, w.
      split; [exact Hlead|]. split; [right; exact Hw|].
      apply append_assoc.
    + apply gpost_ret. exists lead, ""%string.
      split; [exact Hlead|]. split; [left; reflexivity|].
      rewrite append_empty. reflexivity.
Qed.

(** ** Casing *)

Lemma char_lower_upper (c : ascii) : char_lower (char_upper c) = char_lower c.
Proof. destruct c as [[] [] [] [] [] [] [] []]; reflexivity. Qed.

Lemma char_lower_lower (c : ascii) : char_lower (char_lower c) = char_lower c.
Proof. destruct c as [[] [] [] [] [] [] [] []]; reflexivity. Qed.

Lemma str_map_length (f : ascii -> ascii) (s : string) :
  String.length (str_map f s) = String.length s.
Proof. induction s as [|c s IH]; simpl; [|rewrite IH]; reflexivity. Qed.

Lemma str_map_append (f : ascii -> ascii) (a b : string) :
  str_map f (a ++ b) = (str_map f a ++ str_map f b)%string.
Proof. induction a as [|c a IH]; simpl; [|rewrite IH]; reflexivity. Qed.

Lemma append_length (a b : string) :
  String.length (a ++ b) = (String.length a + String.length b)%nat.
Proof. induction a as [|c a IH]; simpl; [|rewrite IH]; reflexivity. Qed.

Lemma lower_same (s : string) : same_but_case s (str_lower s).
Proof.
  split; [|apply str_map_length].
  unfold str_lower. induction s as [|c s IH]; simpl; [reflexivity|].
  rewrite char_lower_lower, IH. reflexivity.
Qed.

Lemma upper_same (s : string) : same_but_case s (str_upper s).
Proof.
  split; [|apply str_map_length].
  unfold str_lower, str_upper. induction s as [|c s IH]; simpl; [reflexivity|].
  rewrite char_lower_upper, IH. reflexivity.
Qed.

Lemma title_same (b : bool) (s : string) : same_but_case s (title_from b s).
Proof.
  revert b. induction s as [|c s IH]; intros b; [split; reflexivity|].
  simpl. destruct (is_upper c || is_lower c).
  - destruct (IH true) as [H1 H2]. split; simpl; [|rewrite H2; reflexivity].
    unfold str_lower in *. simpl. rewrite H1.
    destruct b; [rewrite char_lower_lower | rewrite char_lower_upper];
      reflexivity.
  - destruct (IH false) as [H1 H2]. split; simpl; [|rewrite H2; reflexivity].
    unfold str_lower in *. simpl. rewrite H1. reflexivity.
Qed.

Lemma mixed_same (l : list ascii) :
  forall (s acc : string), l = chars s ->
    gpost (for_fold l acc
             (fun c acc =>
                u <- random_random ;;
                ret (acc ++ String (if Qltb 0.5 u then char_upper c
                                    else char_lower c) "")%string))
      (fun r => exists r', r = (acc ++ r')%string /\ same_but_case s r').
Proof.
  induction l as [|c l IH]; intros s acc Hl.
  - destruct s; [|discriminate]. simpl. apply gpost_ret.
    exists ""%string. split; [symmetry; apply append_empty | split; reflexivity].
  - destruct s as [|c' s]; [discriminate|]. simpl in Hl.
    injection Hl as -> Hl.
    change (for_fold (c' :: l) acc ?f) with
      (bind (f c' acc) (fun s' => for_fold l s' f)).
    cbv beta.
    eapply gpost_bind; [apply gpost_exact|].
    intros a [st Ha].
    eapply gpost_weaken; [apply (IH s a Hl)|].
    intros r [r' [-> [H1 H2]]]. subst a. simpl.
    set (x := if Qltb 0.5 _ then char_upper c' else char_lower c').
    exists (String x r'). split.
    + rewrite append_assoc. reflexivity.
    + split; simpl; [|rewrite H2; reflexivity].
      unfold str_lower in *. simpl. rewrite H1. f_equal.
      unfold x. destruct (Qltb 0.5 _);
        [apply char_lower_upper | apply char_lower_lower].
Qed.

Lemma casing_same (s : string) : gpost (randomize_case s) (same_but_case s).
Proof.
  unfold randomize_case. apply gpost_next. intros case_type.
  destruct (String.eqb case_type "lower"); [apply gpost_ret, lower_same|].
  destruct (String.eqb case_type "upper"); [apply gpost_ret, upper_same|].
  destruct (String.eqb case_type "title"); [apply gpost_ret, title_same|].
  destruct (String.eqb case_type "mixed").
  - eapply gpost_weaken; [apply (mixed_same (chars s) s ""), eq_refl|].
    intros r [r' [-> H]]. exact H.
  - apply gpost_ret. split; reflexivity.
Qed.

(** Lowering keeps ASCII text ASCII, and text that lowers to ASCII text is
    ASCII. *)
Lemma char_lower_ascii (c : ascii) :
  (nat_of_ascii (char_lower c) <? 128)%nat = (nat_of_ascii c <? 128)%nat.
Proof. destruct c as [[] [] [] [] [] [] [] []]; reflexivity. Qed.

Lemma lower_ascii (s : string) : is_ascii (str_lower s) = is_ascii s.
Proof.
  unfold is_ascii, str_lower. induction s as [|c s IH]; simpl; [reflexivity|].
  rewrite char_lower_ascii, IH. reflexivity.
Qed.

Lemma same_but_case_ascii (s r : string) :
  same_but_case s r -> is_ascii r = is_ascii s.
Proof.
  intros [H _]. rewrite <- (lower_ascii r), <- (lower_ascii s), H.
  reflexivity.
Qed.

(** X10: for ASCII text [s], on which the casing functions are Python's,
    and whatever the draws, [randomize_case s] returns ASCII text of the
    length of [s] that differs from [s] in the case of its letters at
    most: lowering both gives the same text. *)
Theorem casing_only_changes_case (s : string) :
  is_ascii s = true ->
  gpost (randomize_case s)
    (fun r => same_but_case s r /\ is_ascii r = true).
Proof.
  intros Hs. eapply gpost_weaken; [apply casing_same|].
  intros r H. split; [exact H|].
  rewrite (same_but_case_ascii s r H). exact Hs.
Qed.

Lemma casing_only_changes_case_name :
  is_ascii "Ada Lovelace" = true /\
  gpost (randomize_case "Ada Lovelace")
    (fun r => same_but_case "Ada Lovelace" r /\ is_ascii r = true).
Proof.
  split; [reflexivity|].
  apply (casing_only_changes_case "Ada Lovelace"). reflexivity.
Defined.
